(* ===== verification/_CoqProject ===== *)
-Q . S2P
Prelude.v
Rust.v
Text.v
Parsing.v
System.v
Error.v
Header.v
Auth.v
ClientConfig.v
External.v
Keys.v
Calendar.v
Message.v
EnvelopeBase.v
Cbc.v
Aead.v
Envelope.v
Adapter.v
HeaderAdapter.v
Client.v
Example.v
ExamplePrograms.v
FuzzInput.v
FuzzHarness.v
Fuzz.v
FuzzTargets.v
TestSupport.v
TestReasoning.v
CbcTests.v
AeadTests.v
Fixture.v
Witnesses.v
WitnessesPrograms.v
