(* ===== verification/Prelude.v ===== *)
(** * A verified model of gmcrypto-envelope-lite

    The crate seals application bytes into a signed and encrypted envelope that
    travels in transport headers and a body, and opens responses only after
    authenticating them.  This library models the whole of the crate's own code
    (src/src/), the unit tests of its envelope modes, its examples (src/examples/)
    and its fuzz targets (src/fuzz/) as executable definitions and proves what makes
    them correct.

    ** The parts and the code they model

    - [Prelude.v]: the [result] type with its monad ([?] is the bind), the [io]
      monad for code that reads and changes the environment, inversion lemmas,
      tactics, list lengths as integers, [fails_with], which classifies the
      errors of a computation, and [Panics], the monad of code that may panic.
    - [Rust.v], [Text.v], [Parsing.v], [System.v]: the fragment of Rust's standard library the
      code uses.  A byte is [Byte.byte]; a [usize] is an integer with the
      overflow checks written out at a width that is a parameter ([Arch], 32 or
      64 bits); a [str] is a list of Unicode scalar values with its UTF-8
      encoding; the random source, the clock and the file system are operations
      on an abstract world that computations thread.  Theorems that promise success
      are about [healthy] worlds ([Health]), in which those operations answer.
    - [Error.v] (error.rs): the error enums and their messages.
    - [Header.v] (header.rs): names, values and the collection that keeps names
      distinct up to ASCII case.
    - [Auth.v] (auth.rs): the signed transcript and the AEAD additional data.
    - [ClientConfig.v] (client_config.rs): identity, configuration and builder,
      with and without feature [aead].
    - [External.v]: Base64, JSON and the cryptographic primitives as classes of
      operations, with the documented round trips and sizes as classes of laws.
    - [Keys.v] (keys.rs): loading keys and assigning them to roles.
    - [Calendar.v], [Message.v] (message.rs): timestamps, request metadata,
      contexts, outbound and inbound parts, redacted [Debug] output.
    - [EnvelopeBase.v], [Cbc.v], [Aead.v], [Envelope.v] (envelope_crypto/): the
      shared helpers, the two payload modes and the dispatcher.  The dispatcher's
      theorems are proved against the interface [PayloadModeLaws], which each mode
      discharges by an instance.  [available] is what success is proved from: in a
      healthy world the primitives answer within their documented ranges, among them
      the 16-bit id length of SM2 and the plaintext ceilings of GCM and CCM.
    - [Adapter.v], [HeaderAdapter.v] (adapter.rs): the [ProtocolAdapter] trait as a
      record, the header schema and its builder, the header adapter.
    - [Client.v] (client.rs, request.rs): [SecureClient] and [RequestBuilder],
      proved against [AdapterLaws], which the header adapter satisfies.
    - [Example.v], [ExamplePrograms.v] (examples/): the application adapter of the
      example programs with the client it configures, and the two programs
      themselves over a [Process] of arguments, files and output.
    - [FuzzInput.v], [FuzzHarness.v], [Fuzz.v], [FuzzTargets.v] (fuzz_targets/): the
      cursor that splits fuzz input, the harness's assertions and recorded cases,
      the context targets, and every target as a program that may panic.
    - [TestSupport.v], [TestReasoning.v], [CbcTests.v], [AeadTests.v]
      (envelope_crypto/, the test modules): the fixtures of the unit tests, a program
      logic for tests ([runs], whose states stay healthy), and the tests of the two
      payload modes, one definition per test.
    - [Fixture.v], [Witnesses.v], [WitnessesPrograms.v]: a concrete environment in which all the laws
      hold, two configured clients, and every theorem with hypotheses applied to
      them.

    A Rust method [T::f] is the definition [T.f]; a method on [&mut self] returns
    the value left in [self]; the fields of a builder are prefixed [b_], since the
    setters carry the plain names.

    ** What is proved

    - Envelopes.  What one peer seals its counterpart opens, in CBC, SM4-GCM and
      SM4-CCM mode and both authentication modes, and sealing succeeds while the
      primitives answer.  Opening is characterised exactly: it returns a plaintext
      when and only when every check passes, so nothing unauthenticated or
      oversized is released, and a CBC run makes exactly one SM2 verification
      once the session key is known.  Errors are uniform.
    - Transcripts.  The encodings that are signed and tagged have the documented
      layout and are injective and disjoint, across the authentication modes too for
      the additional data, so a message signed for one domain
      or context is not accepted for another (given an unforgeable signature).
    - Configuration, keys, headers, schemas.  Each builder accepts exactly the
      documented inputs and establishes the invariant the other parts rely on.
    - Client and adapter.  Requests carry every field under its own header, caller headers never
      replace protocol headers, responses are parsed independently of order and
      casing and reject duplicates, and both directions work end to end.  The check
      of [SecureClient::new] refuses exactly the clients that could seal and open
      nothing.
    - Timestamps follow the Gregorian calendar and determine the instant.
    - Example programs.  The example's requests and responses work end to end; its
      request context determines operation and request id when one of them has no
      ampersand, and not in general; the programs print only the size of
      authenticated contents, and header names.
    - Fuzz targets.  No input makes a target panic: each assertion the harness
      makes about the crate is a consequence of the crate's definitions.  One of its
      assertions, the rejection of an altered context, also needs that the signature
      just made does not verify for the altered transcript.
    - Unit tests.  Every deterministic test of the envelope modes passes, for
      idealised primitives ([RejectionLaws], [AeadRejectionLaws]).

    ** Bounds and fuel

    Every function is structurally recursive except decimal formatting
    ([dec_digits]), whose fuel of 20 digits covers every [u64].  Dates are proved
    for all days a [u64] number of seconds reaches.  Theorems about a sealed text
    assume it is representable: its length is a [usize], as for every Rust string.
    Theorems that promise success bound what is signed or tagged by 2^60 bytes
    ([INPUT_LIMIT]), well within the 64-bit bit counts of SM3 and GHASH.

    ** What is not modelled

    Allocation failure, the wiping of secrets ([Zeroizing] is transparent) and
    timing, apart from the number of verifications; the primitives' secrecy and
    unforgeability; the serde derives of [SecureEnvelope]; the crate root, which
    only re-exports; libFuzzer and its corpus; the release scripts; the integration
    tests and the few unit tests outside the envelope modes; the three unit tests
    that random keys and nonces differ, which pass with overwhelming probability
    and not always.
    Without feature [aead] the envelope mode is always CBC, which is the
    [LegacyCbc] branch of every definition here ([build_without_aead_equiv]). *)

From stdpp Require Export prelude strings.
From Stdlib Require Export ZArith Lia.
From Stdlib Require Import Eqdep_dec.

#[global] Open Scope Z_scope.

(** ** Fallible computations *)

(** [result E A] is Rust's [Result<A, E>]. *)
Inductive result (E A : Type) : Type :=
| Ok (value : A)
| Err (error : E).
Arguments Ok {E A} value.
Arguments Err {E A} error.

#[export] Instance result_eq_dec {E A} `{EqDecision E, EqDecision A} :
  EqDecision (result E A).
Proof. solve_decision. Defined.

#[export] Instance Ok_inj {E A} : Inj (=) (=) (@Ok E A).
Proof. by intros x y [=]. Qed.

#[export] Instance Err_inj {E A} : Inj (=) (=) (@Err E A).
Proof. by intros x y [=]. Qed.

(** The [?] operator: [x ← m; k] runs [k] on the success value and returns an
    error unchanged. *)
#[export] Instance result_ret {E} : MRet (result E) := fun A a => Ok a.
#[export] Instance result_bind {E} : MBind (result E) := fun A B f m =>
  match m with Ok a => f a | Err e => Err e end.
#[export] Instance result_fmap {E} : FMap (result E) := fun A B f m =>
  match m with Ok a => Ok (f a) | Err e => Err e end.

(** [Result::map_err], [Option::ok_or], [Result::is_ok] and [Option::is_some]. *)
Definition map_err {E F A} (f : E -> F) (m : result E A) : result F A :=
  match m with Ok a => Ok a | Err e => Err (f e) end.
Definition ok_or {E A} (m : option A) (e : E) : result E A :=
  match m with Some a => Ok a | None => Err e end.
Definition is_ok {E A} (m : result E A) : bool :=
  match m with Ok _ => true | Err _ => false end.
Definition is_some {A} (m : option A) : bool :=
  match m with Some _ => true | None => false end.
Definition unwrap_or {A} (m : option A) (d : A) : A :=
  match m with Some a => a | None => d end.

(** [guard_err b e] is [if b { return Err(e) }]. *)
Definition guard_err {E} (b : bool) (e : E) : result E unit :=
  if b then Err e else Ok tt.

(** ** Computations that also read and change the environment

    [io W E A] threads a world of type [W] (the operating system's random
    source, clock and file system) through a fallible computation.  A step that
    fails stops the computation and keeps the world it reached. *)
Definition io (W E A : Type) : Type := W -> result E A * W.

#[export] Instance io_ret {W E} : MRet (io W E) := fun A a w => (Ok a, w).
#[export] Instance io_bind {W E} : MBind (io W E) := fun A B f m w =>
  match m w with
  | (Ok a, w') => f a w'
  | (Err e, w') => (Err e, w')
  end.

(** A pure fallible step inside an [io] computation. *)
Definition lift {W E A} (m : result E A) : io W E A := fun w => (m, w).

(** An environment call that answers with an option, [None] being mapped to the
    error [e]. *)
Definition call {W E A} (e : E) (f : W -> option A * W) : io W E A :=
  fun w => let '(o, w') := f w in (ok_or o e, w').

(** ** Inversion lemmas for the two monads *)

Section monads.
Context {E A B : Type}.

Lemma bind_Ok (m : result E A) (f : A -> result E B) (b : B) :
  (m ≫= f) = Ok b <-> exists a, m = Ok a /\ f a = Ok b.
Proof. destruct m; cbn; naive_solver. Qed.

Lemma bind_Err (m : result E A) (f : A -> result E B) (e : E) :
  (m ≫= f) = Err e <-> m = Err e \/ exists a, m = Ok a /\ f a = Err e.
Proof. destruct m; cbn; naive_solver. Qed.

Lemma map_err_Ok {F} (g : E -> F) (m : result E A) (a : A) :
  map_err g m = Ok a <-> m = Ok a.
Proof. destruct m; naive_solver. Qed.

Lemma map_err_Err {F} (g : E -> F) (m : result E A) (e : F) :
  map_err g m = Err e <-> exists e', m = Err e' /\ e = g e'.
Proof. destruct m; naive_solver. Qed.

Lemma ok_or_Ok (o : option A) (e : E) (a : A) :
  ok_or o e = Ok a <-> o = Some a.
Proof. destruct o; naive_solver. Qed.

Lemma ok_or_Err (o : option A) (e e' : E) :
  ok_or o e = Err e' <-> o = None /\ e' = e.
Proof. destruct o; naive_solver. Qed.

Lemma guard_err_Ok (b : bool) (e : E) (u : unit) :
  guard_err b e = Ok u <-> b = false.
Proof. destruct u, b; naive_solver. Qed.

Lemma guard_err_Err (b : bool) (e e' : E) :
  guard_err b e = Err e' <-> b = true /\ e' = e.
Proof. destruct b; naive_solver. Qed.

Lemma io_bind_Ok {W} (m : io W E A) (f : A -> io W E B) w b w2 :
  (m ≫= f) w = (Ok b, w2) <->
  exists a w1, m w = (Ok a, w1) /\ f a w1 = (Ok b, w2).
Proof.
  unfold mbind, io_bind. destruct (m w) as [[a|e] w1]; naive_solver.
Qed.

Lemma io_bind_Err {W} (m : io W E A) (f : A -> io W E B) w e w2 :
  (m ≫= f) w = (Err e, w2) <->
  m w = (Err e, w2) \/ exists a w1, m w = (Ok a, w1) /\ f a w1 = (Err e, w2).
Proof.
  unfold mbind, io_bind. destruct (m w) as [[a|e'] w1]; naive_solver.
Qed.

Lemma lift_Ok {W} (m : result E A) (w w' : W) a :
  lift m w = (Ok a, w') <-> m = Ok a /\ w' = w.
Proof. unfold lift. naive_solver. Qed.

Lemma lift_Err {W} (m : result E A) (w w' : W) e :
  lift m w = (Err e, w') <-> m = Err e /\ w' = w.
Proof. unfold lift. naive_solver. Qed.

Lemma call_Ok {W} (e : E) (f : W -> option A * W) w a w' :
  call e f w = (Ok a, w') <-> f w = (Some a, w').
Proof. unfold call. destruct (f w) as [[?|] ?]; naive_solver. Qed.

Lemma call_Err {W} (e e' : E) (f : W -> option A * W) w w' :
  call e f w = (Err e', w') <-> f w = (None, w') /\ e' = e.
Proof. unfold call. destruct (f w) as [[?|] ?]; naive_solver. Qed.

End monads.

(** A loop that collects results. *)
Lemma mapM_Ok {E A B} (f : A -> result E B) l k :
  mapM f l = Ok k <-> Forall2 (fun x y => f x = Ok y) l k.
Proof.
  revert k. induction l as [|x l IH]; intros k; cbn [mapM].
  - split; [by intros [= <-]|by inversion 1].
  - rewrite bind_Ok. setoid_rewrite bind_Ok. setoid_rewrite IH. split.
    + intros (y & Hy & ys & Hys & [= <-]). by constructor.
    + inversion 1; subst. eauto 10.
Qed.

(** [inv_ok] turns hypotheses about a successful (or failed) chain of monadic
    steps into the facts about its single steps. *)
Ltac inv_step :=
  match goal with
  | H : (_ ≫= _) = Ok _ |- _ =>
      apply bind_Ok in H; destruct H as (? & ? & ?)
  | H : guard_err _ _ = Ok _ |- _ => apply guard_err_Ok in H
  | H : guard_err _ _ = Err _ |- _ => apply guard_err_Err in H; destruct H as [? ?]
  | H : map_err _ _ = Ok _ |- _ => apply map_err_Ok in H
  | H : map_err _ _ = Err _ |- _ => apply map_err_Err in H; destruct H as (? & ? & ?)
  | H : ok_or _ _ = Ok _ |- _ => apply ok_or_Ok in H
  | H : ok_or _ _ = Err _ |- _ => apply ok_or_Err in H; destruct H as [? ?]
  | H : (_ ≫= _) _ = (Ok _, _) |- _ =>
      apply io_bind_Ok in H; destruct H as (? & ? & ? & ?)
  | H : lift _ _ = (Ok _, _) |- _ => apply lift_Ok in H; destruct H as [H ->]
  | H : lift _ _ = (Err _, _) |- _ => apply lift_Err in H; destruct H as [H ->]
  | H : call _ _ _ = (Ok _, _) |- _ => apply call_Ok in H
  | H : call _ _ _ = (Err _, _) |- _ => apply call_Err in H; destruct H as [? ?]
  | H : mret _ = Ok _ |- _ => injection H as H; subst
  | H : mret _ _ = (Ok _, _) |- _ => injection H as H; subst
  end.
Ltac inv_ok := repeat (inv_step; simplify_eq).

(** ** Code that may panic *)

(** A computation that may panic, with the panic's message; [Result::expect],
    indexing and [assert!]. *)
Abbreviation Panics := (result string).

Definition expect {E A} (msg : string) (r : result E A) : Panics A := map_err (fun _ => msg) r.
Definition index {A} (l : list A) (i : nat) : Panics A := ok_or (l !! i) "index out of bounds"%string.
Definition assert (condition : bool) (msg : string) : Panics unit :=
  guard_err (negb condition) msg.

Lemma expect_Ok {E A} msg (r : result E A) a : expect msg r = Ok a <-> r = Ok a.
Proof. apply map_err_Ok. Qed.

Lemma index_Some {A} (l : list A) i x : l !! i = Some x -> index l i = Ok x.
Proof. intros H. unfold index. by rewrite H. Qed.

Lemma is_ok_exists {E A} (r : result E A) : is_ok r = true -> exists a, r = Ok a.
Proof. destruct r; [eauto|done]. Qed.

(** Steps that cannot fail. *)
Lemma lift_bind {W E A B} (a : A) (f : A -> io W E B) w : (lift (Ok a) ≫= f) w = f a w.
Proof. done. Qed.

Lemma mret_bind {W E A B} (a : A) (f : A -> io W E B) w : (mret a ≫= f) w = f a w.
Proof. done. Qed.

Lemma step_bind {W E A B} (m : io W E A) (f : A -> io W E B) w a w' :
  m w = (Ok a, w') -> (m ≫= f) w = f a w'.
Proof. intros H. unfold mbind, io_bind. by rewrite H. Qed.

(** ** Which errors a computation can return *)

Definition fails_with {E A} (P : E -> Prop) (m : result E A) : Prop :=
  forall e, m = Err e -> P e.

Section fails.
Context {E A B : Type} (P : E -> Prop).

Lemma fails_bind (m : result E A) (k : A -> result E B) :
  fails_with P m -> (forall a, fails_with P (k a)) -> fails_with P (m ≫= k).
Proof. intros Hm Hk e [H|(a & _ & H)]%bind_Err; [by apply Hm|by apply (Hk a)]. Qed.

Lemma fails_Ok (a : A) : fails_with P (Ok a).
Proof. by intros e. Qed.

Lemma fails_Err (e : E) : P e -> fails_with P (@Err E A e).
Proof. by intros He e' [= <-]. Qed.

Lemma fails_if (c : bool) (m k : result E A) :
  fails_with P m -> fails_with P k -> fails_with P (if c then m else k).
Proof. by destruct c. Qed.

Lemma fails_ok_or (o : option A) e : P e -> fails_with P (ok_or o e).
Proof. by intros He e' [_ ->]%ok_or_Err. Qed.

Lemma fails_map_err {F} (g : F -> E) (m : result F A) :
  (forall e, P (g e)) -> fails_with P (map_err g m).
Proof. intros Hg e (e' & _ & ->)%map_err_Err. apply Hg. Qed.

End fails.

(** [fails_step tac] decomposes a goal about the errors of a computation, closing
    the claims about single errors with [tac]. *)
Ltac fails_step tac :=
  first [ apply fails_ok_or; tac | apply fails_map_err; intros ?; tac | apply fails_Ok
        | apply fails_Err; tac | apply fails_if | apply fails_bind; [|intros ?] ].

(** [case_bool] splits on the boolean tests of the goal and the hypotheses, and
    reflects them into propositions over [Z]. *)
Ltac bool_hyps :=
  repeat match goal with
  | H : _ && _ = true |- _ => apply andb_true_iff in H; destruct H
  | H : _ || _ = false |- _ => apply orb_false_iff in H; destruct H
  | H : _ && _ = false |- _ => apply andb_false_iff in H
  | H : _ || _ = true |- _ => apply orb_true_iff in H
  | H : negb _ = true |- _ => apply negb_true_iff in H
  | H : negb _ = false |- _ => apply negb_false_iff in H
  | H : (_ <? _) = true |- _ => apply Z.ltb_lt in H
  | H : (_ <? _) = false |- _ => apply Z.ltb_ge in H
  | H : (_ <=? _) = true |- _ => apply Z.leb_le in H
  | H : (_ <=? _) = false |- _ => apply Z.leb_gt in H
  | H : (_ =? _) = true |- _ => apply Z.eqb_eq in H
  | H : (_ =? _) = false |- _ => apply Z.eqb_neq in H
  | H : bool_decide _ = true |- _ => apply bool_decide_eq_true in H
  | H : bool_decide _ = false |- _ => apply bool_decide_eq_false in H
  end.
Ltac reflect_bools := bool_hyps; simplify_eq.

(** Linear arithmetic with quotients and remainders by constants. *)
Ltac divlia := Z.div_mod_to_equations; lia.

(** Evaluate the ground sums and tests of a goal. *)
Ltac zground :=
  repeat match goal with
  | |- context [?a + ?b] =>
      let c := eval vm_compute in (a + b) in
      lazymatch c with Z0 => idtac | Zpos _ => idtac | Zneg _ => idtac end;
      change (a + b) with c
  | |- context [?t ?a ?b] =>
      lazymatch t with Z.eqb => idtac | Z.leb => idtac | Z.ltb => idtac end;
      let c := eval vm_compute in (t a b) in
      lazymatch c with true => idtac | false => idtac end;
      change (t a b) with c
  end; cbn [orb andb negb].

(** ** Lengths as integers *)

(** [len v] is [v.len()]: a [usize] in Rust, here the exact integer. *)
Definition len {A} (l : list A) : Z := Z.of_nat (length l).

Section lists.
Context {A B : Type}.
Implicit Types l k : list A.

Lemma len_nonneg l : 0 <= len l.
Proof. unfold len. lia. Qed.

Lemma len_nil : len (@nil A) = 0.
Proof. done. Qed.

Lemma len_cons (x : A) l : len (x :: l) = 1 + len l.
Proof. unfold len. rewrite length_cons. lia. Qed.

Lemma len_app l k : len (l ++ k) = len l + len k.
Proof. unfold len. rewrite length_app. lia. Qed.

Lemma len_map (f : A -> B) l : len (map f l) = len l.
Proof. unfold len. by rewrite length_map. Qed.

Lemma len_zero l : len l = 0 <-> l = [].
Proof. unfold len. destruct l; cbn [length]; split; [done|done|lia|done]. Qed.

Lemma len_replicate n (x : A) : len (replicate n x) = Z.of_nat n.
Proof. unfold len. by rewrite length_replicate. Qed.

Lemma app_len_inj l1 l2 k1 k2 :
  len l1 = len l2 -> l1 ++ k1 = l2 ++ k2 -> l1 = l2 /\ k1 = k2.
Proof. unfold len. intros H E. apply app_inj_1 in E; [done|lia]. Qed.

Lemma take_app_len l k n : len l = Z.of_nat n -> take n (l ++ k) = l.
Proof. unfold len. intros H. rewrite take_app_length' ; [done|lia]. Qed.

Lemma drop_app_len l k n : len l = Z.of_nat n -> drop n (l ++ k) = k.
Proof. unfold len. intros H. rewrite drop_app_length'; [done|lia]. Qed.

(** [forallb]/[existsb] on the lists the code iterates over. *)
Lemma forallb_Forall (p : A -> bool) l :
  forallb p l = true <-> Forall (fun x => p x = true) l.
Proof. rewrite forallb_forall, Forall_forall. setoid_rewrite list_elem_of_In. done. Qed.

Lemma existsb_Exists (p : A -> bool) l :
  existsb p l = true <-> Exists (fun x => p x = true) l.
Proof.
  rewrite existsb_exists, Exists_exists. setoid_rewrite list_elem_of_In. done.
Qed.

Lemma existsb_false_Forall (p : A -> bool) l :
  existsb p l = false <-> Forall (fun x => p x = false) l.
Proof.
  induction l as [|x l IH]; cbn; [naive_solver|].
  rewrite orb_false_iff, IH, Forall_cons. done.
Qed.

End lists.

Create Rewrite HintDb len.
#[export] Hint Rewrite @len_nil @len_cons @len_app @len_map @len_replicate : len.

(** [len_solve] normalises the lengths of a goal and its hypotheses and closes
    the remaining linear arithmetic. *)
Ltac len_norm := autorewrite with len in *.
Ltac pose_len :=
  repeat match goal with
  | |- context [len ?l] =>
      lazymatch goal with H : 0 <= len l |- _ => fail | _ => pose proof (len_nonneg l) end
  | H : context [len ?l] |- _ =>
      lazymatch goal with H : 0 <= len l |- _ => fail | _ => pose proof (len_nonneg l) end
  end.
Ltac len_solve := len_norm; pose_len; lia.

(** ** Proof irrelevance for boolean side conditions *)
Lemma bool_eq_irrel (b c : bool) (p q : b = c) : p = q.
Proof. apply UIP_dec, Bool.bool_dec. Qed.

(** The development's hint database: facts about well-formedness that the
    component proofs chain. *)
Create HintDb envelope.
#[export] Hint Resolve len_nonneg : envelope.
