(* ===== verification/Rust.v ===== *)
(** * Bytes and machine integers

    The fragment of Rust's core library the crate computes with: [u8] values,
    [usize] arithmetic at the target's width, and big-endian encodings.

    - A [u8] is [Byte.byte]; [byte_val] and [byte_of_Z] convert to and from [Z],
      the latter wrapping modulo 256.
    - A [usize] is an integer [0 <= n <= usize_max].  The width is a parameter of
      the whole development ([Arch]): the crate compiles for 32 and 64 bits (a
      16-bit target cannot hold [DEFAULT_MAX_PLAINTEXT_BYTES]). *)

From S2P Require Import Prelude.
From Stdlib Require Export Strings.Byte.

(** ** Bytes *)

#[export] Instance byte_eq_decision : EqDecision byte := Byte.byte_eq_dec.

Definition byte_val (b : byte) : Z := Z.of_N (Byte.to_N b).

Definition byte_of_Z (z : Z) : byte :=
  match Byte.of_N (Z.to_N (z mod 256)) with
  | Some b => b
  | None => x00
  end.

Lemma byte_val_range b : 0 <= byte_val b < 256.
Proof. unfold byte_val. pose proof (Byte.to_N_bounded b). lia. Qed.

Lemma byte_val_of_Z z : byte_val (byte_of_Z z) = z mod 256.
Proof.
  unfold byte_val, byte_of_Z.
  pose proof (Z.mod_pos_bound z 256 eq_refl) as Hz.
  destruct (Byte.of_N _) as [b|] eqn:E.
  - apply Byte.to_of_N in E. rewrite E. lia.
  - apply Byte.of_N_None_iff in E. lia.
Qed.

Lemma byte_val_of_Z_small z : 0 <= z < 256 -> byte_val (byte_of_Z z) = z.
Proof. intros H. rewrite byte_val_of_Z. by apply Z.mod_small. Qed.

#[export] Instance byte_val_inj : Inj (=) (=) byte_val.
Proof.
  intros a b H. unfold byte_val in H. apply N2Z.inj in H.
  pose proof (Byte.of_to_N a) as Ha. pose proof (Byte.of_to_N b) as Hb.
  rewrite H in Ha. congruence.
Qed.

Lemma byte_of_Z_val b : byte_of_Z (byte_val b) = b.
Proof.
  apply (inj byte_val). apply byte_val_of_Z_small, byte_val_range.
Qed.

Lemma byte_of_Z_inj a b :
  0 <= a < 256 -> 0 <= b < 256 -> byte_of_Z a = byte_of_Z b -> a = b.
Proof.
  intros Ha Hb E. apply (f_equal byte_val) in E.
  by rewrite !byte_val_of_Z_small in E.
Qed.

(** A byte string literal [b"..."]. *)
Definition bytes_lit (s : string) : list byte := String.list_byte_of_string s.

(** ** The width of [usize] *)

Class Arch := {
  usize_bits : Z;
  usize_bits_cases : usize_bits = 32 \/ usize_bits = 64;
}.

Definition Arch64 : Arch :=
  {| usize_bits := 64; usize_bits_cases := or_intror eq_refl |}.

Definition Arch32 : Arch :=
  {| usize_bits := 32; usize_bits_cases := or_introl eq_refl |}.

Definition usize_max `{Arch} : Z := 2 ^ usize_bits - 1.
Definition u64_max : Z := 2 ^ 64 - 1.
Definition u32_max : Z := 2 ^ 32 - 1.

(** [usize::checked_add], [checked_mul], [checked_div] and [saturating_add];
    [u32::saturating_add]. *)
Definition checked_add `{Arch} (a b : Z) : option Z :=
  if a + b <=? usize_max then Some (a + b) else None.
Definition checked_mul `{Arch} (a b : Z) : option Z :=
  if a * b <=? usize_max then Some (a * b) else None.
Definition checked_div (a b : Z) : option Z :=
  if b =? 0 then None else Some (a / b).
Definition saturating_add `{Arch} (a b : Z) : Z := Z.min (a + b) usize_max.
Definition u32_saturating_add (a b : Z) : Z := Z.min (a + b) u32_max.

(** [u64::try_from] on a [usize]. *)
Definition u64_try_from (n : Z) : option Z :=
  if n <=? u64_max then Some n else None.

Section usize.
Context `{Arch}.

Lemma usize_max_bounds : 2 ^ 32 - 1 <= usize_max <= u64_max.
Proof.
  unfold usize_max, u64_max. destruct usize_bits_cases as [-> | ->]; lia.
Qed.

Lemma checked_add_Some a b c :
  checked_add a b = Some c <-> c = a + b /\ a + b <= usize_max.
Proof.
  unfold checked_add. destruct (Z.leb_spec (a + b) usize_max); naive_solver lia.
Qed.

Lemma checked_mul_Some a b c :
  checked_mul a b = Some c <-> c = a * b /\ a * b <= usize_max.
Proof.
  unfold checked_mul. destruct (Z.leb_spec (a * b) usize_max); naive_solver lia.
Qed.

Lemma u64_try_from_small n : n <= usize_max -> u64_try_from n = Some n.
Proof.
  intros Hn. unfold u64_try_from. pose proof usize_max_bounds.
  destruct (Z.leb_spec n u64_max); [done|lia].
Qed.

End usize.

(** ** Big-endian encodings *)

(** [be_bytes n z]: the [n]-byte big-endian encoding of [z] modulo [256^n]. *)
Fixpoint be_bytes (n : nat) (z : Z) : list byte :=
  match n with
  | O => []
  | S m => byte_of_Z (z / 256 ^ Z.of_nat m) :: be_bytes m z
  end.

Definition be_value (bs : list byte) : Z :=
  fold_left (fun acc b => acc * 256 + byte_val b) bs 0.

(** [u64::to_be_bytes]. *)
Definition u64_to_be_bytes (z : Z) : list byte := be_bytes 8 z.

Lemma length_be_bytes n z : length (be_bytes n z) = n.
Proof. induction n; cbn; congruence. Qed.

Lemma len_be_bytes n z : len (be_bytes n z) = Z.of_nat n.
Proof. unfold len. by rewrite length_be_bytes. Qed.

Lemma len_u64_to_be_bytes z : len (u64_to_be_bytes z) = 8.
Proof. apply len_be_bytes. Qed.

Lemma be_fold_acc bs acc :
  fold_left (fun a b => a * 256 + byte_val b) bs acc
  = acc * 256 ^ len bs + be_value bs.
Proof.
  unfold be_value. revert acc. induction bs as [|b bs IH]; intros acc; cbn [fold_left].
  - rewrite len_nil. lia.
  - rewrite (IH (acc * 256 + _)), (IH (0 * 256 + _)), len_cons.
    rewrite Z.pow_add_r by (pose_len; lia). lia.
Qed.

Lemma be_value_cons b bs : be_value (b :: bs) = byte_val b * 256 ^ len bs + be_value bs.
Proof. unfold be_value at 1. cbn [fold_left]. rewrite be_fold_acc. f_equal. Qed.

Lemma be_value_be_bytes n z : be_value (be_bytes n z) = z mod 256 ^ Z.of_nat n.
Proof.
  induction n as [|n IH]; [by rewrite Z.mod_1_r|].
  cbn [be_bytes]. rewrite be_value_cons, IH, len_be_bytes, byte_val_of_Z.
  replace (Z.of_nat (S n)) with (Z.of_nat n + 1) by lia.
  rewrite Z.pow_add_r, Z.pow_1_r, Z.rem_mul_r by lia. lia.
Qed.

Lemma u64_to_be_bytes_inj a b :
  0 <= a <= u64_max -> 0 <= b <= u64_max ->
  u64_to_be_bytes a = u64_to_be_bytes b -> a = b.
Proof.
  unfold u64_max. intros Ha Hb E. apply (f_equal be_value) in E.
  unfold u64_to_be_bytes in E. rewrite !be_value_be_bytes in E.
  rewrite !Z.mod_small in E; [done|cbn; lia..].
Qed.

#[export] Hint Rewrite len_be_bytes len_u64_to_be_bytes : len.
