(* ===== verification/Text.v ===== *)
(** * Characters, strings and formatting

    Rust's [char] and [str] as the crate uses them.  A [char] is a Unicode
    scalar value; a [str] is a sequence of them, stored as UTF-8, so [.len()],
    [.bytes()] and [.as_bytes()] go through [utf8] while [.chars()] is the list
    itself.  Whitespace is the Unicode [White_Space] property, as in
    [str::trim]; case folding is ASCII only, as in [to_ascii_lowercase]. *)

From S2P Require Import Prelude.
From S2P Require Import Rust.

(** ** Characters *)

Definition is_scalar (c : Z) : bool :=
  ((0 <=? c) && (c <? 0xD800)) || ((0xE000 <=? c) && (c <? 0x110000)).

Record char := Char { code : Z; code_scalar : is_scalar code = true }.

(** [char::from_u32] with U+FFFD for a number that is not a scalar value. *)
Definition char_of_Z (z : Z) : char :=
  match is_scalar z as b return is_scalar z = b -> char with
  | true => fun E => Char z E
  | false => fun _ => Char 0xFFFD eq_refl
  end eq_refl.

#[export] Instance code_inj : Inj (=) (=) code.
Proof.
  intros [a Ha] [b Hb]; cbn. intros ->. f_equal. apply bool_eq_irrel.
Qed.

#[export] Instance char_eq_dec : EqDecision char.
Proof.
  refine (fun a b => cast_if (decide (code a = code b))).
  - abstract (by apply (inj code)).
  - abstract (intros ->; done).
Defined.

Lemma code_char_of_Z z : is_scalar z = true -> code (char_of_Z z) = z.
Proof.
  unfold char_of_Z. generalize (eq_refl (is_scalar z)).
  generalize (is_scalar z) at 2 3 4. intros [] E H; [done|congruence].
Qed.

Lemma char_of_Z_code c : char_of_Z (code c) = c.
Proof. apply (inj code). apply code_char_of_Z, code_scalar. Qed.

Lemma is_scalar_iff z :
  is_scalar z = true <-> 0 <= z < 0xD800 \/ 0xE000 <= z < 0x110000.
Proof.
  unfold is_scalar. rewrite orb_true_iff, !andb_true_iff, !Z.leb_le, !Z.ltb_lt. lia.
Qed.

Lemma is_scalar_ascii z : 0 <= z < 256 -> is_scalar z = true.
Proof. intros H. apply is_scalar_iff. lia. Qed.

Lemma code_range c : 0 <= code c < 0xD800 \/ 0xE000 <= code c < 0x110000.
Proof. apply is_scalar_iff, code_scalar. Qed.

(** ** Strings *)

Definition str : Type := list char.

#[export] Instance str_eq_dec : EqDecision str := list_eq_dec.

(** A string literal; the characters of [s] are ASCII. *)
Definition lit (s : string) : str :=
  map (fun a => char_of_Z (Z.of_N (Ascii.N_of_ascii a))) (String.list_ascii_of_string s).

(** The UTF-8 encoding of one scalar value and of a string. *)
Definition utf8_char (c : char) : list byte :=
  let z := code c in
  if z <? 0x80 then [byte_of_Z z]
  else if z <? 0x800 then [byte_of_Z (0xC0 + z / 64); byte_of_Z (0x80 + z mod 64)]
  else if z <? 0x10000 then
    [byte_of_Z (0xE0 + z / 4096); byte_of_Z (0x80 + z / 64 mod 64);
     byte_of_Z (0x80 + z mod 64)]
  else
    [byte_of_Z (0xF0 + z / 262144); byte_of_Z (0x80 + z / 4096 mod 64);
     byte_of_Z (0x80 + z / 64 mod 64); byte_of_Z (0x80 + z mod 64)].

Definition utf8 (s : str) : list byte := flat_map utf8_char s.

(** [str::len]: the number of UTF-8 bytes. *)
Definition str_len (s : str) : Z := len (utf8 s).

Definition str_is_empty (s : str) : bool := match s with [] => true | _ => false end.

(** [std::str::from_utf8]: rejects stray continuation bytes, truncated and
    overlong sequences, surrogates and values above U+10FFFF. *)
Definition is_continuation (b : byte) : bool :=
  (0x80 <=? byte_val b) && (byte_val b <? 0xC0).

Fixpoint from_utf8 (bs : list byte) : option str :=
  match bs with
  | [] => Some []
  | b0 :: r0 =>
      let x := byte_val b0 in
      if x <? 0x80 then cons (char_of_Z x) <$> from_utf8 r0
      else match r0 with
      | b1 :: r1 =>
          if negb (is_continuation b1) then None
          else let y := byte_val b1 - 0x80 in
          if x <? 0xE0 then
            if x <? 0xC2 then None
            else cons (char_of_Z ((x - 0xC0) * 64 + y)) <$> from_utf8 r1
          else match r1 with
          | b2 :: r2 =>
              if negb (is_continuation b2) then None
              else let z := byte_val b2 - 0x80 in
              if x <? 0xF0 then
                let v := ((x - 0xE0) * 64 + y) * 64 + z in
                if (0x800 <=? v) && is_scalar v
                then cons (char_of_Z v) <$> from_utf8 r2 else None
              else match r2 with
              | b3 :: r3 =>
                  if negb (is_continuation b3) then None
                  else
                  let v := (((x - 0xF0) * 64 + y) * 64 + z) * 64 + (byte_val b3 - 0x80) in
                  if (0x10000 <=? v) && is_scalar v
                  then cons (char_of_Z v) <$> from_utf8 r3 else None
              | [] => None
              end
          | [] => None
          end
      | [] => None
      end
  end.

(** [char::is_whitespace]: the Unicode [White_Space] property. *)
Definition is_whitespace (c : char) : bool :=
  let z := code c in
  ((9 <=? z) && (z <=? 13)) || (z =? 0x20) || (z =? 0x85) || (z =? 0xA0)
  || (z =? 0x1680) || ((0x2000 <=? z) && (z <=? 0x200A))
  || (z =? 0x2028) || (z =? 0x2029) || (z =? 0x202F) || (z =? 0x205F) || (z =? 0x3000).

Fixpoint drop_while {A} (p : A -> bool) (l : list A) : list A :=
  match l with
  | [] => []
  | x :: r => if p x then drop_while p r else l
  end.

(** [str::trim]. *)
Definition str_trim (s : str) : str :=
  rev (drop_while is_whitespace (rev (drop_while is_whitespace s))).

(** [value.contains(['\r', '\n'])]. *)
Definition contains_cr_lf (s : str) : bool :=
  existsb (fun c => (code c =? 13) || (code c =? 10)) s.

(** [str::to_ascii_lowercase] and [str::eq_ignore_ascii_case]. *)
Definition char_to_ascii_lowercase (c : char) : char :=
  if (65 <=? code c) && (code c <=? 90) then char_of_Z (code c + 32) else c.
Definition to_ascii_lowercase (s : str) : str := map char_to_ascii_lowercase s.
Definition eq_ignore_ascii_case (a b : str) : bool :=
  bool_decide (to_ascii_lowercase a = to_ascii_lowercase b).

(** [u8::is_ascii_alphanumeric]. *)
Definition is_ascii_alphanumeric (b : byte) : bool :=
  let x := byte_val b in
  ((48 <=? x) && (x <=? 57)) || ((65 <=? x) && (x <=? 90)) || ((97 <=? x) && (x <=? 122)).

(** [str::contains] with a string pattern, and [slice::starts_with]. *)
Fixpoint starts_with {A} `{EqDecision A} (prefix l : list A) : bool :=
  match prefix, l with
  | [], _ => true
  | p :: ps, x :: xs => bool_decide (p = x) && starts_with ps xs
  | _ :: _, [] => false
  end.
Fixpoint str_contains (pattern s : str) : bool :=
  starts_with pattern s ||
  match s with [] => false | _ :: r => str_contains pattern r end.

(** [Ord for str]: lexicographic order of the UTF-8 bytes. *)
Fixpoint bytes_cmp (a b : list byte) : comparison :=
  match a, b with
  | [], [] => Eq
  | [], _ :: _ => Lt
  | _ :: _, [] => Gt
  | x :: a', y :: b' =>
      match byte_val x ?= byte_val y with Eq => bytes_cmp a' b' | o => o end
  end.
Definition str_cmp (a b : str) : comparison := bytes_cmp (utf8 a) (utf8 b).

(** ** Formatting *)

Definition digit_char (d : Z) : char :=
  char_of_Z (if d <? 10 then 48 + d else 87 + d).

(** The decimal digits of a non-negative number, most significant first; [fuel]
    bounds their number (an [i64] or [u64] has at most 20). *)
Fixpoint dec_digits (fuel : nat) (z : Z) : list Z :=
  match fuel with
  | O => []
  | S f => if z <? 10 then [z] else dec_digits f (z / 10) ++ [z mod 10]
  end.

(** [format!("{z:0width$}")] for an [i64] or [u64]: zero padding after the sign. *)
Definition fmt_dec (width : nat) (z : Z) : str :=
  let ds := map digit_char (dec_digits 20 (Z.abs z)) in
  if z <? 0
  then lit "-" ++ replicate (width - 1 - length ds) (digit_char 0) ++ ds
  else replicate (width - length ds) (digit_char 0) ++ ds.

(** What an [fmt::Debug] implementation hands to the formatter: the calls of
    [debug_struct], [debug_tuple] and [.field(..)], before rendering to text. *)
Inductive dbg :=
| DStr (s : str)
| DNum (n : Z)
| DBool (b : bool)
| DOption (o : option dbg)
| DList (l : list dbg)
| DTuple (name : string) (fields : list dbg)
| DStruct (name : string) (fields : list (string * dbg)).

(** [format!("{byte:02x}")]. *)
Definition fmt_hex_byte (b : byte) : str :=
  [digit_char (byte_val b / 16); digit_char (byte_val b mod 16)].

(** ** UTF-8 is a faithful encoding *)

Lemma is_continuation_of_Z z : 0 <= z < 64 -> is_continuation (byte_of_Z (0x80 + z)) = true.
Proof.
  intros H. unfold is_continuation. rewrite byte_val_of_Z_small by lia.
  apply andb_true_iff. split; [apply Z.leb_le|apply Z.ltb_lt]; lia.
Qed.

(** Each length of encoding decodes to the scalar value it came from. *)
Lemma from_utf8_1 z rest : 0 <= z < 0x80 ->
  from_utf8 (byte_of_Z z :: rest) = cons (char_of_Z z) <$> from_utf8 rest.
Proof.
  intros H. cbn [from_utf8]. rewrite byte_val_of_Z_small by lia.
  by rewrite (proj2 (Z.ltb_lt _ _)) by lia.
Qed.

Ltac utf8_step :=
  cbn [from_utf8];
  rewrite ?is_continuation_of_Z by (apply Z.mod_pos_bound; lia);
  rewrite ?byte_val_of_Z_small by divlia; cbn [negb].
Ltac utf8_tests :=
  repeat match goal with
  | |- context [?a <? ?b] =>
      first [ rewrite (proj2 (Z.ltb_lt a b)) by divlia
            | rewrite (proj2 (Z.ltb_ge a b)) by divlia ]
  | |- context [?a <=? ?b] => rewrite (proj2 (Z.leb_le a b)) by divlia
  end.

Lemma from_utf8_2 z rest : 0x80 <= z < 0x800 ->
  from_utf8 (byte_of_Z (0xC0 + z / 64) :: byte_of_Z (0x80 + z mod 64) :: rest)
  = cons (char_of_Z z) <$> from_utf8 rest.
Proof.
  intros H. utf8_step. utf8_tests. do 3 f_equal. divlia.
Qed.

Lemma from_utf8_3 z rest : 0x800 <= z < 0x10000 -> is_scalar z = true ->
  from_utf8 (byte_of_Z (0xE0 + z / 4096) :: byte_of_Z (0x80 + z / 64 mod 64)
             :: byte_of_Z (0x80 + z mod 64) :: rest)
  = cons (char_of_Z z) <$> from_utf8 rest.
Proof.
  intros H Hs. utf8_step.
  replace (((0xE0 + z / 4096 - 0xE0) * 64 + (0x80 + z / 64 mod 64 - 0x80)) * 64
           + (0x80 + z mod 64 - 0x80)) with z by divlia.
  utf8_tests. by rewrite Hs.
Qed.

Lemma from_utf8_4 z rest : 0x10000 <= z < 0x110000 -> is_scalar z = true ->
  from_utf8 (byte_of_Z (0xF0 + z / 262144) :: byte_of_Z (0x80 + z / 4096 mod 64)
             :: byte_of_Z (0x80 + z / 64 mod 64) :: byte_of_Z (0x80 + z mod 64) :: rest)
  = cons (char_of_Z z) <$> from_utf8 rest.
Proof.
  intros H Hs. utf8_step.
  replace ((((0xF0 + z / 262144 - 0xF0) * 64 + (0x80 + z / 4096 mod 64 - 0x80)) * 64
            + (0x80 + z / 64 mod 64 - 0x80)) * 64 + (0x80 + z mod 64 - 0x80))
    with z by divlia.
  utf8_tests. by rewrite Hs.
Qed.

Lemma from_utf8_char c rest :
  from_utf8 (utf8_char c ++ rest) = cons c <$> from_utf8 rest.
Proof.
  rewrite <- (char_of_Z_code c) at 2.
  pose proof (code_range c) as Hr. pose proof (code_scalar c) as Hs.
  unfold utf8_char.
  destruct (Z.ltb_spec (code c) 0x80); [apply from_utf8_1; lia|].
  destruct (Z.ltb_spec (code c) 0x800); [apply from_utf8_2; lia|].
  destruct (Z.ltb_spec (code c) 0x10000); [apply from_utf8_3; [lia|done]|].
  apply from_utf8_4; [lia|done].
Qed.

Lemma from_utf8_utf8 s : from_utf8 (utf8 s) = Some s.
Proof.
  induction s as [|c s IH]; [done|].
  unfold utf8. cbn [flat_map]. rewrite from_utf8_char. fold (utf8 s). by rewrite IH.
Qed.

#[export] Instance utf8_inj : Inj (=) (=) utf8.
Proof.
  intros s t E. apply (f_equal from_utf8) in E. rewrite !from_utf8_utf8 in E. congruence.
Qed.

Lemma utf8_app s t : utf8 (s ++ t) = utf8 s ++ utf8 t.
Proof. apply flat_map_app. Qed.

Lemma utf8_char_nonempty c : utf8_char c <> [].
Proof. unfold utf8_char. repeat case_match; done. Qed.

Lemma utf8_nil s : utf8 s = [] <-> s = [].
Proof.
  split; [|by intros ->]. intros E. apply (inj utf8). by rewrite E.
Qed.

Lemma str_len_app s t : str_len (s ++ t) = str_len s + str_len t.
Proof. unfold str_len. by rewrite utf8_app, len_app. Qed.

Lemma utf8_char_ascii c : code c < 0x80 -> utf8_char c = [byte_of_Z (code c)].
Proof. intros H. unfold utf8_char. by rewrite (proj2 (Z.ltb_lt _ _) H). Qed.

(** A byte below 0x80 in an encoding is the encoding of that ASCII character. *)
Lemma utf8_char_ascii_byte c b :
  b ∈ utf8_char c -> byte_val b < 0x80 -> utf8_char c = [b] /\ code c = byte_val b.
Proof.
  pose proof (code_range c) as Hr. unfold utf8_char.
  repeat case_match; reflect_bools; rewrite ?elem_of_cons, elem_of_nil;
    intros; destruct_or?; subst; try done.
  all: rewrite ?byte_val_of_Z_small in * by divlia; try done; exfalso; divlia.
Qed.

(** ** Whitespace *)

Lemma drop_while_nil {A} (p : A -> bool) l :
  drop_while p l = [] <-> Forall (fun x => p x = true) l.
Proof.
  induction l as [|x l IH]; cbn; [naive_solver|].
  rewrite Forall_cons. destruct (p x); naive_solver.
Qed.

Lemma drop_while_suffix {A} (p : A -> bool) l :
  exists k, l = k ++ drop_while p l /\ Forall (fun x => p x = true) k.
Proof.
  induction l as [|x l (k & E & Hk)]; cbn; [by exists []|].
  destruct (p x) eqn:Ep; [|by exists []].
  exists (x :: k). split; [by cbn; f_equal|by constructor].
Qed.

Lemma Forall_rev' {A} (P : A -> Prop) l : Forall P (rev l) <-> Forall P l.
Proof. rewrite !Forall_forall. setoid_rewrite list_elem_of_In. by setoid_rewrite <- in_rev. Qed.

(** [trim] is empty exactly on the strings made of whitespace. *)
Lemma str_trim_nil s : str_trim s = [] <-> Forall (fun c => is_whitespace c = true) s.
Proof.
  unfold str_trim. split.
  - intros E. apply (f_equal (@rev char)) in E. rewrite rev_involutive in E.
    apply drop_while_nil in E. rewrite Forall_rev' in E.
    destruct (drop_while_suffix is_whitespace s) as (k & -> & Hk).
    apply Forall_app. done.
  - intros H. apply drop_while_nil in H. by rewrite H.
Qed.

Lemma str_trim_decompose s :
  exists l r, s = l ++ str_trim s ++ r /\
    Forall (fun c => is_whitespace c = true) l /\ Forall (fun c => is_whitespace c = true) r.
Proof.
  destruct (drop_while_suffix is_whitespace s) as (l & El & Hl).
  destruct (drop_while_suffix is_whitespace (rev (drop_while is_whitespace s)))
    as (r & Er & Hr).
  exists l, (rev r). split; [|split; [done|by apply Forall_rev']].
  unfold str_trim. rewrite El at 1. f_equal.
  apply (f_equal (@rev char)) in Er. rewrite rev_involutive, rev_app_distr in Er. done.
Qed.

Lemma str_trim_incl s : Forall (fun c => c ∈ s) (str_trim s).
Proof.
  destruct (str_trim_decompose s) as (l & r & E & _).
  apply Forall_forall. intros c Hc. rewrite E. rewrite !elem_of_app. auto.
Qed.

Lemma drop_while_idemp {A} (p : A -> bool) l :
  drop_while p (drop_while p l) = drop_while p l.
Proof.
  induction l as [|x l IH]; cbn; [done|].
  destruct (p x) eqn:Ep; [done|]. cbn. by rewrite Ep.
Qed.

(** A string that starts and ends with a non-space character is its own trim. *)
Lemma drop_while_id {A} (p : A -> bool) l :
  drop_while p l = l <-> match l with [] => True | x :: _ => p x = false end.
Proof.
  destruct l as [|x l]; cbn; [done|]. destruct (p x) eqn:Ep; [|done].
  split; [|done]. intros E. exfalso.
  destruct (drop_while_suffix p l) as (k & Hk & _).
  apply (f_equal length) in E. apply (f_equal length) in Hk.
  rewrite length_app in Hk. cbn in E. lia.
Qed.

Lemma str_trim_idemp s : str_trim (str_trim s) = str_trim s.
Proof.
  unfold str_trim at 2 3. set (d := drop_while is_whitespace s).
  set (e := drop_while is_whitespace (rev d)).
  assert (He : drop_while is_whitespace (rev e) = rev e).
  { apply drop_while_id. destruct (drop_while_suffix is_whitespace (rev d)) as (k & Hk & _).
    fold e in Hk. apply (f_equal (@rev char)) in Hk.
    rewrite rev_involutive, rev_app_distr in Hk.
    pose proof (drop_while_idemp is_whitespace s) as Hd. fold d in Hd.
    rewrite drop_while_id in Hd. destruct (rev e); [done|].
    rewrite Hk in Hd. done. }
  unfold str_trim. rewrite He, rev_involutive. unfold e. by rewrite drop_while_idemp.
Qed.

(** Text the crate accepts for identities and request values: not blank, and
    without a carriage return or line feed. *)
Definition header_text_ok (s : str) : Prop :=
  str_trim s <> [] /\ contains_cr_lf s = false.

#[export] Instance header_text_ok_dec s : Decision (header_text_ok s).
Proof. unfold header_text_ok. apply _. Defined.

Lemma str_is_empty_true s : str_is_empty s = true <-> s = [].
Proof. by destruct s. Qed.

Lemma header_text_test s :
  str_is_empty (str_trim s) || contains_cr_lf s = false <-> header_text_ok s.
Proof.
  unfold header_text_ok. rewrite orb_false_iff.
  destruct (str_trim s); cbn; naive_solver.
Qed.

(** A trailing character keeps text acceptable, unless it is a line break. *)
Lemma header_text_ok_snoc s c :
  header_text_ok s -> (code c =? 13) || (code c =? 10) = false -> header_text_ok (s ++ [c]).
Proof.
  intros [Ht Hc] Hn. split.
  - rewrite str_trim_nil in Ht |- *. by intros [? _]%Forall_app.
  - unfold contains_cr_lf in *. rewrite existsb_app, Hc. cbn. by rewrite Hn.
Qed.

Lemma drop_while_length {A} (p : A -> bool) l : (length (drop_while p l) <= length l)%nat.
Proof. induction l as [|x l IH]; cbn; [done|]. destruct (p x); cbn; lia. Qed.

(** Trimming removes a trailing whitespace character. *)
Lemma str_trim_snoc s c : is_whitespace c = true -> str_trim (s ++ [c]) <> s ++ [c].
Proof.
  intros Hc E. pose proof (drop_while_length is_whitespace (s ++ [c])) as Hl.
  pose proof (drop_while_length is_whitespace (rev (drop_while is_whitespace (s ++ [c])))) as Hr.
  rewrite length_rev in Hr. apply (f_equal length) in E. unfold str_trim in E.
  rewrite length_rev in E. destruct (drop_while_suffix is_whitespace (s ++ [c])) as (d & Hd & _).
  assert (d = []) as ->; [|].
  { apply (f_equal length) in Hd. rewrite (length_app d) in Hd. destruct d; [done|cbn in Hd; lia]. }
  cbn in Hd. rewrite <- Hd, rev_app_distr in E. cbn [rev app] in E. cbn in E. rewrite Hc in E.
  pose proof (drop_while_length is_whitespace (rev s)) as Hs. rewrite length_rev in Hs.
  rewrite length_app in E. cbn in E. lia.
Qed.

(** Non-empty text without whitespace is accepted, and trimming keeps it. *)
Lemma drop_while_none {A} (p : A -> bool) l :
  Forall (fun x => p x = false) l -> drop_while p l = l.
Proof. intros H. apply drop_while_id. by destruct H. Qed.

Lemma str_trim_no_whitespace s :
  Forall (fun c => is_whitespace c = false) s -> str_trim s = s.
Proof.
  intros H. unfold str_trim. rewrite (drop_while_none _ s) by done.
  rewrite drop_while_none by (by apply Forall_rev'). apply rev_involutive.
Qed.

Lemma cr_lf_whitespace c :
  (code c =? 13) || (code c =? 10) = true -> is_whitespace c = true.
Proof.
  intros H. unfold is_whitespace.
  apply orb_true_iff in H as [H|H]; apply Z.eqb_eq in H; by rewrite H.
Qed.

Lemma no_whitespace_text_ok s :
  s <> [] -> Forall (fun c => is_whitespace c = false) s -> header_text_ok s.
Proof.
  intros Hs H. split; [by rewrite str_trim_no_whitespace|].
  apply existsb_false_Forall. eapply Forall_impl; [exact H|]. intros c Hc.
  apply not_true_is_false. intros E%cr_lf_whitespace. congruence.
Qed.

(** ** ASCII case *)

Lemma lower_code c :
  code (char_to_ascii_lowercase c)
  = if (65 <=? code c) && (code c <=? 90) then code c + 32 else code c.
Proof.
  unfold char_to_ascii_lowercase. case_match; [|done].
  apply code_char_of_Z, is_scalar_ascii. reflect_bools. lia.
Qed.

Lemma char_lower_idemp c :
  char_to_ascii_lowercase (char_to_ascii_lowercase c) = char_to_ascii_lowercase c.
Proof.
  apply (inj code). rewrite !lower_code.
  destruct (Z.leb_spec 65 (code c)), (Z.leb_spec (code c) 90); cbn;
    destruct (Z.leb_spec 65 (code c + 32)), (Z.leb_spec (code c + 32) 90);
    destruct (Z.leb_spec 65 (code c)), (Z.leb_spec (code c) 90); cbn; lia.
Qed.

Lemma to_ascii_lowercase_idemp s :
  to_ascii_lowercase (to_ascii_lowercase s) = to_ascii_lowercase s.
Proof.
  unfold to_ascii_lowercase. rewrite map_map. apply map_ext. apply char_lower_idemp.
Qed.

Lemma eq_ignore_ascii_case_iff a b :
  eq_ignore_ascii_case a b = true <-> to_ascii_lowercase a = to_ascii_lowercase b.
Proof. apply bool_decide_eq_true. Qed.

Lemma eq_ignore_ascii_case_refl a : eq_ignore_ascii_case a a = true.
Proof. by apply eq_ignore_ascii_case_iff. Qed.

(** ** Order *)

Lemma bytes_cmp_eq a b : bytes_cmp a b = Eq <-> a = b.
Proof.
  revert b. induction a as [|x a IH]; intros [|y b]; cbn; try done.
  destruct (Z.compare_spec (byte_val x) (byte_val y)) as [E|E|E].
  - apply (inj byte_val) in E as ->. rewrite IH. naive_solver.
  - split; [done|]. intros [= -> ->]. lia.
  - split; [done|]. intros [= -> ->]. lia.
Qed.

Lemma bytes_cmp_antisym a b : bytes_cmp b a = CompOpp (bytes_cmp a b).
Proof.
  revert b. induction a as [|x a IH]; intros [|y b]; cbn; try done.
  rewrite (Z.compare_antisym (byte_val x) (byte_val y)).
  destruct (byte_val x ?= byte_val y); cbn; [apply IH|done|done].
Qed.

Lemma bytes_cmp_trans a b c :
  bytes_cmp a b = Lt -> bytes_cmp b c = Lt -> bytes_cmp a c = Lt.
Proof.
  revert b c. induction a as [|x a IH]; intros [|y b] [|z c]; cbn; try done.
  destruct (Z.compare_spec (byte_val x) (byte_val y)),
    (Z.compare_spec (byte_val y) (byte_val z)),
    (Z.compare_spec (byte_val x) (byte_val z)); try done; try lia.
  apply IH.
Qed.

Lemma str_cmp_eq a b : str_cmp a b = Eq <-> a = b.
Proof. unfold str_cmp. rewrite bytes_cmp_eq. split; [apply (inj utf8)|by intros ->]. Qed.

(** ** Digits *)

Lemma digit_char_code d : 0 <= d < 36 ->
  code (digit_char d) = if d <? 10 then 48 + d else 87 + d.
Proof.
  intros H. apply code_char_of_Z, is_scalar_ascii. case_match; reflect_bools; lia.
Qed.

Lemma digit_char_inj a b :
  0 <= a < 36 -> 0 <= b < 36 -> digit_char a = digit_char b -> a = b.
Proof.
  intros Ha Hb E. apply (f_equal code) in E. rewrite !digit_char_code in E by lia.
  repeat case_match; reflect_bools; lia.
Qed.

Lemma fmt_hex_byte_inj a b : fmt_hex_byte a = fmt_hex_byte b -> a = b.
Proof.
  intros [= E1 E2]. pose proof (byte_val_range a). pose proof (byte_val_range b).
  apply digit_char_inj in E1; [|divlia..]. apply digit_char_inj in E2; [|divlia..].
  apply (inj byte_val). divlia.
Qed.

(** ** Decimal numbers *)

(** The number a string of decimal digits denotes. *)
Definition dec_value (s : str) : Z := fold_left (fun a c => 10 * a + (code c - 48)) s 0.

Lemma dec_value_acc s acc :
  fold_left (fun a c => 10 * a + (code c - 48)) s acc = 10 ^ len s * acc + dec_value s.
Proof.
  unfold dec_value. revert acc. induction s as [|c s IH]; intros acc; cbn [fold_left].
  - rewrite len_nil. lia.
  - rewrite (IH (10 * acc + _)), (IH (10 * 0 + _)), len_cons, Z.pow_add_r by (pose_len; lia).
    lia.
Qed.

Lemma dec_value_app s t : dec_value (s ++ t) = 10 ^ len t * dec_value s + dec_value t.
Proof. unfold dec_value at 1. rewrite fold_left_app. apply dec_value_acc. Qed.

Lemma dec_digits_range fuel z :
  0 <= z -> Forall (fun d => 0 <= d < 10) (dec_digits fuel z).
Proof.
  revert z. induction fuel as [|f IH]; intros z Hz; cbn; [constructor|].
  destruct (Z.ltb_spec z 10); [by constructor; [lia|]|].
  apply Forall_app. split; [apply IH; divlia|]. constructor; [divlia|constructor].
Qed.

Lemma dec_digits_value fuel z :
  0 <= z < 10 ^ Z.of_nat fuel -> dec_value (map digit_char (dec_digits fuel z)) = z.
Proof.
  revert z. induction fuel as [|f IH]; intros z Hz; [cbn in *; lia|].
  rewrite Nat2Z.inj_succ, Z.pow_succ_r in Hz by lia. cbn [dec_digits].
  destruct (Z.ltb_spec z 10).
  - unfold dec_value; cbn [map fold_left]. rewrite digit_char_code by lia.
    rewrite (proj2 (Z.ltb_lt z 10)) by lia. lia.
  - rewrite map_app, dec_value_app, IH by divlia. unfold dec_value; cbn [map fold_left].
    rewrite digit_char_code by divlia. rewrite (proj2 (Z.ltb_lt _ 10)) by divlia.
    rewrite len_cons, len_nil. divlia.
Qed.

Lemma dec_digits_len fuel w z :
  (1 <= w)%nat -> 0 <= z < 10 ^ Z.of_nat w -> (length (dec_digits fuel z) <= w)%nat.
Proof.
  revert w z. induction fuel as [|f IH]; intros w z Hw Hz; cbn [dec_digits length]; [lia|].
  destruct (Z.ltb_spec z 10); [cbn; lia|]. rewrite length_app. cbn [length].
  destruct w as [|[|w]]; [lia|cbn in Hz; lia|].
  rewrite Nat2Z.inj_succ, Z.pow_succ_r in Hz by lia.
  specialize (IH (S w) (z / 10) ltac:(lia) ltac:(divlia)). lia.
Qed.

Lemma dec_value_zeros n s : dec_value (replicate n (digit_char 0) ++ s) = dec_value s.
Proof.
  induction n as [|n IH]; [done|]. cbn [replicate app].
  rewrite <- IH. unfold dec_value at 1. cbn [fold_left].
  by rewrite digit_char_code by lia.
Qed.

Lemma fmt_dec_nonneg w z :
  0 <= z ->
  fmt_dec w z = replicate (w - length (dec_digits 20 z)) (digit_char 0)
                ++ map digit_char (dec_digits 20 z).
Proof.
  intros H. unfold fmt_dec. rewrite (proj2 (Z.ltb_ge z 0)) by lia.
  by rewrite Z.abs_eq, length_map by lia.
Qed.

(** Padded decimal numbers read back, have the requested width when they fit it,
    and consist of digits. *)
Lemma fmt_dec_value w z : 0 <= z < 10 ^ 20 -> dec_value (fmt_dec w z) = z.
Proof.
  intros H. rewrite fmt_dec_nonneg, dec_value_zeros by lia. by apply dec_digits_value.
Qed.

Lemma fmt_dec_length w z :
  (1 <= w)%nat -> 0 <= z < 10 ^ Z.of_nat w -> length (fmt_dec w z) = w.
Proof.
  intros Hw Hz. rewrite fmt_dec_nonneg by lia.
  rewrite length_app, length_replicate, length_map.
  pose proof (dec_digits_len 20 w z Hw Hz). lia.
Qed.

Definition is_digit (c : char) : bool := (48 <=? code c) && (code c <=? 57).

Lemma is_digit_char d : 0 <= d < 10 -> is_digit (digit_char d) = true.
Proof.
  intros H. unfold is_digit. rewrite digit_char_code by lia.
  rewrite (proj2 (Z.ltb_lt d 10)) by lia.
  apply andb_true_iff. split; apply Z.leb_le; lia.
Qed.

Lemma fmt_dec_digits w z : 0 <= z -> Forall (fun c => is_digit c = true) (fmt_dec w z).
Proof.
  intros H. rewrite fmt_dec_nonneg by done. apply Forall_app. split.
  - apply Forall_replicate. apply is_digit_char. lia.
  - apply Forall_map. eapply Forall_impl; [by apply dec_digits_range|].
    intros d Hd. by apply is_digit_char.
Qed.

Lemma fmt_dec_inj w a b :
  0 <= a < 10 ^ 20 -> 0 <= b < 10 ^ 20 -> fmt_dec w a = fmt_dec w b -> a = b.
Proof.
  intros Ha Hb E. apply (f_equal dec_value) in E. by rewrite !fmt_dec_value in E.
Qed.

(** ** ASCII text *)

Definition ascii (s : str) : Prop := Forall (fun c => code c < 0x80) s.

Lemma utf8_ascii_len s : ascii s -> length (utf8 s) = length s.
Proof.
  induction 1 as [|c s Hc _ IH]; [done|]. unfold utf8. cbn [flat_map].
  rewrite length_app, utf8_char_ascii by done. fold (utf8 s). cbn. by rewrite IH.
Qed.

Lemma utf8_ascii_bytes s : ascii s -> Forall (fun b => byte_val b < 0x80) (utf8 s).
Proof.
  induction 1 as [|c s Hc _ IH]; [constructor|]. unfold utf8. cbn [flat_map].
  apply Forall_app. split; [|exact IH]. rewrite utf8_char_ascii by done.
  pose proof (code_range c). repeat constructor. rewrite byte_val_of_Z_small; lia.
Qed.

Lemma ascii_str_len s : ascii s -> str_len s = len s.
Proof. intros H. unfold str_len, len. by rewrite utf8_ascii_len. Qed.

(** Visible ASCII is not white space. *)
Lemma visible_not_space c : 33 <= code c < 127 -> is_whitespace c = false.
Proof.
  intros H. unfold is_whitespace. cbv zeta.
  repeat (apply orb_false_iff; split); try (apply Z.eqb_neq; lia);
    apply andb_false_iff; rewrite !Z.leb_gt; lia.
Qed.
