(* ===== verification/Parsing.v ===== *)
(** * Decoding untrusted bytes

    The parts of Rust's core library the fuzz harness reads its input with: lossy
    UTF-8 decoding, [str::parse::<usize>] and the slice operations of its frame
    parser. *)

From S2P Require Import Prelude.
From S2P Require Import Rust.
From S2P Require Import Text.

(** ** Slices *)

(** [iter().position(|x| *x == y)]. *)
Fixpoint position {A} `{EqDecision A} (y : A) (l : list A) : option nat :=
  match l with
  | [] => None
  | x :: r => if bool_decide (x = y) then Some 0%nat else S <$> position y r
  end.

(** [slice::strip_prefix]. *)
Fixpoint strip_prefix {A} `{EqDecision A} (prefix l : list A) : option (list A) :=
  match prefix, l with
  | [], _ => Some l
  | p :: ps, x :: xs => if bool_decide (p = x) then strip_prefix ps xs else None
  | _ :: _, [] => None
  end.

(** [data.get(n..)] and [data.get(..n)]. *)
Definition get_from {A} (n : nat) (l : list A) : option (list A) :=
  if (n <=? length l)%nat then Some (drop n l) else None.
Definition get_to {A} (n : nat) (l : list A) : option (list A) :=
  if (n <=? length l)%nat then Some (take n l) else None.

(** [usize::div_ceil]. *)
Definition div_ceil (a b : Z) : Z := (a + b - 1) / b.

(** ** [str::parse::<usize>] *)

Definition parse_usize `{Arch} (s : str) : option Z :=
  let digits := match s with
                | c :: r => if code c =? 43 then r else s
                | [] => []
                end in
  match digits with
  | [] => None
  | _ => if forallb is_digit digits && (dec_value digits <=? usize_max)
         then Some (dec_value digits) else None
  end.

(** ** [String::from_utf8_lossy] *)

Definition REPLACEMENT : char := char_of_Z 0xFFFD.

Definition in_range (lo hi : Z) (b : byte) : bool := (lo <=? byte_val b) && (byte_val b <=? hi).

(** The second bytes a three- or four-byte sequence may have after its first. *)
Definition second_of_3 (x : Z) (b : byte) : bool :=
  if x =? 0xE0 then in_range 0xA0 0xBF b
  else if x =? 0xED then in_range 0x80 0x9F b
  else in_range 0x80 0xBF b.
Definition second_of_4 (x : Z) (b : byte) : bool :=
  if x =? 0xF0 then in_range 0x90 0xBF b
  else if x =? 0xF4 then in_range 0x80 0x8F b
  else in_range 0x80 0xBF b.

Definition low6 (b : byte) : Z := byte_val b - 0x80.

(** Every maximal prefix of a well-formed sequence that is not completed becomes
    one replacement character; decoding resumes at the byte that broke it. *)
Fixpoint from_utf8_lossy (bs : list byte) : str :=
  match bs with
  | [] => []
  | b0 :: r0 =>
      let x := byte_val b0 in
      if x <? 0x80 then char_of_Z x :: from_utf8_lossy r0
      else if (0xC2 <=? x) && (x <? 0xE0) then
        match r0 with
        | b1 :: r1 =>
            if is_continuation b1
            then char_of_Z ((x - 0xC0) * 64 + low6 b1) :: from_utf8_lossy r1
            else REPLACEMENT :: from_utf8_lossy r0
        | [] => [REPLACEMENT]
        end
      else if (0xE0 <=? x) && (x <? 0xF0) then
        match r0 with
        | b1 :: r1 =>
            if second_of_3 x b1 then
              match r1 with
              | b2 :: r2 =>
                  if is_continuation b2
                  then char_of_Z (((x - 0xE0) * 64 + low6 b1) * 64 + low6 b2)
                       :: from_utf8_lossy r2
                  else REPLACEMENT :: from_utf8_lossy r1
              | [] => [REPLACEMENT]
              end
            else REPLACEMENT :: from_utf8_lossy r0
        | [] => [REPLACEMENT]
        end
      else if (0xF0 <=? x) && (x <? 0xF5) then
        match r0 with
        | b1 :: r1 =>
            if second_of_4 x b1 then
              match r1 with
              | b2 :: r2 =>
                  if is_continuation b2 then
                    match r2 with
                    | b3 :: r3 =>
                        if is_continuation b3
                        then char_of_Z ((((x - 0xF0) * 64 + low6 b1) * 64 + low6 b2) * 64
                                        + low6 b3) :: from_utf8_lossy r3
                        else REPLACEMENT :: from_utf8_lossy r2
                    | [] => [REPLACEMENT]
                    end
                  else REPLACEMENT :: from_utf8_lossy r1
              | [] => [REPLACEMENT]
              end
            else REPLACEMENT :: from_utf8_lossy r0
        | [] => [REPLACEMENT]
        end
      else REPLACEMENT :: from_utf8_lossy r0
  end.

(** ** Facts *)

Section slices.
Context {A : Type} `{EqDecision A}.
Implicit Types (l k : list A) (x : A).

Lemma position_app x l k : x ∉ l -> position x (l ++ x :: k) = Some (length l).
Proof.
  induction l as [|y l IH]; cbn [position app]; intros H.
  - by rewrite bool_decide_true.
  - rewrite not_elem_of_cons in H. destruct H as [Hx Hl].
    rewrite bool_decide_false, IH by done. done.
Qed.

Lemma position_None x l : position x l = None <-> x ∉ l.
Proof.
  induction l as [|y l IH]; cbn [position]; [set_solver|].
  case_bool_decide as E; [subst; set_solver|].
  rewrite fmap_None, IH. set_solver.
Qed.

Lemma position_Some_lt x l i : position x l = Some i -> (i < length l)%nat.
Proof.
  revert i. induction l as [|y l IH]; cbn [position length]; intros i; [done|].
  case_bool_decide; [intros [= <-]; lia|]. intros (j & Hj & ->)%fmap_Some.
  apply IH in Hj. lia.
Qed.

Lemma strip_prefix_app l k : strip_prefix l (l ++ k) = Some k.
Proof.
  induction l as [|y l IH]; cbn [strip_prefix app]; [by destruct k|].
  by rewrite bool_decide_true.
Qed.

Lemma strip_prefix_Some l k r : strip_prefix l k = Some r <-> k = l ++ r.
Proof.
  split; [|intros ->; apply strip_prefix_app].
  revert k. induction l as [|y l IH]; intros k; cbn [strip_prefix app].
  - destruct k; congruence.
  - destruct k as [|z k]; [done|]. case_bool_decide; [|done]. subst. by intros ->%IH.
Qed.

End slices.

Section parse.
Context `{Arch}.

Lemma parse_usize_digits s :
  s <> [] -> Forall (fun c => is_digit c = true) s -> dec_value s <= usize_max ->
  parse_usize s = Some (dec_value s).
Proof.
  intros Hne Hd Hv. unfold parse_usize. destruct s as [|c s]; [done|].
  pose proof (Forall_inv Hd) as Hc. cbn beta in Hc.
  assert (code c =? 43 = false) as ->.
  { unfold is_digit in Hc. bool_hyps. apply Z.eqb_neq. lia. }
  rewrite (proj2 (forallb_Forall _ _) Hd), (proj2 (Z.leb_le _ _) Hv). done.
Qed.

Lemma fmt_dec_nonempty z : 0 <= z -> fmt_dec 0 z <> [].
Proof.
  intros Hz. rewrite fmt_dec_nonneg by done. cbn [Nat.sub replicate app dec_digits].
  case_match; [done|]. rewrite map_app. by destruct (map _ _).
Qed.

(** A printed number parses back. *)
Lemma parse_usize_fmt_dec n : 0 <= n <= usize_max -> parse_usize (fmt_dec 0 n) = Some n.
Proof.
  intros Hn. pose proof usize_max_bounds as Hu. unfold u64_max in Hu.
  assert (2 ^ 64 - 1 < 10 ^ 20) by done.
  assert (dec_value (fmt_dec 0 n) = n) as E by (apply fmt_dec_value; lia).
  rewrite parse_usize_digits, E; [done|apply fmt_dec_nonempty; lia|apply fmt_dec_digits; lia|lia].
Qed.

Lemma parse_usize_range s n : parse_usize s = Some n -> n <= usize_max.
Proof.
  unfold parse_usize. generalize (match s with c :: r => if code c =? 43 then r else s
    | [] => [] end). intros [|d ds]; [done|]. destruct (_ && _) eqn:E; [|done].
  intros [= <-]. by bool_hyps.
Qed.

End parse.

(** ** Well-formed text survives lossy decoding *)

(** The digits of a code point in base 64, as bytes see them. *)
Lemma base64_digits z :
  0 <= z < 0x110000 ->
  exists a b c d, z / 262144 = a /\ z / 4096 mod 64 = b /\ z / 64 mod 64 = c /\ z mod 64 = d /\
    z / 4096 = a * 64 + b /\ z / 64 = (a * 64 + b) * 64 + c /\
    z = ((a * 64 + b) * 64 + c) * 64 + d /\
    0 <= a < 5 /\ 0 <= b < 64 /\ 0 <= c < 64 /\ 0 <= d < 64.
Proof.
  intros Hz. eexists _, _, _, _. do 4 (split; [reflexivity|]).
  replace (z / 4096) with (z / 64 / 64) by (by rewrite Z.div_div).
  replace (z / 262144) with (z / 64 / 64 / 64) by (by rewrite !Z.div_div).
  pose proof (Z.div_mod z 64 ltac:(done)). pose proof (Z.div_mod (z / 64) 64 ltac:(done)).
  pose proof (Z.div_mod (z / 64 / 64) 64 ltac:(done)).
  pose proof (Z.mod_pos_bound z 64 ltac:(done)).
  pose proof (Z.mod_pos_bound (z / 64) 64 ltac:(done)).
  pose proof (Z.mod_pos_bound (z / 64 / 64) 64 ltac:(done)). lia.
Qed.

(** [tests] decides the comparisons of a goal. *)
Ltac tests :=
  repeat match goal with
  | |- context [?a <? ?b] => destruct (Z.ltb_spec a b); [try lia|try lia]
  | |- context [?a <=? ?b] => destruct (Z.leb_spec a b); [try lia|try lia]
  | |- context [?a =? ?b] => destruct (Z.eqb_spec a b); [try lia|try lia]
  end; try done.

Lemma second_of_3_ok y z :
  0 <= z < 64 -> (y = 0 -> 32 <= z) -> (y = 13 -> z < 32) ->
  second_of_3 (0xE0 + y) (byte_of_Z (0x80 + z)) = true.
Proof.
  intros Hz H0 H13. unfold second_of_3, in_range. rewrite byte_val_of_Z_small by lia. tests.
Qed.

Lemma second_of_4_ok x y :
  0 <= y < 64 -> (x = 0 -> 16 <= y) -> (x = 4 -> y < 16) ->
  second_of_4 (0xF0 + x) (byte_of_Z (0x80 + y)) = true.
Proof.
  intros Hz H0 H4. unfold second_of_4, in_range. rewrite byte_val_of_Z_small by lia. tests.
Qed.

Lemma low6_of_Z z : 0 <= z < 64 -> low6 (byte_of_Z (0x80 + z)) = z.
Proof. intros H. unfold low6. rewrite byte_val_of_Z_small by lia. lia. Qed.

(** A test [b] whose value [v] is known. *)
Ltac known b v := let H := fresh in assert (b = v) as H by tests; rewrite H; clear H; cbn [andb].

Lemma lossy_2 z t rest :
  2 <= z < 32 -> 0 <= t < 64 ->
  from_utf8_lossy (byte_of_Z (0xC0 + z) :: byte_of_Z (0x80 + t) :: rest)
  = char_of_Z (z * 64 + t) :: from_utf8_lossy rest.
Proof.
  intros Hz Ht. cbn [from_utf8_lossy]. rewrite byte_val_of_Z_small by lia.
  known (0xC0 + z <? 0x80) false. known ((0xC2 <=? 0xC0 + z) && (0xC0 + z <? 0xE0)) true.
  rewrite is_continuation_of_Z, low6_of_Z by done. do 2 f_equal. lia.
Qed.

Lemma lossy_3 y z t rest :
  0 <= y < 16 -> 0 <= z < 64 -> 0 <= t < 64 -> (y = 0 -> 32 <= z) -> (y = 13 -> z < 32) ->
  from_utf8_lossy (byte_of_Z (0xE0 + y) :: byte_of_Z (0x80 + z) :: byte_of_Z (0x80 + t) :: rest)
  = char_of_Z ((y * 64 + z) * 64 + t) :: from_utf8_lossy rest.
Proof.
  intros Hy Hz Ht H0 H13. cbn [from_utf8_lossy]. rewrite byte_val_of_Z_small by lia.
  known (0xE0 + y <? 0x80) false. known ((0xC2 <=? 0xE0 + y) && (0xE0 + y <? 0xE0)) false.
  known ((0xE0 <=? 0xE0 + y) && (0xE0 + y <? 0xF0)) true.
  rewrite second_of_3_ok, is_continuation_of_Z, !low6_of_Z by done. do 2 f_equal. lia.
Qed.

Lemma lossy_4 x y z t rest :
  0 <= x < 5 -> 0 <= y < 64 -> 0 <= z < 64 -> 0 <= t < 64 ->
  (x = 0 -> 16 <= y) -> (x = 4 -> y < 16) ->
  from_utf8_lossy (byte_of_Z (0xF0 + x) :: byte_of_Z (0x80 + y) :: byte_of_Z (0x80 + z)
                   :: byte_of_Z (0x80 + t) :: rest)
  = char_of_Z (((x * 64 + y) * 64 + z) * 64 + t) :: from_utf8_lossy rest.
Proof.
  intros Hx Hy Hz Ht H0 H4. cbn [from_utf8_lossy]. rewrite byte_val_of_Z_small by lia.
  known (0xF0 + x <? 0x80) false. known ((0xC2 <=? 0xF0 + x) && (0xF0 + x <? 0xE0)) false.
  known ((0xE0 <=? 0xF0 + x) && (0xF0 + x <? 0xF0)) false.
  known ((0xF0 <=? 0xF0 + x) && (0xF0 + x <? 0xF5)) true.
  rewrite second_of_4_ok, !is_continuation_of_Z, !low6_of_Z by done. do 2 f_equal. lia.
Qed.

Lemma lossy_char c rest :
  from_utf8_lossy (utf8_char c ++ rest) = c :: from_utf8_lossy rest.
Proof.
  rewrite <- (char_of_Z_code c) at 2.
  pose proof (code_range c) as Hr. unfold utf8_char.
  destruct (base64_digits (code c)) as (x & y & z & t & -> & -> & -> & -> & -> & -> & E & Hx & Hy & Hz & Ht);
    [lia|]. generalize dependent (code c). intros k Hr E.
  destruct (Z.ltb_spec k 0x80); [|destruct (Z.ltb_spec k 0x800); [|destruct (Z.ltb_spec k 0x10000)]];
    cbn [app].
  - cbn [from_utf8_lossy]. rewrite byte_val_of_Z_small by lia. by known (k <? 0x80) true.
  - assert (x = 0 /\ y = 0 /\ 2 <= z < 32) as (-> & -> & ?) by lia.
    rewrite lossy_2 by lia. do 2 f_equal. lia.
  - assert (x = 0 /\ y < 16 /\ (y = 0 -> 32 <= z) /\ (y = 13 -> z < 32)) as (-> & ? & ? & ?) by lia.
    rewrite lossy_3 by lia. do 2 f_equal. lia.
  - assert ((x = 0 -> 16 <= y) /\ (x = 4 -> y < 16)) as [? ?] by lia.
    rewrite lossy_4 by lia. do 2 f_equal. lia.
Qed.

Lemma lossy_utf8 s : from_utf8_lossy (utf8 s) = s.
Proof.
  induction s as [|c s IH]; [done|]. unfold utf8. cbn [flat_map].
  rewrite lossy_char. fold (utf8 s). by rewrite IH.
Qed.
