(* ===== verification/System.v ===== *)
(** * The operating environment

    The crate reaches the operating system through [getrandom::fill] and
    [SysRng] (randomness), [SystemTime::now] (the clock) and [fs::read] (key
    files).  They are operations over an abstract [world] that computations
    thread explicitly, so the order of the draws is visible in the model.
    [SystemLaws] states the documented facts the theorems use. *)

From S2P Require Import Prelude.
From S2P Require Import Rust.
From S2P Require Import Text.

(** A [SystemTime] as seconds and nanoseconds relative to the Unix epoch. *)
Record SystemTime := { st_secs : Z; st_nanos : Z }.

(** [std::time::Duration]. *)
Record Duration := { dur_secs : Z; dur_nanos : Z }.

Class System := {
  world : Type;
  path : Type;
  io_error : Type;
  (** [getrandom::fill] on a buffer of the given length. *)
  getrandom_fill : nat -> world -> option (list byte) * world;
  (** [SystemTime::now]. *)
  system_time_now : world -> SystemTime * world;
  (** [fs::read]. *)
  fs_read : path -> world -> result io_error (list byte);
  (** The lossy rendering [Path::display] gives a path. *)
  path_display : path -> str;
}.

Class SystemLaws (S : System) : Prop := {
  (** A successful fill writes the whole buffer. *)
  getrandom_fill_len n w bs w' :
    getrandom_fill n w = (Some bs, w') -> length bs = n;
  (** The clock reads an [i64] number of seconds and a normalised nanosecond part. *)
  system_time_now_range w t w' :
    system_time_now w = (t, w') ->
    - 2 ^ 63 <= st_secs t < 2 ^ 63 /\ 0 <= st_nanos t < 1000000000;
}.

(** The environments in which the operating system serves the process, a parameter
    of the theorems that promise success: what they assume of the random source and
    of the clock they assume of healthy environments only. *)
Class Health `{System} := healthy : world -> Prop.

(** [SystemTime::duration_since(UNIX_EPOCH)]: an error before the epoch. *)
Definition duration_since_epoch (t : SystemTime) : option Duration :=
  if st_secs t <? 0 then None
  else Some {| dur_secs := st_secs t; dur_nanos := st_nanos t |}.

(** [Duration::subsec_micros]. *)
Definition subsec_micros (d : Duration) : Z := dur_nanos d / 1000.
