(* ===== verification/Error.v ===== *)
(** * Error values (src/error.rs)

    The redacted error enums and their [Display] output. *)

From S2P Require Import Prelude.
From S2P Require Import Rust.
From S2P Require Import Text.
From S2P Require Import System.

Module AdapterErrorKind.
Inductive t :=
| InvalidMapping
| MissingField
| DuplicateField
| InvalidField.

(** The derived [Debug]. *)
Definition debug (k : t) : str :=
  match k with
  | InvalidMapping => lit "InvalidMapping"
  | MissingField => lit "MissingField"
  | DuplicateField => lit "DuplicateField"
  | InvalidField => lit "InvalidField"
  end.
End AdapterErrorKind.

#[export] Instance adapter_error_kind_eq_dec : EqDecision AdapterErrorKind.t.
Proof. solve_decision. Defined.

Module AdapterError.
Record t := new { kind : AdapterErrorKind.t }.

Definition display (e : t) : str :=
  lit "protocol adapter failed: " ++ AdapterErrorKind.debug (kind e).
End AdapterError.

#[export] Instance adapter_error_eq_dec : EqDecision AdapterError.t.
Proof. solve_decision. Defined.

(** [AdapterResult<T>]. *)
Abbreviation AdapterResult := (result AdapterError.t).

Module KeyKind.
Inductive t := LocalPrivate | PeerPublic.

Definition debug (k : t) : str :=
  match k with
  | LocalPrivate => lit "LocalPrivate"
  | PeerPublic => lit "PeerPublic"
  end.
End KeyKind.

Module Error.
Section error.
Context `{Sys : System}.

Inductive t :=
| Configuration (field : string)
| KeyMaterial (kind : KeyKind.t)
| MessageTooLarge (limit : Z)
| Serialization
| Encryption
| AuthenticationContext
| InvalidHeader
| HeaderConflict
| ProtocolAdapter
| InvalidEnvelope
| Io (operation : string) (path : path) (source : io_error).

(** The [#[error("...")]] messages. *)
Definition display (e : t) : str :=
  match e with
  | Configuration field => lit "invalid configuration field: " ++ lit field
  | KeyMaterial kind => lit "invalid " ++ KeyKind.debug kind ++ lit " key material"
  | MessageTooLarge limit =>
      lit "message exceeds the configured " ++ fmt_dec 0 limit ++ lit "-byte limit"
  | Serialization => lit "serialization failed"
  | Encryption => lit "encryption failed"
  | AuthenticationContext =>
      lit "authentication context is invalid for the configured mode"
  | InvalidHeader => lit "invalid header"
  | HeaderConflict => lit "header conflict"
  | ProtocolAdapter => lit "protocol adapter failed"
  | InvalidEnvelope => lit "invalid secure envelope"
  | Io operation path _ =>
      lit "I/O operation " ++ lit operation ++ lit " failed for " ++ path_display path
  end.
End error.
End Error.

(** [Result<T>] and a fallible computation over the environment. *)
Abbreviation Result := (result Error.t).
Abbreviation IO := (io world Error.t).
