(* ===== verification/Header.v ===== *)
(** * Transport headers (src/header.rs)

    Case-insensitive header names, line-safe values, and the ordered collection
    of unique headers that requests are built from. *)

From S2P Require Import Prelude.
From S2P Require Import Rust.
From S2P Require Import Text.
From S2P Require Import System.
From S2P Require Import Error.

(** ** Names and values *)

Definition is_token_byte (byte : byte) : bool :=
  is_ascii_alphanumeric byte
  || existsb (fun b => bool_decide (byte = b)) (bytes_lit "!#$%&'*+-.^_`|~").

Definition is_disallowed_value_character (character : char) : bool :=
  ((code character <=? 0x1f) && negb (code character =? 9)) || (code character =? 0x7f).

Module HeaderName.
Record t := Build { original : str; canonical : str }.

Definition new `{System} (name : str) : Result t :=
  if str_is_empty name || negb (forallb is_token_byte (utf8 name))
  then Err Error.InvalidHeader
  else Ok {| original := name; canonical := to_ascii_lowercase name |}.

Definition as_str (n : t) : str := original n.

(** [impl fmt::Debug for HeaderName]. *)
Definition debug (n : t) : dbg := DTuple "HeaderName" [DStr (original n)].

(** [PartialEq], [Ord] and the value fed to [Hash], all on the canonical form. *)
Definition eq (a b : t) : bool := bool_decide (canonical a = canonical b).
Definition cmp (a b : t) : comparison := str_cmp (canonical a) (canonical b).
Definition partial_cmp (a b : t) : option comparison := Some (cmp a b).
Definition hash (a : t) : list byte := utf8 (canonical a).
End HeaderName.

Module HeaderValue.
Record t := Build { value : str }.

Definition new `{System} (v : str) : Result t :=
  if existsb is_disallowed_value_character v
  then Err Error.InvalidHeader
  else Ok {| value := v |}.

Definition as_str (v : t) : str := value v.

(** [impl fmt::Debug for HeaderValue]: the value is redacted. *)
Definition debug (v : t) : dbg := DTuple "HeaderValue" [DStr (lit "<redacted>")].
End HeaderValue.

#[export] Instance header_name_eq_dec : EqDecision HeaderName.t.
Proof. solve_decision. Defined.
#[export] Instance header_value_eq_dec : EqDecision HeaderValue.t.
Proof. solve_decision. Defined.

(** ** The collection *)

Module HeaderCollection.
Record t := Build { entries : list (HeaderName.t * HeaderValue.t) }.

Definition default : t := {| entries := [] |}.

Section collection.
Context `{Sys : System}.

(** [insert_typed]: the collection after the push, or a conflict. *)
Definition insert_typed (c : t) (name : HeaderName.t) (value : HeaderValue.t) : Result t :=
  if existsb (fun '(candidate, _) => HeaderName.eq candidate name) (entries c)
  then Err Error.HeaderConflict
  else Ok {| entries := entries c ++ [(name, value)] |}.

Definition insert (c : t) (name value : str) : Result t :=
  name ← HeaderName.new name;
  value ← HeaderValue.new value;
  insert_typed c name value.

(** The [for] loops: one fallible insertion after the other. *)
Fixpoint insert_all (c : t) (headers : list (str * str)) : Result t :=
  match headers with
  | [] => Ok c
  | (name, value) :: rest => c' ← insert c name value; insert_all c' rest
  end.

Fixpoint insert_all_typed (c : t) (headers : list (HeaderName.t * HeaderValue.t)) : Result t :=
  match headers with
  | [] => Ok c
  | (name, value) :: rest => c' ← insert_typed c name value; insert_all_typed c' rest
  end.

Definition from_pairs (headers : list (str * str)) : Result t :=
  insert_all default headers.

Definition raw_pairs (c : t) : list (str * str) :=
  map (fun '(n, v) => (HeaderName.as_str n, HeaderValue.as_str v)) (entries c).

Definition revalidate (c : t) : Result unit :=
  _ ← insert_all default (raw_pairs c);
  Ok tt.

Definition from_typed_pairs (headers : list (HeaderName.t * HeaderValue.t)) : Result t :=
  collection ← insert_all_typed default headers;
  _ ← revalidate collection;
  Ok collection.

(** [append_checked(&mut self, other)]: the outcome and the collection left in
    [self]. *)
Definition append_checked (self other : t) : Result unit * t :=
  match revalidate self with
  | Err e => (Err e, self)
  | Ok _ =>
      match revalidate other with
      | Err e => (Err e, self)
      | Ok _ =>
          if existsb (fun '(candidate, _) =>
               existsb (fun '(name, _) => HeaderName.eq name candidate) (entries self))
               (entries other)
          then (Err Error.HeaderConflict, self)
          else (Ok tt, {| entries := entries self ++ entries other |})
      end
  end.

Definition get (c : t) (name : str) : option HeaderValue.t :=
  match find (fun '(candidate, _) => eq_ignore_ascii_case (HeaderName.as_str candidate) name)
          (entries c) with
  | Some (_, value) => Some value
  | None => None
  end.

Definition iter (c : t) : list (HeaderName.t * HeaderValue.t) := entries c.
Definition len (c : t) : Z := Prelude.len (entries c).
Definition is_empty (c : t) : bool := match entries c with [] => true | _ => false end.
Definition into_pairs (c : t) : list (HeaderName.t * HeaderValue.t) := entries c.

(** The derived [Debug]. *)
Definition debug (c : t) : dbg :=
  DStruct "HeaderCollection"
    [("entries"%string,
      DList (map (fun '(n, v) => DTuple "" [HeaderName.debug n; HeaderValue.debug v])
               (entries c)))].

End collection.
End HeaderCollection.

#[export] Instance header_collection_eq_dec : EqDecision HeaderCollection.t.
Proof. solve_decision. Defined.

(** ** Well-formedness *)

(** The documented syntax of names and values. *)
Definition valid_name (s : str) : Prop :=
  s <> [] /\ Forall (fun b => is_token_byte b = true) (utf8 s).
Definition valid_value (s : str) : Prop :=
  Forall (fun c => is_disallowed_value_character c = false) s.

#[export] Instance valid_name_dec s : Decision (valid_name s).
Proof. unfold valid_name. apply _. Defined.
#[export] Instance valid_value_dec s : Decision (valid_value s).
Proof. unfold valid_value. apply _. Defined.

(** A list of raw pairs that may form a collection: every name and value is
    valid and no two names are equal up to ASCII case. *)
Definition valid_pairs (hs : list (str * str)) : Prop :=
  Forall (fun '(n, v) => valid_name n /\ valid_value v) hs /\
  NoDup (map (fun '(n, _) => to_ascii_lowercase n) hs).

Definition name_wf (n : HeaderName.t) : Prop :=
  valid_name (HeaderName.original n) /\
  HeaderName.canonical n = to_ascii_lowercase (HeaderName.original n).
Definition value_wf (v : HeaderValue.t) : Prop := valid_value (HeaderValue.value v).

(** The invariant of [HeaderCollection]. *)
Definition collection_wf (c : HeaderCollection.t) : Prop :=
  Forall (fun '(n, v) => name_wf n /\ value_wf v) (HeaderCollection.entries c) /\
  NoDup (map (fun '(n, _) => HeaderName.canonical n) (HeaderCollection.entries c)).

(** The entry a raw pair becomes. *)
Definition entry_of (h : str * str) : HeaderName.t * HeaderValue.t :=
  (HeaderName.Build h.1 (to_ascii_lowercase h.1), HeaderValue.Build h.2).
Definition collection_of (hs : list (str * str)) : HeaderCollection.t :=
  HeaderCollection.Build (map entry_of hs).

Section names.
Context `{Sys : System}.

Lemma header_name_new_Ok s n :
  HeaderName.new s = Ok n <->
  valid_name s /\ n = HeaderName.Build s (to_ascii_lowercase s).
Proof.
  unfold HeaderName.new, valid_name.
  destruct s as [|c s]; cbn [str_is_empty orb]; [naive_solver|].
  destruct (forallb is_token_byte (utf8 (c :: s))) eqn:E; cbn [negb].
  - apply forallb_Forall in E. naive_solver.
  - split; [done|]. intros [[_ H] _]. apply forallb_Forall in H. congruence.
Qed.

Lemma header_name_new_Err s e : HeaderName.new s = Err e <-> e = Error.InvalidHeader /\ ~ valid_name s.
Proof.
  destruct (HeaderName.new s) eqn:E.
  - apply header_name_new_Ok in E. naive_solver.
  - assert (Hn : ~ valid_name s).
    { intros Hv. enough (HeaderName.new s = Ok (HeaderName.Build s (to_ascii_lowercase s)))
        by congruence. by apply header_name_new_Ok. }
    unfold HeaderName.new in E. case_match; naive_solver.
Qed.

Lemma header_value_new_Ok s v :
  HeaderValue.new s = Ok v <-> valid_value s /\ v = HeaderValue.Build s.
Proof.
  unfold HeaderValue.new, valid_value. rewrite <- existsb_false_Forall.
  destruct (existsb _ s); naive_solver.
Qed.

Lemma header_value_new_Err s e : HeaderValue.new s = Err e <-> e = Error.InvalidHeader /\ ~ valid_value s.
Proof.
  unfold HeaderValue.new, valid_value. rewrite <- existsb_false_Forall.
  destruct (existsb _ s); naive_solver.
Qed.

Lemma header_name_new_wf s n : HeaderName.new s = Ok n -> name_wf n.
Proof. rewrite header_name_new_Ok. by intros [H ->]. Qed.

Lemma header_value_new_wf s v : HeaderValue.new s = Ok v -> value_wf v.
Proof. rewrite header_value_new_Ok. by intros [H ->]. Qed.

Lemma entry_of_raw n v :
  name_wf n -> entry_of (HeaderName.original n, HeaderValue.value v) = (n, v).
Proof. destruct n, v. intros [_ H]; cbn in *. unfold entry_of; cbn. by rewrite <- H. Qed.

End names.
#[export] Hint Resolve header_name_new_wf header_value_new_wf : envelope.

Section collections.
Context `{Sys : System}.
Import HeaderCollection.

Lemma raw_pairs_of hs : raw_pairs (collection_of hs) = hs.
Proof.
  unfold raw_pairs, collection_of; cbn. rewrite map_map.
  rewrite <- (map_id hs) at 2. apply map_ext. by intros [n v].
Qed.

Lemma collection_of_raw c :
  Forall (fun '(n, v) => name_wf n /\ value_wf v) (entries c) ->
  collection_of (raw_pairs c) = c.
Proof.
  destruct c as [es]; unfold collection_of, raw_pairs; cbn. intros H. f_equal.
  rewrite map_map. induction H as [|[n v] es [Hn Hv] H IH]; [done|].
  cbn. f_equal; [by apply entry_of_raw|done].
Qed.

Lemma canonical_entries hs :
  map (fun '(n, _) => HeaderName.canonical n) (map entry_of hs)
  = map (fun '(n, _) => to_ascii_lowercase n) hs.
Proof. rewrite map_map. apply map_ext. by intros [n v]. Qed.

Lemma collection_of_wf hs : collection_wf (collection_of hs) <-> valid_pairs hs.
Proof.
  unfold collection_wf, valid_pairs, collection_of; cbn [entries].
  rewrite canonical_entries, Forall_map.
  enough (Forall ((fun '(n, v) => name_wf n /\ value_wf v) ∘ entry_of) hs <->
          Forall (fun '(n, v) => valid_name n /\ valid_value v) hs) by tauto.
  apply Forall_iff. intros [n v]. unfold name_wf, value_wf; cbn. tauto.
Qed.

Lemma collection_wf_raw c :
  collection_wf c -> collection_of (raw_pairs c) = c /\ valid_pairs (raw_pairs c).
Proof.
  intros Hc. assert (E : collection_of (raw_pairs c) = c) by (apply collection_of_raw, Hc).
  split; [done|]. apply collection_of_wf. by rewrite E.
Qed.

Lemma valid_pairs_app_inv hs ks :
  valid_pairs (hs ++ ks) -> valid_pairs hs /\ valid_pairs ks.
Proof.
  unfold valid_pairs. rewrite Forall_app, map_app, NoDup_app. tauto.
Qed.

Lemma valid_pairs_snoc hs n v :
  valid_pairs (hs ++ [(n, v)]) <->
  valid_pairs hs /\ valid_name n /\ valid_value v /\
  to_ascii_lowercase n ∉ map (fun '(m, _) => to_ascii_lowercase m) hs.
Proof.
  unfold valid_pairs. rewrite Forall_app, Forall_singleton, map_app. cbn [map].
  rewrite (NoDup_app (map _ hs)). setoid_rewrite list_elem_of_singleton.
  pose proof (NoDup_singleton (to_ascii_lowercase n)). naive_solver.
Qed.

(** One insertion into a collection of raw pairs. *)
Lemma existsb_entry_of hs (n : HeaderName.t) :
  existsb (fun '(candidate, _) => HeaderName.eq candidate n) (map entry_of hs) = true
  <-> HeaderName.canonical n ∈ map (fun '(m, _) => to_ascii_lowercase m) hs.
Proof.
  rewrite existsb_exists, <- canonical_entries, list_elem_of_fmap.
  setoid_rewrite list_elem_of_In. unfold HeaderName.eq.
  split.
  - intros ([m v] & Hin & E). apply bool_decide_eq_true in E. exists (m, v). done.
  - intros ([m v] & E & Hin). exists (m, v). split; [done|]. by apply bool_decide_eq_true.
Qed.

(** The names of a list of raw pairs, folded to lower case. *)
Definition lower_names (hs : list (str * str)) : list str :=
  map (fun '(n, _) => to_ascii_lowercase n) hs.

(** [insert] on every branch: a syntax error first, then a name clash, otherwise
    the pair is appended with its casing. *)
Lemma insert_collection_of hs n v :
  insert (collection_of hs) n v =
  if decide (valid_name n /\ valid_value v) then
    if decide (to_ascii_lowercase n ∈ lower_names hs)
    then Err Error.HeaderConflict
    else Ok (collection_of (hs ++ [(n, v)]))
  else Err Error.InvalidHeader.
Proof.
  unfold insert.
  destruct (HeaderName.new n) as [n'|e] eqn:En; cbn.
  2: { apply header_name_new_Err in En as [-> Hn]. by rewrite decide_False by tauto. }
  apply header_name_new_Ok in En as [Hn ->].
  destruct (HeaderValue.new v) as [v'|e] eqn:Ev; cbn.
  2: { apply header_value_new_Err in Ev as [-> Hv]. by rewrite decide_False by tauto. }
  apply header_value_new_Ok in Ev as [Hv ->].
  rewrite decide_True by done. unfold insert_typed. cbn [entries collection_of].
  pose proof (existsb_entry_of hs (HeaderName.Build n (to_ascii_lowercase n))) as Hex.
  destruct (existsb _ _) eqn:E.
  - rewrite decide_True; [done|]. by apply Hex.
  - rewrite decide_False; [|intros Hin; apply Hex in Hin; congruence].
    unfold collection_of. by rewrite map_app.
Qed.

(** The loop over raw pairs succeeds exactly when the whole list is valid. *)
Lemma insert_all_Ok hs ks c :
  valid_pairs hs ->
  insert_all (collection_of hs) ks = Ok c <->
  valid_pairs (hs ++ ks) /\ c = collection_of (hs ++ ks).
Proof.
  revert hs. induction ks as [|[n v] ks IH]; intros hs Hhs; cbn [insert_all].
  - rewrite app_nil_r. naive_solver.
  - rewrite insert_collection_of.
    replace (hs ++ (n, v) :: ks) with ((hs ++ [(n, v)]) ++ ks) by (by rewrite <- app_assoc).
    pose proof (valid_pairs_snoc hs n v) as Hsnoc. fold (lower_names hs) in Hsnoc.
    pose proof (valid_pairs_app_inv (hs ++ [(n, v)]) ks) as Happ.
    case_decide as Hv; [case_decide as Hin|]; cbn.
    + split; [done|]. intros [[Hp _]%Happ _]. tauto.
    + apply IH. tauto.
    + split; [done|]. intros [[Hp _]%Happ _]. tauto.
Qed.

Lemma insert_all_Err hs ks e :
  insert_all (collection_of hs) ks = Err e -> e = Error.InvalidHeader \/ e = Error.HeaderConflict.
Proof.
  revert hs. induction ks as [|[n v] ks IH]; intros hs; cbn [insert_all]; [done|].
  rewrite insert_collection_of. repeat case_decide; cbn; [naive_solver|apply IH|naive_solver].
Qed.

Lemma from_pairs_Ok hs c :
  from_pairs hs = Ok c <-> valid_pairs hs /\ c = collection_of hs.
Proof. apply (insert_all_Ok []). split; constructor. Qed.

Lemma revalidate_Ok c u : revalidate c = Ok u <-> valid_pairs (raw_pairs c).
Proof.
  unfold revalidate. rewrite bind_Ok. setoid_rewrite (insert_all_Ok [] _ _ ltac:(split; constructor)).
  destruct u. naive_solver.
Qed.

Lemma revalidate_wf c : collection_wf c -> revalidate c = Ok tt.
Proof. intros H. by apply revalidate_Ok, collection_wf_raw. Qed.

(** [insert_typed] keeps the invariant. *)
Lemma insert_typed_wf c n v c' :
  collection_wf c -> name_wf n -> value_wf v ->
  insert_typed c n v = Ok c' -> collection_wf c' /\ entries c' = entries c ++ [(n, v)].
Proof.
  intros [Hf Hd] Hn Hv. unfold insert_typed. case_match eqn:E; [done|].
  intros [= <-]. split; [|done]. split; cbn.
  - apply Forall_app; split; [done|]. by apply Forall_singleton.
  - rewrite map_app. apply NoDup_app. split; [done|]. split; [|apply NoDup_singleton].
    intros x Hx ->%list_elem_of_singleton.
    apply list_elem_of_fmap in Hx as ([m w] & Em & Hin).
    apply existsb_false_Forall in E. rewrite Forall_forall in E.
    specialize (E _ Hin). unfold HeaderName.eq in E. apply bool_decide_eq_false in E.
    by symmetry in Em.
Qed.

Lemma insert_all_typed_wf c hs c' :
  collection_wf c -> Forall (fun '(n, v) => name_wf n /\ value_wf v) hs ->
  insert_all_typed c hs = Ok c' -> collection_wf c' /\ entries c' = entries c ++ hs.
Proof.
  intros Hc Hhs. revert c Hc. induction Hhs as [|[n v] hs [Hn Hv] Hhs IH]; intros c Hc; cbn.
  - intros [= ->]. by rewrite app_nil_r.
  - rewrite bind_Ok. intros (c1 & H1 & H2).
    apply insert_typed_wf in H1 as [Hw1 E1]; [|done..].
    apply IH in H2 as [Hw2 E2]; [|done]. split; [done|].
    by rewrite E2, E1, <- app_assoc.
Qed.

End collections.

(** ** Appending caller headers to protocol headers *)

Section append.
Context `{Sys : System}.
Import HeaderCollection.

(** Entries made by the constructors, possibly with clashing names. *)
Definition entries_wf (c : t) : Prop :=
  Forall (fun '(n, v) => name_wf n /\ value_wf v) (entries c).

Definition canonical_names (c : t) : list str :=
  map (fun '(n, _) => HeaderName.canonical n) (entries c).

Lemma revalidate_entries c u :
  entries_wf c -> revalidate c = Ok u <-> collection_wf c.
Proof.
  intros Hc. rewrite revalidate_Ok, <- collection_of_wf.
  by rewrite collection_of_raw.
Qed.

Lemma revalidate_Err c e :
  revalidate c = Err e -> e = Error.InvalidHeader \/ e = Error.HeaderConflict.
Proof.
  unfold revalidate. rewrite bind_Err. intros [H|(? & _ & H)]; [|done].
  by apply (insert_all_Err []) in H.
Qed.

Lemma clash_iff (self other : t) :
  existsb (fun '(candidate, _) =>
    existsb (fun '(name, _) => HeaderName.eq name candidate) (entries self)) (entries other)
  = true <-> exists n, n ∈ canonical_names self /\ n ∈ canonical_names other.
Proof.
  unfold canonical_names. rewrite existsb_exists. setoid_rewrite list_elem_of_fmap.
  unfold HeaderName.eq. split.
  - intros ([m w] & Hin & H). apply existsb_exists in H as ([n v] & Hin' & E).
    apply bool_decide_eq_true in E. exists (HeaderName.canonical m). split.
    + exists (n, v). split; [done|by apply list_elem_of_In].
    + exists (m, w). split; [done|by apply list_elem_of_In].
  - intros (x & ([n v] & -> & Hin) & ([m w] & E & Hin')).
    exists (m, w). split; [by apply list_elem_of_In|].
    apply existsb_exists. exists (n, v). split; [by apply list_elem_of_In|].
    by apply bool_decide_eq_true.
Qed.

Lemma app_wf self other :
  collection_wf self -> collection_wf other ->
  (forall n, n ∈ canonical_names self -> n ∉ canonical_names other) ->
  collection_wf (Build (entries self ++ entries other)).
Proof.
  intros [Hs Ds] [Ho Do] Hd. split; cbn.
  - by apply Forall_app.
  - rewrite map_app. apply NoDup_app. auto.
Qed.

Lemma app_wf_inv self other :
  collection_wf (Build (entries self ++ entries other)) ->
  forall n, n ∈ canonical_names self -> n ∉ canonical_names other.
Proof.
  intros [_ D]. cbn in D. rewrite map_app in D. by apply NoDup_app in D as (_ & H & _).
Qed.

Lemma append_checked_Ok self other self' :
  entries_wf self -> entries_wf other ->
  append_checked self other = (Ok tt, self') <->
  collection_wf self /\ collection_wf other /\ collection_wf self' /\
  entries self' = entries self ++ entries other.
Proof.
  intros Hs Ho. unfold append_checked.
  destruct (revalidate self) as [[]|e] eqn:Es.
  2: { split; [done|]. intros (H & _). apply revalidate_wf in H. congruence. }
  destruct (revalidate other) as [[]|e] eqn:Eo.
  2: { split; [done|]. intros (_ & H & _). apply revalidate_wf in H. congruence. }
  apply revalidate_entries in Es; [|done]. apply revalidate_entries in Eo; [|done].
  destruct (existsb _ (entries other)) eqn:E.
  - split; [done|]. intros (_ & _ & Hw & Ee). apply clash_iff in E as (n & H1 & H2).
    destruct self' as [es]. cbn in Ee. subst es. by destruct (app_wf_inv _ _ Hw n).
  - split.
    + intros [= <-]. refine (conj Es (conj Eo (conj _ eq_refl))).
      apply app_wf; [done..|]. intros n H1 H2.
      enough (false = true) by done. rewrite <- E. apply clash_iff. eauto.
    + intros (_ & _ & _ & Ee). destruct self' as [es]. cbn in Ee. by subst.
Qed.

Lemma append_checked_Err self other e self' :
  append_checked self other = (Err e, self') ->
  (e = Error.InvalidHeader \/ e = Error.HeaderConflict) /\ self' = self.
Proof.
  unfold append_checked. destruct (revalidate self) eqn:Es.
  2: { intros [= <- <-]. split; [by eapply revalidate_Err|done]. }
  destruct (revalidate other) eqn:Eo.
  2: { intros [= <- <-]. split; [by eapply revalidate_Err|done]. }
  case_match; intros [= <- <-]. auto.
Qed.

(** C22. [HeaderCollection::append_checked] is atomic and never overrides: either
    it succeeds, and then the receiver holds its own headers followed by the
    appended ones, in order, with all names distinct up to case, or it reports
    [InvalidHeader] or [HeaderConflict] and leaves the receiver unchanged; on
    two valid collections it fails exactly when they share a name, with
    [HeaderConflict]. *)
Theorem append_checked_atomic self other r self' :
  entries_wf self -> entries_wf other ->
  append_checked self other = (r, self') ->
  (r = Ok tt /\ entries self' = entries self ++ entries other /\ collection_wf self' \/
   (r = Err Error.InvalidHeader \/ r = Err Error.HeaderConflict) /\ self' = self) /\
  (collection_wf self -> collection_wf other ->
   if decide (Exists (fun n => n ∈ canonical_names other) (canonical_names self))
   then r = Err Error.HeaderConflict else r = Ok tt).
Proof.
  intros Hs Ho H. split.
  - destruct r as [[]|e].
    + left. apply append_checked_Ok in H as (_ & _ & ? & ?); [|done..]. done.
    + right. apply append_checked_Err in H as [He ->]. naive_solver.
  - intros Ws Wo. unfold append_checked in H.
    rewrite (revalidate_wf _ Ws), (revalidate_wf _ Wo) in H.
    pose proof (clash_iff self other) as Hc.
    destruct (existsb _ (entries other)); simplify_eq; case_decide as Hd; try done;
      rewrite Exists_exists in Hd.
    + exfalso. by apply Hd, Hc.
    + assert (false = true) by (by apply Hc). done.
Qed.

End append.

(** ** Lookup *)

Section lookup.
Context `{Sys : System}.
Import HeaderCollection.

(** Lookup by name ignores ASCII case and finds the one entry with that name. *)
Lemma get_Some c name v :
  collection_wf c ->
  get c name = Some v <->
  exists n, (n, v) ∈ entries c /\
    to_ascii_lowercase (HeaderName.as_str n) = to_ascii_lowercase name.
Proof.
  intros [Hf Hd]. unfold get. split.
  - destruct (find _ _) as [[n w]|] eqn:E; [|done]. intros [= ->].
    apply find_some in E as [Hin He]. apply eq_ignore_ascii_case_iff in He.
    exists n. split; [by apply list_elem_of_In|done].
  - intros (n & Hin & E). induction (entries c) as [|[m w] es IH];
      [by apply elem_of_nil in Hin|].
    cbn [find]. apply Forall_cons in Hf as [[[_ Hm] _] Hf].
    cbn [map] in Hd. apply NoDup_cons in Hd as [Hni Hd].
    apply elem_of_cons in Hin as [[= -> ->]|Hin].
    + by rewrite (proj2 (eq_ignore_ascii_case_iff _ _) E).
    + destruct (eq_ignore_ascii_case (HeaderName.as_str m) name) eqn:Em; [|by apply IH].
      exfalso. apply Hni, list_elem_of_fmap. exists (n, v). split; [|done].
      apply eq_ignore_ascii_case_iff in Em. rewrite Forall_forall in Hf.
      destruct (Hf _ Hin) as [[_ Hn] _]. unfold HeaderName.as_str in *. congruence.
Qed.

Lemma get_None_not c name :
  get c name = None <->
  Forall (fun '(n, _) => eq_ignore_ascii_case (HeaderName.as_str n) name = false) (entries c).
Proof.
  unfold get. induction (entries c) as [|[n v] es IH]; cbn [find]; [naive_solver|].
  rewrite Forall_cons. destruct (eq_ignore_ascii_case _ _); naive_solver.
Qed.

Lemma get_app es fs name :
  get (Build (es ++ fs)) name =
  match get (Build es) name with Some v => Some v | None => get (Build fs) name end.
Proof.
  unfold get; cbn [entries]. induction es as [|[n v] es IH]; cbn; [done|].
  by destruct (eq_ignore_ascii_case _ _).
Qed.

(** Insert/lookup round trip: a header just inserted is found under every
    casing of its name with exactly the inserted value, and every other lookup
    answers as before the insertion. *)
Theorem insert_get c n v c' m :
  collection_wf c -> insert c n v = Ok c' ->
  get c' m =
  if eq_ignore_ascii_case n m then Some (HeaderValue.Build v) else get c m.
Proof.
  intros Hc. destruct (collection_wf_raw _ Hc) as [Ec _]. rewrite <- Ec.
  set (hs := raw_pairs c) in *. rewrite insert_collection_of.
  case_decide as Hnv; [|done]. case_decide as Hin; [done|]. intros [= <-].
  unfold collection_of. rewrite map_app, get_app. cbn [map].
  change (get (Build [entry_of (n, v)]) m) with
    (match (if eq_ignore_ascii_case n m then Some (entry_of (n, v)) else None) with
     | Some (_, w) => Some w | None => None end).
  destruct (eq_ignore_ascii_case n m) eqn:E; [|by destruct (get _ m)].
  replace (get (Build (map entry_of hs)) m) with (@None HeaderValue.t); [done|].
  symmetry. apply get_None_not. apply Forall_forall. intros [k w] Hk.
  apply not_true_is_false. intros E'. apply Hin.
  apply list_elem_of_fmap in Hk as ([k' w'] & [= -> ->] & Hk).
  apply eq_ignore_ascii_case_iff in E, E'. apply list_elem_of_fmap.
  exists (k', w'). cbn in E'. by rewrite E, <- E'.
Qed.

End lookup.

(** ** Invariants of everything the crate builds *)

Section reachable.
Context `{Sys : System}.
Import HeaderCollection.

(** The collections the crate's operations can produce, from validated names and
    values. *)
Inductive built : t -> Prop :=
| built_default : built default
| built_insert c n v c' : built c -> insert c n v = Ok c' -> built c'
| built_from_pairs hs c : from_pairs hs = Ok c -> built c
| built_from_typed hs c :
    Forall (fun '(n, v) => exists rn rv, HeaderName.new rn = Ok n /\ HeaderValue.new rv = Ok v) hs ->
    from_typed_pairs hs = Ok c -> built c
| built_append c d r c' : built c -> built d -> append_checked c d = (r, c') -> built c'.

Lemma default_wf : collection_wf default.
Proof. split; constructor. Qed.

Lemma insert_wf c n v c' :
  collection_wf c -> insert c n v = Ok c' -> collection_wf c'.
Proof.
  intros Hc H. unfold insert in H.
  apply bind_Ok in H as (n' & Hn & H). apply bind_Ok in H as (v' & Hv & H).
  eapply insert_typed_wf in H as [? _]; eauto with envelope.
Qed.

Lemma from_pairs_wf hs c : from_pairs hs = Ok c -> collection_wf c.
Proof. rewrite from_pairs_Ok. intros [H ->]. by apply collection_of_wf. Qed.

Lemma from_typed_pairs_Ok hs c :
  Forall (fun '(n, v) => name_wf n /\ value_wf v) hs ->
  from_typed_pairs hs = Ok c -> collection_wf c /\ entries c = hs.
Proof.
  intros Hhs H. unfold from_typed_pairs in H.
  apply bind_Ok in H as (c' & Hc & H). apply bind_Ok in H as (_ & _ & [= <-]).
  by apply (insert_all_typed_wf default) in Hc; [|apply default_wf|].
Qed.

Lemma append_checked_wf c d r c' :
  collection_wf c -> collection_wf d -> append_checked c d = (r, c') -> collection_wf c'.
Proof.
  intros Hc Hd H. destruct r as [[]|e].
  - apply append_checked_Ok in H; [apply H|apply Hc|apply Hd].
  - by apply append_checked_Err in H as [_ ->].
Qed.

(** C23. Every header collection the crate can build, by any sequence of checked
    insertions, conversions and appends (failed appends included), holds only
    syntactically valid names and values, no two names equal up to case, and so
    passes [revalidate]. *)
Theorem built_collections_wf c :
  built c -> collection_wf c /\ revalidate c = Ok tt.
Proof.
  intros H. enough (collection_wf c) by eauto using revalidate_wf.
  induction H as [|c n v c' _ IH Hi|hs c Hf|hs c Hhs Hf|c d r c' _ IHc _ IHd Ha].
  - apply default_wf.
  - by eapply insert_wf.
  - by eapply from_pairs_wf.
  - apply from_typed_pairs_Ok in Hf; [apply Hf|].
    eapply Forall_impl; [exact Hhs|]. intros [n v] (? & ? & ? & ?). split; eauto with envelope.
  - exact (append_checked_wf _ _ _ _ IHc IHd Ha).
Qed.

(** [HeaderCollection::from_pairs] accepts exactly the lists whose names are
    non-empty RFC tokens, whose values carry no control characters and whose
    names are pairwise distinct up to case; the collection then lists the pairs
    in their order and casing. *)
Theorem from_pairs_spec hs c :
  from_pairs hs = Ok c <-> valid_pairs hs /\ raw_pairs c = hs /\ collection_wf c.
Proof.
  rewrite from_pairs_Ok. split.
  - intros [H ->]. rewrite raw_pairs_of, collection_of_wf. done.
  - intros (H & E & Hc). split; [done|]. rewrite <- E. symmetry. by apply collection_wf_raw.
Qed.

End reachable.

(** ** Name equality, order and hash agree *)

Section names_order.
Context `{Sys : System}.
Import HeaderName.

(** [HeaderName]'s own equality is coarser than structural equality. *)
#[export] Instance header_name_equiv : Equiv HeaderName.t :=
  fun a b => HeaderName.eq a b = true.

#[export] Instance header_name_equivalence : Equivalence (≡@{HeaderName.t}).
Proof.
  unfold equiv, header_name_equiv, HeaderName.eq.
  split; repeat intro; rewrite ?bool_decide_eq_true in *; congruence.
Qed.

#[export] Instance header_name_cmp_proper :
  Proper ((≡) ==> (≡) ==> (=)) HeaderName.cmp.
Proof.
  intros a a' Ha b b' Hb. unfold equiv, header_name_equiv, HeaderName.eq in *.
  apply bool_decide_eq_true in Ha, Hb. unfold cmp. congruence.
Qed.

#[export] Instance header_name_hash_proper : Proper ((≡) ==> (=)) HeaderName.hash.
Proof.
  intros a a' Ha. unfold equiv, header_name_equiv, HeaderName.eq in *.
  apply bool_decide_eq_true in Ha. unfold hash. congruence.
Qed.

(** The hand-written [Eq], [Ord] and [Hash] of [HeaderName] fit together: two
    validated names are equal exactly when they agree up to ASCII case, equality
    coincides with [cmp] being [Equal] and with equal hash input, and [cmp] is
    antisymmetric and transitive. *)
Theorem header_name_eq_ord_hash ra rb rc a b c :
  HeaderName.new ra = Ok a -> HeaderName.new rb = Ok b -> HeaderName.new rc = Ok c ->
  (HeaderName.eq a b = true <-> eq_ignore_ascii_case ra rb = true) /\
  (HeaderName.eq a b = true <-> cmp a b = Eq) /\
  (HeaderName.eq a b = true <-> hash a = hash b) /\
  cmp b a = CompOpp (cmp a b) /\
  (cmp a b = Lt -> cmp b c = Lt -> cmp a c = Lt).
Proof.
  rewrite !header_name_new_Ok. intros [_ ->] [_ ->] [_ ->].
  unfold HeaderName.eq, cmp, hash; cbn [canonical].
  rewrite eq_ignore_ascii_case_iff, bool_decide_eq_true, str_cmp_eq.
  repeat split; try tauto.
  - by intros ->.
  - apply (inj utf8).
  - apply bytes_cmp_antisym.
  - apply bytes_cmp_trans.
Qed.

End names_order.
