(* ===== verification/Auth.v ===== *)
(** * Authentication modes and transcripts (src/auth.rs)

    What the SM2 signature and the AEAD tag cover: the versioned transcript of
    [AuthenticationMode::authentication_input] and the additional data of
    [AuthenticationMode::aead_aad].  Both are sequences of length-prefixed
    fields; the theorems show that the encodings are injective, so a signature
    or a tag fixes every field, and that the two never collide. *)

From S2P Require Import Prelude.
From S2P Require Import Rust.
From S2P Require Import Text.
From S2P Require Import System.
From S2P Require Import Error.

Definition TRANSCRIPT_VERSION : byte := x01.
Definition TRANSCRIPT_LENGTH_BYTES : Z := 3 * 8.
Definition AEAD_AAD_LABEL : list byte := bytes_lit "gmcrypto-envelope-lite/aead-aad/v1".

Module ContextKind.
Inductive t :=
| Legacy
| Bound (bytes : list byte).
End ContextKind.

#[export] Instance context_kind_eq_dec : EqDecision ContextKind.t.
Proof. solve_decision. Defined.

Definition push_field `{System} (target value : list byte) : Result (list byte) :=
  length ← ok_or (u64_try_from (len value)) Error.AuthenticationContext;
  Ok (target ++ u64_to_be_bytes length ++ value).

Module AuthenticationContext.
Record t := Build { kind : ContextKind.t }.

Definition legacy : t := {| kind := ContextKind.Legacy |}.

Definition context_bound `{System} (bytes : list byte) : Result t :=
  if bool_decide (bytes = [])
  then Err Error.AuthenticationContext
  else Ok {| kind := ContextKind.Bound bytes |}.

(** [impl fmt::Debug]: the kind and, for bound bytes, their length. *)
Definition debug (c : t) : dbg :=
  DStruct "AuthenticationContext"
    match kind c with
    | ContextKind.Legacy => [("kind", DStr (lit "Legacy"))]
    | ContextKind.Bound context =>
        [("kind", DStr (lit "ContextBound")); ("context_len", DNum (len context))]
    end%string.
End AuthenticationContext.

#[export] Instance authentication_context_eq_dec : EqDecision AuthenticationContext.t.
Proof. solve_decision. Defined.

Module AuthenticationMode.
Inductive t :=
| LegacyPlaintext
| ContextBound (domain_separator : list byte).

(** [impl fmt::Debug]. *)
Definition debug (m : t) : dbg :=
  DStruct "AuthenticationMode"
    match m with
    | LegacyPlaintext => [("kind", DStr (lit "LegacyPlaintext"))]
    | ContextBound domain_separator =>
        [("kind", DStr (lit "ContextBound"));
         ("domain_separator_len", DNum (len domain_separator))]
    end%string.

Section mode.
Context `{Sys : System} `{Arch}.

Definition context_bound (domain_separator : list byte) : Result t :=
  if bool_decide (domain_separator = [])
  then Err (Error.Configuration "domain_separator")
  else Ok (ContextBound domain_separator).

Definition validate (self : t) : Result unit :=
  match self with
  | ContextBound domain_separator =>
      if bool_decide (domain_separator = [])
      then Err (Error.Configuration "domain_separator") else Ok tt
  | LegacyPlaintext => Ok tt
  end.

Definition authentication_input (self : t) (context : AuthenticationContext.t)
    (plaintext : list byte) : Result (list byte) :=
  _ ← validate self;
  match self, AuthenticationContext.kind context with
  | LegacyPlaintext, ContextKind.Legacy => Ok plaintext
  | ContextBound domain_separator, ContextKind.Bound context =>
      _ ← ok_or (length ← checked_add 1 TRANSCRIPT_LENGTH_BYTES;
                 length ← checked_add length (len domain_separator);
                 length ← checked_add length (len context);
                 checked_add length (len plaintext)) Error.AuthenticationContext;
      input ← push_field [TRANSCRIPT_VERSION] domain_separator;
      input ← push_field input context;
      push_field input plaintext
  | _, _ => Err Error.AuthenticationContext
  end.

Definition aead_aad (self : t) (context : AuthenticationContext.t)
    (frame_header : list byte) : Result (list byte) :=
  _ ← validate self;
  '(domain_separator, protocol_context) ←
    match self, AuthenticationContext.kind context with
    | LegacyPlaintext, ContextKind.Legacy => Ok ([], [])
    | ContextBound domain_separator, ContextKind.Bound bound =>
        Ok (domain_separator, bound)
    | _, _ => Err Error.AuthenticationContext
    end;
  _ ← ok_or (length ← checked_add (4 * 8) (len AEAD_AAD_LABEL);
             length ← checked_add length (len frame_header);
             length ← checked_add length (len domain_separator);
             checked_add length (len protocol_context)) Error.AuthenticationContext;
  aad ← push_field [] AEAD_AAD_LABEL;
  aad ← push_field aad frame_header;
  aad ← push_field aad domain_separator;
  push_field aad protocol_context.

End mode.
End AuthenticationMode.

#[export] Instance authentication_mode_eq_dec : EqDecision AuthenticationMode.t.
Proof. solve_decision. Defined.

(** ** The layouts *)

(** A field: its length as a big-endian [u64], then its bytes. *)
Definition field (v : list byte) : list byte := u64_to_be_bytes (len v) ++ v.

Definition transcript (domain context plaintext : list byte) : list byte :=
  [TRANSCRIPT_VERSION] ++ field domain ++ field context ++ field plaintext.

Definition aad_of (frame_header domain context : list byte) : list byte :=
  field AEAD_AAD_LABEL ++ field frame_header ++ field domain ++ field context.

(** The two parts of a mode and a context that a signature or tag covers, and
    whether the context is of the kind the mode requires. *)
Definition domain_of (m : AuthenticationMode.t) : list byte :=
  match m with
  | AuthenticationMode.LegacyPlaintext => []
  | AuthenticationMode.ContextBound d => d
  end.
Definition context_of (c : AuthenticationContext.t) : list byte :=
  match AuthenticationContext.kind c with
  | ContextKind.Legacy => []
  | ContextKind.Bound b => b
  end.
Definition kinds_match (m : AuthenticationMode.t) (c : AuthenticationContext.t) : bool :=
  match m, AuthenticationContext.kind c with
  | AuthenticationMode.LegacyPlaintext, ContextKind.Legacy => true
  | AuthenticationMode.ContextBound _, ContextKind.Bound _ => true
  | _, _ => false
  end.
Definition is_context_bound (m : AuthenticationMode.t) : bool :=
  match m with AuthenticationMode.ContextBound _ => true | _ => false end.

(** The modes [validate] accepts. *)
Definition mode_wf (m : AuthenticationMode.t) : Prop :=
  match m with AuthenticationMode.ContextBound d => d <> [] | _ => True end.

#[export] Instance mode_wf_dec m : Decision (mode_wf m).
Proof. destruct m; apply _. Defined.

Lemma len_field v : len (field v) = 8 + len v.
Proof. unfold field. len_solve. Qed.
#[export] Hint Rewrite len_field : len.

Lemma len_transcript d c p : len (transcript d c p) = 25 + len d + len c + len p.
Proof. unfold transcript. rewrite !len_app, !len_field, len_cons. change (len []) with 0. lia. Qed.

Lemma len_aad_of h d c : len (aad_of h d c) = 66 + len h + len d + len c.
Proof. unfold aad_of. rewrite !len_app, !len_field. change (len AEAD_AAD_LABEL) with 34. lia. Qed.

Lemma field_app_inj a b x y :
  len a <= u64_max -> len b <= u64_max ->
  field a ++ x = field b ++ y -> a = b /\ x = y.
Proof.
  intros Ha Hb. unfold field. rewrite <- !app_assoc. intros E.
  apply app_len_inj in E as [E1 E2]; [|by rewrite !len_u64_to_be_bytes].
  apply u64_to_be_bytes_inj in E1; [|split; [apply len_nonneg|done]..].
  by apply app_len_inj in E2.
Qed.

Lemma field_inj a b : len a <= u64_max -> len b <= u64_max -> field a = field b -> a = b.
Proof.
  intros Ha Hb E. eapply (field_app_inj a b [] []); [done..|]. by rewrite !app_nil_r.
Qed.

Section layout.
Context `{Sys : System} `{Ar : Arch}.
Import AuthenticationMode.

Lemma push_field_eq t v :
  len v <= u64_max -> push_field t v = Ok (t ++ field v).
Proof.
  intros H. unfold push_field, u64_try_from.
  by rewrite (proj2 (Z.leb_le _ _) H).
Qed.

Lemma validate_Ok m u : validate m = Ok u <-> mode_wf m.
Proof.
  destruct u, m; cbn; [done|]. case_bool_decide; naive_solver.
Qed.

(** The capacity computation succeeds exactly when the total fits a [usize]. *)
Lemma checked_sum3 a b c d :
  0 <= a -> 0 <= b -> 0 <= c -> 0 <= d ->
  (l ← checked_add a b; l ← checked_add l c; checked_add l d) =
  if a + b + c + d <=? usize_max then Some (a + b + c + d) else None.
Proof.
  intros. unfold checked_add.
  destruct (Z.leb_spec (a + b + c + d) usize_max).
  - rewrite (proj2 (Z.leb_le (a + b) usize_max)) by lia. cbn.
    rewrite (proj2 (Z.leb_le (a + b + c) usize_max)) by lia. cbn.
    by rewrite (proj2 (Z.leb_le (a + b + c + d) usize_max)).
  - destruct (Z.leb_spec (a + b) usize_max); cbn; [|done].
    destruct (Z.leb_spec (a + b + c) usize_max); cbn; [|done].
    by rewrite (proj2 (Z.leb_gt (a + b + c + d) usize_max)).
Qed.

(** [authentication_input] as one equation over the documented layout. *)
Lemma authentication_input_eq m c p :
  authentication_input m c p =
  match m, AuthenticationContext.kind c with
  | LegacyPlaintext, ContextKind.Legacy => Ok p
  | ContextBound d, k =>
      if bool_decide (d = []) then Err (Error.Configuration "domain_separator")
      else match k with
      | ContextKind.Bound ctx =>
          if 25 + len d + len ctx + len p <=? usize_max
          then Ok (transcript d ctx p) else Err Error.AuthenticationContext
      | ContextKind.Legacy => Err Error.AuthenticationContext
      end
  | LegacyPlaintext, ContextKind.Bound _ => Err Error.AuthenticationContext
  end.
Proof.
  unfold authentication_input. destruct m as [|d]; cbn [validate].
  { by destruct (AuthenticationContext.kind c). }
  case_bool_decide as Hd; cbn [mbind result_bind]; [done|].
  destruct (AuthenticationContext.kind c) as [|ctx]; [done|].
  pose proof usize_max_bounds as Hu.
  assert (E25 : checked_add 1 TRANSCRIPT_LENGTH_BYTES = Some 25).
  { apply checked_add_Some. unfold TRANSCRIPT_LENGTH_BYTES. lia. }
  rewrite E25. cbn [mbind option_bind]. rewrite checked_sum3 by (try lia; auto with envelope).
  destruct (Z.leb_spec (25 + len d + len ctx + len p) usize_max) as [Hle|Hgt]; [|done].
  cbn [ok_or mbind result_bind]. pose_len.
  rewrite push_field_eq by lia. cbn [mbind result_bind].
  rewrite push_field_eq by lia. cbn [mbind result_bind].
  rewrite push_field_eq by lia. unfold transcript. by rewrite <- !app_assoc.
Qed.

Lemma authentication_input_Ok m c p t :
  authentication_input m c p = Ok t <->
  mode_wf m /\ kinds_match m c = true /\
  if is_context_bound m
  then 25 + len (domain_of m) + len (context_of c) + len p <= usize_max /\
       t = transcript (domain_of m) (context_of c) p
  else t = p.
Proof.
  rewrite authentication_input_eq. unfold kinds_match, context_of.
  destruct m as [|d]; cbn.
  - destruct (AuthenticationContext.kind c); naive_solver.
  - case_bool_decide as Hd; [naive_solver|].
    destruct (AuthenticationContext.kind c); [naive_solver|].
    destruct (Z.leb_spec (25 + len d + len bytes + len p) usize_max); naive_solver lia.
Qed.

Lemma authentication_input_Err m c p e :
  authentication_input m c p = Err e ->
  e = Error.AuthenticationContext \/ e = Error.Configuration "domain_separator".
Proof.
  rewrite authentication_input_eq. repeat case_match; naive_solver.
Qed.

Lemma aead_aad_eq m c h :
  len h = 14 ->
  aead_aad m c h =
  if decide (mode_wf m) then
    if kinds_match m c then
      if 80 + len (domain_of m) + len (context_of c) <=? usize_max
      then Ok (aad_of h (domain_of m) (context_of c))
      else Err Error.AuthenticationContext
    else Err Error.AuthenticationContext
  else Err (Error.Configuration "domain_separator").
Proof.
  intros Hh. unfold aead_aad.
  destruct (validate m) as [[]|e] eqn:Ev.
  2: { rewrite decide_False by (rewrite <- (validate_Ok m tt); congruence).
       destruct m; cbn in Ev; [done|]. case_bool_decide; naive_solver. }
  rewrite decide_True by (by eapply validate_Ok). cbn [mbind result_bind].
  set (pr := match m with LegacyPlaintext => _ | _ => _ end).
  assert (Epr : pr = if kinds_match m c then Ok (domain_of m, context_of c)
                     else Err Error.AuthenticationContext).
  { unfold pr, kinds_match, context_of.
    by destruct m, (AuthenticationContext.kind c). }
  rewrite Epr. destruct (kinds_match m c); cbn [mbind result_bind]; [|done].
  pose proof usize_max_bounds as Hu.
  assert (E0 : checked_add (4 * 8) (len AEAD_AAD_LABEL) = Some 66).
  { apply checked_add_Some. vm_compute (len AEAD_AAD_LABEL). lia. }
  rewrite E0. cbn [mbind option_bind]. rewrite checked_sum3 by (try lia; auto with envelope).
  rewrite Hh. replace (66 + 14) with 80 by done.
  destruct (Z.leb_spec (80 + len (domain_of m) + len (context_of c)) usize_max); [|done].
  cbn [ok_or mbind result_bind]. pose_len.
  rewrite push_field_eq by (vm_compute (len AEAD_AAD_LABEL); unfold u64_max; lia).
  cbn [mbind result_bind].
  rewrite push_field_eq by (unfold u64_max; lia). cbn [mbind result_bind].
  rewrite push_field_eq by lia. cbn [mbind result_bind].
  rewrite push_field_eq by lia. unfold aad_of. by rewrite <- !app_assoc.
Qed.

Lemma aead_aad_Ok m c h t :
  len h = 14 ->
  aead_aad m c h = Ok t <->
  mode_wf m /\ kinds_match m c = true /\
  80 + len (domain_of m) + len (context_of c) <= usize_max /\
  t = aad_of h (domain_of m) (context_of c).
Proof.
  intros Hh. rewrite aead_aad_eq by done. case_decide; [|naive_solver].
  destruct (kinds_match m c); [|naive_solver].
  destruct (Z.leb_spec (80 + len (domain_of m) + len (context_of c)) usize_max);
    naive_solver lia.
Qed.

End layout.

(** ** Injectivity *)

Lemma transcript_inj d c p d' c' p' :
  len d <= u64_max -> len c <= u64_max -> len p <= u64_max ->
  len d' <= u64_max -> len c' <= u64_max -> len p' <= u64_max ->
  transcript d c p = transcript d' c' p' -> d = d' /\ c = c' /\ p = p'.
Proof.
  intros ??????. unfold transcript. intros E. apply app_inv_head in E.
  apply field_app_inj in E as [-> E]; [|done..].
  apply field_app_inj in E as [-> E]; [|done..].
  by apply field_inj in E as ->.
Qed.

Lemma aad_of_inj h d c h' d' c' :
  len h <= u64_max -> len d <= u64_max -> len c <= u64_max ->
  len h' <= u64_max -> len d' <= u64_max -> len c' <= u64_max ->
  aad_of h d c = aad_of h' d' c' -> h = h' /\ d = d' /\ c = c'.
Proof.
  intros ??????. unfold aad_of. intros E. apply app_inv_head in E.
  apply field_app_inj in E as [-> E]; [|done..].
  apply field_app_inj in E as [-> E]; [|done..].
  by apply field_inj in E as ->.
Qed.

(** A matching mode and context are determined by their kind, domain and bytes. *)
Lemma kinds_match_inj m c m' c' :
  kinds_match m c = true -> kinds_match m' c' = true ->
  is_context_bound m = is_context_bound m' ->
  domain_of m = domain_of m' -> context_of c = context_of c' -> m = m' /\ c = c'.
Proof.
  destruct c as [[|b]], c' as [[|b']], m, m'; cbn; naive_solver.
Qed.

(** A context of the other kind has no signature input. *)
Lemma authentication_input_kind `{Sys : System} `{Ar : Arch} m c p :
  mode_wf m -> kinds_match m c = false ->
  AuthenticationMode.authentication_input m c p = Err Error.AuthenticationContext.
Proof.
  intros Hm Hk. rewrite authentication_input_eq. unfold kinds_match in Hk.
  destruct m as [|d], (AuthenticationContext.kind c); try done. cbn in Hm.
  by rewrite bool_decide_false.
Qed.

(** Context-bound signature inputs determine what they cover. *)
Lemma authentication_input_inj `{Sys : System} `{Ar : Arch} m1 c1 p1 m2 c2 p2 t :
  is_context_bound m1 = true -> is_context_bound m2 = true ->
  AuthenticationMode.authentication_input m1 c1 p1 = Ok t ->
  AuthenticationMode.authentication_input m2 c2 p2 = Ok t ->
  m1 = m2 /\ c1 = c2 /\ p1 = p2.
Proof.
  intros B1 B2 H1 H2. apply authentication_input_Ok in H1 as (W1 & K1 & H1).
  apply authentication_input_Ok in H2 as (W2 & K2 & H2).
  rewrite B1 in H1. rewrite B2 in H2. destruct H1 as [F1 ->], H2 as [F2 E].
  pose proof usize_max_bounds. pose_len.
  apply transcript_inj in E as (Ed & Ec & Ep); [|lia..].
  destruct (kinds_match_inj _ _ _ _ K1 K2) as [-> ->]; [congruence|done..].
Qed.

Section claims.
Context `{Sys : System} `{Ar : Arch}.
Import AuthenticationMode.

(** C26. The signed bytes are exactly the documented ones, on every branch of
    [AuthenticationMode::authentication_input]: an empty domain separator is a
    configuration error; a context of the other kind, or fields whose total does
    not fit a [usize], is [Error::AuthenticationContext]; the legacy input is the
    plaintext itself; the context-bound input is
    [0x01 || u64be(len) || domain || u64be(len) || context || u64be(len) || plaintext]. *)
Theorem authentication_input_layout m c p :
  authentication_input m c p =
  if decide (mode_wf m) then
    if kinds_match m c then
      if is_context_bound m then
        if 25 + len (domain_of m) + len (context_of c) + len p <=? usize_max
        then Ok ([x01] ++ be_bytes 8 (len (domain_of m)) ++ domain_of m
                       ++ be_bytes 8 (len (context_of c)) ++ context_of c
                       ++ be_bytes 8 (len p) ++ p)
        else Err Error.AuthenticationContext
      else Ok p
    else Err Error.AuthenticationContext
  else Err (Error.Configuration "domain_separator").
Proof.
  rewrite authentication_input_eq. unfold kinds_match, context_of, transcript, field.
  destruct m as [|d]; cbn [mode_wf is_context_bound domain_of].
  { rewrite decide_True by done. by destruct (AuthenticationContext.kind c). }
  case_bool_decide; [by rewrite decide_False by naive_solver|].
  rewrite decide_True by done. destruct (AuthenticationContext.kind c); [done|].
  rewrite <- !app_assoc. done.
Qed.

(** C6. A context-bound signature input determines everything it covers: if two
    context-bound modes, contexts and plaintexts give the same bytes, then the
    domain separators, the protocol contexts and the plaintexts are equal.  No
    two distinct triples share a transcript, whatever bytes they contain. *)
Theorem authentication_input_injective m1 c1 p1 m2 c2 p2 t :
  is_context_bound m1 = true -> is_context_bound m2 = true ->
  authentication_input m1 c1 p1 = Ok t -> authentication_input m2 c2 p2 = Ok t ->
  m1 = m2 /\ c1 = c2 /\ p1 = p2.
Proof. apply authentication_input_inj. Qed.

(** C17. The AEAD additional data determines the frame header (14 bytes, by its
    type), the authentication mode and the context: no two modes share it, the legacy
    and the context-bound mode included, since an accepted domain separator is not
    empty.  It never equals a context-bound transcript, so tag input and signature
    input cannot be confused. *)
Theorem aead_aad_injective m1 c1 h1 m2 c2 h2 t :
  len h1 = 14 -> len h2 = 14 ->
  aead_aad m1 c1 h1 = Ok t -> aead_aad m2 c2 h2 = Ok t ->
  (m1 = m2 /\ c1 = c2 /\ h1 = h2) /\
  (forall m c p, is_context_bound m = true -> authentication_input m c p <> Ok t).
Proof.
  intros L1 L2 H1 H2. apply aead_aad_Ok in H1 as (W1 & K1 & F1 & ->); [|done].
  apply aead_aad_Ok in H2 as (W2 & K2 & F2 & E); [|done].
  pose proof usize_max_bounds. pose_len. split.
  - apply aad_of_inj in E as (Eh & Ed & Ec); [|unfold u64_max in *; lia..].
    destruct (kinds_match_inj _ _ _ _ K1 K2) as [-> ->]; [|done..].
    by destruct m1, m2; cbn in *; subst.
  - intros m c p Hb Ht. apply authentication_input_Ok in Ht as (_ & _ & Ht).
    rewrite Hb in Ht. destruct Ht as [_ Ht]. discriminate Ht.
Qed.

End claims.
