(* ===== verification/ClientConfig.v ===== *)
(** * Client configuration (src/client_config.rs)

    The immutable configuration and its consuming builder.  [build] is the build
    with feature [aead], [build_without_aead] the one without it, where the
    [envelope_mode] field does not exist; a configuration of that build carries
    [EnvelopeMode.LegacyCbc] here, the only mode its code can run.

    A [[u8; 16]] IV is a byte list; [builder_typed] states what its Rust type and
    the [usize] type guarantee. *)

From S2P Require Import Prelude.
From S2P Require Import Rust.
From S2P Require Import Text.
From S2P Require Import System.
From S2P Require Import Error.
From S2P Require Import Auth.

Definition DEFAULT_MAX_PLAINTEXT_BYTES : Z := 16 * 1024 * 1024.
Definition SM4_CCM_MAX_PLAINTEXT_BYTES : Z := Z.shiftl 1 24 - 1.
Definition SM4_CCM_DEFAULT_MAX_PLAINTEXT_BYTES : Z := 64 * 1024.
Definition MAX_SIGNER_ID_BYTES : Z := 65535 / 8.

Module AeadAlgorithm.
Inductive t := Sm4Gcm | Sm4Ccm.
End AeadAlgorithm.

Module EnvelopeMode.
Inductive t :=
| LegacyCbc
| Aead (algorithm : AeadAlgorithm.t).
End EnvelopeMode.

#[export] Instance aead_algorithm_eq_dec : EqDecision AeadAlgorithm.t.
Proof. solve_decision. Defined.
#[export] Instance envelope_mode_eq_dec : EqDecision EnvelopeMode.t.
Proof. solve_decision. Defined.

(** ** Field validation *)

Definition validate_header_value `{System} (value : str) (field : string) : Result str :=
  if str_is_empty (str_trim value) || contains_cr_lf value
  then Err (Error.Configuration field)
  else Ok value.

Definition required_header_value `{System} (value : option str) (field : string) : Result str :=
  value ← ok_or value (Error.Configuration field);
  validate_header_value value field.

Definition required_signer_id `{System} (value : option (list byte)) (field : string)
    : Result (list byte) :=
  value ← ok_or value (Error.Configuration field);
  if bool_decide (value = []) || (MAX_SIGNER_ID_BYTES <? len value)
  then Err (Error.Configuration field)
  else Ok value.

Module ClientIdentity.
Record t := Build {
  local_identity_id : str;
  api_version : str;
  local_certificate_id : str;
  expected_remote_signing_certificate_id : str;
  remote_encryption_certificate_id : str;
}.

Definition new `{System} (local_identity_id api_version local_certificate_id
    expected_remote_signing_certificate_id remote_encryption_certificate_id : str) : Result t :=
  a ← validate_header_value local_identity_id "local_identity_id";
  b ← validate_header_value api_version "api_version";
  c ← validate_header_value local_certificate_id "local_certificate_id";
  d ← validate_header_value expected_remote_signing_certificate_id
        "expected_remote_signing_certificate_id";
  e ← validate_header_value remote_encryption_certificate_id
        "remote_encryption_certificate_id";
  Ok (Build a b c d e).
End ClientIdentity.

Module ClientConfig.
Record t := Build {
  identity : ClientIdentity.t;
  local_signer_id : list byte;
  expected_remote_signer_id : list byte;
  authentication_mode : AuthenticationMode.t;
  iv : list byte;
  envelope_mode : EnvelopeMode.t;
  max_plaintext_bytes : Z;
}.
End ClientConfig.

(** ** The builder *)

Module ClientConfigBuilder.
Record t := Build {
  b_local_identity_id : option str;
  b_api_version : option str;
  b_local_certificate_id : option str;
  b_expected_remote_signing_certificate_id : option str;
  b_remote_encryption_certificate_id : option str;
  b_local_signer_id : option (list byte);
  b_expected_remote_signer_id : option (list byte);
  b_authentication_mode : option AuthenticationMode.t;
  b_iv : option (list byte);
  b_envelope_mode : option EnvelopeMode.t;
  b_max_plaintext_bytes : option Z;
}.

Definition default : t :=
  Build None None None None None None None None None None None.

Definition local_identity_id (self : t) (value : str) : t :=
  Build (Some value) (b_api_version self) (b_local_certificate_id self)
    (b_expected_remote_signing_certificate_id self)
    (b_remote_encryption_certificate_id self) (b_local_signer_id self)
    (b_expected_remote_signer_id self) (b_authentication_mode self) (b_iv self)
    (b_envelope_mode self) (b_max_plaintext_bytes self).

Definition api_version (self : t) (value : str) : t :=
  Build (b_local_identity_id self) (Some value) (b_local_certificate_id self)
    (b_expected_remote_signing_certificate_id self)
    (b_remote_encryption_certificate_id self) (b_local_signer_id self)
    (b_expected_remote_signer_id self) (b_authentication_mode self) (b_iv self)
    (b_envelope_mode self) (b_max_plaintext_bytes self).

Definition local_certificate_id (self : t) (value : str) : t :=
  Build (b_local_identity_id self) (b_api_version self) (Some value)
    (b_expected_remote_signing_certificate_id self)
    (b_remote_encryption_certificate_id self) (b_local_signer_id self)
    (b_expected_remote_signer_id self) (b_authentication_mode self) (b_iv self)
    (b_envelope_mode self) (b_max_plaintext_bytes self).

Definition expected_remote_signing_certificate_id (self : t) (value : str) : t :=
  Build (b_local_identity_id self) (b_api_version self) (b_local_certificate_id self)
    (Some value) (b_remote_encryption_certificate_id self) (b_local_signer_id self)
    (b_expected_remote_signer_id self) (b_authentication_mode self) (b_iv self)
    (b_envelope_mode self) (b_max_plaintext_bytes self).

Definition remote_encryption_certificate_id (self : t) (value : str) : t :=
  Build (b_local_identity_id self) (b_api_version self) (b_local_certificate_id self)
    (b_expected_remote_signing_certificate_id self) (Some value)
    (b_local_signer_id self) (b_expected_remote_signer_id self)
    (b_authentication_mode self) (b_iv self) (b_envelope_mode self)
    (b_max_plaintext_bytes self).

Definition local_signer_id (self : t) (value : list byte) : t :=
  Build (b_local_identity_id self) (b_api_version self) (b_local_certificate_id self)
    (b_expected_remote_signing_certificate_id self)
    (b_remote_encryption_certificate_id self) (Some value)
    (b_expected_remote_signer_id self) (b_authentication_mode self) (b_iv self)
    (b_envelope_mode self) (b_max_plaintext_bytes self).

Definition expected_remote_signer_id (self : t) (value : list byte) : t :=
  Build (b_local_identity_id self) (b_api_version self) (b_local_certificate_id self)
    (b_expected_remote_signing_certificate_id self)
    (b_remote_encryption_certificate_id self) (b_local_signer_id self) (Some value)
    (b_authentication_mode self) (b_iv self) (b_envelope_mode self)
    (b_max_plaintext_bytes self).

Definition authentication_mode (self : t) (value : AuthenticationMode.t) : t :=
  Build (b_local_identity_id self) (b_api_version self) (b_local_certificate_id self)
    (b_expected_remote_signing_certificate_id self)
    (b_remote_encryption_certificate_id self) (b_local_signer_id self)
    (b_expected_remote_signer_id self) (Some value) (b_iv self) (b_envelope_mode self)
    (b_max_plaintext_bytes self).

Definition iv (self : t) (value : list byte) : t :=
  Build (b_local_identity_id self) (b_api_version self) (b_local_certificate_id self)
    (b_expected_remote_signing_certificate_id self)
    (b_remote_encryption_certificate_id self) (b_local_signer_id self)
    (b_expected_remote_signer_id self) (b_authentication_mode self) (Some value)
    (b_envelope_mode self) (b_max_plaintext_bytes self).

Definition envelope_mode (self : t) (value : EnvelopeMode.t) : t :=
  Build (b_local_identity_id self) (b_api_version self) (b_local_certificate_id self)
    (b_expected_remote_signing_certificate_id self)
    (b_remote_encryption_certificate_id self) (b_local_signer_id self)
    (b_expected_remote_signer_id self) (b_authentication_mode self) (b_iv self)
    (Some value) (b_max_plaintext_bytes self).

Definition max_plaintext_bytes (self : t) (value : Z) : t :=
  Build (b_local_identity_id self) (b_api_version self) (b_local_certificate_id self)
    (b_expected_remote_signing_certificate_id self)
    (b_remote_encryption_certificate_id self) (b_local_signer_id self)
    (b_expected_remote_signer_id self) (b_authentication_mode self) (b_iv self)
    (b_envelope_mode self) (Some value).

Section build.
Context `{Sys : System}.

(** The identity part, shared by both builds. *)
Definition build_identity (self : t) : Result ClientIdentity.t :=
  a ← required_header_value (b_local_identity_id self) "local_identity_id";
  b ← required_header_value (b_api_version self) "api_version";
  c ← required_header_value (b_local_certificate_id self) "local_certificate_id";
  d ← required_header_value (b_expected_remote_signing_certificate_id self)
        "expected_remote_signing_certificate_id";
  e ← required_header_value (b_remote_encryption_certificate_id self)
        "remote_encryption_certificate_id";
  Ok (ClientIdentity.Build a b c d e).

(** The IV: required for CBC, refused for AEAD, where an inert zero block fills
    the field. *)
Definition build_iv (self : t) (mode : EnvelopeMode.t) : Result (list byte) :=
  match mode with
  | EnvelopeMode.LegacyCbc => ok_or (b_iv self) (Error.Configuration "iv")
  | EnvelopeMode.Aead _ =>
      if is_some (b_iv self) then Err (Error.Configuration "iv")
      else Ok (replicate 16 x00)
  end.

Definition is_ccm (mode : EnvelopeMode.t) : bool :=
  bool_decide (mode = EnvelopeMode.Aead AeadAlgorithm.Sm4Ccm).

Definition build_max (self : t) (mode : EnvelopeMode.t) : Result Z :=
  let max := unwrap_or (b_max_plaintext_bytes self)
    (if is_ccm mode then SM4_CCM_DEFAULT_MAX_PLAINTEXT_BYTES
     else DEFAULT_MAX_PLAINTEXT_BYTES) in
  if (max =? 0) || (is_ccm mode && (SM4_CCM_MAX_PLAINTEXT_BYTES <? max))
  then Err (Error.Configuration "max_plaintext_bytes")
  else Ok max.

(** [build] with feature [aead]. *)
Definition build (self : t) : Result ClientConfig.t :=
  identity ← build_identity self;
  local_signer_id ← required_signer_id (b_local_signer_id self) "local_signer_id";
  expected_remote_signer_id ←
    required_signer_id (b_expected_remote_signer_id self) "expected_remote_signer_id";
  envelope_mode ← ok_or (b_envelope_mode self) (Error.Configuration "envelope_mode");
  iv ← build_iv self envelope_mode;
  authentication_mode ←
    ok_or (b_authentication_mode self) (Error.Configuration "authentication_mode");
  _ ← AuthenticationMode.validate authentication_mode;
  max_plaintext_bytes ← build_max self envelope_mode;
  Ok (ClientConfig.Build identity local_signer_id expected_remote_signer_id
        authentication_mode iv envelope_mode max_plaintext_bytes).

(** [build] without feature [aead]. *)
Definition build_without_aead (self : t) : Result ClientConfig.t :=
  identity ← build_identity self;
  local_signer_id ← required_signer_id (b_local_signer_id self) "local_signer_id";
  expected_remote_signer_id ←
    required_signer_id (b_expected_remote_signer_id self) "expected_remote_signer_id";
  iv ← ok_or (b_iv self) (Error.Configuration "iv");
  authentication_mode ←
    ok_or (b_authentication_mode self) (Error.Configuration "authentication_mode");
  _ ← AuthenticationMode.validate authentication_mode;
  max_plaintext_bytes ←
    (let max := unwrap_or (b_max_plaintext_bytes self) DEFAULT_MAX_PLAINTEXT_BYTES in
     if max =? 0 then Err (Error.Configuration "max_plaintext_bytes") else Ok max);
  Ok (ClientConfig.Build identity local_signer_id expected_remote_signer_id
        authentication_mode iv EnvelopeMode.LegacyCbc max_plaintext_bytes).

End build.
End ClientConfigBuilder.

(** ** What a valid configuration is *)

Definition signer_id_ok (b : list byte) : Prop :=
  b <> [] /\ len b <= MAX_SIGNER_ID_BYTES.

Definition identity_wf (i : ClientIdentity.t) : Prop :=
  header_text_ok (ClientIdentity.local_identity_id i) /\
  header_text_ok (ClientIdentity.api_version i) /\
  header_text_ok (ClientIdentity.local_certificate_id i) /\
  header_text_ok (ClientIdentity.expected_remote_signing_certificate_id i) /\
  header_text_ok (ClientIdentity.remote_encryption_certificate_id i).

Definition limit_ok (mode : EnvelopeMode.t) (max : Z) : Prop :=
  max <> 0 /\
  (mode = EnvelopeMode.Aead AeadAlgorithm.Sm4Ccm -> max <= SM4_CCM_MAX_PLAINTEXT_BYTES).

(** The invariant of [ClientConfig]. *)
Definition config_wf `{Arch} (c : ClientConfig.t) : Prop :=
  identity_wf (ClientConfig.identity c) /\
  signer_id_ok (ClientConfig.local_signer_id c) /\
  signer_id_ok (ClientConfig.expected_remote_signer_id c) /\
  mode_wf (ClientConfig.authentication_mode c) /\
  length (ClientConfig.iv c) = 16%nat /\
  (ClientConfig.envelope_mode c <> EnvelopeMode.LegacyCbc ->
   ClientConfig.iv c = replicate 16 x00) /\
  1 <= ClientConfig.max_plaintext_bytes c <= usize_max /\
  limit_ok (ClientConfig.envelope_mode c) (ClientConfig.max_plaintext_bytes c).

(** What the Rust types of the builder's fields guarantee. *)
Definition builder_typed `{Arch} (b : ClientConfigBuilder.t) : Prop :=
  (forall v, ClientConfigBuilder.b_iv b = Some v -> length v = 16%nat) /\
  (forall n, ClientConfigBuilder.b_max_plaintext_bytes b = Some n -> 0 <= n <= usize_max).

(** The limit a builder selects when none is set. *)
Definition default_limit (mode : EnvelopeMode.t) : Z :=
  if decide (mode = EnvelopeMode.Aead AeadAlgorithm.Sm4Ccm)
  then SM4_CCM_DEFAULT_MAX_PLAINTEXT_BYTES else DEFAULT_MAX_PLAINTEXT_BYTES.

(** The configurations a builder describes. *)
Record describes (b : ClientConfigBuilder.t) (c : ClientConfig.t) : Prop := {
  ds_local_identity_id :
    ClientConfigBuilder.b_local_identity_id b =
    Some (ClientIdentity.local_identity_id (ClientConfig.identity c));
  ds_api_version :
    ClientConfigBuilder.b_api_version b =
    Some (ClientIdentity.api_version (ClientConfig.identity c));
  ds_local_certificate_id :
    ClientConfigBuilder.b_local_certificate_id b =
    Some (ClientIdentity.local_certificate_id (ClientConfig.identity c));
  ds_expected_remote_signing_certificate_id :
    ClientConfigBuilder.b_expected_remote_signing_certificate_id b =
    Some (ClientIdentity.expected_remote_signing_certificate_id (ClientConfig.identity c));
  ds_remote_encryption_certificate_id :
    ClientConfigBuilder.b_remote_encryption_certificate_id b =
    Some (ClientIdentity.remote_encryption_certificate_id (ClientConfig.identity c));
  ds_local_signer_id :
    ClientConfigBuilder.b_local_signer_id b = Some (ClientConfig.local_signer_id c);
  ds_expected_remote_signer_id :
    ClientConfigBuilder.b_expected_remote_signer_id b =
    Some (ClientConfig.expected_remote_signer_id c);
  ds_authentication_mode :
    ClientConfigBuilder.b_authentication_mode b = Some (ClientConfig.authentication_mode c);
  ds_envelope_mode :
    ClientConfigBuilder.b_envelope_mode b = Some (ClientConfig.envelope_mode c);
  ds_iv :
    match ClientConfig.envelope_mode c with
    | EnvelopeMode.LegacyCbc => ClientConfigBuilder.b_iv b = Some (ClientConfig.iv c)
    | EnvelopeMode.Aead _ =>
        ClientConfigBuilder.b_iv b = None /\ ClientConfig.iv c = replicate 16 x00
    end;
  ds_max :
    ClientConfig.max_plaintext_bytes c =
    unwrap_or (ClientConfigBuilder.b_max_plaintext_bytes b)
      (default_limit (ClientConfig.envelope_mode c));
}.

Section config.
Context `{Sys : System}.
Import ClientConfigBuilder.

Lemma validate_header_value_Ok v f x :
  validate_header_value v f = Ok x <-> x = v /\ header_text_ok v.
Proof.
  unfold validate_header_value. pose proof (header_text_test v) as Ht.
  destruct (_ || _); naive_solver.
Qed.

Lemma validate_header_value_Err v f e :
  validate_header_value v f = Err e -> e = Error.Configuration f.
Proof. unfold validate_header_value. case_match; naive_solver. Qed.

Lemma required_header_value_Ok v f x :
  required_header_value v f = Ok x <-> v = Some x /\ header_text_ok x.
Proof.
  unfold required_header_value. destruct v as [v|]; cbn; [|naive_solver].
  rewrite validate_header_value_Ok. naive_solver.
Qed.

Lemma required_header_value_Err v f e :
  required_header_value v f = Err e -> e = Error.Configuration f.
Proof.
  unfold required_header_value. destruct v; cbn; [apply validate_header_value_Err|naive_solver].
Qed.

Lemma required_signer_id_Ok v f x :
  required_signer_id v f = Ok x <-> v = Some x /\ signer_id_ok x.
Proof.
  unfold required_signer_id, signer_id_ok. destruct v as [v|]; cbn [ok_or mbind result_bind];
    [|naive_solver].
  case_bool_decide; cbn [orb]; [naive_solver|].
  destruct (Z.ltb_spec MAX_SIGNER_ID_BYTES (len v)); naive_solver lia.
Qed.

Lemma required_signer_id_Err v f e :
  required_signer_id v f = Err e -> e = Error.Configuration f.
Proof.
  unfold required_signer_id. destruct v; cbn; [|naive_solver]. case_match; naive_solver.
Qed.

#[local] Opaque required_header_value required_signer_id.

Lemma build_identity_Ok b i :
  build_identity b = Ok i <->
  b_local_identity_id b = Some (ClientIdentity.local_identity_id i) /\
  b_api_version b = Some (ClientIdentity.api_version i) /\
  b_local_certificate_id b = Some (ClientIdentity.local_certificate_id i) /\
  b_expected_remote_signing_certificate_id b =
    Some (ClientIdentity.expected_remote_signing_certificate_id i) /\
  b_remote_encryption_certificate_id b =
    Some (ClientIdentity.remote_encryption_certificate_id i) /\
  identity_wf i.
Proof.
  unfold build_identity, identity_wf. repeat setoid_rewrite bind_Ok.
  setoid_rewrite required_header_value_Ok. destruct i; cbn. naive_solver.
Qed.

Lemma build_iv_Ok b m v :
  build_iv b m = Ok v <->
  match m with
  | EnvelopeMode.LegacyCbc => b_iv b = Some v
  | EnvelopeMode.Aead _ => b_iv b = None /\ v = replicate 16 x00
  end.
Proof. unfold build_iv. destruct m, (b_iv b); cbn; naive_solver. Qed.

Lemma is_ccm_true m : is_ccm m = true <-> m = EnvelopeMode.Aead AeadAlgorithm.Sm4Ccm.
Proof. unfold is_ccm. apply bool_decide_eq_true. Qed.

Lemma build_max_Ok b m n :
  build_max b m = Ok n <->
  n = unwrap_or (b_max_plaintext_bytes b) (default_limit m) /\ limit_ok m n.
Proof.
  unfold build_max, limit_ok, default_limit.
  set (d := if is_ccm m then _ else _).
  set (d' := if decide _ then _ else _).
  assert (d = d') as -> by (unfold d, d', is_ccm; case_bool_decide; case_decide; done).
  set (max := unwrap_or _ _).
  destruct (Z.eqb_spec max 0); cbn [orb]; [naive_solver|].
  destruct (is_ccm m) eqn:Em; cbn [andb].
  - apply is_ccm_true in Em as ->.
    destruct (Z.ltb_spec SM4_CCM_MAX_PLAINTEXT_BYTES max).
    + split; [done|]. intros (-> & _ & H'). specialize (H' eq_refl). lia.
    + split; [intros [= <-]; auto|by intros [-> _]].
  - assert (m <> EnvelopeMode.Aead AeadAlgorithm.Sm4Ccm)
      by (intros ?%is_ccm_true; congruence).
    naive_solver.
Qed.

#[local] Opaque build_identity build_iv build_max AuthenticationMode.validate.

Lemma build_Ok b c :
  build b = Ok c <->
  describes b c /\ identity_wf (ClientConfig.identity c) /\
  signer_id_ok (ClientConfig.local_signer_id c) /\
  signer_id_ok (ClientConfig.expected_remote_signer_id c) /\
  mode_wf (ClientConfig.authentication_mode c) /\
  limit_ok (ClientConfig.envelope_mode c) (ClientConfig.max_plaintext_bytes c).
Proof.
  unfold build. repeat setoid_rewrite bind_Ok.
  setoid_rewrite build_identity_Ok. setoid_rewrite required_signer_id_Ok.
  setoid_rewrite ok_or_Ok. setoid_rewrite build_iv_Ok. setoid_rewrite validate_Ok.
  setoid_rewrite build_max_Ok. split.
  - intros (i & Hi & l & Hl & r & Hr & m & Hm & v & Hv & a & Ha & _ & Hw & n & Hn & [= <-]).
    cbn. split; [constructor; cbn; tauto|tauto].
  - intros (Hd & Hi & Hl & Hr & Hm & Hn). destruct c as [i l r a v m n], Hd; cbn in *.
    exists i; split; [done|]. exists l; split; [done|]. exists r; split; [done|].
    exists m; split; [done|]. exists v; split; [done|]. exists a; split; [done|].
    exists tt; split; [done|]. exists n; done.
Qed.

(** A valid builder stays valid with another acceptable identity value. *)
Lemma build_other_identity b c v :
  build b = Ok c -> header_text_ok v ->
  exists c', build (local_identity_id b v) = Ok c' /\
    ClientIdentity.local_identity_id (ClientConfig.identity c') = v /\
    ClientConfig.authentication_mode c' = ClientConfig.authentication_mode c.
Proof.
  intros ([] & (? & ? & ? & ? & ?) & ? & ? & ? & ?)%build_Ok Hv.
  exists (let i := ClientConfig.identity c in
    ClientConfig.Build
      (ClientIdentity.Build v (ClientIdentity.api_version i) (ClientIdentity.local_certificate_id i) (ClientIdentity.expected_remote_signing_certificate_id i) (ClientIdentity.remote_encryption_certificate_id i))
      (ClientConfig.local_signer_id c) (ClientConfig.expected_remote_signer_id c)
      (ClientConfig.authentication_mode c) (ClientConfig.iv c) (ClientConfig.envelope_mode c)
      (ClientConfig.max_plaintext_bytes c)).
  split; [|done]. apply build_Ok. split; [by constructor|]. unfold identity_wf. cbn. tauto.
Qed.

Lemma build_other_certificate b c v :
  build b = Ok c -> header_text_ok v ->
  exists c', build (expected_remote_signing_certificate_id b v) = Ok c' /\
    ClientIdentity.expected_remote_signing_certificate_id (ClientConfig.identity c') = v /\
    ClientConfig.authentication_mode c' = ClientConfig.authentication_mode c.
Proof.
  intros ([] & (? & ? & ? & ? & ?) & ? & ? & ? & ?)%build_Ok Hv.
  exists (let i := ClientConfig.identity c in
    ClientConfig.Build
      (ClientIdentity.Build (ClientIdentity.local_identity_id i) (ClientIdentity.api_version i) (ClientIdentity.local_certificate_id i) v (ClientIdentity.remote_encryption_certificate_id i))
      (ClientConfig.local_signer_id c) (ClientConfig.expected_remote_signer_id c)
      (ClientConfig.authentication_mode c) (ClientConfig.iv c) (ClientConfig.envelope_mode c)
      (ClientConfig.max_plaintext_bytes c)).
  split; [|done]. apply build_Ok. split; [by constructor|]. unfold identity_wf. cbn. tauto.
Qed.

#[local] Transparent required_header_value required_signer_id
  build_identity build_iv build_max AuthenticationMode.validate.

End config.

Section claims.
Context `{Sys : System} `{Ar : Arch}.
Import ClientConfigBuilder.

(** The field names an error may carry. *)
Definition stable_fields : list string :=
  ["local_identity_id"; "api_version"; "local_certificate_id";
   "expected_remote_signing_certificate_id"; "remote_encryption_certificate_id";
   "local_signer_id"; "expected_remote_signer_id"; "envelope_mode"; "iv";
   "authentication_mode"; "domain_separator"; "max_plaintext_bytes"]%string.

(** A failure that only names a configuration field. *)
Definition names_a_field (e : Error.t) : Prop :=
  exists f, e = Error.Configuration f /\ f ∈ stable_fields.

Lemma names_field f : f ∈ stable_fields -> names_a_field (Error.Configuration f).
Proof. by exists f. Qed.

Lemma names_header v f :
  f ∈ stable_fields -> fails_with names_a_field (required_header_value v f).
Proof. intros Hf e ->%required_header_value_Err. by apply names_field. Qed.

Lemma names_signer v f :
  f ∈ stable_fields -> fails_with names_a_field (required_signer_id v f).
Proof. intros Hf e ->%required_signer_id_Err. by apply names_field. Qed.

Ltac names_step :=
  first [ apply names_header; set_solver | apply names_signer; set_solver
        | fails_step ltac:(apply names_field; set_solver) ].

Lemma build_names_a_field b : fails_with names_a_field (build b).
Proof.
  unfold build, build_identity, build_iv, build_max. repeat names_step.
  - case_match; repeat names_step.
  - unfold AuthenticationMode.validate. case_match; repeat names_step.
Qed.

(** C20. [ClientConfigBuilder::build] succeeds exactly on the builders whose
    required fields are set to valid values, and the configuration then carries
    those values: identities that are not blank and have no line breaks, signer
    ids of 1 to 8191 bytes, an IV exactly for CBC, a usable authentication mode,
    and the explicit limit or the mode's default (64 KiB for CCM, otherwise
    16 MiB).  Every failure is [Error::Configuration] with a stable field name. *)
Theorem client_config_build_spec b :
  (forall c, build b = Ok c <->
     describes b c /\ identity_wf (ClientConfig.identity c) /\
     signer_id_ok (ClientConfig.local_signer_id c) /\
     signer_id_ok (ClientConfig.expected_remote_signer_id c) /\
     mode_wf (ClientConfig.authentication_mode c) /\
     limit_ok (ClientConfig.envelope_mode c) (ClientConfig.max_plaintext_bytes c)) /\
  (forall e, build b = Err e ->
     exists f, e = Error.Configuration f /\ f ∈ stable_fields).
Proof. split; [intros c; apply build_Ok|apply build_names_a_field]. Qed.

Lemma build_wf b c : builder_typed b -> build b = Ok c -> config_wf c.
Proof.
  intros [Tiv Tmax] (Hd & Hi & Hl & Hr & Hm & Hn)%build_Ok.
  pose proof usize_max_bounds as Hu. destruct Hd as [????????? Div Dmax].
  refine (conj Hi (conj Hl (conj Hr (conj Hm (conj _ (conj _ (conj _ Hn))))))).
  - destruct (ClientConfig.envelope_mode c); [by apply Tiv|by destruct Div as [_ ->]].
  - destruct (ClientConfig.envelope_mode c); [done|by destruct Div].
  - destruct Hn as [Hn _]. rewrite Dmax in *.
    destruct (b_max_plaintext_bytes b) as [n|] eqn:En; cbn [unwrap_or] in *.
    + specialize (Tmax n eq_refl). lia.
    + unfold default_limit, SM4_CCM_DEFAULT_MAX_PLAINTEXT_BYTES, DEFAULT_MAX_PLAINTEXT_BYTES.
      case_decide; lia.
Qed.

(** C21. Every configuration the builder returns satisfies the invariant the
    envelope code relies on: a 16-byte IV that is all zero unless the mode is
    CBC, a positive plaintext limit that fits a [usize] and, for SM4-CCM, stays
    within the 2^24-1 bytes a 12-byte nonce allows, non-empty signer ids of at
    most 8191 bytes, and an authentication mode with a non-empty domain. *)
Theorem client_config_invariant b c :
  builder_typed b -> build b = Ok c ->
  config_wf c /\
  (ClientConfig.envelope_mode c = EnvelopeMode.Aead AeadAlgorithm.Sm4Ccm ->
   ClientConfig.max_plaintext_bytes c < 2 ^ 24) /\
  8 * len (ClientConfig.local_signer_id c) < 2 ^ 16 /\
  8 * len (ClientConfig.expected_remote_signer_id c) < 2 ^ 16.
Proof.
  intros Ht Hb. assert (Hw : config_wf c) by (by eapply build_wf).
  split; [done|]. destruct Hw as (_ & [_ Hl] & [_ Hr] & _ & _ & _ & _ & [_ Hn]).
  unfold MAX_SIGNER_ID_BYTES in *. change (65535 / 8) with 8191 in *.
  split; [|lia]. intros Hm. specialize (Hn Hm).
  unfold SM4_CCM_MAX_PLAINTEXT_BYTES in Hn. change (Z.shiftl 1 24) with (2 ^ 24) in Hn. lia.
Qed.

(** The build without feature [aead] is the CBC-only slice of the full one: it
    accepts, rejects (with the same error) and configures every builder exactly
    as the full build does once [EnvelopeMode::LegacyCbc] is selected. *)
Theorem build_without_aead_equiv b :
  build_without_aead b = build (envelope_mode b EnvelopeMode.LegacyCbc).
Proof.
  unfold build_without_aead, build.
  change (build_identity (envelope_mode b EnvelopeMode.LegacyCbc)) with (build_identity b).
  destruct (build_identity b); cbn [mbind result_bind]; [|done].
  change (b_local_signer_id (envelope_mode b _)) with (b_local_signer_id b).
  destruct (required_signer_id (b_local_signer_id b) _); cbn [mbind result_bind]; [|done].
  change (b_expected_remote_signer_id (envelope_mode b _)) with (b_expected_remote_signer_id b).
  destruct (required_signer_id _ _); cbn [mbind result_bind]; [|done].
  destruct (b_iv b) eqn:Eiv; cbn; rewrite Eiv; cbn; [|done].
  destruct (b_authentication_mode b); cbn [ok_or mbind result_bind]; [|done].
  destruct (AuthenticationMode.validate _); cbn [mbind result_bind]; [|done].
  unfold build_max; cbn. by rewrite orb_false_r.
Qed.

End claims.
