(* ===== verification/External.v ===== *)
(** * Interfaces to the code the crate calls

    The [base64], [serde_json] and [gmcrypto_core] crates are not part of this repository.
    Their functions are operations of a class, and what the crate's correctness
    rests on is stated as classes of laws: the documented round trips and sizes
    of the primitives.  No law speaks about secrecy or unforgeability; where a
    theorem needs an idealised signature it says so in its statement.

    [Sm2PrivateKey] and [Sm2PublicKey] are opaque.  [sm2::encrypt] and
    [sm2::sign_with_id] draw from [SysRng], so they thread the [world]. *)

From S2P Require Import Prelude.
From S2P Require Import Rust.
From S2P Require Import Text.
From S2P Require Import System.
From S2P Require Import Error.

(** [base64::engine::general_purpose::STANDARD]. *)
Class Base64 := {
  base64_encode : list byte -> str;
  base64_decode : str -> option (list byte);
}.

Definition base64_alphabet (c : char) : bool :=
  let z := code c in
  ((65 <=? z) && (z <=? 90)) || ((97 <=? z) && (z <=? 122)) || ((48 <=? z) && (z <=? 57))
  || (z =? 43) || (z =? 47) || (z =? 61).

Class Base64Laws (B : Base64) : Prop := {
  base64_decode_encode bs : base64_decode (base64_encode bs) = Some bs;
  (** Padding and trailing bits are canonical: only one text decodes to [bs]. *)
  base64_canonical s bs : base64_decode s = Some bs -> s = base64_encode bs;
  (** Four characters per started group of three bytes. *)
  base64_encode_len bs : str_len (base64_encode bs) = (len bs + 2) / 3 * 4;
  base64_encode_alphabet bs :
    Forall (fun c => base64_alphabet c = true) (base64_encode bs);
}.

(** [serde_json] at the type of one request or response value. *)
Class Json (T : Type) := {
  json_to_writer : T -> option (list byte);
  json_from_slice : list byte -> option T;
}.

(** [gmcrypto_core::{sm2, sm4, pem, pkcs8, spki, x509}]. *)
Class Crypto `{System} := {
  Sm2PrivateKey : Type;
  Sm2PublicKey : Type;
  Certificate : Type;
  public_key : Sm2PrivateKey -> Sm2PublicKey;
  (** [Sm2PrivateKey::to_bytes_be], [Sm2PublicKey::to_sec1_uncompressed]. *)
  to_bytes_be : Sm2PrivateKey -> list byte;
  to_sec1_uncompressed : Sm2PublicKey -> list byte;
  (** [sm2]. *)
  sm2_encrypt : Sm2PublicKey -> list byte -> world -> option (list byte) * world;
  sm2_decrypt : Sm2PrivateKey -> list byte -> option (list byte);
  sm2_sign_with_id :
    Sm2PrivateKey -> list byte -> list byte -> world -> option (list byte) * world;
  sm2_verify_with_id : Sm2PublicKey -> list byte -> list byte -> list byte -> bool;
  (** [sm4::mode_cbc] (key, IV, data). *)
  cbc_encrypt : list byte -> list byte -> list byte -> list byte;
  cbc_decrypt : list byte -> list byte -> list byte -> option (list byte);
  (** [sm4::mode_gcm] (key, nonce, aad, data [, tag]). *)
  gcm_encrypt :
    list byte -> list byte -> list byte -> list byte -> option (list byte * list byte);
  gcm_decrypt :
    list byte -> list byte -> list byte -> list byte -> list byte -> option (list byte);
  (** [sm4::mode_ccm] (key, nonce, aad, data, tag length). *)
  ccm_encrypt :
    list byte -> list byte -> list byte -> list byte -> Z -> option (list byte);
  ccm_decrypt :
    list byte -> list byte -> list byte -> list byte -> Z -> option (list byte);
  (** Key containers. *)
  pem_decode : str -> str -> option (list byte);
  pkcs8_decrypt : list byte -> list byte -> option Sm2PrivateKey;
  spki_decode : list byte -> option Sm2PublicKey;
  certificate_from_der : list byte -> option Certificate;
  subject_public_key : Certificate -> Sm2PublicKey;
}.

Class CryptoLaws `{System} (C : Crypto) : Prop := {
  (** What was encrypted to a public key decrypts under its private key. *)
  sm2_decrypt_encrypt sk m w c w' :
    sm2_encrypt (public_key sk) m w = (Some c, w') -> sm2_decrypt sk c = Some m;
  (** The DER forms (GM/T 0009): a ciphertext adds two coordinates, a 32-byte
      digest and tags to the message, a signature is two 32-byte integers. *)
  sm2_encrypt_len pk m w c w' :
    sm2_encrypt pk m w = (Some c, w') -> 1 <= len c <= len m + 128;
  sm2_sign_len sk id m w s w' :
    sm2_sign_with_id sk id m w = (Some s, w') -> 1 <= len s <= 128;
  (** A signature verifies under the signer's public key and id. *)
  sm2_verify_sign sk id m w s w' :
    sm2_sign_with_id sk id m w = (Some s, w') ->
    sm2_verify_with_id (public_key sk) id m s = true;
  (** CBC with PKCS#7: at least one byte of padding, whole 16-byte blocks. *)
  cbc_decrypt_encrypt k iv p : cbc_decrypt k iv (cbc_encrypt k iv p) = Some p;
  cbc_encrypt_len k iv p : len (cbc_encrypt k iv p) = (len p / 16 + 1) * 16;
  (** GCM: no expansion, a 16-byte tag. *)
  gcm_decrypt_encrypt k n a p c t :
    gcm_encrypt k n a p = Some (c, t) -> gcm_decrypt k n a c t = Some p;
  gcm_encrypt_len k n a p c t :
    gcm_encrypt k n a p = Some (c, t) -> len c = len p /\ len t = 16;
  gcm_decrypt_len k n a c t p :
    gcm_decrypt k n a c t = Some p -> len p = len c;
  (** CCM: the tag is appended to the ciphertext. *)
  ccm_decrypt_encrypt k n a p tl j :
    ccm_encrypt k n a p tl = Some j -> ccm_decrypt k n a j tl = Some p;
  ccm_encrypt_len k n a p tl j :
    ccm_encrypt k n a p tl = Some j -> len j = len p + tl;
  ccm_decrypt_len k n a j tl p :
    ccm_decrypt k n a j tl = Some p -> len j = len p + tl;
}.

(** The parts of [gmcrypto_core] that make key files rather than read them, used by
    the fuzz harness and the unit tests: [Sm2PrivateKey::from_bytes_be],
    [pkcs8::encrypt] (key, password, salt, iterations, IV) and [spki::encode]. *)
Class KeyTooling `{System} (C : Crypto) := {
  from_bytes_be : list byte -> option Sm2PrivateKey;
  pkcs8_encrypt :
    Sm2PrivateKey -> list byte -> list byte -> Z -> list byte -> option (list byte);
  spki_encode : Sm2PublicKey -> list byte;
}.

Class KeyToolingLaws `{System} (C : Crypto) (T : KeyTooling C) : Prop := {
  (** A 32-byte scalar between 1 and 255 is a private key, and is its encoding. *)
  from_bytes_be_small b :
    b <> x00 ->
    exists k, from_bytes_be (replicate 31 x00 ++ [b]) = Some k /\
      to_bytes_be k = replicate 31 x00 ++ [b];
  (** A non-empty password, a 16-byte salt and IV and at least one iteration are
      accepted, and the container opens under the same password. *)
  pkcs8_encrypt_accepts k password salt n iv :
    password <> [] -> len salt = 16 -> len iv = 16 -> 1 <= n ->
    exists der, pkcs8_encrypt k password salt n iv = Some der;
  pkcs8_decrypt_encrypt k password salt n iv der :
    pkcs8_encrypt k password salt n iv = Some der ->
    pkcs8_decrypt der password = Some k;
  spki_decode_encode pk : spki_decode (spki_encode pk) = Some pk;
}.
