(* ===== verification/Keys.v ===== *)
(** * Key material (src/keys.rs)

    Loading of private and public keys from PEM, DER and files, and the
    assignment of keys to the four envelope roles. *)

From S2P Require Import Prelude.
From S2P Require Import Rust.
From S2P Require Import Text.
From S2P Require Import System.
From S2P Require Import Error.
From S2P Require Import External.

Module PeerKeySource.
Inductive t := Spki | Certificate.
End PeerKeySource.

#[export] Instance peer_key_source_eq_dec : EqDecision PeerKeySource.t.
Proof. solve_decision. Defined.

Section helpers.
Context `{Sys : System} `{Cr : !Crypto}.

Definition private_key_error : Error.t := Error.KeyMaterial KeyKind.LocalPrivate.
Definition public_key_error : Error.t := Error.KeyMaterial KeyKind.PeerPublic.

Definition private_roles_overlap (left right : Sm2PrivateKey) : bool :=
  bool_decide (to_bytes_be left = to_bytes_be right).
Definition public_roles_overlap (left right : Sm2PublicKey) : bool :=
  bool_decide (to_sec1_uncompressed left = to_sec1_uncompressed right).

Definition is_pem (input : list byte) : bool :=
  starts_with (bytes_lit "-----BEGIN ") input.

(** [fs::read(path).map_err(|source| Error::Io { .. })]. *)
Definition read_file (operation : string) (p : path) (w : world) : Result (list byte) :=
  map_err (fun source => Error.Io operation p source) (fs_read p w).

End helpers.

Module PrivateKey.
Section private.
Context `{Sys : System} `{Cr : !Crypto}.

Record t := Build { inner : Sm2PrivateKey }.

Definition from_encrypted_der (private_der password : list byte) : Result t :=
  inner ← ok_or (pkcs8_decrypt private_der password) private_key_error;
  Ok (Build inner).

Definition from_encrypted_pem (private_pem password : list byte) : Result t :=
  private_text ← ok_or (from_utf8 private_pem) private_key_error;
  private_der ← ok_or (pem_decode private_text (lit "ENCRYPTED PRIVATE KEY"))
                  private_key_error;
  from_encrypted_der private_der password.

Definition from_encrypted_file (p : path) (password : list byte) (w : world) : Result t :=
  private ← read_file "read private key" p w;
  if is_pem private then from_encrypted_pem private password
  else from_encrypted_der private password.
End private.
End PrivateKey.

Module PublicKey.
Section public.
Context `{Sys : System} `{Cr : !Crypto}.

Record t := Build { inner : Sm2PublicKey; source : PeerKeySource.t }.

(** [impl fmt::Debug]: only the container kind. *)
Definition debug (k : t) : dbg :=
  DStruct "PublicKey"
    [("source"%string,
      match source k with
      | PeerKeySource.Spki => DTuple "Spki" []
      | PeerKeySource.Certificate => DTuple "Certificate" []
      end)].

Definition from_spki_der (public_der : list byte) : Result t :=
  inner ← ok_or (spki_decode public_der) public_key_error;
  Ok (Build inner PeerKeySource.Spki).

Definition from_certificate_der (certificate_der : list byte) : Result t :=
  certificate ← ok_or (certificate_from_der certificate_der) public_key_error;
  Ok (Build (subject_public_key certificate) PeerKeySource.Certificate).

Definition from_pem (public_pem : list byte) : Result t :=
  public_text ← ok_or (from_utf8 public_pem) public_key_error;
  if str_contains (lit "-----BEGIN PUBLIC KEY-----") public_text then
    public_der ← ok_or (pem_decode public_text (lit "PUBLIC KEY")) public_key_error;
    from_spki_der public_der
  else if str_contains (lit "-----BEGIN CERTIFICATE-----") public_text then
    certificate_der ← ok_or (pem_decode public_text (lit "CERTIFICATE")) public_key_error;
    from_certificate_der certificate_der
  else Err public_key_error.

Definition from_der (public_der : list byte) : Result t :=
  match spki_decode public_der with
  | Some inner => Ok (Build inner PeerKeySource.Spki)
  | None =>
      match certificate_from_der public_der with
      | Some certificate =>
          Ok (Build (subject_public_key certificate) PeerKeySource.Certificate)
      | None => Err public_key_error
      end
  end.

Definition from_file (p : path) (w : world) : Result t :=
  public ← read_file "read peer key" p w;
  if is_pem public then from_pem public else from_der public.
End public.
End PublicKey.

Module KeyMaterial.
Section material.
Context `{Sys : System} `{Cr : !Crypto}.

Record t := Build {
  local_signing : Sm2PrivateKey;
  local_decryption : Sm2PrivateKey;
  remote_verification : Sm2PublicKey;
  remote_encryption : Sm2PublicKey;
  remote_verification_source : PeerKeySource.t;
  remote_encryption_source : PeerKeySource.t;
  shared_roles : bool;
}.

Definition new (local_signing local_decryption : PrivateKey.t)
    (remote_verification remote_encryption : PublicKey.t) : Result t :=
  if private_roles_overlap (PrivateKey.inner local_signing) (PrivateKey.inner local_decryption)
     || public_roles_overlap (PublicKey.inner remote_verification)
          (PublicKey.inner remote_encryption)
  then Err (Error.Configuration "key_roles")
  else Ok {|
    local_signing := PrivateKey.inner local_signing;
    local_decryption := PrivateKey.inner local_decryption;
    remote_verification := PublicKey.inner remote_verification;
    remote_encryption := PublicKey.inner remote_encryption;
    remote_verification_source := PublicKey.source remote_verification;
    remote_encryption_source := PublicKey.source remote_encryption;
    shared_roles := false;
  |}.

Definition shared (local : PrivateKey.t) (remote : PublicKey.t) : t := {|
  local_signing := PrivateKey.inner local;
  local_decryption := PrivateKey.inner local;
  remote_verification := PublicKey.inner remote;
  remote_encryption := PublicKey.inner remote;
  remote_verification_source := PublicKey.source remote;
  remote_encryption_source := PublicKey.source remote;
  shared_roles := true;
|}.

Definition shared_from_pem (private_pem password peer_pem : list byte) : Result t :=
  local ← PrivateKey.from_encrypted_pem private_pem password;
  remote ← PublicKey.from_pem peer_pem;
  Ok (shared local remote).

Definition shared_from_der (private_der password peer_der : list byte) : Result t :=
  local ← PrivateKey.from_encrypted_der private_der password;
  remote ← PublicKey.from_der peer_der;
  Ok (shared local remote).

Definition shared_from_files (private_path : path) (password : list byte) (peer_path : path)
    (w : world) : Result t :=
  private ← read_file "read private key" private_path w;
  peer ← read_file "read peer key" peer_path w;
  local ← (if is_pem private then PrivateKey.from_encrypted_pem private password
           else PrivateKey.from_encrypted_der private password);
  remote ← (if is_pem peer then PublicKey.from_pem peer else PublicKey.from_der peer);
  Ok (shared local remote).

Definition uses_shared_roles (k : t) : bool := shared_roles k.
End material.
End KeyMaterial.

(** ** Roles *)

Section claims.
Context `{Sys : System} `{Cr : !Crypto}.
Import KeyMaterial.

(** Two keys are independent when their encodings differ. *)
Definition independent_roles (k : t) : Prop :=
  to_bytes_be (local_signing k) <> to_bytes_be (local_decryption k) /\
  to_sec1_uncompressed (remote_verification k) <> to_sec1_uncompressed (remote_encryption k).

(** The key sets the public constructors can make. *)
Inductive made : t -> Prop :=
| made_new a b c d k : new a b c d = Ok k -> made k
| made_shared l r : made (shared l r)
| made_shared_pem a p b k : shared_from_pem a p b = Ok k -> made k
| made_shared_der a p b k : shared_from_der a p b = Ok k -> made k
| made_shared_files a p b w k : shared_from_files a p b w = Ok k -> made k.

Lemma new_Ok a b c d k :
  new a b c d = Ok k <->
  k = Build (PrivateKey.inner a) (PrivateKey.inner b) (PublicKey.inner c) (PublicKey.inner d)
        (PublicKey.source c) (PublicKey.source d) false /\ independent_roles k.
Proof.
  unfold new, private_roles_overlap, public_roles_overlap, independent_roles.
  repeat case_bool_decide; cbn; naive_solver.
Qed.

(** C39. C39. Role assignment: [KeyMaterial::new] puts each key in the role of its
    position and accepts the four keys exactly when neither the local pair nor
    the remote pair has equal encodings, otherwise reporting the field
    [key_roles]; and for every key set any constructor returns,
    [uses_shared_roles] tells truly whether the roles are independent or both
    pairs are one key each, so mixed reuse never arises. *)
Theorem key_roles_sound :
  (forall a b c d,
     match new a b c d with
     | Ok k => k = Build (PrivateKey.inner a) (PrivateKey.inner b) (PublicKey.inner c)
                     (PublicKey.inner d) (PublicKey.source c) (PublicKey.source d) false /\
               independent_roles k
     | Err e => e = Error.Configuration "key_roles" /\
                (to_bytes_be (PrivateKey.inner a) = to_bytes_be (PrivateKey.inner b) \/
                 to_sec1_uncompressed (PublicKey.inner c) =
                 to_sec1_uncompressed (PublicKey.inner d))
     end) /\
  (forall k, made k ->
     if uses_shared_roles k
     then local_signing k = local_decryption k /\
          remote_verification k = remote_encryption k
     else independent_roles k).
Proof.
  split.
  - intros a b c d. destruct (new a b c d) as [k|e] eqn:E; [by apply new_Ok|].
    unfold new, private_roles_overlap, public_roles_overlap in E.
    repeat case_bool_decide; cbn in E; naive_solver.
  - intros k Hk. destruct Hk as [a b c d k Hn|l r|a p b k Hs|a p b k Hs|a p b w k Hs].
    + by apply new_Ok in Hn as [-> ?].
    + done.
    + apply bind_Ok in Hs as (l & _ & (r & _ & [= <-])%bind_Ok). done.
    + apply bind_Ok in Hs as (l & _ & (r & _ & [= <-])%bind_Ok). done.
    + apply bind_Ok in Hs as (? & _ & (? & _ & (? & _ & (? & _ & [= <-])%bind_Ok)%bind_Ok)%bind_Ok).
      done.
Qed.

(** ** Loading *)

(** A computation whose failures carry only a key class, or a failed read. *)
Definition redacted {A} (kind : KeyKind.t) (operation : string) (m : Result A) : Prop :=
  match m with
  | Ok _ => True
  | Err e =>
      e = Error.KeyMaterial kind \/ exists p source, e = Error.Io operation p source
  end.

Lemma redacted_bind {A B} kind op (m : Result A) (k : A -> Result B) :
  redacted kind op m -> (forall a, redacted kind op (k a)) -> redacted kind op (m ≫= k).
Proof. destruct m; cbn; auto. Qed.

Lemma redacted_ok_or {A} kind op (o : option A) :
  redacted kind op (ok_or o (Error.KeyMaterial kind)).
Proof. destruct o; cbn; auto. Qed.

Lemma redacted_read kind op p w : redacted kind op (read_file op p w).
Proof. unfold read_file. destruct (fs_read p w); cbn; eauto. Qed.

Ltac redact :=
  repeat first [ apply redacted_ok_or | apply redacted_read
               | apply redacted_bind; [|intros ?] | case_match | done | by left ].

Lemma private_der_redacted op d pw :
  redacted KeyKind.LocalPrivate op (PrivateKey.from_encrypted_der d pw).
Proof. unfold PrivateKey.from_encrypted_der. redact. Qed.

Lemma private_pem_redacted op d pw :
  redacted KeyKind.LocalPrivate op (PrivateKey.from_encrypted_pem d pw).
Proof.
  unfold PrivateKey.from_encrypted_pem. do 2 (apply redacted_bind; [redact|intros ?]).
  apply private_der_redacted.
Qed.

Lemma public_der_redacted op d : redacted KeyKind.PeerPublic op (PublicKey.from_der d).
Proof. unfold PublicKey.from_der. redact. Qed.

Lemma public_pem_redacted op d : redacted KeyKind.PeerPublic op (PublicKey.from_pem d).
Proof.
  unfold PublicKey.from_pem, PublicKey.from_spki_der, PublicKey.from_certificate_der. redact.
Qed.

(** Loader failures are redacted: whatever the bytes, the password or the file
    system do, a private-key loader fails only with the class [LocalPrivate] or
    with the read error of its own file, and a public-key loader only with the
    class [PeerPublic] or its read error; loading from a file is loading its
    contents, as PEM exactly when they start with the PEM marker. *)
Theorem key_loaders_redacted pem der password p w :
  redacted KeyKind.LocalPrivate "read private key" (PrivateKey.from_encrypted_pem pem password) /\
  redacted KeyKind.LocalPrivate "read private key" (PrivateKey.from_encrypted_der der password) /\
  redacted KeyKind.LocalPrivate "read private key" (PrivateKey.from_encrypted_file p password w) /\
  redacted KeyKind.PeerPublic "read peer key" (PublicKey.from_pem pem) /\
  redacted KeyKind.PeerPublic "read peer key" (PublicKey.from_der der) /\
  redacted KeyKind.PeerPublic "read peer key" (PublicKey.from_file p w) /\
  (forall contents, fs_read p w = Ok contents ->
     PrivateKey.from_encrypted_file p password w =
       (if is_pem contents then PrivateKey.from_encrypted_pem contents password
        else PrivateKey.from_encrypted_der contents password) /\
     PublicKey.from_file p w =
       (if is_pem contents then PublicKey.from_pem contents else PublicKey.from_der contents)).
Proof.
  split; [apply private_pem_redacted|]. split; [apply private_der_redacted|].
  split; [apply redacted_bind; [apply redacted_read|intros c];
          case_match; [apply private_pem_redacted|apply private_der_redacted]|].
  split; [apply public_pem_redacted|]. split; [apply public_der_redacted|].
  split; [apply redacted_bind; [apply redacted_read|intros c];
          case_match; [apply public_pem_redacted|apply public_der_redacted]|].
  intros contents E. unfold PrivateKey.from_encrypted_file, PublicKey.from_file, read_file.
  by rewrite E.
Qed.

(** [KeyMaterial::shared_from_files] reads both files before parsing either: a
    failed read is reported, private file first, even when the other file holds
    garbage; when both files can be read it is the separate file loaders followed
    by [shared]. *)
Theorem shared_from_files_reads_first private_path password peer_path w :
  shared_from_files private_path password peer_path w =
  match fs_read private_path w, fs_read peer_path w with
  | Err source, _ => Err (Error.Io "read private key" private_path source)
  | Ok _, Err source => Err (Error.Io "read peer key" peer_path source)
  | Ok _, Ok _ =>
      local ← PrivateKey.from_encrypted_file private_path password w;
      remote ← PublicKey.from_file peer_path w;
      Ok (shared local remote)
  end.
Proof.
  unfold shared_from_files, PrivateKey.from_encrypted_file, PublicKey.from_file, read_file.
  destruct (fs_read private_path w), (fs_read peer_path w); reflexivity.
Qed.

(** A public key's recorded container is the one it was decoded from: a key
    labelled [Spki] is what [spki::decode] gave for some bytes, one labelled
    [Certificate] is the subject key of a parsed certificate. *)
Theorem public_key_source_truthful k :
  (exists pem, PublicKey.from_pem pem = Ok k) \/ (exists der, PublicKey.from_der der = Ok k) ->
  match PublicKey.source k with
  | PeerKeySource.Spki => exists der, spki_decode der = Some (PublicKey.inner k)
  | PeerKeySource.Certificate =>
      exists der cert, certificate_from_der der = Some cert /\
        subject_public_key cert = PublicKey.inner k
  end.
Proof.
  intros [[pem H]|[der H]].
  - unfold PublicKey.from_pem in H. apply bind_Ok in H as (t & _ & H).
    destruct (str_contains _ t); [|destruct (str_contains _ t); [|done]];
      apply bind_Ok in H as (d & _ & H);
      apply bind_Ok in H as (x & Hx%ok_or_Ok & [= <-]); cbn; eauto.
  - unfold PublicKey.from_der in H.
    destruct (spki_decode der) eqn:Es; [injection H as <-; cbn; eauto|].
    destruct (certificate_from_der der) eqn:Ec; [|done]. injection H as <-. cbn. eauto.
Qed.

End claims.
