(* ===== verification/Calendar.v ===== *)
(** * Request timestamps (src/message.rs, [format_utc_timestamp] and
      [civil_date_from_days])

    The conversion of days since the Unix epoch to a Gregorian date, written in
    [i64] arithmetic ([i64] wraps to 64 bits; Rust's [/] truncates, so [Z.quot]),
    against a reference calendar that steps from one day to the next. *)

From S2P Require Import Prelude.
From S2P Require Import Rust.
From S2P Require Import Text.
From S2P Require Import System.
From S2P Require Import Error.

(** Two's complement wrap-around of [i64] arithmetic. *)
Definition i64 (z : Z) : Z := (z + 2 ^ 63) mod 2 ^ 64 - 2 ^ 63.

Definition i64_try_from (z : Z) : option Z := if z <? 2 ^ 63 then Some z else None.

Definition civil_date_from_days (days_since_epoch : Z) : Z * Z * Z :=
  let shifted := i64 (days_since_epoch + 719468) in
  let era :=
    Z.quot (if 0 <=? shifted then shifted else i64 (shifted - 146096)) 146097 in
  let day_of_era := i64 (shifted - i64 (era * 146097)) in
  let year_of_era :=
    Z.quot (i64 (i64 (i64 (day_of_era - Z.quot day_of_era 1460)
                      + Z.quot day_of_era 36524)
                 - Z.quot day_of_era 146096)) 365 in
  let year := i64 (year_of_era + i64 (era * 400)) in
  let day_of_year :=
    i64 (day_of_era
         - i64 (i64 (i64 (365 * year_of_era) + Z.quot year_of_era 4)
                - Z.quot year_of_era 100)) in
  let month_prime := Z.quot (i64 (i64 (5 * day_of_year) + 2)) 153 in
  let day :=
    i64 (i64 (day_of_year - Z.quot (i64 (i64 (153 * month_prime) + 2)) 5) + 1) in
  let month := i64 (month_prime + (if month_prime <? 10 then 3 else -9)) in
  let year := i64 (year + (if month <=? 2 then 1 else 0)) in
  (year, month, day).

Definition format_utc_timestamp `{System} (since_epoch : Duration) : Result str :=
  let seconds := dur_secs since_epoch in
  days ← ok_or (i64_try_from (seconds / 86400)) Error.Serialization;
  let seconds_of_day := seconds mod 86400 in
  let hour := seconds_of_day / 3600 in
  let minute := (seconds_of_day mod 3600) / 60 in
  let second := seconds_of_day mod 60 in
  let '(year, month, day) := civil_date_from_days days in
  Ok (fmt_dec 4 year ++ lit "-" ++ fmt_dec 2 month ++ lit "-" ++ fmt_dec 2 day ++ lit "-"
      ++ fmt_dec 2 hour ++ lit "." ++ fmt_dec 2 minute ++ lit "." ++ fmt_dec 2 second
      ++ lit "." ++ fmt_dec 6 (subsec_micros since_epoch)).

(** ** The reference calendar *)

Definition is_leap (y : Z) : bool :=
  (y mod 4 =? 0) && (negb (y mod 100 =? 0) || (y mod 400 =? 0)).

Definition days_in_month (y m : Z) : Z :=
  if m =? 2 then (if is_leap y then 29 else 28)
  else if (m =? 4) || (m =? 6) || (m =? 9) || (m =? 11) then 30 else 31.

Definition next_day (date : Z * Z * Z) : Z * Z * Z :=
  let '(y, m, d) := date in
  if d <? days_in_month y m then (y, m, d + 1)
  else if m <? 12 then (y, m + 1, 1) else (y + 1, 1, 1).

Definition valid_date (date : Z * Z * Z) : Prop :=
  let '(y, m, d) := date in 1 <= m <= 12 /\ 1 <= d <= days_in_month y m.

(** ** The computation without wrap-around *)

Lemma i64_small z : - 2 ^ 63 <= z < 2 ^ 63 -> i64 z = z.
Proof. intros H. unfold i64. rewrite Z.mod_small; lia. Qed.

(** Year of the 400-year era (eras start on 1 March) and day of that year. *)
Definition era_year (doe : Z) : Z :=
  (doe - doe / 1460 + doe / 36524 - doe / 146096) / 365.
Definition year_start (yoe : Z) : Z := 365 * yoe + yoe / 4 - yoe / 100.
(** Month and day from the day of a March-based year. *)
Definition march_month (doy : Z) : Z := (5 * doy + 2) / 153.
Definition month_day (doy : Z) : Z * Z :=
  let mp := march_month doy in
  (mp + (if mp <? 10 then 3 else -9), doy - (153 * mp + 2) / 5 + 1).

(** The date of day [doy] of year [yoe] of era [era]. *)
Definition date_at (era yoe doy : Z) : Z * Z * Z :=
  let '(m, d) := month_day doy in
  (yoe + era * 400 + (if m <=? 2 then 1 else 0), m, d).

Lemma era_year_spec doe :
  0 <= doe < 146097 ->
  0 <= era_year doe < 400 /\
  year_start (era_year doe) <= doe /\
  (doe < year_start (era_year doe + 1) \/ doe = 146096 /\ era_year doe = 399).
Proof.
  unfold era_year, year_start. intros H.
  Z.div_mod_to_equations. lia.
Qed.

(** The leap rule, in the March-based count: year [yoe] of an era has a 29
    February exactly when its length is 366. *)
Lemma year_length era yoe :
  0 <= yoe < 400 ->
  (if decide (yoe = 399) then 146097 else year_start (yoe + 1)) - year_start yoe
  = if is_leap (yoe + era * 400 + 1) then 366 else 365.
Proof.
  intros H. unfold is_leap, year_start.
  replace ((yoe + era * 400 + 1) mod 4) with ((yoe + 1) mod 4) by divlia.
  replace ((yoe + era * 400 + 1) mod 100) with ((yoe + 1) mod 100) by divlia.
  replace ((yoe + era * 400 + 1) mod 400) with ((yoe + 1) mod 400) by divlia.
  case_decide; [by subst|].
  destruct (Z.eqb_spec ((yoe + 1) mod 4) 0), (Z.eqb_spec ((yoe + 1) mod 100) 0),
    (Z.eqb_spec ((yoe + 1) mod 400) 0); cbn; divlia.
Qed.

(** The position of a day inside its era, with the day of the year in range. *)
Lemma era_position era doe :
  0 <= doe < 146097 ->
  0 <= era_year doe < 400 /\
  0 <= doe - year_start (era_year doe) <
    (if is_leap (era_year doe + era * 400 + 1) then 366 else 365).
Proof.
  intros H. destruct (era_year_spec doe H) as (Hy & Hlo & Hhi).
  split; [done|]. split; [lia|]. rewrite <- (year_length era) by done.
  destruct Hhi as [Hhi|[-> E]]; case_decide as D; lia.
Qed.

(** The year is determined by the interval a day falls in. *)
Lemma era_year_unique doe yoe :
  0 <= yoe < 400 -> year_start yoe <= doe ->
  doe < (if decide (yoe = 399) then 146097 else year_start (yoe + 1)) ->
  era_year doe = yoe.
Proof.
  intros Hy Hlo Hhi.
  assert (Hmono : forall a b, 0 <= a <= b -> year_start a <= year_start b)
    by (unfold year_start; intros; divlia).
  assert (Hd : 0 <= doe < 146097).
  { split; [pose proof (Hmono 0 yoe); unfold year_start in *; divlia|].
    case_decide; [lia|]. pose proof (Hmono (yoe + 1) 399) as Hm.
    change (year_start 399) with 145731 in Hm. lia. }
  destruct (era_year_spec doe Hd) as (Hy' & Hlo' & Hhi').
  assert (~ era_year doe < yoe).
  { intros Hlt. pose proof (Hmono (era_year doe + 1) yoe). lia. }
  assert (~ yoe < era_year doe).
  { intros Hlt. pose proof (Hmono (yoe + 1) (era_year doe)).
    rewrite decide_False in Hhi by lia. lia. }
  lia.
Qed.

(** Stepping through the months of a March-based year; December is followed by
    January of the next calendar year. *)
Definition month_step (doy : Z) : bool :=
  let '(m, d) := month_day doy in
  let last := if m =? 2 then 29
              else if (m =? 4) || (m =? 6) || (m =? 9) || (m =? 11) then 30 else 31 in
  bool_decide (month_day (doy + 1) =
    if d <? last then (m, d + 1) else if m <? 12 then (m + 1, 1) else (1, 1)).

Lemma month_step_all doy : 0 <= doy < 365 -> month_step doy = true.
Proof.
  intros H.
  assert (Hall : forallb (fun n => month_step (Z.of_nat n)) (seq 0 365) = true)
    by (vm_compute; reflexivity).
  rewrite forallb_forall in Hall. specialize (Hall (Z.to_nat doy)).
  rewrite Z2Nat.id in Hall by lia. apply Hall, in_seq. lia.
Qed.

Lemma month_day_range doy :
  0 <= doy <= 365 ->
  let '(m, d) := month_day doy in
  1 <= m <= 12 /\ 1 <= d <= 31 /\ (doy < 306 <-> 3 <= m) /\
  (m = 2 -> d = doy - 336) /\ (doy = 365 -> m = 2).
Proof.
  intros H. unfold month_day, march_month.
  destruct (Z.ltb_spec ((5 * doy + 2) / 153) 10); divlia.
Qed.

(** One day later inside a year. *)
Lemma date_at_step era yoe doy :
  0 <= doy -> doy + 1 < (if is_leap (yoe + era * 400 + 1) then 366 else 365) ->
  date_at era yoe (doy + 1) = next_day (date_at era yoe doy).
Proof.
  intros H0 H1. assert (Hd : 0 <= doy < 365) by (destruct (is_leap _); lia).
  pose proof (month_step_all doy Hd) as Hs. unfold month_step in Hs.
  pose proof (month_day_range doy ltac:(lia)) as Hr. unfold date_at, next_day, days_in_month.
  destruct (month_day doy) as [m d]. apply bool_decide_eq_true in Hs. rewrite Hs.
  destruct (Z.eqb_spec m 2) as [->|Hm]; cbn [Z.leb Z.compare Pos.compare Pos.compare_cont].
  - destruct Hr as (_ & _ & _ & Hr & _). specialize (Hr eq_refl). subst d.
    replace (2 <=? 2) with true by done.
    destruct (is_leap (yoe + era * 400 + 1)).
    + by rewrite (proj2 (Z.ltb_lt (doy - 336) 29)) by lia.
    + rewrite (proj2 (Z.ltb_lt (doy - 336) 29)), (proj2 (Z.ltb_lt (doy - 336) 28)) by lia.
      done.
  - set (last := if _ || _ then 30 else 31). destruct (d <? last); [done|].
    destruct (Z.ltb_spec m 12).
    + destruct (Z.leb_spec m 2), (Z.leb_spec (m + 1) 2); try lia; done.
    + destruct (Z.leb_spec m 2); [lia|]. by rewrite Z.add_0_r.
Qed.

(** The last day of a March-based year is the last day of February. *)
Lemma date_at_year_end era yoe doy :
  doy + 1 = (if is_leap (yoe + era * 400 + 1) then 366 else 365) ->
  next_day (date_at era yoe doy) = (yoe + era * 400 + 1, 3, 1).
Proof.
  destruct (is_leap (yoe + era * 400 + 1)) eqn:El; intros E.
  - replace doy with 365 by lia.
    change (date_at era yoe 365) with (yoe + era * 400 + 1, 2, 29).
    unfold next_day, days_in_month. by rewrite El.
  - replace doy with 364 by lia.
    change (date_at era yoe 364) with (yoe + era * 400 + 1, 2, 28).
    unfold next_day, days_in_month. by rewrite El.
Qed.

Lemma date_at_valid era yoe doy :
  0 <= doy < (if is_leap (yoe + era * 400 + 1) then 366 else 365) ->
  valid_date (date_at era yoe doy).
Proof.
  intros H. assert (Hd : 0 <= doy <= 365) by (destruct (is_leap _); lia).
  unfold date_at, valid_date, days_in_month, month_day, march_month.
  set (mp := (5 * doy + 2) / 153).
  assert (Hmp : 153 * mp <= 5 * doy + 2 < 153 * mp + 153) by (unfold mp; divlia).
  clearbody mp.
  assert (mp = 0 \/ mp = 1 \/ mp = 2 \/ mp = 3 \/ mp = 4 \/ mp = 5 \/ mp = 6 \/ mp = 7 \/
          mp = 8 \/ mp = 9 \/ mp = 10 \/ mp = 11) as Hm by lia.
  repeat destruct Hm as [->|Hm]; [zground; divlia..|]. subst mp. zground.
  destruct (is_leap (yoe + era * 400 + 1)); divlia.
Qed.

(** The code's date of a day, and the era position it computes. *)
Definition civil_Z (days : Z) : Z * Z * Z :=
  let shifted := days + 719468 in
  let doe := shifted mod 146097 in
  date_at (shifted / 146097) (era_year doe) (doe - year_start (era_year doe)).

Lemma civil_Z_step days : 0 <= days -> civil_Z (days + 1) = next_day (civil_Z days).
Proof.
  intros H. unfold civil_Z.
  set (era := (days + 719468) / 146097). set (doe := (days + 719468) mod 146097).
  assert (Hdoe : 0 <= doe < 146097) by (unfold doe; divlia).
  destruct (era_position era doe Hdoe) as [Hy Hdoy].
  pose proof (year_length era (era_year doe) Hy) as Hlen.
  set (yoe := era_year doe) in *. set (doy := doe - year_start yoe) in *.
  destruct (decide (doe + 1 < 146097)) as [Hin|Hout].
  - replace ((days + 1 + 719468) / 146097) with era by (unfold era, doe in *; divlia).
    replace ((days + 1 + 719468) mod 146097) with (doe + 1) by (unfold doe in *; divlia).
    destruct (decide (doy + 1 < if is_leap (yoe + era * 400 + 1) then 366 else 365)) as [Hl|Hl].
    + replace (era_year (doe + 1)) with yoe.
      2: { symmetry. apply era_year_unique; [done|lia|]. case_decide; lia. }
      rewrite <- date_at_step by lia. f_equal. lia.
    + rewrite date_at_year_end by lia.
      assert (yoe <> 399) by (intros E; rewrite decide_True in Hlen by done; lia).
      rewrite decide_False in Hlen by done.
      replace (era_year (doe + 1)) with (yoe + 1).
      2: { symmetry. apply era_year_unique; [lia|lia|].
           pose proof (year_length era (yoe + 1) ltac:(lia)) as Hl2.
           destruct (is_leap (yoe + 1 + era * 400 + 1)); lia. }
      replace (doe + 1 - year_start (yoe + 1)) with 0 by lia.
      change (date_at era (yoe + 1) 0) with (yoe + 1 + era * 400 + 0, 3, 1).
      do 2 f_equal. lia.
  - assert (doe = 146096) as E by lia.
    replace ((days + 1 + 719468) / 146097) with (era + 1) by (unfold era, doe in *; divlia).
    replace ((days + 1 + 719468) mod 146097) with 0 by (unfold doe in *; divlia).
    change (date_at (era + 1) (era_year 0) (0 - year_start (era_year 0)))
      with (0 + (era + 1) * 400 + 0, 3, 1).
    assert (Ey : yoe = 399) by (unfold yoe; by rewrite E).
    rewrite decide_True in Hlen by done. rewrite date_at_year_end by lia.
    do 2 f_equal. lia.
Qed.

Lemma civil_Z_valid days : valid_date (civil_Z days).
Proof.
  unfold civil_Z. apply date_at_valid. apply era_position. divlia.
Qed.

(** Days that a [u64] number of seconds can reach. *)
Definition max_days : Z := u64_max / 86400.

(** On every reachable day the [i64] arithmetic is exact. *)
Lemma civil_date_exact days :
  0 <= days <= max_days -> civil_date_from_days days = civil_Z days.
Proof.
  intros H. change max_days with 213503982334601 in H. unfold civil_date_from_days.
  rewrite (i64_small (days + 719468)) by lia.
  rewrite (proj2 (Z.leb_le 0 (days + 719468))) by lia.
  unfold civil_Z. set (shifted := days + 719468).
  rewrite (Z.quot_div_nonneg shifted 146097) by lia.
  set (era := shifted / 146097). set (doe := shifted mod 146097).
  assert (Hera : 0 <= era <= 213503982334601) by (unfold era, shifted; divlia).
  assert (Hdoe : 0 <= doe < 146097) by (unfold doe; divlia).
  assert (Ed : shifted - era * 146097 = doe) by (unfold era, doe; divlia).
  rewrite (i64_small (era * 146097)), Ed, (i64_small doe) by lia.
  rewrite !(Z.quot_div_nonneg doe) by lia.
  destruct (era_position era doe Hdoe) as [Hy Hdoy].
  set (yoe := era_year doe) in *.
  rewrite (i64_small (doe - doe / 1460)) by divlia.
  rewrite (i64_small (doe - doe / 1460 + doe / 36524)) by divlia.
  rewrite (i64_small (doe - doe / 1460 + doe / 36524 - doe / 146096)) by divlia.
  rewrite Z.quot_div_nonneg by divlia. fold (era_year doe). fold yoe.
  rewrite (i64_small (era * 400)), (i64_small (yoe + era * 400)) by lia.
  rewrite !(Z.quot_div_nonneg yoe) by lia.
  rewrite (i64_small (365 * yoe)), (i64_small (365 * yoe + yoe / 4)) by divlia.
  rewrite (i64_small (365 * yoe + yoe / 4 - yoe / 100)) by divlia.
  fold (year_start yoe).
  set (doy := doe - year_start yoe) in *.
  assert (Hdoy' : 0 <= doy <= 365) by (destruct (is_leap _); lia).
  rewrite (i64_small doy) by lia.
  rewrite (i64_small (5 * doy)), (i64_small (5 * doy + 2)) by lia.
  rewrite Z.quot_div_nonneg by lia. fold (march_month doy).
  assert (Hmp : 0 <= march_month doy <= 11) by (unfold march_month; divlia).
  unfold date_at, month_day. set (mp := march_month doy) in *.
  rewrite (i64_small (153 * mp)), (i64_small (153 * mp + 2)) by lia.
  rewrite Z.quot_div_nonneg by lia.
  rewrite (i64_small (doy - (153 * mp + 2) / 5)) by divlia.
  rewrite (i64_small (doy - (153 * mp + 2) / 5 + 1)) by divlia.
  rewrite (i64_small (mp + _)) by (destruct (mp <? 10); lia).
  set (m := mp + _).
  rewrite (i64_small (yoe + era * 400 + _)) by (destruct (m <=? 2); lia).
  done.
Qed.

(** C35. [civil_date_from_days] is the Gregorian calendar: day 0 is 1 January 1970,
    every date it returns is a valid calendar date, and each following day is
    the calendar's next day (leap years by the 4/100/400 rule), for every day a
    [u64] second count can reach; on all of them the [i64] arithmetic of the
    code stays exact. *)
Theorem civil_date_correct days :
  0 <= days < max_days ->
  civil_date_from_days 0 = (1970, 1, 1) /\
  valid_date (civil_date_from_days days) /\
  civil_date_from_days (days + 1) = next_day (civil_date_from_days days).
Proof.
  intros H. split; [by vm_compute|].
  rewrite !civil_date_exact by lia. split; [apply civil_Z_valid|].
  apply civil_Z_step. lia.
Qed.

Lemma civil_date_correct_witness :
  (0 <= 19781 < max_days) /\
  civil_date_from_days 19782 = next_day (civil_date_from_days 19781) /\
  civil_date_from_days 19782 = (2024, 2, 29).
Proof.
  assert (H : 0 <= 19781 < max_days) by (vm_compute; split; congruence).
  split; [exact H|]. split; [apply (civil_date_correct 19781 H)|by vm_compute].
Defined.

(** ** Distinct days have distinct dates *)

(** The position of a date in a year-major count; [next_day] increases it. *)
Definition date_key (date : Z * Z * Z) : Z :=
  let '(y, m, d) := date in y * 372 + (m - 1) * 31 + (d - 1).

Lemma days_in_month_le y m : days_in_month y m <= 31.
Proof. unfold days_in_month. repeat case_match; lia. Qed.

Lemma date_key_next date : valid_date date -> date_key date < date_key (next_day date).
Proof.
  destruct date as [[y m] d]. cbn. pose proof (days_in_month_le y m). intros [Hm Hd].
  destruct (Z.ltb_spec d (days_in_month y m)); [cbn; lia|].
  destruct (Z.ltb_spec m 12); cbn; lia.
Qed.

Lemma civil_Z_key_mono a n :
  0 <= a -> date_key (civil_Z a) + Z.of_nat n <= date_key (civil_Z (a + Z.of_nat n)).
Proof.
  intros Ha. induction n as [|n IH]; [rewrite !Z.add_0_r; lia|].
  rewrite Nat2Z.inj_succ. unfold Z.succ.
  replace (a + (Z.of_nat n + 1)) with (a + Z.of_nat n + 1) by lia.
  rewrite (civil_Z_step (a + Z.of_nat n)) by lia.
  pose proof (date_key_next _ (civil_Z_valid (a + Z.of_nat n))). lia.
Qed.

Lemma civil_Z_key_le a b :
  0 <= a <= b -> date_key (civil_Z a) + (b - a) <= date_key (civil_Z b).
Proof.
  intros H. pose proof (civil_Z_key_mono a (Z.to_nat (b - a)) ltac:(lia)) as Hk.
  rewrite Z2Nat.id in Hk by lia. replace (a + (b - a)) with b in Hk by lia. done.
Qed.

Lemma civil_Z_inj a b : 0 <= a -> 0 <= b -> civil_Z a = civil_Z b -> a = b.
Proof.
  intros Ha Hb E. destruct (Z.le_ge_cases a b).
  - pose proof (civil_Z_key_le a b ltac:(lia)) as Hk. rewrite E in Hk. lia.
  - pose proof (civil_Z_key_le b a ltac:(lia)) as Hk. rewrite E in Hk. lia.
Qed.

(** Up to the last day of the year 9999 the year has four digits. *)
Lemma civil_Z_year days y m d :
  0 <= days <= 2932896 -> civil_Z days = (y, m, d) -> 1970 <= y <= 9999.
Proof.
  intros H E. pose proof (civil_Z_valid days) as Hv.
  pose proof (civil_Z_key_le 0 days ltac:(lia)) as Hlo.
  pose proof (civil_Z_key_le days 2932896 ltac:(lia)) as Hhi.
  change (civil_Z 0) with (1970, 1, 1) in Hlo.
  change (civil_Z 2932896) with (9999, 12, 31) in Hhi.
  rewrite E in *. unfold valid_date, date_key in *. pose proof (days_in_month_le y m). lia.
Qed.

Lemma civil_Z_year_pos days y m d :
  0 <= days -> civil_Z days = (y, m, d) -> 1970 <= y.
Proof.
  intros H E. pose proof (civil_Z_valid days) as Hv.
  pose proof (civil_Z_key_le 0 days ltac:(lia)) as Hlo.
  change (civil_Z 0) with (1970, 1, 1) in Hlo.
  rewrite E in *. unfold valid_date, date_key in *. pose proof (days_in_month_le y m). lia.
Qed.

(** ** Timestamps *)

(** The values a [Duration] can hold. *)
Definition duration_ok (d : Duration) : Prop :=
  0 <= dur_secs d <= u64_max /\ 0 <= dur_nanos d < 1000000000.

(** The characters a timestamp is made of. *)
Definition timestamp_char (c : char) : bool :=
  is_digit c || (code c =? 45) || (code c =? 46).

(** The broken-down fields of a timestamp. *)
Definition timestamp_fields (d : Duration) : Z * Z * Z * Z * Z * Z * Z :=
  let '(y, mo, da) := civil_Z (dur_secs d / 86400) in
  let s := dur_secs d mod 86400 in
  (y, mo, da, s / 3600, s mod 3600 / 60, s mod 60, subsec_micros d).

Definition render (f : Z * Z * Z * Z * Z * Z * Z) : str :=
  let '(y, mo, da, h, mi, s, us) := f in
  fmt_dec 4 y ++ lit "-" ++ fmt_dec 2 mo ++ lit "-" ++ fmt_dec 2 da ++ lit "-"
  ++ fmt_dec 2 h ++ lit "." ++ fmt_dec 2 mi ++ lit "." ++ fmt_dec 2 s
  ++ lit "." ++ fmt_dec 6 us.

Section timestamps.
Context `{Sys : System}.

Lemma format_utc_timestamp_eq d :
  duration_ok d -> format_utc_timestamp d = Ok (render (timestamp_fields d)).
Proof.
  intros [Hs Hn]. unfold format_utc_timestamp, i64_try_from, render, timestamp_fields.
  assert (Hd : 0 <= dur_secs d / 86400 <= max_days).
  { unfold max_days. split; [divlia|]. apply Z.div_le_mono; lia. }
  change max_days with 213503982334601 in Hd.
  rewrite (proj2 (Z.ltb_lt (dur_secs d / 86400) (2 ^ 63))) by lia. cbn [ok_or mbind result_bind].
  rewrite civil_date_exact by done.
  by destruct (civil_Z (dur_secs d / 86400)) as [[y m] da].
Qed.

Lemma timestamp_fields_range d y mo da h mi s us :
  duration_ok d -> timestamp_fields d = (y, mo, da, h, mi, s, us) ->
  1970 <= y /\ 1 <= mo <= 12 /\ 1 <= da <= 31 /\ 0 <= h < 24 /\ 0 <= mi < 60 /\
  0 <= s < 60 /\ 0 <= us < 1000000 /\ (dur_secs d < 253402300800 -> y <= 9999).
Proof.
  intros [Hs Hn]. unfold timestamp_fields, subsec_micros.
  destruct (civil_Z (dur_secs d / 86400)) as [[y' m'] d'] eqn:E. intros [= <- <- <- <- <- <- <-].
  pose proof (civil_Z_valid (dur_secs d / 86400)) as Hv. rewrite E in Hv.
  pose proof (days_in_month_le y' m'). cbn in Hv.
  assert (Hpos : 0 <= dur_secs d / 86400) by (apply Z.div_pos; lia).
  pose proof (civil_Z_year_pos _ _ _ _ Hpos E).
  split; [done|]. split; [lia|]. split; [lia|].
  repeat split; try (clear E Hv; divlia).
  intros Hlt. eapply civil_Z_year; [|done].
  split; [done|]. apply Z.lt_succ_r, Z.div_lt_upper_bound; lia.
Qed.

Lemma timestamp_fields_inj d d' :
  duration_ok d -> duration_ok d' -> timestamp_fields d = timestamp_fields d' ->
  dur_secs d = dur_secs d' /\ subsec_micros d = subsec_micros d'.
Proof.
  intros [Hs _] [Hs' _]. unfold timestamp_fields.
  destruct (civil_Z (dur_secs d / 86400)) as [[y m] da] eqn:E.
  destruct (civil_Z (dur_secs d' / 86400)) as [[y' m'] da'] eqn:E'.
  intros [= -> -> -> Eh Em Es Eu]. split; [|done].
  assert (Ed : dur_secs d / 86400 = dur_secs d' / 86400)
    by (apply civil_Z_inj; [divlia|divlia|congruence]).
  divlia.
Qed.

Lemma render_chars f :
  (let '(y, mo, da, h, mi, s, us) := f in
   0 <= y /\ 0 <= mo /\ 0 <= da /\ 0 <= h /\ 0 <= mi /\ 0 <= s /\ 0 <= us) ->
  Forall (fun c => timestamp_char c = true) (render f).
Proof.
  destruct f as [[[[[[y mo] da] h] mi] s] us]. intros (?&?&?&?&?&?&?). unfold render.
  assert (Hd : forall w z, 0 <= z -> Forall (fun c => timestamp_char c = true) (fmt_dec w z)).
  { intros w z Hz. eapply Forall_impl; [by apply fmt_dec_digits|].
    intros c Hc. unfold timestamp_char. by rewrite Hc. }
  assert (Forall (fun c => timestamp_char c = true) (lit "-")) by (by repeat constructor).
  assert (Forall (fun c => timestamp_char c = true) (lit ".")) by (by repeat constructor).
  rewrite !Forall_app. auto 20.
Qed.

Lemma render_inj y mo da h mi s us y' mo' da' h' mi' s' us' :
  0 <= y <= 9999 -> 0 <= mo < 100 -> 0 <= da < 100 -> 0 <= h < 100 -> 0 <= mi < 100 ->
  0 <= s < 100 -> 0 <= us < 1000000 ->
  0 <= y' <= 9999 -> 0 <= mo' < 100 -> 0 <= da' < 100 -> 0 <= h' < 100 -> 0 <= mi' < 100 ->
  0 <= s' < 100 -> 0 <= us' < 1000000 ->
  render (y, mo, da, h, mi, s, us) = render (y', mo', da', h', mi', s', us') ->
  (y, mo, da, h, mi, s, us) = (y', mo', da', h', mi', s', us').
Proof.
  intros ??????????????. unfold render. intros E.
  assert (Hsplit : forall w a b (r r' : str), (1 <= w)%nat ->
    0 <= a < 10 ^ Z.of_nat w -> 0 <= b < 10 ^ Z.of_nat w -> (w <= 20)%nat ->
    fmt_dec w a ++ r = fmt_dec w b ++ r' -> a = b /\ r = r').
  { intros w a b r r' Hw Ha Hb Hw20 Er.
    assert (10 ^ Z.of_nat w <= 10 ^ 20) by (apply Z.pow_le_mono_r; lia).
    apply app_inj_1 in Er as [Ef Er]; [|by rewrite !fmt_dec_length].
    apply fmt_dec_inj in Ef; [done|lia..]. }
  assert (Hlast : fmt_dec 6 us = fmt_dec 6 us' -> us = us')
    by (apply fmt_dec_inj; lia).
  do 6 (apply Hsplit in E as [-> E]; [|lia..]; apply app_inv_head in E).
  apply Hlast in E as ->. done.
Qed.

(** C36. Request timestamps: for every [Duration] (any [u64] seconds),
    [format_utc_timestamp] succeeds, so its overflow branch is never taken; the
    text is digits, dashes and dots only; and up to the end of the year 9999 it
    is exactly 26 bytes and different microseconds give different texts. *)
Theorem format_utc_timestamp_faithful d :
  duration_ok d ->
  exists s, format_utc_timestamp d = Ok s /\
    Forall (fun c => timestamp_char c = true) s /\
    (dur_secs d < 253402300800 -> length s = 26%nat /\
       forall d', duration_ok d' -> dur_secs d' < 253402300800 ->
         format_utc_timestamp d' = Ok s ->
         dur_secs d' = dur_secs d /\ subsec_micros d' = subsec_micros d).
Proof.
  intros Hd. rewrite format_utc_timestamp_eq by done.
  destruct (timestamp_fields d) as [[[[[[y mo] da] h] mi] s] us] eqn:Ef.
  destruct (timestamp_fields_range d y mo da h mi s us Hd Ef)
    as (Ry & Rmo & Rda & Rh & Rmi & Rs & Rus & R9).
  eexists. split; [done|]. split; [apply render_chars; lia|].
  intros Hlt. specialize (R9 Hlt). split.
  - unfold render. rewrite !length_app, !fmt_dec_length by lia. done.
  - intros d' Hd' Hlt'. rewrite format_utc_timestamp_eq by done.
    destruct (timestamp_fields d') as [[[[[[y' mo'] da'] h'] mi'] s'] us'] eqn:Ef'.
    destruct (timestamp_fields_range d' _ _ _ _ _ _ _ Hd' Ef')
      as (Ry' & Rmo' & Rda' & Rh' & Rmi' & Rs' & Rus' & R9'). specialize (R9' Hlt').
    intros [= E]. apply render_inj in E; [|lia..].
    apply timestamp_fields_inj; [done..|congruence].
Qed.

End timestamps.
