(* ===== verification/Message.v ===== *)
(** * Messages (src/message.rs)

    Request metadata and contexts, outbound [RequestParts], inbound
    [ResponseParts] and the semantic response an adapter extracts. *)

From S2P Require Import Prelude.
From S2P Require Import Rust.
From S2P Require Import Text.
From S2P Require Import System.
From S2P Require Import Error.
From S2P Require Import Header.
From S2P Require Import Auth.
From S2P Require Import Calendar.

Module SecureEnvelope.
Record t := Build { cipher : str; wrapped_session_key : str; signature : str }.

Definition debug (e : t) : dbg :=
  DStruct "SecureEnvelope"
    [("cipher_len", DNum (str_len (cipher e)));
     ("wrapped_session_key_len", DNum (str_len (wrapped_session_key e)));
     ("signature_len", DNum (str_len (signature e)))]%string.
End SecureEnvelope.

#[export] Instance secure_envelope_eq_dec : EqDecision SecureEnvelope.t.
Proof. solve_decision. Defined.

Definition validate_context_value `{System} (value : str) : Result str :=
  if str_is_empty (str_trim value) || contains_cr_lf value
  then Err Error.InvalidHeader
  else Ok value.

Module RequestMetadata.
Record t := Build { request_id : str; request_time : str }.

Section metadata.
Context `{Sys : System}.

Definition new (request_id request_time : str) : Result t :=
  request_id ← validate_context_value request_id;
  request_time ← validate_context_value request_time;
  Ok (Build request_id request_time).

(** The loop that writes [{byte:02x}] for each random byte. *)
Definition hex_id (random : list byte) : str := flat_map fmt_hex_byte random.

Definition generate : IO t :=
  random ← call Error.Encryption (getrandom_fill 16);
  now ← (fun w => let '(t, w') := system_time_now w in (Ok t, w')) : IO SystemTime;
  since_epoch ← lift (ok_or (duration_since_epoch now) Error.Serialization);
  request_time ← lift (format_utc_timestamp since_epoch);
  lift (new (hex_id random) request_time).

End metadata.
End RequestMetadata.

Module ProtocolRequestContext.
Record t := Build { operation : str; metadata : RequestMetadata.t }.

Definition new `{System} (operation : str) (metadata : RequestMetadata.t) : Result t :=
  operation ← validate_context_value operation;
  Ok (Build operation metadata).
End ProtocolRequestContext.

Module RequestContext.
Record t := Build {
  protocol : ProtocolRequestContext.t;
  additional_headers : HeaderCollection.t;
}.

Section context.
Context `{Sys : System}.

Definition header (self : t) (name : str) : option str :=
  match HeaderCollection.get (additional_headers self) name with
  | Some v => Some (HeaderValue.as_str v)
  | None => None
  end.
Definition len (self : t) : Z := HeaderCollection.len (additional_headers self).
Definition is_empty (self : t) : bool := HeaderCollection.is_empty (additional_headers self).

Definition from_parts (operation : str) (metadata : RequestMetadata.t)
    (additional_headers : list (HeaderName.t * HeaderValue.t)) : Result t :=
  additional_headers ← HeaderCollection.from_typed_pairs additional_headers;
  _ ← HeaderCollection.revalidate additional_headers;
  protocol ← ProtocolRequestContext.new operation metadata;
  Ok (Build protocol additional_headers).

Definition into_parts (self : t) : ProtocolRequestContext.t * HeaderCollection.t :=
  (protocol self, additional_headers self).
End context.
End RequestContext.

Module RequestContextBuilder.
Record t := Build {
  operation : str;
  metadata_ : option RequestMetadata.t;
  additional_headers : HeaderCollection.t;
}.

Section builder.
Context `{Sys : System}.

Definition new (operation : str) : t := Build operation None HeaderCollection.default.

Definition metadata (self : t) (m : RequestMetadata.t) : t :=
  Build (operation self) (Some m) (additional_headers self).

Definition header (self : t) (name value : str) : Result t :=
  hs ← HeaderCollection.insert (additional_headers self) name value;
  Ok (Build (operation self) (metadata_ self) hs).

Definition build (self : t) : IO RequestContext.t :=
  metadata ← match metadata_ self with
             | Some metadata => mret metadata
             | None => RequestMetadata.generate
             end;
  lift (RequestContext.from_parts (operation self) metadata
          (HeaderCollection.into_pairs (additional_headers self))).
End builder.
End RequestContextBuilder.

Module RequestParts.
Record t := Build { headers : HeaderCollection.t; body : str }.

Section parts.
Context `{Sys : System}.

(** [append_checked(&mut self, headers)]: the outcome and the parts left. *)
Definition append_checked (self : t) (hs : HeaderCollection.t) : Result unit * t :=
  let '(r, headers') := HeaderCollection.append_checked (headers self) hs in
  (r, Build headers' (body self)).

Definition validate (self : t) : Result unit := HeaderCollection.revalidate (headers self).

Definition new (hs : list (str * str)) (body : str) : Result t :=
  incoming ← HeaderCollection.from_pairs hs;
  let '(appended, parts) := append_checked (Build HeaderCollection.default body) incoming in
  _ ← appended;
  _ ← validate parts;
  Ok parts.

Definition header (self : t) (name : str) : option str :=
  match HeaderCollection.get (headers self) name with
  | Some v => Some (HeaderValue.as_str v)
  | None => None
  end.
Definition len (self : t) : Z := HeaderCollection.len (headers self).
Definition is_empty (self : t) : bool := HeaderCollection.is_empty (headers self).

Definition debug (self : t) : dbg :=
  let header_names :=
    map (fun '(name, _) => DStr (HeaderName.as_str name)) (HeaderCollection.iter (headers self)) in
  DStruct "RequestParts"
    [("header_count", DNum (Prelude.len header_names));
     ("header_names", DList header_names);
     ("body_len", DNum (str_len (body self)))]%string.
End parts.
End RequestParts.

Module ResponseParts.
Record t := new { headers : list (str * str); body : str }.

Definition into_parts (self : t) : list (str * str) * str := (headers self, body self).

Definition debug (self : t) : dbg :=
  let header_names := map (fun '(name, _) => DStr name) (headers self) in
  DStruct "ResponseParts"
    [("header_count", DNum (Prelude.len header_names));
     ("header_names", DList header_names);
     ("body_len", DNum (str_len (body self)))]%string.
End ResponseParts.

Module ParsedResponse.
Record t := Build {
  envelope : SecureEnvelope.t;
  remote_signing_certificate_id : str;
  authentication_context : AuthenticationContext.t;
}.

Definition new (envelope : SecureEnvelope.t) (remote_signing_certificate_id : str)
    (authentication_context : AuthenticationContext.t) : AdapterResult t :=
  if str_is_empty (str_trim remote_signing_certificate_id)
     || contains_cr_lf remote_signing_certificate_id
  then Err (AdapterError.new AdapterErrorKind.InvalidField)
  else Ok (Build envelope remote_signing_certificate_id authentication_context).

Definition into_parts (self : t) : SecureEnvelope.t * str * AuthenticationContext.t :=
  (envelope self, remote_signing_certificate_id self, authentication_context self).

Definition debug (self : t) : dbg :=
  DStruct "ParsedResponse"
    [("envelope", SecureEnvelope.debug (envelope self));
     ("remote_signing_certificate_id_len",
      DNum (str_len (remote_signing_certificate_id self)));
     ("authentication_context", AuthenticationContext.debug (authentication_context self))]%string.
End ParsedResponse.

(** ** Validation of request values *)

Section values.
Context `{Sys : System}.

Lemma validate_context_value_eq v :
  validate_context_value v =
  if decide (header_text_ok v) then Ok v else Err Error.InvalidHeader.
Proof.
  unfold validate_context_value. pose proof (header_text_test v).
  destruct (_ || _); case_decide; naive_solver.
Qed.

Lemma metadata_new_Ok i t m :
  RequestMetadata.new i t = Ok m <->
  header_text_ok i /\ header_text_ok t /\ m = RequestMetadata.Build i t.
Proof.
  unfold RequestMetadata.new. rewrite !validate_context_value_eq.
  destruct (decide (header_text_ok i)); cbn [mbind result_bind]; [|naive_solver].
  destruct (decide (header_text_ok t)); cbn [mbind result_bind]; [|naive_solver].
  split; [intros [= <-]; done|by intros (_ & _ & ->)].
Qed.

End values.

(** ** Outbound parts *)

Section parts.
Context `{Sys : System}.

Lemma append_to_empty c body :
  collection_wf c ->
  RequestParts.append_checked (RequestParts.Build HeaderCollection.default body) c
  = (Ok tt, RequestParts.Build c body).
Proof.
  intros Hc. unfold RequestParts.append_checked; cbn [RequestParts.headers RequestParts.body].
  assert (HeaderCollection.append_checked HeaderCollection.default c = (Ok tt, c)) as ->; [|done].
  apply append_checked_Ok; [constructor|apply Hc|].
  split; [apply default_wf|]. done.
Qed.

Lemma request_parts_new_eq hs body :
  RequestParts.new hs body =
  (c ← HeaderCollection.from_pairs hs; Ok (RequestParts.Build c body)).
Proof.
  unfold RequestParts.new. destruct (HeaderCollection.from_pairs hs) as [c|e] eqn:E; [|done].
  apply from_pairs_wf in E. cbn [mbind result_bind]. rewrite append_to_empty by done.
  cbn [mbind result_bind]. unfold RequestParts.validate; cbn [RequestParts.headers].
  by rewrite revalidate_wf.
Qed.

Lemma request_parts_new_Ok hs body p :
  RequestParts.new hs body = Ok p <->
  valid_pairs hs /\ p = RequestParts.Build (collection_of hs) body.
Proof.
  rewrite request_parts_new_eq, bind_Ok. setoid_rewrite from_pairs_Ok. naive_solver.
Qed.

Lemma parts_lookup hs body n v m :
  valid_pairs hs -> (n, v) ∈ hs -> to_ascii_lowercase m = to_ascii_lowercase n ->
  RequestParts.header (RequestParts.Build (collection_of hs) body) m = Some v.
Proof.
  intros Hv Hin E. unfold RequestParts.header. cbn [RequestParts.headers].
  assert (HeaderCollection.get (collection_of hs) m = Some (HeaderValue.Build v)) as ->; [|done].
  apply get_Some; [by apply collection_of_wf|].
  exists (HeaderName.Build n (to_ascii_lowercase n)). split; [|by cbn].
  cbn. apply list_elem_of_fmap. by exists (n, v).
Qed.

(** [RequestParts::new] is [HeaderCollection::from_pairs] with the body kept
    as given: its further append and validation steps never fail, so it succeeds
    exactly on syntactically valid headers with case-insensitively distinct
    names, and then lookup finds each given value under any casing. *)
Theorem request_parts_new_spec hs body :
  RequestParts.new hs body =
    (c ← HeaderCollection.from_pairs hs; Ok (RequestParts.Build c body)) /\
  (forall p, RequestParts.new hs body = Ok p ->
     valid_pairs hs /\ RequestParts.body p = body /\
     HeaderCollection.raw_pairs (RequestParts.headers p) = hs /\
     forall n v m, (n, v) ∈ hs -> to_ascii_lowercase m = to_ascii_lowercase n ->
       RequestParts.header p m = Some v).
Proof.
  split; [apply request_parts_new_eq|].
  intros p (Hv & ->)%request_parts_new_Ok. split; [done|]. split; [done|].
  split; [apply raw_pairs_of|]. intros n v m Hin E. by eapply parts_lookup.
Qed.

End parts.

(** ** Request contexts *)

Section contexts.
Context `{Sys : System}.

(** The builders reachable through the public methods. *)
Inductive context_builder : RequestContextBuilder.t -> Prop :=
| cb_new op : context_builder (RequestContextBuilder.new op)
| cb_metadata b m : context_builder b -> context_builder (RequestContextBuilder.metadata b m)
| cb_header b n v b' :
    context_builder b -> RequestContextBuilder.header b n v = Ok b' -> context_builder b'.

Lemma context_builder_wf b :
  context_builder b -> collection_wf (RequestContextBuilder.additional_headers b).
Proof.
  induction 1 as [op|b m _ IH|b n v b' _ IH H]; [apply default_wf|done|].
  apply bind_Ok in H as (hs & H & [= <-]). by eapply insert_wf.
Qed.

Lemma insert_all_typed_app c es :
  collection_wf (HeaderCollection.Build (HeaderCollection.entries c ++ es)) ->
  HeaderCollection.insert_all_typed c es
  = Ok (HeaderCollection.Build (HeaderCollection.entries c ++ es)).
Proof.
  revert c. induction es as [|[n v] es IH]; intros [cs] Hw; cbn.
  - by rewrite app_nil_r.
  - cbn in Hw. unfold HeaderCollection.insert_typed; cbn.
    destruct (existsb _ cs) eqn:E.
    + exfalso. apply existsb_exists in E as ([m w] & Hin & E).
      unfold HeaderName.eq in E. apply bool_decide_eq_true in E.
      apply (app_wf_inv (HeaderCollection.Build cs) (HeaderCollection.Build ((n, v) :: es))
               Hw (HeaderName.canonical n)).
      * apply list_elem_of_fmap. exists (m, w). split; [done|by apply list_elem_of_In].
      * apply list_elem_of_fmap. exists (n, v). split; [done|left].
    + cbn. rewrite IH; cbn; by rewrite <- app_assoc.
Qed.

Lemma from_typed_entries c :
  collection_wf c -> HeaderCollection.from_typed_pairs (HeaderCollection.entries c) = Ok c.
Proof.
  intros Hc. unfold HeaderCollection.from_typed_pairs.
  rewrite (insert_all_typed_app HeaderCollection.default) by (by destruct c).
  destruct c as [es]; cbn [HeaderCollection.entries HeaderCollection.default app mbind result_bind].
  by rewrite revalidate_wf.
Qed.

Lemma from_parts_eq op m c :
  collection_wf c ->
  RequestContext.from_parts op m (HeaderCollection.entries c) =
  if decide (header_text_ok op)
  then Ok (RequestContext.Build (ProtocolRequestContext.Build op m) c)
  else Err Error.InvalidHeader.
Proof.
  intros Hc. unfold RequestContext.from_parts. rewrite from_typed_entries by done.
  cbn [mbind result_bind]. rewrite revalidate_wf by done. cbn [mbind result_bind].
  unfold ProtocolRequestContext.new. rewrite validate_context_value_eq.
  by case_decide.
Qed.

(** [RequestContextBuilder::build]: the headers collected by the builder are
    carried over unchanged and in order, whatever was inserted; with explicit
    metadata it leaves the environment untouched and fails only for a blank or
    multi-line operation, and without metadata it is the same computation on
    freshly generated metadata. *)
Theorem request_context_build_spec b w :
  context_builder b ->
  let finish m :=
    if decide (header_text_ok (RequestContextBuilder.operation b))
    then Ok (RequestContext.Build
               (ProtocolRequestContext.Build (RequestContextBuilder.operation b) m)
               (RequestContextBuilder.additional_headers b))
    else Err Error.InvalidHeader in
  RequestContextBuilder.build b w =
  match RequestContextBuilder.metadata_ b with
  | Some m => (finish m, w)
  | None =>
      match RequestMetadata.generate w with
      | (Ok m, w') => (finish m, w')
      | (Err e, w') => (Err e, w')
      end
  end.
Proof.
  intros Hb finish. apply context_builder_wf in Hb.
  unfold RequestContextBuilder.build, mbind, io_bind, lift, HeaderCollection.into_pairs.
  destruct (RequestContextBuilder.metadata_ b); cbn [mret io_ret].
  - by rewrite from_parts_eq.
  - destruct (RequestMetadata.generate w) as [[m|e] w']; [|done]. by rewrite from_parts_eq.
Qed.

End contexts.

(** ** Generated metadata *)

Definition is_lower_hex (c : char) : bool :=
  is_digit c || ((97 <=? code c) && (code c <=? 102)).

Lemma fmt_hex_byte_chars b : Forall (fun c => is_lower_hex c = true) (fmt_hex_byte b).
Proof.
  pose proof (byte_val_range b).
  assert (Hd : forall d, 0 <= d < 16 -> is_lower_hex (digit_char d) = true).
  { intros d Hd. unfold is_lower_hex, is_digit. rewrite digit_char_code by lia.
    destruct (Z.ltb_spec d 10); apply orb_true_iff; [left|right];
      apply andb_true_iff; split; apply Z.leb_le; lia. }
  repeat constructor; apply Hd; divlia.
Qed.

Lemma hex_id_chars bs : Forall (fun c => is_lower_hex c = true) (RequestMetadata.hex_id bs).
Proof.
  induction bs as [|b bs IH]; [constructor|]. apply Forall_app. split; [|done].
  apply fmt_hex_byte_chars.
Qed.

Lemma hex_id_length bs : length (RequestMetadata.hex_id bs) = (2 * length bs)%nat.
Proof.
  induction bs as [|b bs IH]; [done|].
  change (RequestMetadata.hex_id (b :: bs)) with (fmt_hex_byte b ++ RequestMetadata.hex_id bs).
  rewrite length_app, IH. cbn [length fmt_hex_byte]. lia.
Qed.

Lemma hex_id_inj bs cs : RequestMetadata.hex_id bs = RequestMetadata.hex_id cs -> bs = cs.
Proof.
  revert cs. induction bs as [|b bs IH]; intros [|c cs] E; try done.
  unfold RequestMetadata.hex_id in E. cbn [flat_map] in E.
  apply app_inj_1 in E as [Eb E]; [|done].
  apply fmt_hex_byte_inj in Eb as ->. f_equal. by apply IH.
Qed.

Lemma graphic_value c : 0x20 <= code c < 0x7f -> is_disallowed_value_character c = false.
Proof.
  intros H. unfold is_disallowed_value_character.
  by rewrite (proj2 (Z.leb_gt (code c) 0x1f)), (proj2 (Z.eqb_neq (code c) 0x7f)) by lia.
Qed.

Lemma lower_hex_visible c : is_lower_hex c = true -> 33 <= code c < 127.
Proof.
  unfold is_lower_hex, is_digit. intros H. apply orb_true_iff in H as [H|H]; bool_hyps; lia.
Qed.

Lemma timestamp_visible c : timestamp_char c = true -> 33 <= code c < 127.
Proof.
  unfold timestamp_char, is_digit. intros H.
  repeat (apply orb_true_iff in H as [H|H]); bool_hyps; lia.
Qed.

(** A text of visible characters can be a header value, and is not trimmed. *)
Lemma visible_value s : Forall (fun c => 33 <= code c < 127) s -> valid_value s.
Proof. intros H. eapply Forall_impl; [exact H|]. intros c Hc. apply graphic_value. cbn beta in Hc. lia. Qed.

Lemma visible_text_ok s : s <> [] -> Forall (fun c => 33 <= code c < 127) s -> header_text_ok s.
Proof.
  intros Hs H. apply no_whitespace_text_ok; [done|].
  eapply Forall_impl; [exact H|]. apply visible_not_space.
Qed.

Lemma hex_id_visible bs : Forall (fun c => 33 <= code c < 127) (RequestMetadata.hex_id bs).
Proof. eapply Forall_impl; [apply hex_id_chars|]. apply lower_hex_visible. Qed.

Lemma render_visible d :
  duration_ok d -> Forall (fun c => 33 <= code c < 127) (render (timestamp_fields d)).
Proof.
  intros Hd. destruct (timestamp_fields d) as [[[[[[y mo] da] h] mi] s] us] eqn:Ef.
  apply timestamp_fields_range in Ef; [|done].
  eapply Forall_impl; [apply render_chars; lia|]. apply timestamp_visible.
Qed.

Lemma render_nonempty f : render f <> [].
Proof.
  destruct f as [[[[[[y mo] da] h] mi] s] us]. unfold render. intros E.
  apply app_eq_nil in E as [_ E]. done.
Qed.

Section generate.
Context `{Sys : System} {Laws : SystemLaws Sys}.

Lemma since_epoch_ok w t w' d :
  system_time_now w = (t, w') -> duration_since_epoch t = Some d -> duration_ok d.
Proof.
  intros Ht Hd. apply system_time_now_range in Ht. unfold duration_since_epoch in Hd.
  destruct (Z.ltb_spec (st_secs t) 0); [done|]. injection Hd as <-.
  unfold duration_ok, u64_max; cbn. lia.
Qed.

Lemma generated_text_ok bs d :
  length bs = 16%nat -> duration_ok d ->
  header_text_ok (RequestMetadata.hex_id bs) /\ header_text_ok (render (timestamp_fields d)).
Proof.
  intros Hl Hd. split; apply visible_text_ok.
  - intros E. apply (f_equal length) in E. rewrite hex_id_length in E. cbn in E. lia.
  - apply hex_id_visible.
  - apply render_nonempty.
  - by apply render_visible.
Qed.

Lemma generate_eq w :
  RequestMetadata.generate w =
  match getrandom_fill 16 w with
  | (None, w1) => (Err Error.Encryption, w1)
  | (Some random, w1) =>
      let '(now, w2) := system_time_now w1 in
      match duration_since_epoch now with
      | None => (Err Error.Serialization, w2)
      | Some d =>
          (Ok (RequestMetadata.Build (RequestMetadata.hex_id random)
                 (render (timestamp_fields d))), w2)
      end
  end.
Proof.
  unfold RequestMetadata.generate, mbind, io_bind, call, lift.
  destruct (getrandom_fill 16 w) as [[random|] w1] eqn:Er; cbn [ok_or]; [|done].
  destruct (system_time_now w1) as [now w2] eqn:Et.
  destruct (duration_since_epoch now) as [d|] eqn:Ed; cbn [ok_or]; [|done].
  assert (Hd : duration_ok d) by (by eapply since_epoch_ok).
  rewrite format_utc_timestamp_eq by done.
  assert (RequestMetadata.new (RequestMetadata.hex_id random) (render (timestamp_fields d))
          = Ok (RequestMetadata.Build (RequestMetadata.hex_id random)
                  (render (timestamp_fields d)))) as ->; [|done].
  apply metadata_new_Ok. apply getrandom_fill_len in Er.
  destruct (generated_text_ok random d Er Hd). done.
Qed.

(** Generated metadata may be placed in headers, and its id is 32 bytes long. *)
Lemma generate_Ok_values w m w' :
  RequestMetadata.generate w = (Ok m, w') ->
  valid_value (RequestMetadata.request_id m) /\ valid_value (RequestMetadata.request_time m) /\
  str_len (RequestMetadata.request_id m) = 32.
Proof.
  rewrite generate_eq. destruct (getrandom_fill 16 w) as [[random|] w1] eqn:Er; [|done].
  destruct (system_time_now w1) as [now w2] eqn:Et.
  destruct (duration_since_epoch now) as [d|] eqn:Ed; [|done].
  intros [<-%(inj Ok) _]%pair_equal_spec.
  cbn [RequestMetadata.request_id RequestMetadata.request_time]. split; [|split].
  - apply visible_value, hex_id_visible.
  - apply visible_value, render_visible. by eapply since_epoch_ok.
  - apply getrandom_fill_len in Er. rewrite ascii_str_len.
    + unfold len. rewrite hex_id_length. lia.
    + eapply Forall_impl; [apply hex_id_visible|]. intros c Hc. cbn beta in Hc. lia.
Qed.

(** C38. [RequestMetadata::generate] fails only when the random source fails
    ([Error::Encryption]) or the clock is before 1970 ([Error::Serialization]);
    otherwise the request id is the 32-digit lower-case hex text of the 16 random
    bytes, so different draws give different ids, the time is the formatted
    clock reading, and the validation of its own output never rejects them. *)
Theorem generate_spec w :
  RequestMetadata.generate w =
  match getrandom_fill 16 w with
  | (None, w1) => (Err Error.Encryption, w1)
  | (Some random, w1) =>
      let '(now, w2) := system_time_now w1 in
      match duration_since_epoch now with
      | None => (Err Error.Serialization, w2)
      | Some d =>
          (Ok (RequestMetadata.Build (RequestMetadata.hex_id random)
                 (render (timestamp_fields d))), w2)
      end
  end /\
  (forall random w1, getrandom_fill 16 w = (Some random, w1) ->
     length (RequestMetadata.hex_id random) = 32%nat /\
     Forall (fun c => is_lower_hex c = true) (RequestMetadata.hex_id random) /\
     forall other, RequestMetadata.hex_id other = RequestMetadata.hex_id random ->
       other = random).
Proof.
  split.
  - apply generate_eq.
  - intros random w1 Er. apply getrandom_fill_len in Er.
    split; [rewrite hex_id_length; lia|]. split; [apply hex_id_chars|]. intros other. apply hex_id_inj.
Qed.

End generate.

(** ** Redaction of [Debug] output *)

(** [Debug] output never depends on protected contents: two envelopes whose
    fields have the same lengths, two requests or responses with the same header
    names and body length, two parsed responses that agree on those lengths and
    on the context's kind and length, and any two header values, are printed
    alike. *)
Theorem debug_redacts_contents :
  (forall e e', str_len (SecureEnvelope.cipher e) = str_len (SecureEnvelope.cipher e') ->
     str_len (SecureEnvelope.wrapped_session_key e) =
       str_len (SecureEnvelope.wrapped_session_key e') ->
     str_len (SecureEnvelope.signature e) = str_len (SecureEnvelope.signature e') ->
     SecureEnvelope.debug e = SecureEnvelope.debug e' /\
     forall cert cert' ctx ctx',
       str_len cert = str_len cert' -> len (context_of ctx) = len (context_of ctx') ->
       (AuthenticationContext.kind ctx = ContextKind.Legacy <->
        AuthenticationContext.kind ctx' = ContextKind.Legacy) ->
       ParsedResponse.debug (ParsedResponse.Build e cert ctx) =
       ParsedResponse.debug (ParsedResponse.Build e' cert' ctx')) /\
  (forall hs hs' b b', map fst hs = map fst hs' -> str_len b = str_len b' ->
     ResponseParts.debug (ResponseParts.new hs b) = ResponseParts.debug (ResponseParts.new hs' b')) /\
  (forall p p', map fst (HeaderCollection.entries (RequestParts.headers p)) =
       map fst (HeaderCollection.entries (RequestParts.headers p')) ->
     str_len (RequestParts.body p) = str_len (RequestParts.body p') ->
     RequestParts.debug p = RequestParts.debug p') /\
  (forall v v', HeaderValue.debug v = HeaderValue.debug v').
Proof.
  assert (Hnames : forall (A B C : Type) (f : A -> C) (l l' : list (A * B)),
    map fst l = map fst l' -> map (fun '(n, _) => f n) l = map (fun '(n, _) => f n) l').
  { intros A B C f l l' E.
    assert (Hm : forall k : list (A * B), map (fun '(n, _) => f n) k = map f (map fst k))
      by (intros k; rewrite map_map; apply map_ext; by intros [??]).
    by rewrite !Hm, E. }
  split; [|split; [|split]].
  - intros e e' Hc Hw Hs.
    assert (E : SecureEnvelope.debug e = SecureEnvelope.debug e')
      by (unfold SecureEnvelope.debug; by rewrite Hc, Hw, Hs).
    split; [done|]. intros cert cert' [k] [k'] Hcert Hctx Hk.
    unfold ParsedResponse.debug, AuthenticationContext.debug.
    cbn [ParsedResponse.envelope ParsedResponse.remote_signing_certificate_id
      ParsedResponse.authentication_context AuthenticationContext.kind] in *.
    rewrite E, Hcert. destruct k as [|k], k' as [|k']; [done| | |].
    + discriminate (proj1 Hk eq_refl).
    + discriminate (proj2 Hk eq_refl).
    + cbn [context_of AuthenticationContext.kind] in Hctx. by rewrite Hctx.
  - intros hs hs' b b' Hn Hb. unfold ResponseParts.debug; cbn.
    by rewrite (Hnames _ _ _ DStr hs hs' Hn), Hb.
  - intros p p' Hn Hb. unfold RequestParts.debug, HeaderCollection.iter.
    by rewrite (Hnames _ _ _ (fun n => DStr (HeaderName.as_str n)) _ _ Hn), Hb.
  - done.
Qed.
