(* ===== verification/EnvelopeBase.v ===== *)
(** * What the payload modes share (src/envelope_crypto/mod.rs)

    Session keys, Base64 and the size bounds both payload modes use, the relation
    between two peers' configurations and keys, and the interface
    ([PayloadMode], [PayloadModeLaws]) through which the dispatcher of
    [Envelope.v] and the client see a payload mode. *)

From S2P Require Import Prelude.
From S2P Require Import Rust.
From S2P Require Import Text.
From S2P Require Import System.
From S2P Require Import Error.
From S2P Require Import Auth.
From S2P Require Import ClientConfig.
From S2P Require Import External.
From S2P Require Import Keys.
From S2P Require Import Message.

Definition SESSION_KEY_BYTES : Z := 16.
Definition MAX_AUXILIARY_BASE64_BYTES : Z := 16 * 1024.

Section shared.
Context `{Sys : System} `{Ar : Arch} `{B64 : Base64} `{Cr : !Crypto}.

Definition generate_session_key : IO (list byte) :=
  call Error.Encryption (getrandom_fill (Z.to_nat SESSION_KEY_BYTES)).

Definition unwrap_session_key (keys : KeyMaterial.t) (wrapped_session_key : list byte) :
    Result (list byte) :=
  unwrapped ← ok_or (sm2_decrypt (KeyMaterial.local_decryption keys) wrapped_session_key)
                Error.InvalidEnvelope;
  if negb (len unwrapped =? SESSION_KEY_BYTES) then Err Error.InvalidEnvelope
  else Ok unwrapped.

Definition decode_base64 (value : str) : Result (list byte) :=
  ok_or (base64_decode value) Error.InvalidEnvelope.

Definition base64_len (binary_len : Z) : Z :=
  unwrap_or
    (bytes ← checked_add binary_len 2;
     checked_mul (bytes / 3) 4)
    usize_max.

End shared.

(** ** Two peers *)

Section peers.
Context `{Sys : System} `{Ar : Arch} `{B64 : Base64} `{Cr : !Crypto}.

(** The receiver's configuration and keys are the counterpart of the sender's:
    the session key is wrapped for the receiver's decryption key, the receiver
    verifies with the sender's signing key and signer id, and both pin the same
    modes and CBC IV. *)
Record counterpart (cs : ClientConfig.t) (ks : KeyMaterial.t)
    (cr : ClientConfig.t) (kr : KeyMaterial.t) : Prop := {
  cp_encryption :
    KeyMaterial.remote_encryption ks = public_key (KeyMaterial.local_decryption kr);
  cp_verification :
    KeyMaterial.remote_verification kr = public_key (KeyMaterial.local_signing ks);
  cp_signer_id :
    ClientConfig.expected_remote_signer_id cr = ClientConfig.local_signer_id cs;
  cp_authentication_mode :
    ClientConfig.authentication_mode cr = ClientConfig.authentication_mode cs;
  cp_envelope_mode : ClientConfig.envelope_mode cr = ClientConfig.envelope_mode cs;
  cp_iv : ClientConfig.iv cr = ClientConfig.iv cs;
}.

(** The envelope's text is a Rust [String]: its length is a [usize]. *)
Definition representable (e : SecureEnvelope.t) : Prop :=
  str_len (SecureEnvelope.cipher e) <= usize_max.

(** The receiver's verification of what the sender's mode, the context and the
    plaintext determine. *)
Definition signature_covers (config : ClientConfig.t) (keys : KeyMaterial.t)
    (context : AuthenticationContext.t) (e : SecureEnvelope.t) (p : list byte) : Prop :=
  exists t sig,
    AuthenticationMode.authentication_input (ClientConfig.authentication_mode config)
      context p = Ok t /\
    base64_decode (SecureEnvelope.signature e) = Some sig /\
    sm2_verify_with_id (KeyMaterial.remote_verification keys)
      (ClientConfig.expected_remote_signer_id config) t sig = true.

(** The sender's signature over what its mode, the context and the plaintext
    determine, as the envelope carries it. *)
Definition signed_by (config : ClientConfig.t) (keys : KeyMaterial.t)
    (context : AuthenticationContext.t) (e : SecureEnvelope.t) (p : list byte) : Prop :=
  exists t sig w w',
    AuthenticationMode.authentication_input (ClientConfig.authentication_mode config)
      context p = Ok t /\
    sm2_sign_with_id (KeyMaterial.local_signing keys) (ClientConfig.local_signer_id config) t w
      = (Some sig, w') /\
    SecureEnvelope.signature e = base64_encode sig.

(** The Base64 text of at least one byte. *)
Definition base64_text (s : str) : Prop :=
  exists bs, s = base64_encode bs /\ 1 <= len bs.

(** What the AEADs encrypt under a 12-byte nonce: the counter of GCM and the length
    field of CCM bound the plaintext. *)
Definition GCM_MAX_PLAINTEXT_BYTES : Z := 2 ^ 36 - 32.

Definition within_aead_limit (algorithm : AeadAlgorithm.t) (n : Z) : Prop :=
  match algorithm with
  | AeadAlgorithm.Sm4Gcm => n <= GCM_MAX_PLAINTEXT_BYTES
  | AeadAlgorithm.Sm4Ccm => n <= SM4_CCM_MAX_PLAINTEXT_BYTES
  end.
Definition within_mode_limit (mode : EnvelopeMode.t) (n : Z) : Prop :=
  match mode with
  | EnvelopeMode.LegacyCbc => True
  | EnvelopeMode.Aead algorithm => within_aead_limit algorithm n
  end.

(** ** Availability *)

(** The bytes a digest or a tag may cover: far below the 64-bit bit counts of SM3 and
    GHASH. *)
Definition INPUT_LIMIT : Z := 2 ^ 60.

(** While the environment is healthy, the primitives answer and leave it healthy:
    the random source delivers, SM2 wraps a message no longer than a session key and
    signs under an id the 16-bit length field of SM2 admits, and the AEADs encrypt
    what their counters admit.  Nothing is said of other environments. *)
Record available `{!Health} : Prop := {
  av_fill n w :
    healthy w -> exists bs w', getrandom_fill n w = (Some bs, w') /\ healthy w';
  av_sm2_encrypt pk m w :
    healthy w -> 1 <= len m <= SESSION_KEY_BYTES ->
    exists c w', sm2_encrypt pk m w = (Some c, w') /\ healthy w';
  av_sm2_sign sk id m w :
    healthy w -> len id <= MAX_SIGNER_ID_BYTES -> len m <= INPUT_LIMIT ->
    exists s w', sm2_sign_with_id sk id m w = (Some s, w') /\ healthy w';
  av_gcm_encrypt k n a p :
    len n = 12 -> len a <= INPUT_LIMIT -> len p <= GCM_MAX_PLAINTEXT_BYTES ->
    exists c t, gcm_encrypt k n a p = Some (c, t);
  av_ccm_encrypt k n a p :
    len n = 12 -> len a <= INPUT_LIMIT -> len p <= SM4_CCM_MAX_PLAINTEXT_BYTES ->
    exists j, ccm_encrypt k n a p 16 = Some j;
}.

End peers.
Arguments counterpart {_ _}.
Arguments available {_} _ {_}.

Lemma small_within_mode_limit m n : n <= SM4_CCM_MAX_PLAINTEXT_BYTES -> within_mode_limit m n.
Proof.
  intros H. assert (n <= 16777215) by exact H. destruct m as [|[]]; cbn; [done| |done].
  unfold GCM_MAX_PLAINTEXT_BYTES. lia.
Qed.

(** ** The interface of a payload mode *)

Record PayloadMode `{Sys : System} `{Cr : !Crypto} := {
  pm_seal : ClientConfig.t -> KeyMaterial.t -> list byte -> AuthenticationContext.t ->
            IO SecureEnvelope.t;
  pm_open : ClientConfig.t -> KeyMaterial.t -> SecureEnvelope.t -> AuthenticationContext.t ->
            Result (list byte);
}.

Class PayloadModeLaws `{Sys : System} `{Ar : Arch} `{B64 : Base64} `{Cr : !Crypto}
    (m : PayloadMode) : Prop := {
  (** What one peer seals, its counterpart opens. *)
  pm_round_trip cs ks cr kr p ctx w e w' :
    counterpart cs ks cr kr ->
    len p <= ClientConfig.max_plaintext_bytes cr <= usize_max ->
    pm_seal m cs ks p ctx w = (Ok e, w') -> representable e ->
    pm_open m cr kr e ctx = Ok p;
  (** The three fields of a sealed envelope are non-empty Base64 text. *)
  pm_texts c k p ctx w e w' :
    pm_seal m c k p ctx w = (Ok e, w') ->
    base64_text (SecureEnvelope.cipher e) /\
    base64_text (SecureEnvelope.wrapped_session_key e) /\
    base64_text (SecureEnvelope.signature e);
  (** A sealed envelope carries the sender's signature, and a payload text that is
      at most the Base64 of the plaintext and 30 bytes. *)
  pm_signed c k p ctx w e w' :
    pm_seal m c k p ctx w = (Ok e, w') ->
    signed_by c k ctx e p /\ str_len (SecureEnvelope.cipher e) <= (len p + 32) / 3 * 4;
  (** Nothing is opened beyond the limit or without a signature over it. *)
  pm_authentic c k e ctx p :
    pm_open m c k e ctx = Ok p ->
    len p <= ClientConfig.max_plaintext_bytes c /\ signature_covers c k ctx e p;
  (** A failed open tells nothing but that the text is oversized. *)
  pm_open_errors c k e ctx err :
    pm_open m c k e ctx = Err err ->
    err = Error.InvalidEnvelope \/
    err = Error.MessageTooLarge (ClientConfig.max_plaintext_bytes c);
  (** A failed seal is a failed primitive or an unusable context. *)
  pm_seal_errors c k p ctx w err w' :
    pm_seal m c k p ctx w = (Err err, w') ->
    err = Error.Encryption \/ err = Error.AuthenticationContext \/
    err = Error.Configuration "domain_separator";
}.

(** ** Size bounds *)

(** The exact Base64 size, which [base64_len] computes in [usize]. *)
Definition base64_size (n : Z) : Z := (n + 2) / 3 * 4.

Lemma base64_size_mono a b : a <= b -> base64_size a <= base64_size b.
Proof. intros H. unfold base64_size. divlia. Qed.

Section sizes.
Context `{Ar : Arch}.

Lemma base64_len_eq n : 0 <= n -> base64_len n = Z.min (base64_size n) usize_max.
Proof.
  intros Hn. pose proof usize_max_bounds as Hu.
  unfold base64_len, base64_size, checked_add, checked_mul.
  destruct (Z.leb_spec (n + 2) usize_max); cbn [mbind option_bind unwrap_or].
  - destruct (Z.leb_spec ((n + 2) / 3 * 4) usize_max); cbn; lia.
  - rewrite Z.min_r; [done|]. divlia.
Qed.

Lemma base64_len_bounds n : 0 <= n -> 0 <= base64_len n <= usize_max.
Proof.
  intros Hn. rewrite base64_len_eq by done. pose proof usize_max_bounds.
  unfold base64_size. divlia.
Qed.

End sizes.

(** ** Base64 text *)

Lemma base64_alphabet_plain c :
  base64_alphabet c = true -> is_whitespace c = false /\ 33 <= code c < 127.
Proof.
  intros H. assert (33 <= code c < 127) as Hc; [|split; [by apply visible_not_space|done]].
  unfold base64_alphabet in H. repeat (apply orb_true_iff in H as [H|H]); bool_hyps; lia.
Qed.

Section base64_text.
Context `{B64 : Base64} `{!Base64Laws B64}.

Lemma base64_text_nonempty s : base64_text s -> s <> [].
Proof.
  intros (bs & -> & Hl) E. pose proof (base64_encode_len bs) as H. rewrite E in H.
  change (str_len []) with 0 in H. divlia.
Qed.

Lemma base64_text_plain s :
  base64_text s -> Forall (fun c => is_whitespace c = false /\ 33 <= code c < 127) s.
Proof.
  intros (bs & -> & _). eapply Forall_impl; [apply base64_encode_alphabet|].
  apply base64_alphabet_plain.
Qed.

Lemma base64_text_trim s : base64_text s -> str_trim s = s.
Proof.
  intros H%base64_text_plain. apply str_trim_no_whitespace.
  eapply Forall_impl; [exact H|]. naive_solver.
Qed.

End base64_text.

(** ** Session keys *)

Section session_keys.
Context `{Sys : System} `{Cr : !Crypto}.

Lemma unwrap_session_key_Ok keys wk key :
  unwrap_session_key keys wk = Ok key <->
  sm2_decrypt (KeyMaterial.local_decryption keys) wk = Some key /\ len key = 16.
Proof.
  unfold unwrap_session_key. destruct (sm2_decrypt _ wk) as [u|]; cbn [ok_or mbind result_bind];
    [|naive_solver].
  unfold SESSION_KEY_BYTES. destruct (Z.eqb_spec (len u) 16); cbn; naive_solver.
Qed.

Lemma unwrap_session_key_Err keys wk e :
  unwrap_session_key keys wk = Err e -> e = Error.InvalidEnvelope.
Proof.
  unfold unwrap_session_key. destruct (sm2_decrypt _ wk); cbn; [|congruence].
  case_match; congruence.
Qed.

Lemma decode_base64_Ok `{B64 : Base64} s bs : decode_base64 s = Ok bs <-> base64_decode s = Some bs.
Proof. apply ok_or_Ok. Qed.

Lemma decode_base64_Err `{B64 : Base64} s e : decode_base64 s = Err e -> e = Error.InvalidEnvelope.
Proof. by intros [_ ->]%ok_or_Err. Qed.

Lemma generate_session_key_Ok `{!SystemLaws Sys} w key w' :
  generate_session_key w = (Ok key, w') ->
  getrandom_fill 16 w = (Some key, w') /\ len key = 16.
Proof.
  intros H%call_Ok. change (Z.to_nat SESSION_KEY_BYTES) with 16%nat in H.
  split; [done|]. apply getrandom_fill_len in H. unfold len. lia.
Qed.

End session_keys.

(** The size bounds are exact and never wrap: [base64_len] is the Base64 length
    of that many bytes, or [usize::MAX] when that does not fit; it is at least the
    length of the text of any byte string of at most that size whose text is a Rust
    string, on 32-bit and on 64-bit targets. *)
Theorem base64_len_exact `{Ar : Arch} `{B64 : Base64} `{!Base64Laws B64} n :
  0 <= n <= usize_max ->
  base64_len n = Z.min ((n + 2) / 3 * 4) usize_max /\
  (forall bs, len bs <= n -> str_len (base64_encode bs) <= usize_max ->
     str_len (base64_encode bs) <= base64_len n) /\
  (forall bs, len bs = n -> str_len (base64_encode bs) <= usize_max ->
     str_len (base64_encode bs) = base64_len n).
Proof.
  intros Hn. rewrite base64_len_eq by lia. split; [done|].
  setoid_rewrite base64_encode_len. fold (base64_size n).
  split; intros bs Hb Hr; fold (base64_size (len bs)) in *.
  - pose proof (base64_size_mono _ _ Hb). lia.
  - subst n. lia.
Qed.
