(* ===== verification/Cbc.v ===== *)
(** * The compatibility SM4-CBC payload mode (src/envelope_crypto/cbc.rs)

    Sealing and opening in CBC mode.  [open] is written in the [io] monad over
    the tally of SM2 verifications that the test build keeps in the thread-local
    [VERIFY_CALLS], so that the number of verifications of a run, which the
    padding-oracle countermeasure fixes, is part of the model. *)

From S2P Require Import Prelude.
From S2P Require Import Rust.
From S2P Require Import Text.
From S2P Require Import System.
From S2P Require Import Error.
From S2P Require Import Auth.
From S2P Require Import ClientConfig.
From S2P Require Import External.
From S2P Require Import Keys.
From S2P Require Import Message.
From S2P Require Import EnvelopeBase.

Module Cbc.

Definition SM4_BLOCK_BYTES : Z := 16.

(** The tally is a [u32]. *)
Definition record_verify_call (calls : Z) : Z := u32_saturating_add calls 1.

(** [take_verify_calls]: the tally and its reset value. *)
Definition take_verify_calls (calls : Z) : Z * Z := (calls, 0).

Section cbc.
Context `{Sys : System} `{Ar : Arch} `{B64 : Base64} `{Cr : !Crypto}.

Definition verify_transcript (keys : KeyMaterial.t) (config : ClientConfig.t)
    (transcript signature : list byte) : io Z Error.t bool :=
  fun calls =>
    (Ok (sm2_verify_with_id (KeyMaterial.remote_verification keys)
           (ClientConfig.expected_remote_signer_id config) transcript signature),
     record_verify_call calls).

Definition seal (config : ClientConfig.t) (keys : KeyMaterial.t) (plaintext : list byte)
    (context : AuthenticationContext.t) : IO SecureEnvelope.t :=
  authentication_input ← lift (AuthenticationMode.authentication_input
                                 (ClientConfig.authentication_mode config) context plaintext);
  session_key ← generate_session_key;
  let cipher := cbc_encrypt session_key (ClientConfig.iv config) plaintext in
  wrapped_session_key ← call Error.Encryption
                          (sm2_encrypt (KeyMaterial.remote_encryption keys) session_key);
  signature ← call Error.Encryption
                (sm2_sign_with_id (KeyMaterial.local_signing keys)
                   (ClientConfig.local_signer_id config) authentication_input);
  mret {| SecureEnvelope.cipher := base64_encode cipher;
          SecureEnvelope.wrapped_session_key := base64_encode wrapped_session_key;
          SecureEnvelope.signature := base64_encode signature |}.

Definition padded_cipher_len (plaintext_limit : Z) : Z :=
  unwrap_or
    (blocks ← checked_div plaintext_limit SM4_BLOCK_BYTES;
     blocks ← checked_add blocks 1;
     checked_mul blocks SM4_BLOCK_BYTES)
    usize_max.

Definition open (config : ClientConfig.t) (keys : KeyMaterial.t)
    (envelope : SecureEnvelope.t) (context : AuthenticationContext.t) :
    io Z Error.t (list byte) :=
  let plaintext_limit := ClientConfig.max_plaintext_bytes config in
  let max_cipher_bytes := padded_cipher_len plaintext_limit in
  let max_cipher_base64_bytes := base64_len max_cipher_bytes in
  _ ← lift (guard_err (max_cipher_base64_bytes <? str_len (SecureEnvelope.cipher envelope))
              (Error.MessageTooLarge plaintext_limit));
  _ ← lift (guard_err
              ((MAX_AUXILIARY_BASE64_BYTES
                  <? str_len (SecureEnvelope.wrapped_session_key envelope))
               || (MAX_AUXILIARY_BASE64_BYTES <? str_len (SecureEnvelope.signature envelope)))
              Error.InvalidEnvelope);
  cipher ← lift (decode_base64 (SecureEnvelope.cipher envelope));
  _ ← lift (guard_err (max_cipher_bytes <? len cipher) Error.InvalidEnvelope);
  wrapped_session_key ← lift (decode_base64 (SecureEnvelope.wrapped_session_key envelope));
  signature ← lift (decode_base64 (SecureEnvelope.signature envelope));
  session_key ← lift (unwrap_session_key keys wrapped_session_key);
  let decrypted := cbc_decrypt session_key (ClientConfig.iv config) cipher in
  let padding_ok := is_some decrypted in
  let plaintext := unwrap_or decrypted cipher in
  let length_ok := len plaintext <=? plaintext_limit in
  let authentication_input :=
    AuthenticationMode.authentication_input (ClientConfig.authentication_mode config)
      context plaintext in
  let input_ok := is_ok authentication_input in
  let transcript := match authentication_input with Ok t => t | Err _ => [] end in
  verified ← verify_transcript keys config transcript signature;
  if padding_ok && length_ok && input_ok && verified
  then mret plaintext
  else lift (Err Error.InvalidEnvelope).

(** The mode as the dispatcher uses it: a release build keeps no tally. *)
Definition mode : PayloadMode := {|
  pm_seal := seal;
  pm_open config keys envelope context := fst (open config keys envelope context 0);
|}.

End cbc.

(** ** Sizes *)

(** The ciphertext size of a plaintext of [n] bytes under PKCS#7 padding. *)
Definition padded_size (n : Z) : Z := (n / 16 + 1) * 16.

Lemma padded_size_mono a b : a <= b -> padded_size a <= padded_size b.
Proof. intros. unfold padded_size. divlia. Qed.

Lemma padded_cipher_len_eq `{Ar : Arch} n :
  0 <= n <= usize_max -> padded_cipher_len n = Z.min (padded_size n) usize_max.
Proof.
  intros Hn. pose proof usize_max_bounds as Hu.
  unfold padded_cipher_len, padded_size, checked_div, SM4_BLOCK_BYTES; cbn.
  unfold checked_add, checked_mul.
  rewrite (proj2 (Z.leb_le (n / 16 + 1) usize_max)) by divlia; cbn.
  destruct (Z.leb_spec ((n / 16 + 1) * 16) usize_max); cbn; lia.
Qed.

(** ** Sealing *)

Section sealing.
Context `{Sys : System} `{Ar : Arch} `{B64 : Base64} `{Cr : !Crypto}.

Lemma cbc_seal_Ok c k p ctx w e w' :
  seal c k p ctx w = (Ok e, w') <->
  exists t key w1 wk w2 sig,
    AuthenticationMode.authentication_input (ClientConfig.authentication_mode c) ctx p = Ok t /\
    generate_session_key w = (Ok key, w1) /\
    sm2_encrypt (KeyMaterial.remote_encryption k) key w1 = (Some wk, w2) /\
    sm2_sign_with_id (KeyMaterial.local_signing k) (ClientConfig.local_signer_id c) t w2
      = (Some sig, w') /\
    e = SecureEnvelope.Build (base64_encode (cbc_encrypt key (ClientConfig.iv c) p))
          (base64_encode wk) (base64_encode sig).
Proof.
  unfold seal. split.
  - intros H. inv_ok. eauto 15.
  - intros (t & key & w1 & wk & w2 & sig & Ht & Hk & He & Hs & ->).
    apply io_bind_Ok. exists t, w. unfold lift at 1. split; [by rewrite Ht|].
    apply io_bind_Ok. exists key, w1. split; [done|].
    apply io_bind_Ok. exists wk, w2. split; [by apply call_Ok|].
    apply io_bind_Ok. exists sig, w'. split; [by apply call_Ok|done].
Qed.

(** With a usable context only a primitive can fail. *)
Lemma cbc_seal_primitive_Err c k p ctx w err w' t :
  AuthenticationMode.authentication_input (ClientConfig.authentication_mode c) ctx p = Ok t ->
  seal c k p ctx w = (Err err, w') -> err = Error.Encryption.
Proof.
  intros Et. unfold seal. rewrite Et, lift_bind.
  intros [[_ H']%call_Err|(key & w2 & _ & H')]%io_bind_Err; [done|].
  apply io_bind_Err in H' as [[_ H']%call_Err|(wk & w3 & _ & H')]; [done|].
  by apply io_bind_Err in H' as [[_ H']%call_Err|(sig & w4 & _ & H')].
Qed.

Lemma cbc_seal_Err c k p ctx w err w' :
  seal c k p ctx w = (Err err, w') ->
  err = Error.Encryption \/ err = Error.AuthenticationContext \/
  err = Error.Configuration "domain_separator".
Proof.
  intros H. destruct (AuthenticationMode.authentication_input
    (ClientConfig.authentication_mode c) ctx p) as [t|e] eqn:Et.
  { left. by eapply cbc_seal_primitive_Err. }
  unfold seal in H. rewrite Et in H. injection H as <- _.
  apply authentication_input_Err in Et. tauto.
Qed.

Lemma cbc_seal_total `{Hh : !Health} `{!SystemLaws Sys} c k p ctx w t :
  available Cr -> healthy w -> len (ClientConfig.local_signer_id c) <= MAX_SIGNER_ID_BYTES ->
  AuthenticationMode.authentication_input (ClientConfig.authentication_mode c) ctx p = Ok t ->
  len t <= INPUT_LIMIT ->
  exists e w', seal c k p ctx w = (Ok e, w') /\ healthy w'.
Proof.
  intros Av Hw Hid Et Ht.
  destruct (av_fill Av 16 w Hw) as (key & w1 & Hk & Hw1).
  assert (len key = 16) by (apply getrandom_fill_len in Hk; unfold len; lia).
  destruct (av_sm2_encrypt Av (KeyMaterial.remote_encryption k) key w1 Hw1) as (wk & w2 & He & Hw2);
    [unfold SESSION_KEY_BYTES; lia|].
  destruct (av_sm2_sign Av (KeyMaterial.local_signing k) (ClientConfig.local_signer_id c) t w2 Hw2)
    as (sig & w3 & Hs & Hw3); [done..|].
  eexists _, w3. split; [|done]. apply cbc_seal_Ok. exists t, key, w1, wk, w2, sig.
  repeat split; [done| |done..]. by apply call_Ok.
Qed.

End sealing.

(** ** Opening *)

Section opening.
Context `{Sys : System} `{Ar : Arch} `{B64 : Base64} `{Cr : !Crypto}.

(** The checks [open] makes before any secret is used, in one step: the three
    decoded fields. *)
Definition decoded (c : ClientConfig.t) (e : SecureEnvelope.t)
    (cipher wk sig : list byte) : Prop :=
  str_len (SecureEnvelope.cipher e)
    <= base64_len (padded_cipher_len (ClientConfig.max_plaintext_bytes c)) /\
  str_len (SecureEnvelope.wrapped_session_key e) <= MAX_AUXILIARY_BASE64_BYTES /\
  str_len (SecureEnvelope.signature e) <= MAX_AUXILIARY_BASE64_BYTES /\
  base64_decode (SecureEnvelope.cipher e) = Some cipher /\
  len cipher <= padded_cipher_len (ClientConfig.max_plaintext_bytes c) /\
  base64_decode (SecureEnvelope.wrapped_session_key e) = Some wk /\
  base64_decode (SecureEnvelope.signature e) = Some sig.

(** The session key [open] recovers from such fields. *)
Definition unwraps (c : ClientConfig.t) (k : KeyMaterial.t) (e : SecureEnvelope.t)
    (cipher sig key : list byte) : Prop :=
  exists wk, decoded c e cipher wk sig /\
    sm2_decrypt (KeyMaterial.local_decryption k) wk = Some key /\ len key = 16.

(** What [open] does after the session key is known: the padded branch and the
    fallback branch run the same code on the plaintext or on the raw ciphertext. *)
Definition conclude (c : ClientConfig.t) (k : KeyMaterial.t) (ctx : AuthenticationContext.t)
    (cipher sig key : list byte) : Result (list byte) :=
  match cbc_decrypt key (ClientConfig.iv c) cipher with
  | Some p =>
      match AuthenticationMode.authentication_input (ClientConfig.authentication_mode c) ctx p with
      | Ok t =>
          if (len p <=? ClientConfig.max_plaintext_bytes c) &&
             sm2_verify_with_id (KeyMaterial.remote_verification k)
               (ClientConfig.expected_remote_signer_id c) t sig
          then Ok p else Err Error.InvalidEnvelope
      | Err _ => Err Error.InvalidEnvelope
      end
  | None => Err Error.InvalidEnvelope
  end.

Lemma open_after_unwrap c k e ctx cipher sig key n :
  unwraps c k e cipher sig key ->
  open c k e ctx n = (conclude c k ctx cipher sig key, record_verify_call n).
Proof.
  intros (wk & (L1 & L2 & L3 & D1 & L4 & D2 & D3) & Hk & Hl).
  unfold open, lift, mbind, io_bind, decode_base64.
  rewrite (proj2 (Z.ltb_ge _ _) L1), (proj2 (Z.ltb_ge _ _) L2), (proj2 (Z.ltb_ge _ _) L3).
  cbn [guard_err orb]. rewrite D1; cbn [ok_or].
  rewrite (proj2 (Z.ltb_ge _ _) L4), D2, D3; cbn [guard_err ok_or].
  assert (unwrap_session_key k wk = Ok key) as -> by (by apply unwrap_session_key_Ok).
  unfold conclude, verify_transcript, mret, io_ret.
  destruct (cbc_decrypt _ _ _) as [p|]; cbn [is_some unwrap_or andb]; [|done].
  destruct (AuthenticationMode.authentication_input _ _ _); cbn [is_ok andb];
    destruct (_ <=? _); cbn [andb]; repeat case_match; congruence.
Qed.

(** Either the session key is recovered, or [open] fails before verifying. *)
Lemma cbc_open_cases c k e ctx n :
  (exists cipher sig key, unwraps c k e cipher sig key) \/
  open c k e ctx n =
    (Err (if base64_len (padded_cipher_len (ClientConfig.max_plaintext_bytes c))
             <? str_len (SecureEnvelope.cipher e)
          then Error.MessageTooLarge (ClientConfig.max_plaintext_bytes c)
          else Error.InvalidEnvelope), n).
Proof.
  unfold open, lift, mbind, io_bind, decode_base64.
  destruct (Z.ltb_spec (base64_len (padded_cipher_len (ClientConfig.max_plaintext_bytes c)))
              (str_len (SecureEnvelope.cipher e))) as [|L1]; cbn [guard_err]; [by right|].
  destruct (_ || _) eqn:L2; cbn [guard_err]; [by right|].
  destruct (base64_decode (SecureEnvelope.cipher e)) as [cipher|] eqn:D1; cbn [ok_or]; [|by right].
  destruct (Z.ltb_spec (padded_cipher_len (ClientConfig.max_plaintext_bytes c)) (len cipher));
    cbn [guard_err]; [by right|].
  destruct (base64_decode (SecureEnvelope.wrapped_session_key e)) as [wk|] eqn:D2;
    cbn [ok_or]; [|by right].
  destruct (base64_decode (SecureEnvelope.signature e)) as [sig|] eqn:D3; cbn [ok_or]; [|by right].
  destruct (unwrap_session_key k wk) as [key|err] eqn:Hk.
  - left. apply unwrap_session_key_Ok in Hk as [Hk Hl]. bool_hyps.
    exists cipher, sig, key, wk. repeat split; assumption.
  - right. by apply unwrap_session_key_Err in Hk as ->.
Qed.

Lemma cbc_conclude_Ok c k ctx cipher sig key p :
  conclude c k ctx cipher sig key = Ok p <->
  cbc_decrypt key (ClientConfig.iv c) cipher = Some p /\
  len p <= ClientConfig.max_plaintext_bytes c /\
  exists t,
    AuthenticationMode.authentication_input (ClientConfig.authentication_mode c) ctx p = Ok t /\
    sm2_verify_with_id (KeyMaterial.remote_verification k)
      (ClientConfig.expected_remote_signer_id c) t sig = true.
Proof.
  unfold conclude. destruct (cbc_decrypt _ _ _) as [q|]; [|split; [done|by intros [[=] _]]].
  destruct (AuthenticationMode.authentication_input _ _ q) as [t|] eqn:E.
  2: { split; [done|]. intros ([= <-] & _ & t & Ht & _). congruence. }
  destruct (Z.leb_spec (len q) (ClientConfig.max_plaintext_bytes c)); cbn [andb].
  2: { split; [done|]. intros ([= <-] & ? & _). lia. }
  destruct (sm2_verify_with_id _ _ t sig) eqn:Ev.
  - split; [intros [= <-]; eauto|by intros ([= <-] & _)].
  - split; [done|]. intros ([= <-] & _ & t' & Ht & Hv). congruence.
Qed.

Lemma cbc_conclude_Err c k ctx cipher sig key err :
  conclude c k ctx cipher sig key = Err err -> err = Error.InvalidEnvelope.
Proof. unfold conclude. repeat case_match; congruence. Qed.

Lemma unwraps_fun c k e x y z x' y' z' :
  unwraps c k e x y z -> unwraps c k e x' y' z' -> x = x' /\ y = y' /\ z = z'.
Proof. unfold unwraps, decoded. naive_solver. Qed.

(** The result does not depend on the tally, and the tally grows by at most one. *)
Lemma cbc_open_tally c k e ctx n :
  open c k e ctx n = (fst (open c k e ctx 0), snd (open c k e ctx n)) /\
  ((exists cipher sig key, unwraps c k e cipher sig key) ->
   snd (open c k e ctx n) = record_verify_call n).
Proof.
  destruct (cbc_open_cases c k e ctx 0) as [(x & y & z & Hu)|H0].
  - rewrite !(open_after_unwrap _ _ _ _ _ _ _ _ Hu). done.
  - destruct (cbc_open_cases c k e ctx n) as [(x & y & z & Hu)|Hn].
    + rewrite !(open_after_unwrap _ _ _ _ _ _ _ _ Hu) in *. done.
    + rewrite H0, Hn. split; [done|]. intros (x & y & z & Hu).
      rewrite (open_after_unwrap _ _ _ _ _ _ _ _ Hu) in Hn. injection Hn as _ Hn. done.
Qed.

Lemma cbc_open_Ok c k e ctx n p n' :
  open c k e ctx n = (Ok p, n') <->
  n' = record_verify_call n /\
  exists cipher sig key,
    unwraps c k e cipher sig key /\ conclude c k ctx cipher sig key = Ok p.
Proof.
  split.
  - intros H. destruct (cbc_open_cases c k e ctx n) as [(x & y & z & Hu)|Hf]; [|congruence].
    rewrite (open_after_unwrap _ _ _ _ _ _ _ _ Hu) in H. injection H as H <-. eauto 10.
  - intros (-> & x & y & z & Hu & <-). by apply open_after_unwrap.
Qed.

Lemma cbc_open_Err c k e ctx n err n' :
  open c k e ctx n = (Err err, n') ->
  err = if base64_len (padded_cipher_len (ClientConfig.max_plaintext_bytes c))
           <? str_len (SecureEnvelope.cipher e)
        then Error.MessageTooLarge (ClientConfig.max_plaintext_bytes c)
        else Error.InvalidEnvelope.
Proof.
  intros H. destruct (cbc_open_cases c k e ctx n) as [(x & y & z & Hu)|Hf]; [|congruence].
  rewrite (open_after_unwrap _ _ _ _ _ _ _ _ Hu) in H. injection H as H _.
  apply cbc_conclude_Err in H as ->. destruct Hu as (wk & (L & _) & _).
  by rewrite (proj2 (Z.ltb_ge _ _) L).
Qed.

End opening.

(** ** The mode's promises to the dispatcher *)

Section laws.
Context `{Sys : System} `{Ar : Arch} `{B64 : Base64} `{Cr : !Crypto}.
Context `{!SystemLaws Sys} `{!Base64Laws B64} `{!CryptoLaws Cr}.

(** The fields of a sealed envelope pass the receiver's size checks. *)
Lemma sealed_decodes cr key iv p wk sig :
  len p <= ClientConfig.max_plaintext_bytes cr <= usize_max ->
  len wk <= 144 -> len sig <= 128 ->
  let e := SecureEnvelope.Build (base64_encode (cbc_encrypt key iv p))
             (base64_encode wk) (base64_encode sig) in
  representable e -> decoded cr e (cbc_encrypt key iv p) wk sig.
Proof.
  intros Hp Hw Hs e Hr. unfold representable in Hr. subst e; cbn in Hr.
  unfold decoded; cbn -[base64_encode str_len].
  pose proof (len_nonneg p). pose proof (len_nonneg wk). pose proof (len_nonneg sig).
  pose proof usize_max_bounds as Hu.
  rewrite !base64_decode_encode. rewrite base64_encode_len, cbc_encrypt_len in *.
  rewrite !base64_encode_len. fold (padded_size (len p)) in *.
  fold (base64_size (padded_size (len p))) in *.
  pose proof (padded_size_mono _ _ (proj1 Hp)) as Hm.
  assert (Hsz : padded_size (len p) <= usize_max)
    by (unfold base64_size, padded_size in *; divlia).
  rewrite padded_cipher_len_eq, base64_len_eq by (unfold padded_size; divlia).
  assert (Hb : padded_size (len p)
    <= Z.min (padded_size (ClientConfig.max_plaintext_bytes cr)) usize_max) by lia.
  apply base64_size_mono in Hb.
  unfold MAX_AUXILIARY_BASE64_BYTES. repeat split; try lia; divlia.
Qed.

Lemma open_mode_Ok c k e ctx p :
  pm_open mode c k e ctx = Ok p <->
  exists cipher sig key,
    unwraps c k e cipher sig key /\ conclude c k ctx cipher sig key = Ok p.
Proof.
  cbn. destruct (open c k e ctx 0) as [r n'] eqn:E; cbn. split.
  - intros ->. by apply cbc_open_Ok in E as [_ ?].
  - intros H. assert (open c k e ctx 0 = (Ok p, record_verify_call 0)) as E'
      by (by apply cbc_open_Ok). congruence.
Qed.

#[export] Instance mode_laws : PayloadModeLaws mode.
Proof.
  constructor.
  - intros cs ks cr kr p ctx w e w' Hc Hp Hs Hr. apply open_mode_Ok.
    apply cbc_seal_Ok in Hs as (t & key & w1 & wk & w2 & sig & Ht & Hk & He & Hg & ->).
    apply generate_session_key_Ok in Hk as [_ Hl].
    pose proof (sm2_encrypt_len _ _ _ _ _ He) as [_ Lw]. rewrite Hl in Lw.
    pose proof (sm2_sign_len _ _ _ _ _ _ Hg) as [_ Ls].
    rewrite (cp_encryption _ _ _ _ Hc) in He.
    exists (cbc_encrypt key (ClientConfig.iv cs) p), sig, key. split.
    + exists wk. split; [by apply sealed_decodes|].
      split; [by eapply sm2_decrypt_encrypt|done].
    + apply cbc_conclude_Ok. rewrite (cp_iv _ _ _ _ Hc), (cp_authentication_mode _ _ _ _ Hc),
        (cp_verification _ _ _ _ Hc), (cp_signer_id _ _ _ _ Hc).
      split; [apply cbc_decrypt_encrypt|]. split; [lia|]. exists t.
      split; [done|by eapply sm2_verify_sign].
  - intros c k p ctx w e w'. cbn. intros H.
    apply cbc_seal_Ok in H as (t & key & w1 & wk & w2 & sig & _ & _ & He & Hg & ->). cbn.
    apply sm2_encrypt_len in He as [He _]. apply sm2_sign_len in Hg as [Hg _].
    split; [|split]; eexists; split; try done.
    rewrite cbc_encrypt_len. pose proof (len_nonneg p). divlia.
  - intros c k p ctx w e w'. cbn. intros H.
    apply cbc_seal_Ok in H as (t & key & w1 & wk & w2 & sig & Ht & _ & _ & Hg & ->). cbn.
    split; [by exists t, sig, w2, w'|].
    rewrite base64_encode_len, cbc_encrypt_len. pose proof (len_nonneg p). divlia.
  - intros c k e ctx p (x & y & z & Hu & Hp)%open_mode_Ok.
    apply cbc_conclude_Ok in Hp as (_ & Hl & t & Ht & Hv). split; [done|].
    exists t, y. destruct Hu as (wk & Hd & _). unfold decoded in Hd. tauto.
  - intros c k e ctx err H. cbn in H. destruct (open c k e ctx 0) as [r n'] eqn:E. cbn in H.
    subst r. apply cbc_open_Err in E as ->. case_match; auto.
  - intros c k p ctx w err w'. apply cbc_seal_Err.
Qed.

End laws.

Section claims.
Context `{Sys : System} `{Ar : Arch} `{B64 : Base64} `{Cr : !Crypto}.

(** C3. [cbc::open] returns a plaintext exactly when every check passes: the text
    is within the size bounds and decodes, the wrapped key decrypts to 16 bytes,
    the padding is valid, the plaintext respects the limit, the mode accepts the
    context, and the signature verifies over the transcript of that plaintext.
    In particular a valid signature alone never opens an envelope: if the
    ciphertext does not decrypt, the result is [Error::InvalidEnvelope] even when
    the signature verifies over the raw ciphertext bytes. *)
Theorem cbc_open_sound_complete c k e ctx n :
  (forall p, fst (open c k e ctx n) = Ok p <->
     exists cipher wk sig key t,
       decoded c e cipher wk sig /\
       sm2_decrypt (KeyMaterial.local_decryption k) wk = Some key /\ len key = 16 /\
       cbc_decrypt key (ClientConfig.iv c) cipher = Some p /\
       len p <= ClientConfig.max_plaintext_bytes c /\
       AuthenticationMode.authentication_input
         (ClientConfig.authentication_mode c) ctx p = Ok t /\
       sm2_verify_with_id (KeyMaterial.remote_verification k)
         (ClientConfig.expected_remote_signer_id c) t sig = true) /\
  (forall cipher sig key,
     unwraps c k e cipher sig key -> cbc_decrypt key (ClientConfig.iv c) cipher = None ->
     fst (open c k e ctx n) = Err Error.InvalidEnvelope).
Proof.
  split.
  - intros p. split.
    + intros H. destruct (open c k e ctx n) as [r n'] eqn:E. cbn in H. subst r.
      apply cbc_open_Ok in E as (_ & x & y & z & (wk & Hd & Hk & Hl) & Hc).
      apply cbc_conclude_Ok in Hc as (? & ? & t & ? & ?). by exists x, wk, y, z, t.
    + intros (x & wk & y & z & t & Hd & Hk & Hl & Hdec & Hp & Ht & Hv).
      rewrite (open_after_unwrap _ _ _ _ x y z); [|by exists wk].
      apply cbc_conclude_Ok. eauto.
  - intros x y z Hu Hdec. rewrite (open_after_unwrap _ _ _ _ _ _ _ _ Hu).
    unfold conclude. by rewrite Hdec.
Qed.

(** C4. The padding-oracle countermeasure: once the session key unwraps, [open]
    performs exactly one SM2 verification whatever the ciphertext, the context
    and the signature are, and any two such runs that fail give the same error
    and the same number of verifications, so bad padding, an oversized plaintext,
    a wrong context and a forged signature are not distinguishable by them.  An
    envelope whose session key does not unwrap is rejected with no verification. *)
Theorem cbc_one_verification c k e ctx n :
  0 <= n < u32_max ->
  ((exists cipher sig key, unwraps c k e cipher sig key) ->
   snd (open c k e ctx n) = n + 1 /\
   forall e' ctx' err err',
     (exists cipher sig key, unwraps c k e' cipher sig key) ->
     fst (open c k e ctx n) = Err err -> fst (open c k e' ctx' n) = Err err' ->
     open c k e ctx n = open c k e' ctx' n) /\
  (~ (exists cipher sig key, unwraps c k e cipher sig key) ->
   snd (open c k e ctx n) = n /\ is_ok (fst (open c k e ctx n)) = false).
Proof.
  intros Hn. assert (Hr : record_verify_call n = n + 1)
    by (unfold record_verify_call, u32_saturating_add; lia).
  split.
  - intros (x & y & z & Hu). rewrite (open_after_unwrap _ _ _ _ _ _ _ _ Hu). cbn [snd fst].
    split; [done|]. intros e' ctx' err err' (x' & y' & z' & Hu').
    rewrite (open_after_unwrap _ _ _ _ _ _ _ _ Hu'). cbn [fst].
    intros H1 H2. rewrite H1, H2. apply cbc_conclude_Err in H1 as ->. by apply cbc_conclude_Err in H2 as ->.
  - intros Hno. destruct (cbc_open_cases c k e ctx n) as [Hu|Hf]; [done|]. by rewrite Hf.
Qed.

(** [padded_cipher_len] is the exact size of the longest ciphertext the limit
    allows, or [usize::MAX] if that does not fit: no plaintext within the limit
    encrypts to more, and the first byte beyond the last admitted block does. *)
Theorem padded_cipher_len_exact `{!CryptoLaws Cr} n :
  0 <= n <= usize_max ->
  padded_cipher_len n = Z.min ((n / 16 + 1) * 16) usize_max /\
  (forall key iv p, len p <= n -> len (cbc_encrypt key iv p) <= usize_max ->
     len (cbc_encrypt key iv p) <= padded_cipher_len n) /\
  (forall key iv p, padded_size n <= len p -> padded_cipher_len n < len (cbc_encrypt key iv p)).
Proof.
  intros Hn. rewrite padded_cipher_len_eq by done. split; [done|].
  setoid_rewrite cbc_encrypt_len. split; intros key iv p Hp.
  - fold (padded_size (len p)). pose proof (padded_size_mono _ _ Hp). lia.
  - unfold padded_size in *. divlia.
Qed.

End claims.

End Cbc.
