(* ===== verification/Aead.v ===== *)
(** * The SM4-GCM and SM4-CCM payload modes (src/envelope_crypto/aead.rs)

    The payload is a frame: version, algorithm byte, 12-byte nonce, ciphertext,
    16-byte tag.  The tag covers the frame header, the domain separator and the
    protocol context through the additional data of [Auth.v]; the signature
    covers the same transcript as in CBC mode. *)

From S2P Require Import Prelude.
From S2P Require Import Rust.
From S2P Require Import Text.
From S2P Require Import System.
From S2P Require Import Error.
From S2P Require Import Auth.
From S2P Require Import ClientConfig.
From S2P Require Import External.
From S2P Require Import Keys.
From S2P Require Import Message.
From S2P Require Import EnvelopeBase.

Module Aead.

Definition FRAME_VERSION : byte := x01.
Definition ALGORITHM_SM4_GCM : byte := x01.
Definition ALGORITHM_SM4_CCM : byte := x02.
Definition FRAME_HEADER_BYTES : Z := 14.
Definition NONCE_BYTES : Z := 12.
Definition TAG_BYTES : Z := 16.
Definition FRAME_OVERHEAD_BYTES : Z := FRAME_HEADER_BYTES + TAG_BYTES.

Definition algorithm_byte (algorithm : AeadAlgorithm.t) : byte :=
  match algorithm with
  | AeadAlgorithm.Sm4Gcm => ALGORITHM_SM4_GCM
  | AeadAlgorithm.Sm4Ccm => ALGORITHM_SM4_CCM
  end.

(** [Vec::split_off] and [slice::split_at] at an index within the slice. *)
Definition split_at {A} (l : list A) (mid : Z) : list A * list A :=
  (take (Z.to_nat mid) l, drop (Z.to_nat mid) l).

Definition split_ciphertext_and_tag (joined : list byte) : option (list byte * list byte) :=
  if len joined <? TAG_BYTES then None
  else
    let '(joined, tag_bytes) := split_at joined (len joined - TAG_BYTES) in
    (* [<[u8; TAG_BYTES]>::try_from] fails on any other length *)
    if negb (len tag_bytes =? TAG_BYTES) then None
    else Some (joined, tag_bytes).

Section aead.
Context `{Sys : System} `{Ar : Arch} `{B64 : Base64} `{Cr : !Crypto}.

Definition aead_encrypt (algorithm : AeadAlgorithm.t)
    (session_key nonce aad plaintext : list byte) : Result (list byte * list byte) :=
  match algorithm with
  | AeadAlgorithm.Sm4Gcm =>
      ok_or (gcm_encrypt session_key nonce aad plaintext) Error.Encryption
  | AeadAlgorithm.Sm4Ccm =>
      joined ← ok_or (ccm_encrypt session_key nonce aad plaintext TAG_BYTES) Error.Encryption;
      ok_or (split_ciphertext_and_tag joined) Error.Encryption
  end.

Definition aead_decrypt (algorithm : AeadAlgorithm.t)
    (session_key nonce aad ciphertext tag : list byte) : Result (list byte) :=
  match algorithm with
  | AeadAlgorithm.Sm4Gcm =>
      ok_or (gcm_decrypt session_key nonce aad ciphertext tag) Error.InvalidEnvelope
  | AeadAlgorithm.Sm4Ccm =>
      let joined := ciphertext ++ tag in
      ok_or (ccm_decrypt session_key nonce aad joined TAG_BYTES) Error.InvalidEnvelope
  end.

Definition seal (config : ClientConfig.t) (keys : KeyMaterial.t) (plaintext : list byte)
    (context : AuthenticationContext.t) (algorithm : AeadAlgorithm.t) : IO SecureEnvelope.t :=
  authentication_input ← lift (AuthenticationMode.authentication_input
                                 (ClientConfig.authentication_mode config) context plaintext);
  session_key ← generate_session_key;
  nonce ← call Error.Encryption (getrandom_fill (Z.to_nat NONCE_BYTES));
  let frame_header := [FRAME_VERSION; algorithm_byte algorithm] ++ nonce in
  aad ← lift (AuthenticationMode.aead_aad (ClientConfig.authentication_mode config)
                context frame_header);
  '(ciphertext, tag) ← lift (aead_encrypt algorithm session_key nonce aad plaintext);
  _ ← lift (ok_or (checked_add FRAME_OVERHEAD_BYTES (len ciphertext)) Error.Encryption);
  let frame := frame_header ++ ciphertext ++ tag in
  wrapped_session_key ← call Error.Encryption
                          (sm2_encrypt (KeyMaterial.remote_encryption keys) session_key);
  signature ← call Error.Encryption
                (sm2_sign_with_id (KeyMaterial.local_signing keys)
                   (ClientConfig.local_signer_id config) authentication_input);
  mret {| SecureEnvelope.cipher := base64_encode frame;
          SecureEnvelope.wrapped_session_key := base64_encode wrapped_session_key;
          SecureEnvelope.signature := base64_encode signature |}.

Definition open (config : ClientConfig.t) (keys : KeyMaterial.t)
    (envelope : SecureEnvelope.t) (context : AuthenticationContext.t)
    (algorithm : AeadAlgorithm.t) : Result (list byte) :=
  let plaintext_limit := ClientConfig.max_plaintext_bytes config in
  let max_frame_bytes := saturating_add plaintext_limit FRAME_OVERHEAD_BYTES in
  _ ← guard_err (base64_len max_frame_bytes <? str_len (SecureEnvelope.cipher envelope))
        (Error.MessageTooLarge plaintext_limit);
  _ ← guard_err
        ((MAX_AUXILIARY_BASE64_BYTES <? str_len (SecureEnvelope.wrapped_session_key envelope))
         || (MAX_AUXILIARY_BASE64_BYTES <? str_len (SecureEnvelope.signature envelope)))
        Error.InvalidEnvelope;
  frame ← decode_base64 (SecureEnvelope.cipher envelope);
  wrapped_session_key ← decode_base64 (SecureEnvelope.wrapped_session_key envelope);
  signature ← decode_base64 (SecureEnvelope.signature envelope);
  _ ← guard_err (len frame <? FRAME_OVERHEAD_BYTES) Error.InvalidEnvelope;
  _ ← guard_err
        (negb (bool_decide (frame !! 0%nat = Some FRAME_VERSION))
         || negb (bool_decide (frame !! 1%nat = Some (algorithm_byte algorithm))))
        Error.InvalidEnvelope;
  let '(frame_header, body) := split_at frame FRAME_HEADER_BYTES in
  let ciphertext_len := len body - TAG_BYTES in
  _ ← guard_err (plaintext_limit <? ciphertext_len) Error.InvalidEnvelope;
  let '(ciphertext, tag) := split_at body ciphertext_len in
  let nonce := drop 2 frame_header in
  session_key ← unwrap_session_key keys wrapped_session_key;
  aad ← map_err (fun _ => Error.InvalidEnvelope)
          (AuthenticationMode.aead_aad (ClientConfig.authentication_mode config)
             context frame_header);
  plaintext ← aead_decrypt algorithm session_key nonce aad ciphertext tag;
  authentication_input ← map_err (fun _ => Error.InvalidEnvelope)
          (AuthenticationMode.authentication_input
             (ClientConfig.authentication_mode config) context plaintext);
  _ ← guard_err
        (negb (sm2_verify_with_id (KeyMaterial.remote_verification keys)
                 (ClientConfig.expected_remote_signer_id config)
                 authentication_input signature))
        Error.InvalidEnvelope;
  Ok plaintext.

Definition mode (algorithm : AeadAlgorithm.t) : PayloadMode := {|
  pm_seal config keys plaintext context := seal config keys plaintext context algorithm;
  pm_open config keys envelope context := open config keys envelope context algorithm;
|}.

End aead.

(** ** Splitting *)

Lemma split_at_app {A} (a b : list A) n : len a = n -> split_at (a ++ b) n = (a, b).
Proof.
  intros <-. unfold split_at, len. rewrite Nat2Z.id.
  by rewrite take_app_length, drop_app_length.
Qed.

Lemma split_at_spec {A} (l : list A) n :
  0 <= n <= len l ->
  exists a b, split_at l n = (a, b) /\ l = a ++ b /\ len a = n /\ len b = len l - n.
Proof.
  intros Hn. unfold split_at, len in *. do 2 eexists. split; [done|].
  rewrite take_drop, length_take, length_drop. split; [done|]. lia.
Qed.

Lemma split_ciphertext_and_tag_Some joined c t :
  split_ciphertext_and_tag joined = Some (c, t) <-> joined = c ++ t /\ len t = 16.
Proof.
  unfold split_ciphertext_and_tag, TAG_BYTES. split.
  - destruct (Z.ltb_spec (len joined) 16); [done|].
    destruct (split_at_spec joined (len joined - 16)) as (a & b & -> & Hj & Ha & Hb); [len_solve|].
    rewrite (proj2 (Z.eqb_eq (len b) 16)) by lia. cbn. intros [= <- <-]. split; [done|lia].
  - intros [-> Ht]. rewrite len_app, Ht. pose proof (len_nonneg c).
    destruct (Z.ltb_spec (len c + 16) 16); [lia|].
    rewrite split_at_app by lia. by rewrite Ht.
Qed.

(** ** Frames *)

Definition frame_of (alg : AeadAlgorithm.t) (nonce ct tag : list byte) : list byte :=
  [FRAME_VERSION; algorithm_byte alg] ++ nonce ++ ct ++ tag.

Definition header_of (alg : AeadAlgorithm.t) (nonce : list byte) : list byte :=
  [FRAME_VERSION; algorithm_byte alg] ++ nonce.

Lemma frame_of_header alg nonce ct tag :
  frame_of alg nonce ct tag = header_of alg nonce ++ ct ++ tag.
Proof. unfold frame_of, header_of. by rewrite <- app_assoc. Qed.

Lemma len_header_of alg nonce : len nonce = 12 -> len (header_of alg nonce) = 14.
Proof. intros H. unfold header_of. len_solve. Qed.

Lemma len_frame_of alg nonce ct tag :
  len nonce = 12 -> len tag = 16 -> len (frame_of alg nonce ct tag) = 30 + len ct.
Proof. intros Hn Ht. unfold frame_of. len_solve. Qed.

Lemma frame_of_inj alg nonce ct tag alg' nonce' ct' tag' :
  len nonce = 12 -> len nonce' = 12 -> len tag = 16 -> len tag' = 16 ->
  frame_of alg nonce ct tag = frame_of alg' nonce' ct' tag' ->
  alg = alg' /\ nonce = nonce' /\ ct = ct' /\ tag = tag'.
Proof.
  intros Hn Hn' Ht Ht' E.
  assert (El : len ct = len ct').
  { apply (f_equal len) in E. unfold frame_of in E. len_solve. }
  unfold frame_of in E. cbn [app] in E. injection E as Ea E.
  assert (alg = alg') as -> by (by destruct alg, alg').
  apply app_len_inj in E as [-> E]; [|lia]. by apply app_len_inj in E as [-> ->].
Qed.

(** ** The two algorithms *)

Section algorithms.
Context `{Sys : System} `{Cr : !Crypto} `{!CryptoLaws Cr}.

Lemma aead_encrypt_len alg key nonce aad p ct tag :
  aead_encrypt alg key nonce aad p = Ok (ct, tag) -> len ct = len p /\ len tag = 16.
Proof.
  destruct alg; cbn.
  - intros H%ok_or_Ok. by eapply gcm_encrypt_len.
  - intros (j & Hj%ok_or_Ok & Hs%ok_or_Ok)%bind_Ok.
    apply split_ciphertext_and_tag_Some in Hs as [-> Ht].
    apply ccm_encrypt_len in Hj. unfold TAG_BYTES in Hj. len_solve.
Qed.

Lemma aead_decrypt_encrypt alg key nonce aad p ct tag :
  aead_encrypt alg key nonce aad p = Ok (ct, tag) ->
  aead_decrypt alg key nonce aad ct tag = Ok p.
Proof.
  destruct alg; cbn.
  - intros H%ok_or_Ok. apply ok_or_Ok. by eapply gcm_decrypt_encrypt.
  - intros (j & Hj%ok_or_Ok & Hs%ok_or_Ok)%bind_Ok.
    apply split_ciphertext_and_tag_Some in Hs as [-> Ht].
    apply ok_or_Ok. by eapply ccm_decrypt_encrypt.
Qed.

Lemma aead_decrypt_len alg key nonce aad ct tag p :
  len tag = 16 -> aead_decrypt alg key nonce aad ct tag = Ok p -> len p = len ct.
Proof.
  intros Ht. destruct alg; cbn; intros H%ok_or_Ok.
  - by eapply gcm_decrypt_len.
  - apply ccm_decrypt_len in H. unfold TAG_BYTES in H. len_solve.
Qed.

Lemma aead_decrypt_Err alg key nonce aad ct tag e :
  aead_decrypt alg key nonce aad ct tag = Err e -> e = Error.InvalidEnvelope.
Proof. destruct alg; cbn; by intros [_ ->]%ok_or_Err. Qed.

Lemma aead_encrypt_Err alg key nonce aad p e :
  aead_encrypt alg key nonce aad p = Err e -> e = Error.Encryption.
Proof.
  destruct alg; cbn; [by intros [_ ->]%ok_or_Err|].
  by intros [[_ ->]%ok_or_Err|(j & _ & [_ ->]%ok_or_Err)]%bind_Err.
Qed.

Lemma aead_encrypt_total `{Hh : !Health} alg key nonce aad p :
  available Cr -> len nonce = 12 -> len aad <= INPUT_LIMIT -> within_aead_limit alg (len p) ->
  exists ct tag, aead_encrypt alg key nonce aad p = Ok (ct, tag).
Proof.
  intros Av Hn Ha Hp. destruct alg; cbn.
  - destruct (av_gcm_encrypt Av key nonce aad p Hn Ha Hp) as (c & t & ->). by exists c, t.
  - destruct (av_ccm_encrypt Av key nonce aad p Hn Ha Hp) as (j & Hj). change 16 with TAG_BYTES in Hj.
    rewrite Hj; cbn [ok_or mbind result_bind].
    apply ccm_encrypt_len in Hj. unfold TAG_BYTES in Hj. pose proof (len_nonneg p).
    destruct (split_at_spec j (len j - 16)) as (a & b & _ & -> & _ & Hb); [lia|].
    exists a, b. assert (split_ciphertext_and_tag (a ++ b) = Some (a, b)) as ->; [|done].
    apply split_ciphertext_and_tag_Some. split; [done|lia].
Qed.

End algorithms.

(** ** Sealing *)

Section sealing.
Context `{Sys : System} `{Ar : Arch} `{B64 : Base64} `{Cr : !Crypto}.

(** The run of a successful [seal]: the transcript, the draws in order, the
    sealed frame and its size. *)
Record sealing (c : ClientConfig.t) (k : KeyMaterial.t) (p : list byte)
    (ctx : AuthenticationContext.t) (alg : AeadAlgorithm.t) (w : world)
    (e : SecureEnvelope.t) (w' : world)
    (t key nonce aad ct tag wk sig : list byte) (w1 w2 w3 : world) : Prop := {
  sl_input : AuthenticationMode.authentication_input
               (ClientConfig.authentication_mode c) ctx p = Ok t;
  sl_key : generate_session_key w = (Ok key, w1);
  sl_nonce : getrandom_fill 12 w1 = (Some nonce, w2);
  sl_aad : AuthenticationMode.aead_aad (ClientConfig.authentication_mode c) ctx
             (header_of alg nonce) = Ok aad;
  sl_encrypt : aead_encrypt alg key nonce aad p = Ok (ct, tag);
  sl_size : 30 + len ct <= usize_max;
  sl_wrap : sm2_encrypt (KeyMaterial.remote_encryption k) key w2 = (Some wk, w3);
  sl_sign : sm2_sign_with_id (KeyMaterial.local_signing k) (ClientConfig.local_signer_id c) t w3
              = (Some sig, w');
  sl_envelope : e = SecureEnvelope.Build (base64_encode (frame_of alg nonce ct tag))
                      (base64_encode wk) (base64_encode sig);
}.

Lemma aead_seal_Ok c k p ctx alg w e w' :
  seal c k p ctx alg w = (Ok e, w') <->
  exists t key nonce aad ct tag wk sig w1 w2 w3,
    sealing c k p ctx alg w e w' t key nonce aad ct tag wk sig w1 w2 w3.
Proof.
  unfold seal. split.
  - intros H. repeat (inv_ok; try match goal with
      | H : (let '(_, _) := ?x in _) _ = _ |- _ => destruct x
      end).
    match goal with H : checked_add _ _ = Some _ |- _ => apply checked_add_Some in H as [_ ?] end.
    do 11 eexists. econstructor; eauto.
  - intros (t & key & nonce & aad & ct & tag & wk & sig & w1 & w2 & w3 &
      [Ht Hk Hn Ha He Hz Hw Hs ->]).
    rewrite frame_of_header.
    apply io_bind_Ok. exists t, w. unfold lift at 1. split; [by rewrite Ht|].
    apply io_bind_Ok. exists key, w1. split; [done|].
    apply io_bind_Ok. exists nonce, w2. split; [by apply call_Ok|].
    apply io_bind_Ok. exists aad, w2. unfold lift at 1. split; [by rewrite <- Ha|].
    apply io_bind_Ok. exists (ct, tag), w2. unfold lift at 1. split; [by rewrite He|].
    apply io_bind_Ok. exists (30 + len ct), w2. split.
    { unfold lift. f_equal. apply ok_or_Ok, checked_add_Some. done. }
    apply io_bind_Ok. exists wk, w3. split; [by apply call_Ok|].
    apply io_bind_Ok. exists sig, w'. split; [by apply call_Ok|done].
Qed.

Lemma aead_aad_Err m ctx h e :
  len h = 14 -> AuthenticationMode.aead_aad m ctx h = Err e ->
  e = Error.AuthenticationContext \/ e = Error.Configuration "domain_separator".
Proof. intros Hh. rewrite aead_aad_eq by done. repeat case_match; naive_solver. Qed.

(** With a usable context whose additional data fits, only a primitive can fail. *)
Lemma aead_seal_primitive_Err `{!SystemLaws Sys} c k p ctx alg w err w' t :
  AuthenticationMode.authentication_input (ClientConfig.authentication_mode c) ctx p = Ok t ->
  (forall h e, len h = 14 ->
     AuthenticationMode.aead_aad (ClientConfig.authentication_mode c) ctx h <> Err e) ->
  seal c k p ctx alg w = (Err err, w') -> err = Error.Encryption.
Proof.
  intros Et Ha. unfold seal. rewrite Et, lift_bind.
  intros [[_ H']%call_Err|(key & w2 & _ & H')]%io_bind_Err; [done|].
  apply io_bind_Err in H' as [[_ H']%call_Err|(nonce & w3 & Hn%call_Ok & H')]; [done|].
  apply getrandom_fill_len in Hn.
  apply io_bind_Err in H' as [[H' _]%lift_Err|(aad & w4 & _ & H')].
  { apply Ha in H'; [done|]. apply (len_header_of alg). unfold len. by rewrite Hn. }
  apply io_bind_Err in H' as [[H' _]%lift_Err|([ct tag] & w5 & _ & H')].
  { by apply aead_encrypt_Err in H'. }
  apply io_bind_Err in H' as [[[_ H']%ok_or_Err _]%lift_Err|(n & w6 & _ & H')]; [done|].
  apply io_bind_Err in H' as [[_ H']%call_Err|(wk & w7 & _ & H')]; [done|].
  by apply io_bind_Err in H' as [[_ H']%call_Err|(sig & w8 & _ & H')].
Qed.

Lemma aead_seal_Err `{!SystemLaws Sys} c k p ctx alg w err w' :
  seal c k p ctx alg w = (Err err, w') ->
  err = Error.Encryption \/ err = Error.AuthenticationContext \/
  err = Error.Configuration "domain_separator".
Proof.
  unfold seal. intros [[H _]%lift_Err|(t & w1 & _ & H')]%io_bind_Err.
  { apply authentication_input_Err in H. tauto. }
  apply io_bind_Err in H' as [[_ H']%call_Err|(key & w2 & _ & H')]; [auto|].
  apply io_bind_Err in H' as [[_ H']%call_Err|(nonce & w3 & Hn%call_Ok & H')]; [auto|].
  apply getrandom_fill_len in Hn.
  apply io_bind_Err in H' as [[H' _]%lift_Err|(aad & w4 & _ & H')].
  { apply aead_aad_Err in H'; [tauto|]. apply (len_header_of alg). unfold len. by rewrite Hn. }
  left. apply io_bind_Err in H' as [[H' _]%lift_Err|([ct tag] & w5 & _ & H')].
  { by apply aead_encrypt_Err in H'. }
  apply io_bind_Err in H' as [[[_ H']%ok_or_Err _]%lift_Err|(n & w6 & _ & H')]; [done|].
  apply io_bind_Err in H' as [[_ H']%call_Err|(wk & w7 & _ & H')]; [done|].
  by apply io_bind_Err in H' as [[_ H']%call_Err|(sig & w8 & _ & H')].
Qed.

Lemma aead_seal_total `{Hh : !Health} `{!SystemLaws Sys} `{!CryptoLaws Cr} c k p ctx alg w t :
  available Cr -> healthy w -> len (ClientConfig.local_signer_id c) <= MAX_SIGNER_ID_BYTES ->
  AuthenticationMode.authentication_input (ClientConfig.authentication_mode c) ctx p = Ok t ->
  len t <= INPUT_LIMIT ->
  80 + len (domain_of (ClientConfig.authentication_mode c)) + len (context_of ctx)
    <= Z.min usize_max INPUT_LIMIT ->
  30 + len p <= usize_max -> within_aead_limit alg (len p) ->
  exists e w', seal c k p ctx alg w = (Ok e, w') /\ healthy w'.
Proof.
  intros Av Hh0 Hid Et Ht Hf Hz Hp.
  destruct (av_fill Av 16 w Hh0) as (key & w1 & Hk & Hh1).
  destruct (av_fill Av 12 w1 Hh1) as (nonce & w2 & Hn & Hh2).
  assert (len key = 16) by (apply getrandom_fill_len in Hk; unfold len; lia).
  assert (Ln : len nonce = 12) by (apply getrandom_fill_len in Hn; unfold len; lia).
  assert (Hl : len (header_of alg nonce) = 14) by (by apply len_header_of).
  pose proof (proj1 (authentication_input_Ok _ _ _ _) Et) as (Hw & Hm & _).
  pose (aad := aad_of (header_of alg nonce) (domain_of (ClientConfig.authentication_mode c))
                 (context_of ctx)).
  assert (Ha : AuthenticationMode.aead_aad (ClientConfig.authentication_mode c) ctx
                 (header_of alg nonce) = Ok aad)
    by (apply aead_aad_Ok; [done|]; repeat split; [done..|lia]).
  destruct (aead_encrypt_total alg key nonce aad p Av Ln) as (ct & tag & Hc);
    [unfold aad; rewrite len_aad_of, Hl; lia|done|].
  destruct (av_sm2_encrypt Av (KeyMaterial.remote_encryption k) key w2 Hh2) as (wk & w3 & He & Hh3);
    [unfold SESSION_KEY_BYTES; lia|].
  destruct (av_sm2_sign Av (KeyMaterial.local_signing k) (ClientConfig.local_signer_id c) t w3 Hh3)
    as (sig & w4 & Hs & Hh4); [done..|].
  exists (SecureEnvelope.Build (base64_encode (frame_of alg nonce ct tag))
            (base64_encode wk) (base64_encode sig)), w4.
  split; [|done]. apply aead_seal_Ok. exists t, key, nonce, aad, ct, tag, wk, sig, w1, w2, w3.
  apply aead_encrypt_len in Hc as Hc'. constructor; try done; [by apply call_Ok|lia].
Qed.

End sealing.

(** ** Opening *)

Section opening.
Context `{Sys : System} `{Ar : Arch} `{B64 : Base64} `{Cr : !Crypto}.

(** The frame and the auxiliary fields of an envelope that passes the checks
    [open] makes before any secret is used. *)
Record parsed (c : ClientConfig.t) (alg : AeadAlgorithm.t) (e : SecureEnvelope.t)
    (nonce ct tag wk sig : list byte) : Prop := {
  ps_cipher_len : str_len (SecureEnvelope.cipher e)
    <= base64_len (saturating_add (ClientConfig.max_plaintext_bytes c) FRAME_OVERHEAD_BYTES);
  ps_wrapped_len :
    str_len (SecureEnvelope.wrapped_session_key e) <= MAX_AUXILIARY_BASE64_BYTES;
  ps_signature_len : str_len (SecureEnvelope.signature e) <= MAX_AUXILIARY_BASE64_BYTES;
  ps_frame : base64_decode (SecureEnvelope.cipher e) = Some (frame_of alg nonce ct tag);
  ps_nonce_len : len nonce = 12;
  ps_tag_len : len tag = 16;
  ps_limit : len ct <= ClientConfig.max_plaintext_bytes c;
  ps_wrapped : base64_decode (SecureEnvelope.wrapped_session_key e) = Some wk;
  ps_signature : base64_decode (SecureEnvelope.signature e) = Some sig;
}.

(** What [open] does with them. *)
Definition conclude (c : ClientConfig.t) (k : KeyMaterial.t) (ctx : AuthenticationContext.t)
    (alg : AeadAlgorithm.t) (nonce ct tag wk sig : list byte) : Result (list byte) :=
  session_key ← unwrap_session_key k wk;
  aad ← map_err (fun _ => Error.InvalidEnvelope)
          (AuthenticationMode.aead_aad (ClientConfig.authentication_mode c) ctx
             (header_of alg nonce));
  plaintext ← aead_decrypt alg session_key nonce aad ct tag;
  t ← map_err (fun _ => Error.InvalidEnvelope)
        (AuthenticationMode.authentication_input (ClientConfig.authentication_mode c) ctx
           plaintext);
  _ ← guard_err (negb (sm2_verify_with_id (KeyMaterial.remote_verification k)
                         (ClientConfig.expected_remote_signer_id c) t sig))
        Error.InvalidEnvelope;
  Ok plaintext.

Lemma open_after_parse c k e ctx alg nonce ct tag wk sig :
  parsed c alg e nonce ct tag wk sig ->
  open c k e ctx alg = conclude c k ctx alg nonce ct tag wk sig.
Proof.
  intros [L1 L2 L3 D1 Hn Ht Hl D2 D3]. unfold open, decode_base64.
  rewrite (proj2 (Z.ltb_ge _ _) L1), (proj2 (Z.ltb_ge _ _) L2), (proj2 (Z.ltb_ge _ _) L3).
  rewrite D1, D2, D3. cbn [guard_err orb ok_or mbind result_bind].
  assert (Hz : len (frame_of alg nonce ct tag) = 30 + len ct) by (unfold frame_of; len_solve).
  rewrite Hz. unfold FRAME_OVERHEAD_BYTES, FRAME_HEADER_BYTES, TAG_BYTES.
  destruct (Z.ltb_spec (30 + len ct) (14 + 16)); [len_solve|]. cbn [guard_err mbind result_bind].
  rewrite !bool_decide_true by done. cbn [negb orb guard_err mbind result_bind].
  rewrite frame_of_header, split_at_app by (by apply len_header_of).
  rewrite len_app, Ht. replace (len ct + 16 - 16) with (len ct) by lia.
  rewrite (proj2 (Z.ltb_ge _ _) Hl), split_at_app by done. done.
Qed.

(** A frame with the right version and algorithm bytes and room for a tag
    splits into its parts. *)
Lemma frame_split alg (frame : list byte) :
  30 <= len frame -> frame !! 0%nat = Some FRAME_VERSION ->
  frame !! 1%nat = Some (algorithm_byte alg) ->
  exists nonce ct tag, frame = frame_of alg nonce ct tag /\ len nonce = 12 /\ len tag = 16.
Proof.
  intros Hl H0 H1. destruct frame as [|a [|b rest]]; [done..|].
  cbn in H0, H1. injection H0 as ->. injection H1 as ->. rewrite !len_cons in Hl.
  destruct (split_at_spec rest 12) as (nonce & body & _ & -> & Hn & Hb); [lia|].
  rewrite len_app in Hl.
  destruct (split_at_spec body (len body - 16)) as (ct & tag & _ & -> & _ & Ht); [lia|].
  exists nonce, ct, tag. split; [done|]. lia.
Qed.

Lemma aead_open_cases c k e ctx alg :
  (exists nonce ct tag wk sig, parsed c alg e nonce ct tag wk sig) \/
  open c k e ctx alg =
    Err (if base64_len (saturating_add (ClientConfig.max_plaintext_bytes c) FRAME_OVERHEAD_BYTES)
            <? str_len (SecureEnvelope.cipher e)
         then Error.MessageTooLarge (ClientConfig.max_plaintext_bytes c)
         else Error.InvalidEnvelope).
Proof.
  unfold open, decode_base64.
  destruct (Z.ltb_spec (base64_len (saturating_add (ClientConfig.max_plaintext_bytes c)
    FRAME_OVERHEAD_BYTES)) (str_len (SecureEnvelope.cipher e))) as [|L1]; [by right|].
  cbn [guard_err mbind result_bind].
  destruct (_ || _) eqn:L2; cbn [guard_err mbind result_bind]; [by right|].
  destruct (base64_decode (SecureEnvelope.cipher e)) as [frame|] eqn:D1; [|by right].
  destruct (base64_decode (SecureEnvelope.wrapped_session_key e)) as [wk|] eqn:D2; [|by right].
  destruct (base64_decode (SecureEnvelope.signature e)) as [sig|] eqn:D3; [|by right].
  cbn [ok_or mbind result_bind].
  destruct (Z.ltb_spec (len frame) FRAME_OVERHEAD_BYTES) as [|L3]; [by right|].
  cbn [guard_err mbind result_bind].
  case_bool_decide as V; [|by right]. case_bool_decide as A; [|by right].
  cbn [negb orb guard_err mbind result_bind].
  destruct (frame_split alg frame L3 V A) as (nonce & ct & tag & -> & Hn & Ht).
  rewrite frame_of_header, split_at_app by (by apply len_header_of).
  rewrite len_app, Ht. unfold TAG_BYTES. replace (len ct + 16 - 16) with (len ct) by lia.
  destruct (Z.ltb_spec (ClientConfig.max_plaintext_bytes c) (len ct)); [by right|].
  left. bool_hyps. exists nonce, ct, tag, wk, sig. by constructor.
Qed.

Lemma aead_conclude_Ok c k ctx alg nonce ct tag wk sig p :
  conclude c k ctx alg nonce ct tag wk sig = Ok p <->
  exists key aad t,
    sm2_decrypt (KeyMaterial.local_decryption k) wk = Some key /\ len key = 16 /\
    AuthenticationMode.aead_aad (ClientConfig.authentication_mode c) ctx
      (header_of alg nonce) = Ok aad /\
    aead_decrypt alg key nonce aad ct tag = Ok p /\
    AuthenticationMode.authentication_input (ClientConfig.authentication_mode c) ctx p = Ok t /\
    sm2_verify_with_id (KeyMaterial.remote_verification k)
      (ClientConfig.expected_remote_signer_id c) t sig = true.
Proof.
  unfold conclude. split.
  - intros H. inv_ok. bool_hyps.
    match goal with H : unwrap_session_key _ _ = Ok _ |- _ =>
      apply unwrap_session_key_Ok in H as [? ?] end. eauto 10.
  - intros (key & aad & t & Hk & Hl & Ha & Hd & Ht & Hv).
    rewrite (proj2 (unwrap_session_key_Ok _ _ _) (conj Hk Hl)). cbn [mbind result_bind].
    rewrite Ha. cbn [map_err mbind result_bind]. rewrite Hd. cbn [mbind result_bind].
    rewrite Ht. cbn [map_err mbind result_bind]. by rewrite Hv.
Qed.

Lemma aead_conclude_Err c k ctx alg nonce ct tag wk sig err :
  conclude c k ctx alg nonce ct tag wk sig = Err err -> err = Error.InvalidEnvelope.
Proof.
  unfold conclude. intros [H|(key & _ & H)]%bind_Err; [by apply unwrap_session_key_Err in H|].
  apply bind_Err in H as [H|(aad & _ & H)]; [by apply map_err_Err in H as (? & _ & ->)|].
  apply bind_Err in H as [H|(p & _ & H)]; [by apply aead_decrypt_Err in H|].
  apply bind_Err in H as [H|(t & _ & H)]; [by apply map_err_Err in H as (? & _ & ->)|].
  by apply bind_Err in H as [[_ H]%guard_err_Err|(u & _ & H)].
Qed.

Lemma aead_open_Ok c k e ctx alg p :
  open c k e ctx alg = Ok p <->
  exists nonce ct tag wk sig,
    parsed c alg e nonce ct tag wk sig /\
    conclude c k ctx alg nonce ct tag wk sig = Ok p.
Proof.
  split.
  - intros H. destruct (aead_open_cases c k e ctx alg) as [(n & x & y & z & s & Hp)|Hf]; [|congruence].
    rewrite (open_after_parse _ _ _ _ _ _ _ _ _ _ Hp) in H. eauto 10.
  - intros (n & x & y & z & s & Hp & <-). by apply open_after_parse.
Qed.

Lemma aead_open_Err c k e ctx alg err :
  open c k e ctx alg = Err err ->
  err = if base64_len (saturating_add (ClientConfig.max_plaintext_bytes c) FRAME_OVERHEAD_BYTES)
           <? str_len (SecureEnvelope.cipher e)
        then Error.MessageTooLarge (ClientConfig.max_plaintext_bytes c)
        else Error.InvalidEnvelope.
Proof.
  intros H. destruct (aead_open_cases c k e ctx alg) as [(n & x & y & z & s & Hp)|Hf]; [|congruence].
  rewrite (open_after_parse _ _ _ _ _ _ _ _ _ _ Hp) in H. apply aead_conclude_Err in H as ->.
  by rewrite (proj2 (Z.ltb_ge _ _) (ps_cipher_len _ _ _ _ _ _ _ _ Hp)).
Qed.

End opening.

(** ** The mode's promises to the dispatcher *)

Section laws.
Context `{Sys : System} `{Ar : Arch} `{B64 : Base64} `{Cr : !Crypto}.
Context `{!SystemLaws Sys} `{!Base64Laws B64} `{!CryptoLaws Cr}.

Lemma sealed_parses cr alg nonce ct tag wk sig :
  len nonce = 12 -> len tag = 16 ->
  len ct <= ClientConfig.max_plaintext_bytes cr <= usize_max ->
  30 + len ct <= usize_max -> len wk <= 144 -> len sig <= 128 ->
  let e := SecureEnvelope.Build (base64_encode (frame_of alg nonce ct tag))
             (base64_encode wk) (base64_encode sig) in
  representable e -> parsed cr alg e nonce ct tag wk sig.
Proof.
  intros Hn Ht Hp Hz Hw Hs e Hr. unfold representable in Hr. subst e; cbn [SecureEnvelope.cipher] in Hr.
  pose proof (len_nonneg ct). pose proof (len_nonneg wk). pose proof (len_nonneg sig).
  pose proof usize_max_bounds as Hu.
  pose proof (len_frame_of alg nonce ct tag Hn Ht) as Hf.
  constructor; cbn [SecureEnvelope.cipher SecureEnvelope.wrapped_session_key SecureEnvelope.signature];
    [ | | |apply base64_decode_encode|done|done|lia|apply base64_decode_encode..];
    rewrite base64_encode_len.
  - rewrite base64_encode_len, Hf in Hr. rewrite Hf. fold (base64_size (30 + len ct)) in *.
    unfold saturating_add, FRAME_OVERHEAD_BYTES, FRAME_HEADER_BYTES, TAG_BYTES.
    rewrite base64_len_eq by lia.
    assert (Hb : 30 + len ct
      <= Z.min (ClientConfig.max_plaintext_bytes cr + (14 + 16)) usize_max) by lia.
    apply base64_size_mono in Hb. lia.
  - unfold MAX_AUXILIARY_BASE64_BYTES. divlia.
  - unfold MAX_AUXILIARY_BASE64_BYTES. divlia.
Qed.

#[export] Instance mode_laws alg : PayloadModeLaws (mode alg).
Proof.
  constructor; cbn.
  - intros cs ks cr kr p ctx w e w' Hc Hp Hs Hr. apply aead_open_Ok.
    apply aead_seal_Ok in Hs as (t & key & nonce & aad & ct & tag & wk & sig & w1 & w2 & w3 &
      [Ht Hk Hn Ha He Hz Hw Hg ->]).
    apply generate_session_key_Ok in Hk as [_ Hl].
    pose proof (sm2_encrypt_len _ _ _ _ _ Hw) as [_ Lw]. rewrite Hl in Lw.
    pose proof (sm2_sign_len _ _ _ _ _ _ Hg) as [_ Ls].
    rewrite (cp_encryption _ _ _ _ Hc) in Hw.
    destruct (aead_encrypt_len _ _ _ _ _ _ _ He) as [Lc Lt].
    exists nonce, ct, tag, wk, sig. split.
    + apply getrandom_fill_len in Hn. apply sealed_parses; try done; unfold len in *; lia.
    + apply aead_conclude_Ok. rewrite (cp_authentication_mode _ _ _ _ Hc),
        (cp_verification _ _ _ _ Hc), (cp_signer_id _ _ _ _ Hc).
      exists key, aad, t. repeat split; try done; [by eapply sm2_decrypt_encrypt| |].
      * by eapply aead_decrypt_encrypt.
      * by eapply sm2_verify_sign.
  - intros c k p ctx w e w' H.
    apply aead_seal_Ok in H as (t & key & nonce & aad & ct & tag & wk & sig & w1 & w2 & w3 & []).
    subst e. cbn [SecureEnvelope.cipher SecureEnvelope.wrapped_session_key
      SecureEnvelope.signature].
    apply sm2_encrypt_len in sl_wrap0 as [? _]. apply sm2_sign_len in sl_sign0 as [? _].
    split; [|split]; eexists; split; try done. unfold frame_of. len_solve.
  - intros c k p ctx w e w' H.
    apply aead_seal_Ok in H as (t & key & nonce & aad & ct & tag & wk & sig & w1 & w2 & w3 & []).
    subst e. cbn [SecureEnvelope.cipher SecureEnvelope.signature].
    split; [by exists t, sig, w3, w'|].
    apply aead_encrypt_len in sl_encrypt0 as [Lc Lt]. apply getrandom_fill_len in sl_nonce0.
    rewrite base64_encode_len, len_frame_of, Lc by (unfold len in *; lia). divlia.
  - intros c k e ctx p (n & x & y & z & s & Hp & Hc)%aead_open_Ok.
    apply aead_conclude_Ok in Hc as (key & aad & t & _ & _ & _ & Hd & Ht & Hv).
    destruct Hp. apply aead_decrypt_len in Hd; [|done]. split; [lia|]. by exists t, s.
  - intros c k e ctx err H%aead_open_Err. subst err. case_match; auto.
  - intros c k p ctx w err w'. apply aead_seal_Err.
Qed.

End laws.

Section claims.
Context `{Sys : System} `{Ar : Arch} `{B64 : Base64} `{Cr : !Crypto}.

(** C7. [aead::open] returns a plaintext exactly when the text is within its bounds
    and decodes to a frame [0x01 || algorithm || nonce || ciphertext || tag] of the
    configured algorithm whose ciphertext respects the limit, the wrapped key
    decrypts to 16 bytes, the tag authenticates the ciphertext together with the
    frame header, domain and context, and the signature verifies over the
    transcript.  The frame parts are unique. *)
Theorem aead_open_sound_complete c k e ctx alg :
  (forall p, open c k e ctx alg = Ok p <->
     exists nonce ct tag wk sig key aad t,
       parsed c alg e nonce ct tag wk sig /\
       sm2_decrypt (KeyMaterial.local_decryption k) wk = Some key /\ len key = 16 /\
       AuthenticationMode.aead_aad (ClientConfig.authentication_mode c) ctx
         (x01 :: algorithm_byte alg :: nonce) = Ok aad /\
       aead_decrypt alg key nonce aad ct tag = Ok p /\
       AuthenticationMode.authentication_input
         (ClientConfig.authentication_mode c) ctx p = Ok t /\
       sm2_verify_with_id (KeyMaterial.remote_verification k)
         (ClientConfig.expected_remote_signer_id c) t sig = true) /\
  (forall n x y z s n' x' y' z' s',
     parsed c alg e n x y z s -> parsed c alg e n' x' y' z' s' ->
     n = n' /\ x = x' /\ y = y' /\ z = z' /\ s = s').
Proof.
  split.
  - intros p. rewrite aead_open_Ok. split.
    + intros (n & x & y & z & s & Hp & Hc). apply aead_conclude_Ok in Hc as (key & aad & t & Hc).
      by exists n, x, y, z, s, key, aad, t.
    + intros (n & x & y & z & s & key & aad & t & Hp & Hc). exists n, x, y, z, s.
      split; [done|]. apply aead_conclude_Ok. by exists key, aad, t.
  - intros n x y z s n' x' y' z' s' [] [].
    assert (E : frame_of alg n x y = frame_of alg n' x' y') by congruence.
    apply frame_of_inj in E as (_ & -> & -> & ->); [|done..].
    repeat split; congruence.
Qed.

(** C25. A sealed AEAD payload is the Base64 of the 30-byte-overhead frame with
    version 1, the byte of the chosen algorithm, a fresh 12-byte nonce and the
    16-byte tag; the nonce is the second draw from the random source, the session
    key the first; the tag is computed with additional data that carries exactly
    this frame header. *)
Theorem aead_frame_layout `{!SystemLaws Sys} `{!Base64Laws B64} `{!CryptoLaws Cr}
    c k p ctx alg w e w' :
  seal c k p ctx alg w = (Ok e, w') ->
  exists key w1 nonce w2 ct tag,
    getrandom_fill 16 w = (Some key, w1) /\
    getrandom_fill 12 w1 = (Some nonce, w2) /\
    base64_decode (SecureEnvelope.cipher e)
      = Some ([x01; algorithm_byte alg] ++ nonce ++ ct ++ tag) /\
    len nonce = 12 /\ len ct = len p /\ len tag = 16 /\
    aead_encrypt alg key nonce
      (aad_of ([x01; algorithm_byte alg] ++ nonce)
         (domain_of (ClientConfig.authentication_mode c)) (context_of ctx)) p = Ok (ct, tag).
Proof.
  intros (t & key & nonce & aad & ct & tag & wk & sig & w1 & w2 & w3 &
      [Ht Hk Hn Ha He Hz Hw Hg ->])%aead_seal_Ok.
  apply generate_session_key_Ok in Hk as [Hk _].
  assert (Hl : len nonce = 12) by (apply getrandom_fill_len in Hn; unfold len; lia).
  apply aead_aad_Ok in Ha as (_ & _ & _ & ->); [|by apply len_header_of].
  destruct (aead_encrypt_len _ _ _ _ _ _ _ He) as [Lc Lt].
  exists key, w1, nonce, w2, ct, tag. repeat split; try done. apply base64_decode_encode.
Qed.

(** C18. The algorithm is pinned by the receiver and never taken from the envelope:
    an envelope that some configuration opens under one AEAD algorithm is rejected
    with [Error::InvalidEnvelope], whatever the keys and context, by a client
    configured for the other algorithm, unless it is already rejected as too
    large. *)
Theorem aead_algorithm_pinned c k e ctx alg p c' k' ctx' alg' :
  open c k e ctx alg = Ok p -> alg' <> alg ->
  open c' k' e ctx' alg' =
    Err (if base64_len (saturating_add (ClientConfig.max_plaintext_bytes c') 30)
            <? str_len (SecureEnvelope.cipher e)
         then Error.MessageTooLarge (ClientConfig.max_plaintext_bytes c')
         else Error.InvalidEnvelope).
Proof.
  intros (n & x & y & z & s & [] & _)%aead_open_Ok Hne.
  destruct (aead_open_cases c' k' e ctx' alg') as [(n' & x' & y' & z' & s' & [])|Hf]; [|done].
  assert (E : frame_of alg n x y = frame_of alg' n' x' y') by congruence.
  by apply frame_of_inj in E as (-> & _).
Qed.

End claims.

End Aead.
