(* ===== verification/Envelope.v ===== *)
(** * Sealing and opening envelopes (src/envelope_crypto/mod.rs)

    The dispatcher: it enforces the plaintext limit and selects the payload mode
    the configuration pins.  Its theorems are proved against [PayloadModeLaws],
    which [Cbc.v] and [Aead.v] discharge. *)

From S2P Require Import Prelude.
From S2P Require Import Rust.
From S2P Require Import Text.
From S2P Require Import System.
From S2P Require Import Error.
From S2P Require Import Auth.
From S2P Require Import ClientConfig.
From S2P Require Import External.
From S2P Require Import Keys.
From S2P Require Import Message.
From S2P Require Import EnvelopeBase.
From S2P Require Import Cbc.
From S2P Require Import Aead.

Section dispatch.
Context `{Sys : System} `{Ar : Arch} `{B64 : Base64} `{Cr : !Crypto}.

Definition seal (config : ClientConfig.t) (keys : KeyMaterial.t) (plaintext : list byte)
    (context : AuthenticationContext.t) : IO SecureEnvelope.t :=
  let plaintext_limit := ClientConfig.max_plaintext_bytes config in
  _ ← lift (guard_err (plaintext_limit <? len plaintext)
              (Error.MessageTooLarge plaintext_limit));
  match ClientConfig.envelope_mode config with
  | EnvelopeMode.Aead algorithm => Aead.seal config keys plaintext context algorithm
  | EnvelopeMode.LegacyCbc => Cbc.seal config keys plaintext context
  end.

Definition open (config : ClientConfig.t) (keys : KeyMaterial.t)
    (envelope : SecureEnvelope.t) (context : AuthenticationContext.t) : Result (list byte) :=
  match ClientConfig.envelope_mode config with
  | EnvelopeMode.Aead algorithm => Aead.open config keys envelope context algorithm
  | EnvelopeMode.LegacyCbc => fst (Cbc.open config keys envelope context 0)
  end.

(** The payload mode a configuration selects. *)
Definition mode_of (m : EnvelopeMode.t) : PayloadMode :=
  match m with
  | EnvelopeMode.LegacyCbc => Cbc.mode
  | EnvelopeMode.Aead algorithm => Aead.mode algorithm
  end.

#[export] Instance mode_of_laws `{!SystemLaws Sys} `{!Base64Laws B64} `{!CryptoLaws Cr} m :
  PayloadModeLaws (mode_of m).
Proof. destruct m; [apply Cbc.mode_laws|apply Aead.mode_laws]. Qed.

Lemma open_mode c k e ctx :
  open c k e ctx = pm_open (mode_of (ClientConfig.envelope_mode c)) c k e ctx.
Proof. unfold open, mode_of. by destruct (ClientConfig.envelope_mode c). Qed.

Lemma seal_eq c k p ctx w :
  seal c k p ctx w =
  if ClientConfig.max_plaintext_bytes c <? len p
  then (Err (Error.MessageTooLarge (ClientConfig.max_plaintext_bytes c)), w)
  else pm_seal (mode_of (ClientConfig.envelope_mode c)) c k p ctx w.
Proof.
  unfold seal, mode_of, mbind, io_bind, lift.
  destruct (_ <? _); cbn [guard_err]; [done|]. by destruct (ClientConfig.envelope_mode c).
Qed.

Lemma seal_mode_Ok c k p ctx w e w' :
  seal c k p ctx w = (Ok e, w') <->
  len p <= ClientConfig.max_plaintext_bytes c /\
  pm_seal (mode_of (ClientConfig.envelope_mode c)) c k p ctx w = (Ok e, w').
Proof.
  rewrite seal_eq. destruct (Z.ltb_spec (ClientConfig.max_plaintext_bytes c) (len p)).
  - split; [done|]. intros [? _]. lia.
  - split; [|by intros [_ ?]]. split; [lia|done].
Qed.

(** The largest payload text the receiver decodes. *)
Definition max_cipher_text (c : ClientConfig.t) : Z :=
  match ClientConfig.envelope_mode c with
  | EnvelopeMode.LegacyCbc =>
      base64_len (Cbc.padded_cipher_len (ClientConfig.max_plaintext_bytes c))
  | EnvelopeMode.Aead _ =>
      base64_len (saturating_add (ClientConfig.max_plaintext_bytes c) 30)
  end.

Lemma envelope_open_Err c k e ctx err :
  open c k e ctx = Err err ->
  err = if max_cipher_text c <? str_len (SecureEnvelope.cipher e)
        then Error.MessageTooLarge (ClientConfig.max_plaintext_bytes c)
        else Error.InvalidEnvelope.
Proof.
  unfold open, max_cipher_text. destruct (ClientConfig.envelope_mode c) as [|alg].
  - destruct (Cbc.open c k e ctx 0) as [r n] eqn:E. cbn. intros ->.
    by eapply Cbc.cbc_open_Err.
  - apply Aead.aead_open_Err.
Qed.

(** The three texts of an envelope that opens are within their bounds. *)
Lemma open_Ok_bounds c k e ctx p :
  open c k e ctx = Ok p ->
  str_len (SecureEnvelope.cipher e) <= max_cipher_text c /\
  str_len (SecureEnvelope.wrapped_session_key e) <= MAX_AUXILIARY_BASE64_BYTES /\
  str_len (SecureEnvelope.signature e) <= MAX_AUXILIARY_BASE64_BYTES.
Proof.
  unfold open, max_cipher_text. destruct (ClientConfig.envelope_mode c) as [|alg].
  - destruct (Cbc.open c k e ctx 0) as [r n] eqn:E. cbn. intros ->.
    apply Cbc.cbc_open_Ok in E as (_ & x & y & z & (wk & Hd & _) & _).
    split; [|split]; apply Hd.
  - intros (n & x & y & z & s & Hp & _)%Aead.aead_open_Ok. split; [|split]; apply Hp.
Qed.

Lemma open_oversized c k e ctx :
  max_cipher_text c < str_len (SecureEnvelope.cipher e) ->
  open c k e ctx = Err (Error.MessageTooLarge (ClientConfig.max_plaintext_bytes c)).
Proof.
  intros H. destruct (open c k e ctx) as [p|err] eqn:E.
  - apply open_Ok_bounds in E as [? _]. lia.
  - apply envelope_open_Err in E as ->. by rewrite (proj2 (Z.ltb_lt _ _) H).
Qed.

Lemma open_within c k e ctx :
  str_len (SecureEnvelope.cipher e) <= max_cipher_text c ->
  is_ok (open c k e ctx) = false -> open c k e ctx = Err Error.InvalidEnvelope.
Proof.
  intros H. destruct (open c k e ctx) as [p|err] eqn:E; [done|].
  apply envelope_open_Err in E as ->. by rewrite (proj2 (Z.ltb_ge _ _) H).
Qed.

Lemma seal_signed `{!SystemLaws Sys} `{!Base64Laws B64} `{!CryptoLaws Cr} c k p ctx w e w' :
  seal c k p ctx w = (Ok e, w') ->
  signed_by c k ctx e p /\ str_len (SecureEnvelope.cipher e) <= (len p + 32) / 3 * 4.
Proof. intros [_ H]%seal_mode_Ok. by eapply pm_signed. Qed.

(** The payload text of a sealed message of [n] bytes. *)
Definition sealed_text_len (m : EnvelopeMode.t) (n : Z) : Z :=
  match m with
  | EnvelopeMode.LegacyCbc => base64_size (Cbc.padded_size n)
  | EnvelopeMode.Aead _ => base64_size (n + 30)
  end.

Lemma sealed_text_len_mono m a b : a <= b -> sealed_text_len m a <= sealed_text_len m b.
Proof.
  intros H. destruct m; cbn; apply base64_size_mono; [by apply Cbc.padded_size_mono|lia].
Qed.

Lemma seal_text_len `{!SystemLaws Sys} `{!Base64Laws B64} `{!CryptoLaws Cr} c k p ctx w e w' :
  seal c k p ctx w = (Ok e, w') ->
  str_len (SecureEnvelope.cipher e) = sealed_text_len (ClientConfig.envelope_mode c) (len p).
Proof.
  intros [_ H]%seal_mode_Ok. destruct (ClientConfig.envelope_mode c) as [|alg];
    cbn [mode_of pm_seal Cbc.mode Aead.mode sealed_text_len] in *.
  - apply Cbc.cbc_seal_Ok in H as (t & key & w1 & wk & w2 & sig & _ & _ & _ & _ & ->).
    cbn [SecureEnvelope.cipher]. by rewrite base64_encode_len, cbc_encrypt_len.
  - apply Aead.aead_seal_Ok in H as (t & key & nonce & aad & ct & tag & wk & sig & w1 & w2 & w3 & []).
    subst e. cbn [SecureEnvelope.cipher].
    apply Aead.aead_encrypt_len in sl_encrypt as [Lc Lt]. apply getrandom_fill_len in sl_nonce.
    rewrite base64_encode_len, Aead.len_frame_of, Lc by (unfold len in *; lia).
    unfold base64_size. f_equal. f_equal. lia.
Qed.

(** The receiver's bound is the sealed length of the longest message it accepts. *)
Lemma max_cipher_text_eq c :
  0 <= ClientConfig.max_plaintext_bytes c ->
  sealed_text_len (ClientConfig.envelope_mode c) (ClientConfig.max_plaintext_bytes c) <= usize_max ->
  max_cipher_text c
  = sealed_text_len (ClientConfig.envelope_mode c) (ClientConfig.max_plaintext_bytes c).
Proof.
  intros H0. unfold max_cipher_text, sealed_text_len. pose proof usize_max_bounds.
  destruct (ClientConfig.envelope_mode c); intros H1.
  - unfold base64_size, Cbc.padded_size in *.
    rewrite Cbc.padded_cipher_len_eq, base64_len_eq by (unfold Cbc.padded_size; divlia).
    unfold base64_size, Cbc.padded_size. divlia.
  - unfold base64_size, saturating_add in *. rewrite base64_len_eq by lia.
    unfold base64_size. divlia.
Qed.

Lemma open_sealed `{!SystemLaws Sys} `{!Base64Laws B64} `{!CryptoLaws Cr}
    cs ks cr kr p ctx w e w' :
  counterpart cs ks cr kr -> config_wf cr ->
  len p <= ClientConfig.max_plaintext_bytes cr ->
  seal cs ks p ctx w = (Ok e, w') -> representable e ->
  open cr kr e ctx = Ok p.
Proof.
  intros Hc Hw Hp (Hl & Hs)%seal_mode_Ok Hr. rewrite open_mode.
  rewrite (cp_envelope_mode _ _ _ _ Hc). destruct Hw as (_ & _ & _ & _ & _ & _ & Hm & _).
  by eapply pm_round_trip; [|lia|..].
Qed.

Lemma envelope_seal_total `{Hh : !Health} `{!SystemLaws Sys} `{!CryptoLaws Cr} c k p ctx w :
  available Cr -> healthy w -> len (ClientConfig.local_signer_id c) <= MAX_SIGNER_ID_BYTES ->
  len p <= ClientConfig.max_plaintext_bytes c ->
  kinds_match (ClientConfig.authentication_mode c) ctx = true ->
  mode_wf (ClientConfig.authentication_mode c) ->
  80 + len (domain_of (ClientConfig.authentication_mode c)) + len (context_of ctx) + len p
    <= Z.min usize_max INPUT_LIMIT ->
  within_mode_limit (ClientConfig.envelope_mode c) (len p) ->
  exists e w', seal c k p ctx w = (Ok e, w') /\ healthy w'.
Proof.
  intros Av Hh0 Hid Hp Hk Hw Hz Hg. setoid_rewrite seal_mode_Ok. pose_len.
  set (m := ClientConfig.authentication_mode c) in *.
  set (t := if is_context_bound m then transcript (domain_of m) (context_of ctx) p else p).
  assert (Et : AuthenticationMode.authentication_input m ctx p = Ok t).
  { apply authentication_input_Ok. repeat split; [done..|]. unfold t.
    destruct (is_context_bound m); [split; [lia|done]|done]. }
  assert (Lt : len t <= INPUT_LIMIT)
    by (unfold t; destruct (is_context_bound m); rewrite ?len_transcript; lia).
  destruct (ClientConfig.envelope_mode c) as [|alg]; cbn [mode_of pm_seal Cbc.mode Aead.mode].
  - destruct (Cbc.cbc_seal_total c k p ctx w t Av Hh0 Hid Et Lt) as (e & w' & He & Hh').
    by exists e, w'.
  - destruct (Aead.aead_seal_total c k p ctx alg w t Av Hh0 Hid Et Lt) as (e & w' & He & Hh');
      [unfold m in *; lia|lia|done|]. by exists e, w'.
Qed.

(** A context of the other kind is refused before any randomness is drawn, and opens
    nothing. *)
Lemma seal_wrong_kind c k p ctx w :
  mode_wf (ClientConfig.authentication_mode c) ->
  kinds_match (ClientConfig.authentication_mode c) ctx = false ->
  len p <= ClientConfig.max_plaintext_bytes c ->
  seal c k p ctx w = (Err Error.AuthenticationContext, w).
Proof.
  intros Hm Hk Hp. rewrite seal_eq, (proj2 (Z.ltb_ge _ _) Hp).
  pose proof (authentication_input_kind _ _ p Hm Hk) as Et.
  destruct (ClientConfig.envelope_mode c); cbn;
    unfold Cbc.seal, Aead.seal, mbind, io_bind, lift; by rewrite Et.
Qed.

Lemma open_wrong_kind `{!SystemLaws Sys} `{!Base64Laws B64} `{!CryptoLaws Cr} c k e ctx p :
  kinds_match (ClientConfig.authentication_mode c) ctx = false -> open c k e ctx <> Ok p.
Proof.
  intros Hk H. rewrite open_mode in H. apply pm_authentic in H as (_ & t & _ & Ht & _).
  apply authentication_input_Ok in Ht as (_ & Ht & _). congruence.
Qed.

(** With a context of the right kind that fits, a failed seal is a failed primitive
    or an oversized plaintext. *)
Lemma seal_right_kind_Err `{!SystemLaws Sys} c k p ctx w err w' :
  mode_wf (ClientConfig.authentication_mode c) ->
  kinds_match (ClientConfig.authentication_mode c) ctx = true ->
  80 + len (domain_of (ClientConfig.authentication_mode c)) + len (context_of ctx) + len p
    <= usize_max ->
  seal c k p ctx w = (Err err, w') ->
  err = Error.Encryption \/ err = Error.MessageTooLarge (ClientConfig.max_plaintext_bytes c).
Proof.
  intros Hm Hk Hz. rewrite seal_eq. destruct (_ <? _); [intros [= <- _]; by right|]. pose_len.
  set (m := ClientConfig.authentication_mode c) in *.
  assert (Et : AuthenticationMode.authentication_input m ctx p
    = Ok (if is_context_bound m then transcript (domain_of m) (context_of ctx) p else p)).
  { apply authentication_input_Ok. repeat split; [done..|].
    destruct (is_context_bound m); [split; [lia|done]|done]. }
  destruct (ClientConfig.envelope_mode c) as [|alg]; cbn [mode_of pm_seal Cbc.mode Aead.mode];
    intros Hs; left; [by eapply Cbc.cbc_seal_primitive_Err|].
  eapply Aead.aead_seal_primitive_Err; [exact Et| |exact Hs]. intros h e Hh.
  fold m.
  rewrite (proj2 (aead_aad_Ok m ctx h (aad_of h (domain_of m) (context_of ctx)) Hh)); [done|].
  repeat split; [done..|lia].
Qed.

End dispatch.

Section claims.
Context `{Sys : System} `{Ar : Arch} `{B64 : Base64} `{Cr : !Crypto}.

(** C1. Round trip, in CBC, SM4-GCM and SM4-CCM mode and in both authentication
    modes: an envelope a client seals is opened by its counterpart, with the same
    context and a limit that admits the message, to exactly the plaintext. *)
Theorem seal_open_round_trip `{!SystemLaws Sys} `{!Base64Laws B64} `{!CryptoLaws Cr}
    cs ks cr kr p ctx w e w' :
  counterpart cs ks cr kr -> config_wf cr ->
  len p <= ClientConfig.max_plaintext_bytes cr ->
  seal cs ks p ctx w = (Ok e, w') -> representable e ->
  open cr kr e ctx = Ok p.
Proof. apply open_sealed. Qed.

(** C11. Sealing succeeds: in an environment whose random source works, every
    plaintext within the limit whose transcript fits in memory and in a digest is
    sealed, in every mode, under every context of the kind the configuration
    requires, and leaves the environment working.  The primitives are only assumed
    to answer within their documented ranges: the configuration keeps the signer id
    within the length field of SM2 and a CCM message within its nonce's ceiling; the
    GCM ceiling of 2^36 - 32 bytes must be assumed of the plaintext. *)
Theorem seal_succeeds `{Hh : !Health} `{!SystemLaws Sys} `{!CryptoLaws Cr} c k p ctx w :
  available Cr -> healthy w -> config_wf c ->
  kinds_match (ClientConfig.authentication_mode c) ctx = true ->
  len p <= ClientConfig.max_plaintext_bytes c ->
  80 + len (domain_of (ClientConfig.authentication_mode c)) + len (context_of ctx) + len p
    <= Z.min usize_max INPUT_LIMIT ->
  (ClientConfig.envelope_mode c = EnvelopeMode.Aead AeadAlgorithm.Sm4Gcm ->
   len p <= GCM_MAX_PLAINTEXT_BYTES) ->
  exists e w', seal c k p ctx w = (Ok e, w') /\ healthy w'.
Proof.
  intros Av Hw Hc Hk Hp Hz Hg. pose proof Hc as (_ & _ & _ & Hm & _ & _ & _ & _ & Hccm).
  apply envelope_seal_total; try done; [apply Hc|].
  destruct (ClientConfig.envelope_mode c) as [|[]]; cbn; [done|by apply Hg|].
  specialize (Hccm eq_refl). lia.
Qed.

(** C27. The limit is enforced before anything else: an oversized plaintext is
    [Error::MessageTooLarge] carrying the configured limit and leaves the
    environment untouched (no randomness is drawn); every other failure is
    [Error::Encryption], [Error::AuthenticationContext] or a configuration error
    naming the domain separator, so [MessageTooLarge] means exactly that. *)
Theorem seal_limit_first `{!SystemLaws Sys} `{!Base64Laws B64} `{!CryptoLaws Cr} c k p ctx w :
  (ClientConfig.max_plaintext_bytes c < len p ->
   seal c k p ctx w
   = (Err (Error.MessageTooLarge (ClientConfig.max_plaintext_bytes c)), w)) /\
  (len p <= ClientConfig.max_plaintext_bytes c ->
   forall err w', seal c k p ctx w = (Err err, w') ->
     err = Error.Encryption \/ err = Error.AuthenticationContext \/
     err = Error.Configuration "domain_separator").
Proof.
  rewrite seal_eq. split; intros H.
  - by rewrite (proj2 (Z.ltb_lt _ _) H).
  - rewrite (proj2 (Z.ltb_ge _ _) H). intros err w'. apply pm_seal_errors.
Qed.

(** C2. Nothing is released unauthenticated: whatever [open] returns respects the
    plaintext limit, its context is of the kind the configuration requires, and
    the envelope's signature verifies, under the pinned peer key and signer id,
    over the transcript of the configured domain, this context and this
    plaintext. *)
Theorem open_authentic `{!SystemLaws Sys} `{!Base64Laws B64} `{!CryptoLaws Cr} c k e ctx p :
  open c k e ctx = Ok p ->
  len p <= ClientConfig.max_plaintext_bytes c /\
  kinds_match (ClientConfig.authentication_mode c) ctx = true /\
  exists sig,
    base64_decode (SecureEnvelope.signature e) = Some sig /\
    sm2_verify_with_id (KeyMaterial.remote_verification k)
      (ClientConfig.expected_remote_signer_id c)
      (if is_context_bound (ClientConfig.authentication_mode c)
       then transcript (domain_of (ClientConfig.authentication_mode c)) (context_of ctx) p
       else p) sig = true.
Proof.
  rewrite open_mode. intros (Hl & t & sig & Ht & Hs & Hv)%pm_authentic.
  apply authentication_input_Ok in Ht as (_ & Hk & Ht). split; [done|]. split; [done|].
  exists sig. split; [done|]. destruct (is_context_bound _); [by destruct Ht as [_ <-]|by subst t].
Qed.

(** C5. No cross-context replay: if the envelope's signature only verifies over
    transcripts the peer signed for the entries of a log (an unforgeable
    signature), every one of them context-bound, then an envelope opened in
    context-bound mode carries the domain, the context and the plaintext of one
    entry of that log: a message signed for another domain or context is never
    accepted. *)
Theorem open_no_context_replay `{!SystemLaws Sys} `{!Base64Laws B64} `{!CryptoLaws Cr}
    (log : list (AuthenticationMode.t * AuthenticationContext.t * list byte)) c k e ctx p :
  is_context_bound (ClientConfig.authentication_mode c) = true ->
  (forall m x q, (m, x, q) ∈ log -> is_context_bound m = true) ->
  (forall t sig,
     base64_decode (SecureEnvelope.signature e) = Some sig ->
     sm2_verify_with_id (KeyMaterial.remote_verification k)
       (ClientConfig.expected_remote_signer_id c) t sig = true ->
     exists m x q, (m, x, q) ∈ log /\ AuthenticationMode.authentication_input m x q = Ok t) ->
  open c k e ctx = Ok p ->
  (ClientConfig.authentication_mode c, ctx, p) ∈ log.
Proof.
  intros Hb Hlog Hsig Ho. rewrite open_mode in Ho.
  apply pm_authentic in Ho as (_ & t & sig & Ht & Hs & Hv).
  destruct (Hsig t sig Hs Hv) as (m & x & q & Hin & Hq). pose proof (Hlog _ _ _ Hin) as Hm.
  by destruct (authentication_input_inj _ _ _ _ _ _ _ Hb Hm Ht Hq) as (-> & -> & ->).
Qed.

(** C19. Failures are uniform: [open] fails with [Error::MessageTooLarge] exactly
    when the payload text is longer than the longest text a message within the
    limit can have, and with [Error::InvalidEnvelope] in every other case
    (malformed text, wrong key, padding, tag, context or signature alike). *)
Theorem open_errors_uniform c k e ctx :
  (max_cipher_text c < str_len (SecureEnvelope.cipher e) ->
   open c k e ctx = Err (Error.MessageTooLarge (ClientConfig.max_plaintext_bytes c))) /\
  (str_len (SecureEnvelope.cipher e) <= max_cipher_text c ->
   is_ok (open c k e ctx) = false -> open c k e ctx = Err Error.InvalidEnvelope).
Proof. split; [apply open_oversized|apply open_within]. Qed.

End claims.
