(* ===== verification/Adapter.v ===== *)
(** * Protocol adapters (src/adapter.rs)

    The [ProtocolAdapter] trait as a record of operations, and the schema-driven
    [HeaderProtocolAdapter]: the schema builder with its collision check, the
    mapping of requests to headers, the parsing of responses, and the version-1
    encoding of request and response authentication contexts. *)

From S2P Require Import Prelude.
From S2P Require Import Rust.
From S2P Require Import Text.
From S2P Require Import System.
From S2P Require Import Error.
From S2P Require Import Header.
From S2P Require Import Auth.
From S2P Require Import ClientConfig.
From S2P Require Import Message.

Module AdapterAuthentication.
Inductive t := LegacyPlaintext | ContextBound.
End AdapterAuthentication.

Module CipherLocation.
Inductive t := Body | Header (name : HeaderName.t).

(** The derived [Debug]. *)
Definition debug (l : t) : dbg :=
  match l with
  | Body => DTuple "Body" []
  | Header name => DTuple "Header" [HeaderName.debug name]
  end.
End CipherLocation.

Module HeaderAuthentication.
Inductive t := Legacy | ContextBound.
End HeaderAuthentication.

#[export] Instance header_authentication_eq_dec : EqDecision HeaderAuthentication.t.
Proof. solve_decision. Defined.

(** ** The trait *)

Record ProtocolAdapter := {
  request_authentication_context :
    ClientIdentity.t -> ProtocolRequestContext.t -> AdapterResult AuthenticationContext.t;
  build_request :
    ClientIdentity.t -> ProtocolRequestContext.t -> SecureEnvelope.t ->
    AdapterResult RequestParts.t;
  parse_response : ResponseParts.t -> AdapterResult ParsedResponse.t;
  pinned_authentication : option AdapterAuthentication.t;
}.

(** The trait's provided [pinned_authentication]. *)
Definition default_pinned_authentication : option AdapterAuthentication.t := None.

(** ** Helpers *)

Definition adapter_error (kind : AdapterErrorKind.t) : AdapterError.t := AdapterError.new kind.

(** [HashSet<HeaderName>::insert]: the set, and whether the name was new. *)
Definition hash_set_insert (names : list HeaderName.t) (name : HeaderName.t) :
    list HeaderName.t * bool :=
  if existsb (HeaderName.eq name) names then (names, false) else (name :: names, true).

Definition insert_mapping (names : list HeaderName.t) (name : HeaderName.t) :
    AdapterResult (list HeaderName.t) :=
  let '(names, inserted) := hash_set_insert names name in
  if negb inserted then Err (adapter_error AdapterErrorKind.InvalidMapping) else Ok names.

(** [for name in names { insert_mapping(&mut set, name)?; }]. *)
Fixpoint insert_mappings (set names : list HeaderName.t) : AdapterResult (list HeaderName.t) :=
  match names with
  | [] => Ok set
  | name :: names => set ← insert_mapping set name; insert_mappings set names
  end.

Definition pair (name : HeaderName.t) (value : str) : str * str := (HeaderName.as_str name, value).

Definition validate_nonempty (value : str) : AdapterResult unit :=
  if str_is_empty (str_trim value)
  then Err (adapter_error AdapterErrorKind.InvalidField) else Ok tt.

Definition trimmed_nonempty (value : str) : AdapterResult str :=
  let value := str_trim value in
  if str_is_empty value
  then Err (adapter_error AdapterErrorKind.InvalidField) else Ok value.

Definition require_exact_trim (value : str) : AdapterResult str :=
  if str_is_empty (str_trim value) || negb (bool_decide (value = str_trim value))
  then Err (adapter_error AdapterErrorKind.InvalidField) else Ok value.

Definition push_length_prefixed (buffer : list byte) (value : str) : AdapterResult (list byte) :=
  length ← ok_or (u64_try_from (str_len value)) (adapter_error AdapterErrorKind.InvalidField);
  Ok (buffer ++ u64_to_be_bytes length ++ utf8 value).

Definition HEADER_CONTEXT_VERSION : byte := x01.
Definition HEADER_CONTEXT_REQUEST : byte := x01.
Definition HEADER_CONTEXT_RESPONSE : byte := x02.

Section helpers.
Context `{Sys : System}.

Definition required_header (value : option str) : AdapterResult HeaderName.t :=
  value ← ok_or value (adapter_error AdapterErrorKind.MissingField);
  map_err (fun _ => adapter_error AdapterErrorKind.InvalidMapping) (HeaderName.new value).

Definition required_response_header (value : option str) : AdapterResult str :=
  value ← ok_or value (adapter_error AdapterErrorKind.MissingField);
  _ ← map_err (fun _ => adapter_error AdapterErrorKind.InvalidField) (HeaderValue.new value);
  trimmed_nonempty value.

Definition bound_context (bytes : list byte) : AdapterResult AuthenticationContext.t :=
  map_err (fun _ => adapter_error AdapterErrorKind.InvalidField)
    (AuthenticationContext.context_bound bytes).

Definition encode_request_context (operation request_id : str) :
    AdapterResult AuthenticationContext.t :=
  operation ← require_exact_trim operation;
  request_id ← require_exact_trim request_id;
  let bytes := [HEADER_CONTEXT_VERSION; HEADER_CONTEXT_REQUEST] in
  bytes ← push_length_prefixed bytes operation;
  bytes ← push_length_prefixed bytes request_id;
  bound_context bytes.

Definition encode_response_context (request_id : str) : AdapterResult AuthenticationContext.t :=
  request_id ← require_exact_trim request_id;
  let bytes := [HEADER_CONTEXT_VERSION; HEADER_CONTEXT_RESPONSE] in
  bytes ← push_length_prefixed bytes request_id;
  bound_context bytes.

End helpers.

(** ** Schemas *)

Module HeaderSchema.
Record t := Build {
  static_request_headers : list (HeaderName.t * HeaderValue.t);
  local_identity_header : HeaderName.t;
  operation_header : HeaderName.t;
  request_id_header : HeaderName.t;
  request_time_header : HeaderName.t;
  api_version_header : HeaderName.t;
  local_certificate_header : HeaderName.t;
  remote_signing_certificate_header : HeaderName.t;
  remote_encryption_certificate_header : HeaderName.t;
  request_signature_header : HeaderName.t;
  request_wrapped_key_header : HeaderName.t;
  request_cipher : CipherLocation.t;
  response_signature_header : HeaderName.t;
  response_wrapped_key_header : HeaderName.t;
  response_remote_signing_certificate_header : HeaderName.t;
  response_cipher : CipherLocation.t;
  authentication : HeaderAuthentication.t;
}.

(** The header a cipher location names. *)
Definition cipher_header (l : CipherLocation.t) : list HeaderName.t :=
  match l with CipherLocation.Header name => [name] | CipherLocation.Body => [] end.

Definition validate_collisions (self : t) : AdapterResult unit :=
  request_names ← insert_mappings [] (map fst (static_request_headers self));
  request_names ← insert_mappings request_names
    [local_identity_header self; operation_header self; request_id_header self;
     request_time_header self; api_version_header self; local_certificate_header self;
     remote_signing_certificate_header self; remote_encryption_certificate_header self;
     request_signature_header self; request_wrapped_key_header self];
  _ ← insert_mappings request_names (cipher_header (request_cipher self));
  response_names ← insert_mappings []
    [response_signature_header self; response_wrapped_key_header self;
     response_remote_signing_certificate_header self];
  response_names ← insert_mappings response_names (cipher_header (response_cipher self));
  _ ← (if bool_decide (authentication self = HeaderAuthentication.ContextBound)
       then insert_mapping response_names (request_id_header self)
       else Ok response_names);
  Ok tt.
End HeaderSchema.

Module HeaderSchemaBuilder.
Record t := Build {
  b_static_request_headers : list (str * str);
  b_local_identity_header : option str;
  b_operation_header : option str;
  b_request_id_header : option str;
  b_request_time_header : option str;
  b_api_version_header : option str;
  b_local_certificate_header : option str;
  b_remote_signing_certificate_header : option str;
  b_remote_encryption_certificate_header : option str;
  b_request_signature_header : option str;
  b_request_wrapped_key_header : option str;
  b_request_cipher : option CipherLocation.t;
  b_response_signature_header : option str;
  b_response_wrapped_key_header : option str;
  b_response_remote_signing_certificate_header : option str;
  b_response_cipher : option CipherLocation.t;
  b_legacy_authentication : bool;
  b_context_bound_authentication : bool;
}.

Definition default : t :=
  Build [] None None None None None None None None None None None None None None None
    false false.

Definition static_request_header (self : t) (name value : str) : t :=
  Build (b_static_request_headers self ++ [(name, value)]) (b_local_identity_header self)
    (b_operation_header self) (b_request_id_header self) (b_request_time_header self)
    (b_api_version_header self) (b_local_certificate_header self)
    (b_remote_signing_certificate_header self) (b_remote_encryption_certificate_header self)
    (b_request_signature_header self) (b_request_wrapped_key_header self)
    (b_request_cipher self) (b_response_signature_header self)
    (b_response_wrapped_key_header self) (b_response_remote_signing_certificate_header self)
    (b_response_cipher self) (b_legacy_authentication self)
    (b_context_bound_authentication self).

Definition local_identity_header (self : t) (name : str) : t :=
  Build (b_static_request_headers self) (Some name) (b_operation_header self)
    (b_request_id_header self) (b_request_time_header self) (b_api_version_header self)
    (b_local_certificate_header self) (b_remote_signing_certificate_header self)
    (b_remote_encryption_certificate_header self) (b_request_signature_header self)
    (b_request_wrapped_key_header self) (b_request_cipher self)
    (b_response_signature_header self) (b_response_wrapped_key_header self)
    (b_response_remote_signing_certificate_header self) (b_response_cipher self)
    (b_legacy_authentication self) (b_context_bound_authentication self).

Definition operation_header (self : t) (name : str) : t :=
  Build (b_static_request_headers self) (b_local_identity_header self) (Some name)
    (b_request_id_header self) (b_request_time_header self) (b_api_version_header self)
    (b_local_certificate_header self) (b_remote_signing_certificate_header self)
    (b_remote_encryption_certificate_header self) (b_request_signature_header self)
    (b_request_wrapped_key_header self) (b_request_cipher self)
    (b_response_signature_header self) (b_response_wrapped_key_header self)
    (b_response_remote_signing_certificate_header self) (b_response_cipher self)
    (b_legacy_authentication self) (b_context_bound_authentication self).

Definition request_id_header (self : t) (name : str) : t :=
  Build (b_static_request_headers self) (b_local_identity_header self)
    (b_operation_header self) (Some name) (b_request_time_header self)
    (b_api_version_header self) (b_local_certificate_header self)
    (b_remote_signing_certificate_header self) (b_remote_encryption_certificate_header self)
    (b_request_signature_header self) (b_request_wrapped_key_header self)
    (b_request_cipher self) (b_response_signature_header self)
    (b_response_wrapped_key_header self) (b_response_remote_signing_certificate_header self)
    (b_response_cipher self) (b_legacy_authentication self)
    (b_context_bound_authentication self).

Definition request_time_header (self : t) (name : str) : t :=
  Build (b_static_request_headers self) (b_local_identity_header self)
    (b_operation_header self) (b_request_id_header self) (Some name)
    (b_api_version_header self) (b_local_certificate_header self)
    (b_remote_signing_certificate_header self) (b_remote_encryption_certificate_header self)
    (b_request_signature_header self) (b_request_wrapped_key_header self)
    (b_request_cipher self) (b_response_signature_header self)
    (b_response_wrapped_key_header self) (b_response_remote_signing_certificate_header self)
    (b_response_cipher self) (b_legacy_authentication self)
    (b_context_bound_authentication self).

Definition api_version_header (self : t) (name : str) : t :=
  Build (b_static_request_headers self) (b_local_identity_header self)
    (b_operation_header self) (b_request_id_header self) (b_request_time_header self) (Some
    name) (b_local_certificate_header self) (b_remote_signing_certificate_header self)
    (b_remote_encryption_certificate_header self) (b_request_signature_header self)
    (b_request_wrapped_key_header self) (b_request_cipher self)
    (b_response_signature_header self) (b_response_wrapped_key_header self)
    (b_response_remote_signing_certificate_header self) (b_response_cipher self)
    (b_legacy_authentication self) (b_context_bound_authentication self).

Definition local_certificate_header (self : t) (name : str) : t :=
  Build (b_static_request_headers self) (b_local_identity_header self)
    (b_operation_header self) (b_request_id_header self) (b_request_time_header self)
    (b_api_version_header self) (Some name) (b_remote_signing_certificate_header self)
    (b_remote_encryption_certificate_header self) (b_request_signature_header self)
    (b_request_wrapped_key_header self) (b_request_cipher self)
    (b_response_signature_header self) (b_response_wrapped_key_header self)
    (b_response_remote_signing_certificate_header self) (b_response_cipher self)
    (b_legacy_authentication self) (b_context_bound_authentication self).

Definition remote_signing_certificate_header (self : t) (name : str) : t :=
  Build (b_static_request_headers self) (b_local_identity_header self)
    (b_operation_header self) (b_request_id_header self) (b_request_time_header self)
    (b_api_version_header self) (b_local_certificate_header self) (Some name)
    (b_remote_encryption_certificate_header self) (b_request_signature_header self)
    (b_request_wrapped_key_header self) (b_request_cipher self)
    (b_response_signature_header self) (b_response_wrapped_key_header self)
    (b_response_remote_signing_certificate_header self) (b_response_cipher self)
    (b_legacy_authentication self) (b_context_bound_authentication self).

Definition remote_encryption_certificate_header (self : t) (name : str) : t :=
  Build (b_static_request_headers self) (b_local_identity_header self)
    (b_operation_header self) (b_request_id_header self) (b_request_time_header self)
    (b_api_version_header self) (b_local_certificate_header self)
    (b_remote_signing_certificate_header self) (Some name) (b_request_signature_header self)
    (b_request_wrapped_key_header self) (b_request_cipher self)
    (b_response_signature_header self) (b_response_wrapped_key_header self)
    (b_response_remote_signing_certificate_header self) (b_response_cipher self)
    (b_legacy_authentication self) (b_context_bound_authentication self).

Definition request_signature_header (self : t) (name : str) : t :=
  Build (b_static_request_headers self) (b_local_identity_header self)
    (b_operation_header self) (b_request_id_header self) (b_request_time_header self)
    (b_api_version_header self) (b_local_certificate_header self)
    (b_remote_signing_certificate_header self) (b_remote_encryption_certificate_header self)
    (Some name) (b_request_wrapped_key_header self) (b_request_cipher self)
    (b_response_signature_header self) (b_response_wrapped_key_header self)
    (b_response_remote_signing_certificate_header self) (b_response_cipher self)
    (b_legacy_authentication self) (b_context_bound_authentication self).

Definition request_wrapped_key_header (self : t) (name : str) : t :=
  Build (b_static_request_headers self) (b_local_identity_header self)
    (b_operation_header self) (b_request_id_header self) (b_request_time_header self)
    (b_api_version_header self) (b_local_certificate_header self)
    (b_remote_signing_certificate_header self) (b_remote_encryption_certificate_header self)
    (b_request_signature_header self) (Some name) (b_request_cipher self)
    (b_response_signature_header self) (b_response_wrapped_key_header self)
    (b_response_remote_signing_certificate_header self) (b_response_cipher self)
    (b_legacy_authentication self) (b_context_bound_authentication self).

Definition request_cipher (self : t) (location : CipherLocation.t) : t :=
  Build (b_static_request_headers self) (b_local_identity_header self)
    (b_operation_header self) (b_request_id_header self) (b_request_time_header self)
    (b_api_version_header self) (b_local_certificate_header self)
    (b_remote_signing_certificate_header self) (b_remote_encryption_certificate_header self)
    (b_request_signature_header self) (b_request_wrapped_key_header self) (Some location)
    (b_response_signature_header self) (b_response_wrapped_key_header self)
    (b_response_remote_signing_certificate_header self) (b_response_cipher self)
    (b_legacy_authentication self) (b_context_bound_authentication self).

Definition response_signature_header (self : t) (name : str) : t :=
  Build (b_static_request_headers self) (b_local_identity_header self)
    (b_operation_header self) (b_request_id_header self) (b_request_time_header self)
    (b_api_version_header self) (b_local_certificate_header self)
    (b_remote_signing_certificate_header self) (b_remote_encryption_certificate_header self)
    (b_request_signature_header self) (b_request_wrapped_key_header self)
    (b_request_cipher self) (Some name) (b_response_wrapped_key_header self)
    (b_response_remote_signing_certificate_header self) (b_response_cipher self)
    (b_legacy_authentication self) (b_context_bound_authentication self).

Definition response_wrapped_key_header (self : t) (name : str) : t :=
  Build (b_static_request_headers self) (b_local_identity_header self)
    (b_operation_header self) (b_request_id_header self) (b_request_time_header self)
    (b_api_version_header self) (b_local_certificate_header self)
    (b_remote_signing_certificate_header self) (b_remote_encryption_certificate_header self)
    (b_request_signature_header self) (b_request_wrapped_key_header self)
    (b_request_cipher self) (b_response_signature_header self) (Some name)
    (b_response_remote_signing_certificate_header self) (b_response_cipher self)
    (b_legacy_authentication self) (b_context_bound_authentication self).

Definition response_remote_signing_certificate_header (self : t) (name : str) : t :=
  Build (b_static_request_headers self) (b_local_identity_header self)
    (b_operation_header self) (b_request_id_header self) (b_request_time_header self)
    (b_api_version_header self) (b_local_certificate_header self)
    (b_remote_signing_certificate_header self) (b_remote_encryption_certificate_header self)
    (b_request_signature_header self) (b_request_wrapped_key_header self)
    (b_request_cipher self) (b_response_signature_header self)
    (b_response_wrapped_key_header self) (Some name) (b_response_cipher self)
    (b_legacy_authentication self) (b_context_bound_authentication self).

Definition response_cipher (self : t) (location : CipherLocation.t) : t :=
  Build (b_static_request_headers self) (b_local_identity_header self)
    (b_operation_header self) (b_request_id_header self) (b_request_time_header self)
    (b_api_version_header self) (b_local_certificate_header self)
    (b_remote_signing_certificate_header self) (b_remote_encryption_certificate_header self)
    (b_request_signature_header self) (b_request_wrapped_key_header self)
    (b_request_cipher self) (b_response_signature_header self)
    (b_response_wrapped_key_header self) (b_response_remote_signing_certificate_header self)
    (Some location) (b_legacy_authentication self) (b_context_bound_authentication self).

Definition legacy_authentication (self : t) : t :=
  Build (b_static_request_headers self) (b_local_identity_header self)
    (b_operation_header self) (b_request_id_header self) (b_request_time_header self)
    (b_api_version_header self) (b_local_certificate_header self)
    (b_remote_signing_certificate_header self) (b_remote_encryption_certificate_header self)
    (b_request_signature_header self) (b_request_wrapped_key_header self)
    (b_request_cipher self) (b_response_signature_header self)
    (b_response_wrapped_key_header self) (b_response_remote_signing_certificate_header self)
    (b_response_cipher self) true (b_context_bound_authentication self).

Definition context_bound_authentication (self : t) : t :=
  Build (b_static_request_headers self) (b_local_identity_header self)
    (b_operation_header self) (b_request_id_header self) (b_request_time_header self)
    (b_api_version_header self) (b_local_certificate_header self)
    (b_remote_signing_certificate_header self) (b_remote_encryption_certificate_header self)
    (b_request_signature_header self) (b_request_wrapped_key_header self)
    (b_request_cipher self) (b_response_signature_header self)
    (b_response_wrapped_key_header self) (b_response_remote_signing_certificate_header self)
    (b_response_cipher self) (b_legacy_authentication self) true.

(** [impl fmt::Debug]: which mappings are set, not their contents. *)
Definition debug (self : t) : dbg :=
  let set {A} (o : option A) : dbg := DBool (is_some o) in
  let location (o : option CipherLocation.t) : dbg :=
    match o with Some l => DTuple "Some" [CipherLocation.debug l] | None => DTuple "None" [] end in
  DStruct "HeaderSchemaBuilder"
    [("static_request_header_count", DNum (len (b_static_request_headers self)));
     ("local_identity_header_set", set (b_local_identity_header self));
     ("operation_header_set", set (b_operation_header self));
     ("request_id_header_set", set (b_request_id_header self));
     ("request_time_header_set", set (b_request_time_header self));
     ("api_version_header_set", set (b_api_version_header self));
     ("local_certificate_header_set", set (b_local_certificate_header self));
     ("remote_signing_certificate_header_set", set (b_remote_signing_certificate_header self));
     ("remote_encryption_certificate_header_set", set (b_remote_encryption_certificate_header self));
     ("request_signature_header_set", set (b_request_signature_header self));
     ("request_wrapped_key_header_set", set (b_request_wrapped_key_header self));
     ("request_cipher", location (b_request_cipher self));
     ("response_signature_header_set", set (b_response_signature_header self));
     ("response_wrapped_key_header_set", set (b_response_wrapped_key_header self));
     ("response_remote_signing_certificate_header_set", set (b_response_remote_signing_certificate_header self));
     ("response_cipher", location (b_response_cipher self));
     ("legacy_authentication", DBool (b_legacy_authentication self));
     ("context_bound_authentication", DBool (b_context_bound_authentication self))]%string.

Section build.
Context `{Sys : System}.

(** The closure that validates one static header. *)
Definition static_entry (h : str * str) : AdapterResult (HeaderName.t * HeaderValue.t) :=
  let '(name, value) := h in
  if str_is_empty (str_trim value)
  then Err (adapter_error AdapterErrorKind.InvalidMapping)
  else
    name ← map_err (fun _ => adapter_error AdapterErrorKind.InvalidMapping) (HeaderName.new name);
    value ← map_err (fun _ => adapter_error AdapterErrorKind.InvalidMapping)
              (HeaderValue.new value);
    Ok (name, value).

(** The presence checks at the head of [build] and the selected authentication. *)
Definition build_authentication (self : t) : AdapterResult HeaderAuthentication.t :=
  if bool_decide (b_static_request_headers self = [])
     || negb (is_some (b_request_cipher self)) || negb (is_some (b_response_cipher self))
  then Err (adapter_error AdapterErrorKind.MissingField)
  else if b_legacy_authentication self && b_context_bound_authentication self
  then Err (adapter_error AdapterErrorKind.InvalidMapping)
  else if negb (b_legacy_authentication self) && negb (b_context_bound_authentication self)
  then Err (adapter_error AdapterErrorKind.MissingField)
  else Ok (if b_context_bound_authentication self
           then HeaderAuthentication.ContextBound else HeaderAuthentication.Legacy).

(** The schema literal of [build], whose fields are evaluated in source order. *)
Definition build_schema (self : t) (authentication : HeaderAuthentication.t)
    (static_request_headers : list (HeaderName.t * HeaderValue.t)) :
    AdapterResult HeaderSchema.t :=
  local_identity_header ← required_header (b_local_identity_header self);
  operation_header ← required_header (b_operation_header self);
  request_id_header ← required_header (b_request_id_header self);
  request_time_header ← required_header (b_request_time_header self);
  api_version_header ← required_header (b_api_version_header self);
  local_certificate_header ← required_header (b_local_certificate_header self);
  remote_signing_certificate_header ← required_header (b_remote_signing_certificate_header self);
  remote_encryption_certificate_header ← required_header (b_remote_encryption_certificate_header self);
  request_signature_header ← required_header (b_request_signature_header self);
  request_wrapped_key_header ← required_header (b_request_wrapped_key_header self);
  request_cipher ← ok_or (b_request_cipher self) (adapter_error AdapterErrorKind.MissingField);
  response_signature_header ← required_header (b_response_signature_header self);
  response_wrapped_key_header ← required_header (b_response_wrapped_key_header self);
  response_remote_signing_certificate_header ← required_header (b_response_remote_signing_certificate_header self);
  response_cipher ← ok_or (b_response_cipher self) (adapter_error AdapterErrorKind.MissingField);
  Ok (HeaderSchema.Build static_request_headers local_identity_header operation_header
        request_id_header request_time_header api_version_header local_certificate_header
        remote_signing_certificate_header remote_encryption_certificate_header
        request_signature_header request_wrapped_key_header request_cipher
        response_signature_header response_wrapped_key_header
        response_remote_signing_certificate_header response_cipher authentication).

Definition build (self : t) : AdapterResult HeaderSchema.t :=
  authentication ← build_authentication self;
  static_request_headers ← mapM static_entry (b_static_request_headers self);
  schema ← build_schema self authentication static_request_headers;
  _ ← HeaderSchema.validate_collisions schema;
  Ok schema.

End build.
End HeaderSchemaBuilder.

(** ** The header adapter *)

Module HeaderProtocolAdapter.
Record t := new { schema : HeaderSchema.t }.

(** The mutable locals of [parse_response]. *)
Record slots := {
  signature : option str;
  wrapped_session_key : option str;
  remote_signing_certificate_id : option str;
  cipher : option str;
  request_id : option str;
}.

Definition no_slots : slots := {|
  signature := None; wrapped_session_key := None; remote_signing_certificate_id := None;
  cipher := None; request_id := None;
|}.

(** Which local a header writes to. *)
Inductive target := TSignature | TWrappedKey | TCertificate | TCipher | TRequestId.

Definition target_of (s : HeaderSchema.t) (name : str) : option target :=
  if eq_ignore_ascii_case name (HeaderName.as_str (HeaderSchema.response_signature_header s))
  then Some TSignature
  else if eq_ignore_ascii_case name
            (HeaderName.as_str (HeaderSchema.response_wrapped_key_header s))
  then Some TWrappedKey
  else if eq_ignore_ascii_case name
            (HeaderName.as_str (HeaderSchema.response_remote_signing_certificate_header s))
  then Some TCertificate
  else if bool_decide (HeaderSchema.authentication s = HeaderAuthentication.ContextBound)
          && eq_ignore_ascii_case name (HeaderName.as_str (HeaderSchema.request_id_header s))
  then Some TRequestId
  else match HeaderSchema.response_cipher s with
  | CipherLocation.Header cipher_header =>
      if eq_ignore_ascii_case name (HeaderName.as_str cipher_header) then Some TCipher else None
  | CipherLocation.Body => None
  end.

Definition slot (t : target) (l : slots) : option str :=
  match t with
  | TSignature => signature l
  | TWrappedKey => wrapped_session_key l
  | TCertificate => remote_signing_certificate_id l
  | TCipher => cipher l
  | TRequestId => request_id l
  end.

(** [target.replace(value)]. *)
Definition replace (t : target) (value : str) (l : slots) : slots :=
  match t, l with
  | TSignature, Build_slots _ b c d e => Build_slots (Some value) b c d e
  | TWrappedKey, Build_slots a _ c d e => Build_slots a (Some value) c d e
  | TCertificate, Build_slots a b _ d e => Build_slots a b (Some value) d e
  | TCipher, Build_slots a b c _ e => Build_slots a b c (Some value) e
  | TRequestId, Build_slots a b c d _ => Build_slots a b c d (Some value)
  end.

(** The loop over the response headers. *)
Fixpoint collect (s : HeaderSchema.t) (headers : list (str * str)) (l : slots) :
    AdapterResult slots :=
  match headers with
  | [] => Ok l
  | (name, value) :: headers =>
      match target_of s name with
      | Some target =>
          if is_some (slot target l)
          then Err (adapter_error AdapterErrorKind.DuplicateField)
          else collect s headers (replace target value l)
      | None => collect s headers l
      end
  end.

Section adapter.
Context `{Sys : System}.

Definition request_authentication_context (self : t) (_identity : ClientIdentity.t)
    (context : ProtocolRequestContext.t) : AdapterResult AuthenticationContext.t :=
  match HeaderSchema.authentication (schema self) with
  | HeaderAuthentication.Legacy => Ok AuthenticationContext.legacy
  | HeaderAuthentication.ContextBound =>
      encode_request_context (ProtocolRequestContext.operation context)
        (RequestMetadata.request_id (ProtocolRequestContext.metadata context))
  end.

Definition pinned_authentication (self : t) : option AdapterAuthentication.t :=
  Some match HeaderSchema.authentication (schema self) with
       | HeaderAuthentication.Legacy => AdapterAuthentication.LegacyPlaintext
       | HeaderAuthentication.ContextBound => AdapterAuthentication.ContextBound
       end.

(** The headers [build_request] assembles before the cipher. *)
Definition mapped_headers (s : HeaderSchema.t) (identity : ClientIdentity.t)
    (context : ProtocolRequestContext.t) (envelope : SecureEnvelope.t) : list (str * str) :=
  map (fun '(name, value) => (HeaderName.as_str name, HeaderValue.as_str value))
    (HeaderSchema.static_request_headers s) ++
  [pair (HeaderSchema.local_identity_header s) (ClientIdentity.local_identity_id identity);
   pair (HeaderSchema.operation_header s) (ProtocolRequestContext.operation context);
   pair (HeaderSchema.request_id_header s)
     (RequestMetadata.request_id (ProtocolRequestContext.metadata context));
   pair (HeaderSchema.request_time_header s)
     (RequestMetadata.request_time (ProtocolRequestContext.metadata context));
   pair (HeaderSchema.api_version_header s) (ClientIdentity.api_version identity);
   pair (HeaderSchema.local_certificate_header s)
     (ClientIdentity.local_certificate_id identity);
   pair (HeaderSchema.remote_signing_certificate_header s)
     (ClientIdentity.expected_remote_signing_certificate_id identity);
   pair (HeaderSchema.remote_encryption_certificate_header s)
     (ClientIdentity.remote_encryption_certificate_id identity);
   pair (HeaderSchema.request_signature_header s) (SecureEnvelope.signature envelope);
   pair (HeaderSchema.request_wrapped_key_header s)
     (SecureEnvelope.wrapped_session_key envelope)].

Definition build_request (self : t) (identity : ClientIdentity.t)
    (context : ProtocolRequestContext.t) (envelope : SecureEnvelope.t) :
    AdapterResult RequestParts.t :=
  _ ← validate_nonempty (SecureEnvelope.signature envelope);
  _ ← validate_nonempty (SecureEnvelope.wrapped_session_key envelope);
  _ ← validate_nonempty (SecureEnvelope.cipher envelope);
  let headers := mapped_headers (schema self) identity context envelope in
  let '(headers, body) :=
    match HeaderSchema.request_cipher (schema self) with
    | CipherLocation.Body => (headers, SecureEnvelope.cipher envelope)
    | CipherLocation.Header name =>
        (headers ++ [pair name (SecureEnvelope.cipher envelope)], [])
    end in
  map_err (fun _ => adapter_error AdapterErrorKind.InvalidField) (RequestParts.new headers body).

(** [parse_response] after the loop. *)
Definition finish_response (self : t) (body : str) (l : slots) : AdapterResult ParsedResponse.t :=
  signature ← required_response_header (signature l);
  wrapped_session_key ← required_response_header (wrapped_session_key l);
  remote_signing_certificate_id ← required_response_header (remote_signing_certificate_id l);
  cipher ← match HeaderSchema.response_cipher (schema self) with
           | CipherLocation.Body => trimmed_nonempty body
           | CipherLocation.Header _ => required_response_header (cipher l)
           end;
  authentication_context ←
    match HeaderSchema.authentication (schema self) with
    | HeaderAuthentication.Legacy => Ok AuthenticationContext.legacy
    | HeaderAuthentication.ContextBound =>
        value ← ok_or (request_id l) (adapter_error AdapterErrorKind.MissingField);
        _ ← map_err (fun _ => adapter_error AdapterErrorKind.InvalidField)
              (HeaderValue.new value);
        encode_response_context value
    end;
  ParsedResponse.new (SecureEnvelope.Build cipher wrapped_session_key signature)
    remote_signing_certificate_id authentication_context.

Definition parse_response (self : t) (response : ResponseParts.t) :
    AdapterResult ParsedResponse.t :=
  let '(headers, body) := ResponseParts.into_parts response in
  l ← collect (schema self) headers no_slots;
  finish_response self body l.

(** [impl ProtocolAdapter for HeaderProtocolAdapter]. *)
Definition as_adapter (self : t) : ProtocolAdapter := {|
  Adapter.request_authentication_context := request_authentication_context self;
  Adapter.build_request := build_request self;
  Adapter.parse_response := parse_response self;
  Adapter.pinned_authentication := pinned_authentication self;
|}.

End adapter.
End HeaderProtocolAdapter.
(** ** Collisions *)

Definition canon (names : list HeaderName.t) : list str := map HeaderName.canonical names.

(** All names a request, respectively a response, carries under a schema. *)
Definition request_names (s : HeaderSchema.t) : list HeaderName.t :=
  map fst (HeaderSchema.static_request_headers s) ++
  [HeaderSchema.local_identity_header s; HeaderSchema.operation_header s;
   HeaderSchema.request_id_header s; HeaderSchema.request_time_header s;
   HeaderSchema.api_version_header s; HeaderSchema.local_certificate_header s;
   HeaderSchema.remote_signing_certificate_header s;
   HeaderSchema.remote_encryption_certificate_header s;
   HeaderSchema.request_signature_header s; HeaderSchema.request_wrapped_key_header s] ++
  HeaderSchema.cipher_header (HeaderSchema.request_cipher s).

Definition response_names (s : HeaderSchema.t) : list HeaderName.t :=
  [HeaderSchema.response_signature_header s; HeaderSchema.response_wrapped_key_header s;
   HeaderSchema.response_remote_signing_certificate_header s] ++
  HeaderSchema.cipher_header (HeaderSchema.response_cipher s) ++
  match HeaderSchema.authentication s with
  | HeaderAuthentication.ContextBound => [HeaderSchema.request_id_header s]
  | HeaderAuthentication.Legacy => []
  end.

Lemma existsb_name_eq n names :
  existsb (HeaderName.eq n) names = true <-> HeaderName.canonical n ∈ canon names.
Proof.
  unfold canon. rewrite existsb_exists, list_elem_of_fmap. unfold HeaderName.eq.
  setoid_rewrite bool_decide_eq_true. setoid_rewrite list_elem_of_In. naive_solver.
Qed.

Lemma insert_mappings_eq set names :
  NoDup (canon set) ->
  insert_mappings set names =
  if decide (NoDup (canon (reverse names ++ set))) then Ok (reverse names ++ set)
  else Err (adapter_error AdapterErrorKind.InvalidMapping).
Proof.
  revert set. induction names as [|n names IH]; intros set Hs; cbn [insert_mappings].
  - by rewrite decide_True.
  - rewrite reverse_cons, <- app_assoc. cbn [app].
    unfold insert_mapping, hash_set_insert.
    destruct (existsb (HeaderName.eq n) set) eqn:E; cbn [negb mbind result_bind].
    + apply existsb_name_eq in E. rewrite decide_False; [done|]. unfold canon in *.
      rewrite map_app. intros (_ & _ & Hd)%NoDup_app. cbn in Hd.
      by apply NoDup_cons in Hd as [Hd _].
    + apply IH. constructor; [|done]. intros Hin. apply existsb_name_eq in Hin. congruence.
Qed.

Lemma insert_mappings_app set a b :
  insert_mappings set (a ++ b) = (s ← insert_mappings set a; insert_mappings s b).
Proof.
  revert set. induction a as [|n a IH]; intros set; cbn [app insert_mappings]; [done|].
  destruct (insert_mapping set n); cbn [mbind result_bind]; [apply IH|done].
Qed.

Lemma bind_assoc {E A B C} (m : result E A) (f : A -> result E B) (g : B -> result E C) :
  ((m ≫= f) ≫= g) = (m ≫= (fun a => f a ≫= g)).
Proof. by destruct m. Qed.

Lemma validate_collisions_insert s :
  HeaderSchema.validate_collisions s =
  (_ ← insert_mappings [] (request_names s); _ ← insert_mappings [] (response_names s); Ok tt).
Proof.
  unfold request_names, response_names. rewrite !insert_mappings_app.
  unfold HeaderSchema.validate_collisions. rewrite !bind_assoc.
  destruct (insert_mappings [] (map fst _)); cbn [mbind result_bind]; [|done].
  rewrite insert_mappings_app. rewrite !bind_assoc.
  destruct (insert_mappings value _); cbn [mbind result_bind]; [|done].
  destruct (insert_mappings value0 _); cbn [mbind result_bind]; [|done].
  destruct (insert_mappings [] _); cbn [mbind result_bind]; [|done].
  rewrite insert_mappings_app.
  destruct (insert_mappings value2 _); cbn [mbind result_bind]; [|done].
  destruct (HeaderSchema.authentication s); cbn; [done|].
  by destruct (insert_mapping value3 _).
Qed.

Lemma insert_mappings_empty names :
  insert_mappings [] names =
  if decide (NoDup (canon names)) then Ok (reverse names)
  else Err (adapter_error AdapterErrorKind.InvalidMapping).
Proof.
  rewrite insert_mappings_eq by constructor. rewrite app_nil_r.
  assert (NoDup (canon (reverse names)) <-> NoDup (canon names)) as Hp.
  { unfold canon. apply NoDup_Permutation_proper. by rewrite reverse_Permutation. }
  repeat case_decide; tauto.
Qed.

(** The collision check: distinct names up to ASCII case, per direction. *)
Lemma validate_collisions_eq s :
  HeaderSchema.validate_collisions s =
  if decide (NoDup (canon (request_names s)) /\ NoDup (canon (response_names s)))
  then Ok tt else Err (adapter_error AdapterErrorKind.InvalidMapping).
Proof.
  rewrite validate_collisions_insert, !insert_mappings_empty.
  repeat case_decide; cbn [mbind result_bind]; tauto.
Qed.

(** ** The schema builder *)

(** The names [build] constructs from raw text. *)
Definition built_names (s : HeaderSchema.t) : list HeaderName.t :=
  map fst (HeaderSchema.static_request_headers s) ++
  [HeaderSchema.local_identity_header s; HeaderSchema.operation_header s;
   HeaderSchema.request_id_header s; HeaderSchema.request_time_header s;
   HeaderSchema.api_version_header s; HeaderSchema.local_certificate_header s;
   HeaderSchema.remote_signing_certificate_header s;
   HeaderSchema.remote_encryption_certificate_header s;
   HeaderSchema.request_signature_header s; HeaderSchema.request_wrapped_key_header s;
   HeaderSchema.response_signature_header s; HeaderSchema.response_wrapped_key_header s;
   HeaderSchema.response_remote_signing_certificate_header s].

Definition raw_entry (e : HeaderName.t * HeaderValue.t) : str * str :=
  (HeaderName.original e.1, HeaderValue.value e.2).

(** The schema a builder describes: the same raw text in every field. *)
Record schema_describes (b : HeaderSchemaBuilder.t) (s : HeaderSchema.t) : Prop := {
  sd_static : HeaderSchemaBuilder.b_static_request_headers b =
    map raw_entry (HeaderSchema.static_request_headers s);
  sd_local_identity_header :
    HeaderSchemaBuilder.b_local_identity_header b =
    Some (HeaderName.original (HeaderSchema.local_identity_header s));
  sd_operation_header :
    HeaderSchemaBuilder.b_operation_header b =
    Some (HeaderName.original (HeaderSchema.operation_header s));
  sd_request_id_header :
    HeaderSchemaBuilder.b_request_id_header b =
    Some (HeaderName.original (HeaderSchema.request_id_header s));
  sd_request_time_header :
    HeaderSchemaBuilder.b_request_time_header b =
    Some (HeaderName.original (HeaderSchema.request_time_header s));
  sd_api_version_header :
    HeaderSchemaBuilder.b_api_version_header b =
    Some (HeaderName.original (HeaderSchema.api_version_header s));
  sd_local_certificate_header :
    HeaderSchemaBuilder.b_local_certificate_header b =
    Some (HeaderName.original (HeaderSchema.local_certificate_header s));
  sd_remote_signing_certificate_header :
    HeaderSchemaBuilder.b_remote_signing_certificate_header b =
    Some (HeaderName.original (HeaderSchema.remote_signing_certificate_header s));
  sd_remote_encryption_certificate_header :
    HeaderSchemaBuilder.b_remote_encryption_certificate_header b =
    Some (HeaderName.original (HeaderSchema.remote_encryption_certificate_header s));
  sd_request_signature_header :
    HeaderSchemaBuilder.b_request_signature_header b =
    Some (HeaderName.original (HeaderSchema.request_signature_header s));
  sd_request_wrapped_key_header :
    HeaderSchemaBuilder.b_request_wrapped_key_header b =
    Some (HeaderName.original (HeaderSchema.request_wrapped_key_header s));
  sd_request_cipher :
    HeaderSchemaBuilder.b_request_cipher b = Some (HeaderSchema.request_cipher s);
  sd_response_signature_header :
    HeaderSchemaBuilder.b_response_signature_header b =
    Some (HeaderName.original (HeaderSchema.response_signature_header s));
  sd_response_wrapped_key_header :
    HeaderSchemaBuilder.b_response_wrapped_key_header b =
    Some (HeaderName.original (HeaderSchema.response_wrapped_key_header s));
  sd_response_remote_signing_certificate_header :
    HeaderSchemaBuilder.b_response_remote_signing_certificate_header b =
    Some (HeaderName.original (HeaderSchema.response_remote_signing_certificate_header s));
  sd_response_cipher :
    HeaderSchemaBuilder.b_response_cipher b = Some (HeaderSchema.response_cipher s);
  sd_legacy : HeaderSchemaBuilder.b_legacy_authentication b =
    bool_decide (HeaderSchema.authentication s = HeaderAuthentication.Legacy);
  sd_context_bound : HeaderSchemaBuilder.b_context_bound_authentication b =
    bool_decide (HeaderSchema.authentication s = HeaderAuthentication.ContextBound);
}.

(** The invariant of a schema: non-empty static headers with usable values, valid
    names, and no name used twice in one direction. *)
Definition schema_wf (s : HeaderSchema.t) : Prop :=
  HeaderSchema.static_request_headers s <> [] /\
  Forall (fun '(_, v) => value_wf v /\ str_trim (HeaderValue.value v) <> [])
    (HeaderSchema.static_request_headers s) /\
  Forall name_wf (built_names s) /\
  NoDup (canon (request_names s)) /\ NoDup (canon (response_names s)).

(** A [HeaderName] a caller supplies was made by [HeaderName::new]. *)
Definition location_wf (l : CipherLocation.t) : Prop := Forall name_wf (HeaderSchema.cipher_header l).

Section schema.
Context `{Sys : System}.
Import HeaderSchemaBuilder.

Lemma required_header_Ok o n :
  required_header o = Ok n <-> o = Some (HeaderName.original n) /\ name_wf n.
Proof.
  unfold required_header. rewrite bind_Ok. setoid_rewrite ok_or_Ok.
  setoid_rewrite map_err_Ok. setoid_rewrite header_name_new_Ok. split.
  - by intros (raw & -> & Hv & ->).
  - intros (-> & Hv & Hc). eexists. split; [done|]. split; [done|]. destruct n. cbn in *. by subst.
Qed.

Lemma static_entry_Ok h e :
  static_entry h = Ok e <->
  h = raw_entry e /\ name_wf e.1 /\ value_wf e.2 /\ str_trim (HeaderValue.value e.2) <> [].
Proof.
  destruct h as [n v], e as [n' v']. unfold static_entry, raw_entry; cbn [fst snd].
  destruct (str_is_empty (str_trim v)) eqn:E.
  { apply str_is_empty_true in E. naive_solver. }
  assert (Hv : str_trim v <> []) by (intros H%str_is_empty_true; congruence).
  rewrite bind_Ok. setoid_rewrite bind_Ok. setoid_rewrite map_err_Ok.
  setoid_rewrite header_name_new_Ok. setoid_rewrite header_value_new_Ok. split.
  - intros (a & [Ha ->] & x & [Hx ->] & [= <- <-]). done.
  - intros ([= -> ->] & [Hn Hc] & Hw & _). destruct n', v'; cbn in *. subst. eauto 10.
Qed.

Lemma statics_Ok hs es :
  mapM static_entry hs = Ok es <->
  hs = map raw_entry es /\ Forall name_wf (map fst es) /\
  Forall (fun '(_, v) => value_wf v /\ str_trim (HeaderValue.value v) <> []) es.
Proof.
  rewrite mapM_Ok. split.
  - induction 1 as [|h e hs es (-> & ? & ?)%static_entry_Ok _ (-> & ? & ?)]; [done|].
    destruct e as [n v]. split; [done|]. split; constructor; tauto.
  - intros (-> & Hn & Hv). induction es as [|[n v] es IH]; constructor.
    + apply Forall_cons in Hn, Hv. apply static_entry_Ok. cbn in *. tauto.
    + apply Forall_cons in Hn as [_ Hn], Hv as [_ Hv]. by apply IH.
Qed.

Lemma build_authentication_Ok b a :
  build_authentication b = Ok a <->
  b_static_request_headers b <> [] /\ is_some (b_request_cipher b) = true /\
  is_some (b_response_cipher b) = true /\
  b_legacy_authentication b = bool_decide (a = HeaderAuthentication.Legacy) /\
  b_context_bound_authentication b = bool_decide (a = HeaderAuthentication.ContextBound).
Proof.
  unfold build_authentication. case_bool_decide as H1; [naive_solver|].
  destruct (is_some (b_request_cipher b)), (is_some (b_response_cipher b)); cbn; [|naive_solver..].
  destruct (b_legacy_authentication b), (b_context_bound_authentication b), a; cbn; naive_solver.
Qed.

#[local] Opaque required_header.

Lemma build_schema_Ok b a st s :
  build_schema b a st = Ok s <->
  HeaderSchema.static_request_headers s = st /\ HeaderSchema.authentication s = a /\
  required_header (b_local_identity_header b) = Ok (HeaderSchema.local_identity_header s) /\
  required_header (b_operation_header b) = Ok (HeaderSchema.operation_header s) /\
  required_header (b_request_id_header b) = Ok (HeaderSchema.request_id_header s) /\
  required_header (b_request_time_header b) = Ok (HeaderSchema.request_time_header s) /\
  required_header (b_api_version_header b) = Ok (HeaderSchema.api_version_header s) /\
  required_header (b_local_certificate_header b) = Ok (HeaderSchema.local_certificate_header s) /\
  required_header (b_remote_signing_certificate_header b) = Ok (HeaderSchema.remote_signing_certificate_header s) /\
  required_header (b_remote_encryption_certificate_header b) = Ok (HeaderSchema.remote_encryption_certificate_header s) /\
  required_header (b_request_signature_header b) = Ok (HeaderSchema.request_signature_header s) /\
  required_header (b_request_wrapped_key_header b) = Ok (HeaderSchema.request_wrapped_key_header s) /\
  b_request_cipher b = Some (HeaderSchema.request_cipher s) /\
  required_header (b_response_signature_header b) = Ok (HeaderSchema.response_signature_header s) /\
  required_header (b_response_wrapped_key_header b) = Ok (HeaderSchema.response_wrapped_key_header s) /\
  required_header (b_response_remote_signing_certificate_header b) = Ok (HeaderSchema.response_remote_signing_certificate_header s) /\
  b_response_cipher b = Some (HeaderSchema.response_cipher s).
Proof.
  unfold build_schema. split.
  - intros H. inv_ok. cbn. tauto.
  - intros H. destruct_and! H. destruct s; cbn in *. subst.
    repeat (match goal with
      | H : required_header _ = Ok _ |- _ => rewrite H; clear H
      | H : _ b = Some _ |- _ => rewrite H; clear H
      end; cbn [mbind result_bind ok_or]). done.
Qed.

#[local] Opaque build_authentication build_schema HeaderSchema.validate_collisions.

Lemma schema_build_Ok b s :
  build b = Ok s <-> schema_describes b s /\ schema_wf s.
Proof.
  unfold build. repeat setoid_rewrite bind_Ok. setoid_rewrite build_authentication_Ok.
  setoid_rewrite statics_Ok. setoid_rewrite build_schema_Ok.
  setoid_rewrite required_header_Ok. setoid_rewrite validate_collisions_eq.
  unfold schema_wf, built_names. setoid_rewrite Forall_app. repeat setoid_rewrite Forall_cons.
  split.
  - intros (a & Ha & st & Hst & s' & Hs & [] & Hc & [= ->]).
    destruct_and!. case_decide; [|done]. subst. destruct_and!. split.
    + constructor; congruence.
    + assert (map raw_entry (HeaderSchema.static_request_headers s) <> []) by congruence.
      split; [by intros E; rewrite E in *|]. split; [done|].
      assert (Forall name_wf []) by constructor. tauto.
  - intros [[] Hw]. destruct_and!. exists (HeaderSchema.authentication s). split.
    { repeat split; try congruence; [|by rewrite sd_request_cipher0|by rewrite sd_response_cipher0].
      intros E. rewrite E in *. by destruct (HeaderSchema.static_request_headers s). }
    exists (HeaderSchema.static_request_headers s). split; [done|].
    exists s. split; [tauto|]. exists tt. split; [by rewrite decide_True|done].
Qed.

#[local] Transparent required_header build_authentication build_schema
  HeaderSchema.validate_collisions.

End schema.

(** ** Authentication contexts *)

(** Text [require_exact_trim] accepts: not blank, no surrounding whitespace. *)
Definition exact_text (s : str) : Prop := s <> [] /\ str_trim s = s.

#[export] Instance exact_text_dec s : Decision (exact_text s).
Proof. unfold exact_text. apply _. Defined.

Definition request_context_bytes (operation request_id : str) : list byte :=
  [x01; x01] ++ field (utf8 operation) ++ field (utf8 request_id).
Definition response_context_bytes (request_id : str) : list byte :=
  [x01; x02] ++ field (utf8 request_id).

Definition bound (bytes : list byte) : AuthenticationContext.t :=
  AuthenticationContext.Build (ContextKind.Bound bytes).

Lemma require_exact_trim_eq s :
  require_exact_trim s =
  if decide (exact_text s) then Ok s else Err (adapter_error AdapterErrorKind.InvalidField).
Proof.
  unfold require_exact_trim, exact_text. destruct (str_is_empty (str_trim s)) eqn:E; cbn [orb].
  - apply str_is_empty_true in E. rewrite decide_False; [done|]. intros [H1 H2]. congruence.
  - assert (str_trim s <> []) by (intros ?%str_is_empty_true; congruence).
    case_bool_decide; cbn [negb]; case_decide; naive_solver.
Qed.

Lemma push_length_prefixed_eq b s :
  push_length_prefixed b s =
  if str_len s <=? u64_max then Ok (b ++ field (utf8 s))
  else Err (adapter_error AdapterErrorKind.InvalidField).
Proof. unfold push_length_prefixed, u64_try_from. by destruct (_ <=? _). Qed.

Lemma request_context_bytes_inj op id op' id' :
  str_len op <= u64_max -> str_len id <= u64_max ->
  str_len op' <= u64_max -> str_len id' <= u64_max ->
  request_context_bytes op id = request_context_bytes op' id' -> op = op' /\ id = id'.
Proof.
  intros ????. unfold request_context_bytes. intros E%app_inv_head.
  apply field_app_inj in E as [Eo Ei]; [|done..]. apply field_inj in Ei; [|done..].
  split; by apply (inj utf8).
Qed.

Lemma response_context_bytes_inj id id' :
  str_len id <= u64_max -> str_len id' <= u64_max ->
  response_context_bytes id = response_context_bytes id' -> id = id'.
Proof.
  intros ??. unfold response_context_bytes. intros E%app_inv_head.
  apply field_inj in E; [|done..]. by apply (inj utf8).
Qed.

Lemma bound_inj a b : bound a = bound b -> a = b.
Proof. unfold bound. congruence. Qed.

Section contexts.
Context `{Sys : System}.

Lemma bound_context_eq x bs : bound_context (x :: bs) = Ok (bound (x :: bs)).
Proof. done. Qed.

Lemma encode_request_context_Ok op id c :
  encode_request_context op id = Ok c <->
  exact_text op /\ exact_text id /\ str_len op <= u64_max /\ str_len id <= u64_max /\
  c = bound (request_context_bytes op id).
Proof.
  unfold encode_request_context. rewrite !require_exact_trim_eq.
  destruct (decide (exact_text op)); cbn [mbind result_bind]; [|naive_solver].
  destruct (decide (exact_text id)); cbn [mbind result_bind]; [|naive_solver].
  rewrite push_length_prefixed_eq. destruct (Z.leb_spec (str_len op) u64_max);
    cbn [mbind result_bind]; [|naive_solver lia].
  rewrite push_length_prefixed_eq. destruct (Z.leb_spec (str_len id) u64_max);
    cbn [mbind result_bind]; [|naive_solver lia].
  rewrite <- app_assoc. cbn [app]. rewrite bound_context_eq. naive_solver.
Qed.

Lemma encode_response_context_Ok id c :
  encode_response_context id = Ok c <->
  exact_text id /\ str_len id <= u64_max /\ c = bound (response_context_bytes id).
Proof.
  unfold encode_response_context. rewrite require_exact_trim_eq.
  destruct (decide (exact_text id)); cbn [mbind result_bind]; [|naive_solver].
  rewrite push_length_prefixed_eq. destruct (Z.leb_spec (str_len id) u64_max);
    cbn [mbind result_bind]; [|naive_solver lia].
  cbn [app]. rewrite bound_context_eq. naive_solver.
Qed.

(** C16. The version-1 context encoding is the documented layout, accepts exactly
    non-blank values without surrounding whitespace, and is unambiguous: a request
    context determines its operation and request id, a response context its
    request id, and no request context equals a response context. *)
Theorem header_context_encoding op id op' id' rid rid' :
  (forall c, encode_request_context op id = Ok c <->
     exact_text op /\ exact_text id /\ str_len op <= u64_max /\ str_len id <= u64_max /\
     c = bound ([x01; x01] ++ be_bytes 8 (str_len op) ++ utf8 op
                          ++ be_bytes 8 (str_len id) ++ utf8 id)) /\
  (forall c, encode_response_context rid = Ok c <->
     exact_text rid /\ str_len rid <= u64_max /\
     c = bound ([x01; x02] ++ be_bytes 8 (str_len rid) ++ utf8 rid)) /\
  (forall c, encode_request_context op id = Ok c -> encode_request_context op' id' = Ok c ->
     op = op' /\ id = id') /\
  (forall c, encode_response_context rid = Ok c -> encode_response_context rid' = Ok c ->
     rid = rid') /\
  (forall c, encode_request_context op id = Ok c -> encode_response_context rid <> Ok c).
Proof.
  split.
  { intros c. rewrite encode_request_context_Ok. unfold request_context_bytes, field.
    rewrite <- !app_assoc. done. }
  split; [intros c; apply encode_response_context_Ok|]. split; [|split].
  - intros c (_ & _ & L1 & L2 & ->)%encode_request_context_Ok
      (_ & _ & L3 & L4 & E%bound_inj)%encode_request_context_Ok.
    by apply request_context_bytes_inj.
  - intros c (_ & L1 & ->)%encode_response_context_Ok
      (_ & L2 & E%bound_inj)%encode_response_context_Ok.
    by apply response_context_bytes_inj.
  - intros c (_ & _ & _ & _ & ->)%encode_request_context_Ok (_ & _ & E)%encode_response_context_Ok.
    discriminate E.
Qed.

(** The errors of [build]. *)
Definition mapping_error (e : AdapterError.t) : Prop :=
  AdapterError.kind e = AdapterErrorKind.MissingField \/
  AdapterError.kind e = AdapterErrorKind.InvalidMapping.

Ltac mapping_step := fails_step ltac:(unfold mapping_error; cbn; auto).

Lemma collisions_fail s : fails_with mapping_error (HeaderSchema.validate_collisions s).
Proof. rewrite validate_collisions_eq. case_decide; repeat mapping_step. Qed.

Lemma statics_fail hs : fails_with mapping_error (mapM HeaderSchemaBuilder.static_entry hs).
Proof. induction hs as [|[n v] hs IH]; cbn [mapM]; repeat mapping_step. apply IH. Qed.

Lemma schema_build_fails b : fails_with mapping_error (HeaderSchemaBuilder.build b).
Proof.
  unfold HeaderSchemaBuilder.build, HeaderSchemaBuilder.build_authentication,
    HeaderSchemaBuilder.build_schema, required_header.
  repeat first [apply collisions_fail | apply statics_fail | mapping_step].
Qed.

(** C14. [HeaderSchemaBuilder::build] succeeds exactly on complete, consistent
    mappings: at least one static header, every name present and a valid token,
    static values valid and not blank, both cipher locations, exactly one
    authentication kind, and no header name used twice, up to ASCII case, in the
    request or in the response direction (where context-bound schemas also reserve
    the request-id header); the schema then carries the given names unchanged.
    Every failure is [MissingField] or [InvalidMapping], and a missing static
    header, cipher location or authentication choice is [MissingField] whatever
    else is wrong. *)
Theorem header_schema_build_spec b :
  (forall s, HeaderSchemaBuilder.build b = Ok s <-> schema_describes b s /\ schema_wf s) /\
  (forall e, HeaderSchemaBuilder.build b = Err e ->
     AdapterError.kind e = AdapterErrorKind.MissingField \/
     AdapterError.kind e = AdapterErrorKind.InvalidMapping) /\
  (HeaderSchemaBuilder.b_static_request_headers b = [] \/
   HeaderSchemaBuilder.b_request_cipher b = None \/
   HeaderSchemaBuilder.b_response_cipher b = None \/
   HeaderSchemaBuilder.b_legacy_authentication b = false /\
   HeaderSchemaBuilder.b_context_bound_authentication b = false ->
   HeaderSchemaBuilder.build b = Err (AdapterError.new AdapterErrorKind.MissingField)).
Proof.
  split; [apply schema_build_Ok|]. split.
  - apply schema_build_fails.
  - intros H. unfold HeaderSchemaBuilder.build, HeaderSchemaBuilder.build_authentication.
    case_bool_decide; [done|].
    destruct (HeaderSchemaBuilder.b_request_cipher b); cbn [is_some negb orb]; [|done].
    destruct (HeaderSchemaBuilder.b_response_cipher b); cbn [is_some negb orb]; [|done].
    destruct H as [H|[H|[H|[-> ->]]]]; done.
Qed.

End contexts.
