(* ===== verification/HeaderAdapter.v ===== *)
(** * The header adapter's behaviour (src/adapter.rs)

    What [HeaderProtocolAdapter] does with a well-formed schema: the request it
    builds carries every mapped field under its own header, and the response
    parser accepts exactly one occurrence of each reserved header, in any order
    and casing. *)

From S2P Require Import Prelude.
From S2P Require Import Rust.
From S2P Require Import Text.
From S2P Require Import System.
From S2P Require Import Error.
From S2P Require Import Header.
From S2P Require Import Auth.
From S2P Require Import ClientConfig.
From S2P Require Import Message.
From S2P Require Import Adapter.

Import HeaderProtocolAdapter.

(** ** Requests *)

Definition cipher_pair (l : CipherLocation.t) (e : SecureEnvelope.t) : list (str * str) :=
  match l with
  | CipherLocation.Body => []
  | CipherLocation.Header name => [pair name (SecureEnvelope.cipher e)]
  end.

(** All headers of a request, in the order they are written. *)
Definition all_headers (s : HeaderSchema.t) (i : ClientIdentity.t)
    (c : ProtocolRequestContext.t) (e : SecureEnvelope.t) : list (str * str) :=
  mapped_headers s i c e ++ cipher_pair (HeaderSchema.request_cipher s) e.

Definition request_body (s : HeaderSchema.t) (e : SecureEnvelope.t) : str :=
  match HeaderSchema.request_cipher s with
  | CipherLocation.Body => SecureEnvelope.cipher e
  | CipherLocation.Header _ => []
  end.

(** The three texts of the envelope are not blank. *)
Definition envelope_nonblank (e : SecureEnvelope.t) : Prop :=
  str_trim (SecureEnvelope.signature e) <> [] /\
  str_trim (SecureEnvelope.wrapped_session_key e) <> [] /\
  str_trim (SecureEnvelope.cipher e) <> [].

Lemma all_headers_names s i c e :
  map fst (all_headers s i c e) = map HeaderName.original (request_names s).
Proof.
  unfold all_headers, mapped_headers, request_names, cipher_pair. rewrite !map_app, !map_map.
  rewrite <- app_assoc. f_equal.
  - apply map_ext. by intros [n v].
  - cbn. by destruct (HeaderSchema.request_cipher s).
Qed.

Lemma names_wf_canon names :
  Forall name_wf names ->
  map (fun n => to_ascii_lowercase (HeaderName.original n)) names = canon names.
Proof. induction 1 as [|n ns [_ Hn] _ IH]; cbn; [done|]. by rewrite IH, Hn. Qed.

Lemma schema_request_names_wf s :
  schema_wf s -> location_wf (HeaderSchema.request_cipher s) -> Forall name_wf (request_names s).
Proof.
  unfold schema_wf, built_names, request_names, location_wf.
  rewrite !Forall_app, !Forall_cons. tauto.
Qed.

Lemma all_headers_valid s i c e :
  schema_wf s -> location_wf (HeaderSchema.request_cipher s) ->
  valid_pairs (all_headers s i c e) <-> Forall valid_value (map snd (all_headers s i c e)).
Proof.
  intros Hs Hl. pose proof (schema_request_names_wf s Hs Hl) as Hn.
  assert (Hlow : map (fun '(n, _) => to_ascii_lowercase n) (all_headers s i c e)
                 = canon (request_names s)).
  { rewrite <- (names_wf_canon _ Hn).
    rewrite <- (map_map HeaderName.original to_ascii_lowercase), <- (all_headers_names s i c e).
    rewrite map_map. apply map_ext. by intros [n v]. }
  assert (Hnames : Forall valid_name (map fst (all_headers s i c e))).
  { rewrite all_headers_names. apply Forall_map. eapply Forall_impl; [exact Hn|]. by intros n [? _]. }
  unfold valid_pairs. rewrite Hlow. rewrite Forall_map in Hnames. rewrite Forall_map.
  destruct Hs as (_ & _ & _ & Hd & _). split.
  - intros [Hf _]. eapply Forall_impl; [exact Hf|]. by intros [n v] [_ ?].
  - intros Hv. split; [|done]. eapply Forall_impl; [apply Forall_and; split; [exact Hnames|exact Hv]|].
    by intros [n v] [? ?].
Qed.

Section requests.
Context `{Sys : System}.

Lemma validate_nonempty_eq v :
  validate_nonempty v =
  if decide (str_trim v = []) then Err (adapter_error AdapterErrorKind.InvalidField) else Ok tt.
Proof.
  unfold validate_nonempty. by destruct (str_trim v).
Qed.

Lemma build_request_Ok s i c e p :
  schema_wf s -> location_wf (HeaderSchema.request_cipher s) ->
  build_request (new s) i c e = Ok p <->
  envelope_nonblank e /\ Forall valid_value (map snd (all_headers s i c e)) /\
  p = RequestParts.Build (collection_of (all_headers s i c e)) (request_body s e).
Proof.
  intros Hs Hl. unfold build_request, envelope_nonblank. rewrite !validate_nonempty_eq.
  destruct (decide (str_trim (SecureEnvelope.signature e) = [])); cbn [mbind result_bind];
    [split; [done|by intros ((? & ? & ?) & _)]|].
  destruct (decide (str_trim (SecureEnvelope.wrapped_session_key e) = []));
    cbn [mbind result_bind]; [split; [done|by intros ((? & ? & ?) & _)]|].
  destruct (decide (str_trim (SecureEnvelope.cipher e) = [])); cbn [mbind result_bind];
    [split; [done|by intros ((? & ? & ?) & _)]|].
  rewrite <- (all_headers_valid s i c e Hs Hl). cbn [schema].
  unfold all_headers, request_body, cipher_pair.
  destruct (HeaderSchema.request_cipher s); rewrite map_err_Ok, request_parts_new_Ok;
    rewrite ?app_nil_r; tauto.
Qed.

Lemma build_request_Err s i c e err :
  build_request (new s) i c e = Err err -> AdapterError.kind err = AdapterErrorKind.InvalidField.
Proof.
  unfold build_request. rewrite !validate_nonempty_eq.
  repeat case_decide; cbn [mbind result_bind]; try (by intros [= <-]).
  repeat case_match; by intros (? & _ & ->)%map_err_Err.
Qed.

(** A header of a request, under every spelling of its name. *)
Definition shows (p : RequestParts.t) (n : HeaderName.t) (v : str) : Prop :=
  forall m, to_ascii_lowercase m = to_ascii_lowercase (HeaderName.as_str n) ->
    RequestParts.header p m = Some v.

(** What a built request carries: each field under its own header of the schema, the
    static headers, the cipher where the schema places it, and nothing else. *)
Record request_shows (s : HeaderSchema.t) (i : ClientIdentity.t) (c : ProtocolRequestContext.t)
    (e : SecureEnvelope.t) (p : RequestParts.t) : Prop := {
  rs_local_identity :
    shows p (HeaderSchema.local_identity_header s) (ClientIdentity.local_identity_id i);
  rs_operation : shows p (HeaderSchema.operation_header s) (ProtocolRequestContext.operation c);
  rs_request_id : shows p (HeaderSchema.request_id_header s)
    (RequestMetadata.request_id (ProtocolRequestContext.metadata c));
  rs_request_time : shows p (HeaderSchema.request_time_header s)
    (RequestMetadata.request_time (ProtocolRequestContext.metadata c));
  rs_api_version : shows p (HeaderSchema.api_version_header s) (ClientIdentity.api_version i);
  rs_local_certificate :
    shows p (HeaderSchema.local_certificate_header s) (ClientIdentity.local_certificate_id i);
  rs_remote_signing_certificate : shows p (HeaderSchema.remote_signing_certificate_header s)
    (ClientIdentity.expected_remote_signing_certificate_id i);
  rs_remote_encryption_certificate :
    shows p (HeaderSchema.remote_encryption_certificate_header s)
      (ClientIdentity.remote_encryption_certificate_id i);
  rs_signature : shows p (HeaderSchema.request_signature_header s) (SecureEnvelope.signature e);
  rs_wrapped_key :
    shows p (HeaderSchema.request_wrapped_key_header s) (SecureEnvelope.wrapped_session_key e);
  rs_static n v :
    (n, v) ∈ HeaderSchema.static_request_headers s -> shows p n (HeaderValue.as_str v);
  rs_cipher :
    match HeaderSchema.request_cipher s with
    | CipherLocation.Body => RequestParts.body p = SecureEnvelope.cipher e
    | CipherLocation.Header n => shows p n (SecureEnvelope.cipher e) /\ RequestParts.body p = []
    end;
  rs_only :
    map (fun '(n, _) => HeaderName.original n)
      (HeaderCollection.entries (RequestParts.headers p))
    = map HeaderName.original (request_names s);
  rs_wf : collection_wf (RequestParts.headers p);
}.

(** The caller's and the envelope's values that must be header values. *)
Definition request_values (s : HeaderSchema.t) (i : ClientIdentity.t)
    (c : ProtocolRequestContext.t) (e : SecureEnvelope.t) : list str :=
  [ClientIdentity.local_identity_id i; ClientIdentity.api_version i;
   ClientIdentity.local_certificate_id i;
   ClientIdentity.expected_remote_signing_certificate_id i;
   ClientIdentity.remote_encryption_certificate_id i;
   ProtocolRequestContext.operation c;
   RequestMetadata.request_id (ProtocolRequestContext.metadata c);
   RequestMetadata.request_time (ProtocolRequestContext.metadata c);
   SecureEnvelope.signature e; SecureEnvelope.wrapped_session_key e]
  ++ match HeaderSchema.request_cipher s with
     | CipherLocation.Body => []
     | CipherLocation.Header _ => [SecureEnvelope.cipher e]
     end.

Lemma all_headers_values s i c e :
  schema_wf s ->
  Forall valid_value (map snd (all_headers s i c e)) <->
  Forall valid_value (request_values s i c e).
Proof.
  intros (_ & Hst & _). unfold all_headers, mapped_headers, request_values, cipher_pair.
  rewrite !map_app, !Forall_app.
  assert (Forall valid_value (map snd (map (fun '(name, value) =>
    (HeaderName.as_str name, HeaderValue.as_str value)) (HeaderSchema.static_request_headers s)))).
  { rewrite map_map. apply Forall_map. eapply Forall_impl; [exact Hst|]. by intros [n v] [? _]. }
  cbn. rewrite !Forall_cons. destruct (HeaderSchema.request_cipher s); cbn; tauto.
Qed.

Lemma built_request_shows s i c e p :
  schema_wf s -> location_wf (HeaderSchema.request_cipher s) ->
  build_request (new s) i c e = Ok p -> request_shows s i c e p.
Proof.
  intros Hs Hl (_ & Hv & ->)%build_request_Ok; [|done..].
  apply all_headers_valid in Hv; [|done..].
  assert (Hshow : forall n v, pair n v ∈ all_headers s i c e ->
    shows (RequestParts.Build (collection_of (all_headers s i c e)) (request_body s e)) n v).
  { intros n v Hin m E. by eapply parts_lookup. }
  assert (Hfield : forall n v, pair n v ∈ drop (length (HeaderSchema.static_request_headers s))
      (mapped_headers s i c e) ->
    shows (RequestParts.Build (collection_of (all_headers s i c e)) (request_body s e)) n v).
  { intros n v Hin. apply Hshow, elem_of_app. left. by eapply subseteq_drop. }
  unfold mapped_headers in Hfield. rewrite drop_app_length' in Hfield by (by rewrite length_map).
  constructor; try (apply Hfield; repeat first [apply list_elem_of_here | apply list_elem_of_further]).
  - intros n v Hin. apply Hshow, elem_of_app. left. apply elem_of_app. left.
    apply list_elem_of_fmap. by exists (n, v).
  - unfold all_headers, cipher_pair, request_body in *.
    destruct (HeaderSchema.request_cipher s); [done|]. split; [|done].
    apply Hshow, elem_of_app. right. apply list_elem_of_here.
  - rewrite <- (all_headers_names s i c e). cbn. rewrite map_map. by apply map_ext.
  - by apply collection_of_wf.
Qed.

End requests.

(** ** Responses *)

#[export] Instance target_eq_dec : EqDecision target.
Proof. solve_decision. Defined.

(** The header reserved for a target, when the schema reserves one. *)
Definition slot_header (s : HeaderSchema.t) (t : target) : option HeaderName.t :=
  match t with
  | TSignature => Some (HeaderSchema.response_signature_header s)
  | TWrappedKey => Some (HeaderSchema.response_wrapped_key_header s)
  | TCertificate => Some (HeaderSchema.response_remote_signing_certificate_header s)
  | TCipher =>
      match HeaderSchema.response_cipher s with
      | CipherLocation.Header name => Some name
      | CipherLocation.Body => None
      end
  | TRequestId =>
      match HeaderSchema.authentication s with
      | HeaderAuthentication.ContextBound => Some (HeaderSchema.request_id_header s)
      | HeaderAuthentication.Legacy => None
      end
  end.

(** The values a response carries under a name, ignoring ASCII case. *)
Definition values_of (name : HeaderName.t) (headers : list (str * str)) : list str :=
  map snd (filter (fun h => eq_ignore_ascii_case h.1 (HeaderName.original name) = true) headers).

(** The values the loop routes to a target. *)
Definition hits (s : HeaderSchema.t) (t : target) (headers : list (str * str)) : list str :=
  map snd (filter (fun h => target_of s h.1 = Some t) headers).

Lemma hits_cons s t n v hs :
  hits s t ((n, v) :: hs) =
  (if decide (target_of s n = Some t) then [v] else []) ++ hits s t hs.
Proof. unfold hits. rewrite filter_cons. cbn [fst]. by case_decide. Qed.

Lemma slots_ext l l' : (forall t, slot t l = slot t l') -> l = l'.
Proof.
  intros H. pose proof (H TSignature). pose proof (H TWrappedKey). pose proof (H TCertificate).
  pose proof (H TCipher). pose proof (H TRequestId). destruct l, l'; cbn in *. congruence.
Qed.

Lemma slot_replace t v l t' : slot t' (replace t v l) = if decide (t' = t) then Some v else slot t' l.
Proof. destruct l. by destruct t, t'. Qed.

Lemma option_list_inj {A} (o o' : option A) : option_list o = option_list o' -> o = o'.
Proof. destruct o, o'; cbn; congruence. Qed.

Lemma collect_Ok s hs l l' :
  collect s hs l = Ok l' <->
  forall t, option_list (slot t l) ++ hits s t hs = option_list (slot t l').
Proof.
  revert l. induction hs as [|[n v] hs IH]; intros l; cbn [collect].
  - change (hits s) with (fun t (hs : list (str * str)) =>
      map snd (filter (fun h => target_of s h.1 = Some t) hs)). cbn.
    setoid_rewrite app_nil_r. split; [by intros [= <-]|].
    intros H. f_equal. apply slots_ext. intros t. by apply option_list_inj.
  - setoid_rewrite hits_cons. destruct (target_of s n) as [t0|] eqn:Et.
    + destruct (slot t0 l) as [x|] eqn:El; cbn [is_some].
      * split; [done|]. intros H. specialize (H t0). rewrite El, decide_True in H by done.
        cbn in H. by destruct (slot t0 l').
      * rewrite IH. apply forall_proper. intros t. rewrite slot_replace.
        destruct (decide (t = t0)) as [->|Hne].
        -- by rewrite decide_True, El.
        -- by rewrite decide_False by congruence.
    + rewrite IH. done.
Qed.

Lemma collect_Err s hs l e :
  collect s hs l = Err e -> e = adapter_error AdapterErrorKind.DuplicateField.
Proof.
  revert l. induction hs as [|[n v] hs IH]; intros l; cbn [collect]; [done|].
  repeat case_match; [by intros [= <-]|apply IH..].
Qed.

Lemma collect_fresh s hs l :
  collect s hs no_slots = Ok l <-> forall t, hits s t hs = option_list (slot t l).
Proof. rewrite collect_Ok. apply forall_proper. by intros []. Qed.

Lemma hits_Permutation s t hs hs' : hs ≡ₚ hs' -> hits s t hs ≡ₚ hits s t hs'.
Proof. intros H. unfold hits. by rewrite H. Qed.

(** The loop's outcome is determined by the values routed to each target, as multisets. *)
Lemma collect_hits s hs hs' :
  (forall t, hits s t hs ≡ₚ hits s t hs') -> collect s hs no_slots = collect s hs' no_slots.
Proof.
  assert (Hok : forall hs hs' l, (forall t, hits s t hs ≡ₚ hits s t hs') ->
    collect s hs no_slots = Ok l -> collect s hs' no_slots = Ok l).
  { intros ks ks' l Hp H. apply collect_fresh. intros t.
    rewrite collect_fresh in H. specialize (H t). specialize (Hp t). rewrite H in Hp.
    destruct (slot t l); cbn in *.
    - symmetry in Hp. by apply Permutation_singleton_r in Hp.
    - symmetry in Hp. by apply Permutation_nil_r in Hp. }
  intros Hp. destruct (collect s hs no_slots) as [l|e] eqn:E.
  - symmetry. by eapply Hok.
  - destruct (collect s hs' no_slots) as [l|e'] eqn:E'.
    + apply (Hok _ hs) in E'; [congruence|]. intros t. by symmetry.
    + apply collect_Err in E, E'. congruence.
Qed.

(** Under a well-formed schema the routing is by reserved name. *)
Lemma schema_response_names_wf s :
  schema_wf s -> location_wf (HeaderSchema.response_cipher s) ->
  Forall name_wf (response_names s).
Proof.
  unfold schema_wf, built_names, response_names, location_wf.
  rewrite !Forall_app, !Forall_cons. destruct (HeaderSchema.authentication s);
  rewrite ?Forall_cons; tauto.
Qed.

Lemma slot_header_reserved s t h :
  slot_header s t = Some h -> h ∈ response_names s.
Proof.
  unfold response_names. destruct t; cbn; repeat case_match; intros [= <-]; cbn; set_solver.
Qed.

Lemma eq_ignore_name_wf n h :
  name_wf h ->
  eq_ignore_ascii_case n (HeaderName.as_str h) = bool_decide (to_ascii_lowercase n = HeaderName.canonical h).
Proof.
  intros [_ Hc]. rewrite Hc. apply eq_true_iff_eq.
  rewrite eq_ignore_ascii_case_iff, bool_decide_eq_true. done.
Qed.

(** The routing of [target_of] as a table searched from the front. *)
Definition routes (s : HeaderSchema.t) : list (HeaderName.t * target) :=
  [(HeaderSchema.response_signature_header s, TSignature);
   (HeaderSchema.response_wrapped_key_header s, TWrappedKey);
   (HeaderSchema.response_remote_signing_certificate_header s, TCertificate)] ++
  match HeaderSchema.authentication s with
  | HeaderAuthentication.ContextBound => [(HeaderSchema.request_id_header s, TRequestId)]
  | HeaderAuthentication.Legacy => []
  end ++
  match HeaderSchema.response_cipher s with
  | CipherLocation.Header name => [(name, TCipher)]
  | CipherLocation.Body => []
  end.

Lemma target_of_routes s n :
  target_of s n =
  snd <$> find (fun '(h, _) => eq_ignore_ascii_case n (HeaderName.as_str h)) (routes s).
Proof.
  unfold target_of, routes. cbn [app find].
  do 3 (destruct (eq_ignore_ascii_case _ _); [done|]).
  destruct (HeaderSchema.authentication s), (HeaderSchema.response_cipher s); cbn; [done| |..];
    by repeat destruct (eq_ignore_ascii_case _ _).
Qed.

Lemma routes_slot_header s h t : (h, t) ∈ routes s <-> slot_header s t = Some h.
Proof.
  unfold routes, slot_header.
  destruct (HeaderSchema.authentication s), (HeaderSchema.response_cipher s), t; set_solver.
Qed.

Lemma routes_names s : map fst (routes s) ≡ₚ response_names s.
Proof.
  unfold routes, response_names, HeaderSchema.cipher_header.
  destruct (HeaderSchema.authentication s), (HeaderSchema.response_cipher s); cbn; try done.
  do 3 apply perm_skip. apply perm_swap.
Qed.

Lemma find_route (rs : list (HeaderName.t * target)) n h t :
  Forall name_wf (map fst rs) -> NoDup (canon (map fst rs)) ->
  find (fun '(h, _) => eq_ignore_ascii_case n (HeaderName.as_str h)) rs = Some (h, t) <->
  (h, t) ∈ rs /\ to_ascii_lowercase n = HeaderName.canonical h.
Proof.
  intros Hw Hd. induction rs as [|[h0 t0] rs IH]; cbn [find].
  - split; [done|]. by intros [?%elem_of_nil _].
  - apply Forall_cons in Hw as [W0 Hw]. apply NoDup_cons in Hd as [D0 Hd].
    rewrite eq_ignore_name_wf by done. cbn [fst] in *. rewrite elem_of_cons.
    case_bool_decide as E; [|rewrite IH by done; naive_solver].
    split; [intros [= <- <-]; auto|]. intros [[[= <- <-]|Hin] E']; [done|].
    destruct D0. rewrite <- E, E'. apply list_elem_of_fmap. exists h. split; [done|].
    apply list_elem_of_fmap. by exists (h, t).
Qed.

Lemma target_of_iff s n t :
  schema_wf s -> location_wf (HeaderSchema.response_cipher s) ->
  target_of s n = Some t <->
  exists h, slot_header s t = Some h /\ to_ascii_lowercase n = HeaderName.canonical h.
Proof.
  intros Hs Hl. pose proof (schema_response_names_wf s Hs Hl) as Hw.
  destruct Hs as (_ & _ & _ & _ & Hd).
  rewrite <- routes_names in Hw. unfold canon in Hd. rewrite <- routes_names in Hd.
  rewrite target_of_routes. setoid_rewrite <- routes_slot_header.
  setoid_rewrite <- (find_route _ n _ _ Hw Hd).
  destruct (find _ _) as [[h t']|]; cbn; naive_solver.
Qed.

Lemma hits_values s t hs :
  schema_wf s -> location_wf (HeaderSchema.response_cipher s) ->
  hits s t hs = match slot_header s t with Some h => values_of h hs | None => [] end.
Proof.
  intros Hs Hl. unfold hits, values_of. induction hs as [|[n v] hs IH].
  { by destruct (slot_header s t). }
  rewrite filter_cons. cbn [fst]. pose proof (target_of_iff s n t Hs Hl) as Ht.
  destruct (slot_header s t) as [h|] eqn:Eh.
  - rewrite filter_cons. cbn [fst].
    assert (Hh : name_wf h).
    { pose proof (schema_response_names_wf s Hs Hl) as Hw. rewrite Forall_forall in Hw.
      apply Hw. by eapply slot_header_reserved. }
    pose proof (eq_ignore_name_wf n h Hh) as He. unfold HeaderName.as_str in He. rewrite He.
    destruct (decide (target_of s n = Some t)) as [Hy|Hn].
    + rewrite decide_True; [cbn; by rewrite IH|]. apply bool_decide_eq_true.
      apply Ht in Hy as (h' & [= <-] & E). done.
    + rewrite decide_False; [done|]. rewrite bool_decide_eq_true. intros E. apply Hn, Ht. eauto.
  - rewrite decide_False; [done|]. intros (h & [=] & _)%Ht.
Qed.

(** [raw] is a valid header value and [v] its trimmed, non-empty text. *)
Definition field_text (raw v : str) : Prop := valid_value raw /\ str_trim raw = v /\ v <> [].

(** What the parser reads from a response. *)
Record response_reads (s : HeaderSchema.t) (hs : list (str * str)) (body : str)
    (p : ParsedResponse.t) : Prop := {
  rr_signature : exists raw,
    values_of (HeaderSchema.response_signature_header s) hs = [raw] /\
    field_text raw (SecureEnvelope.signature (ParsedResponse.envelope p));
  rr_wrapped_session_key : exists raw,
    values_of (HeaderSchema.response_wrapped_key_header s) hs = [raw] /\
    field_text raw (SecureEnvelope.wrapped_session_key (ParsedResponse.envelope p));
  rr_certificate : exists raw,
    values_of (HeaderSchema.response_remote_signing_certificate_header s) hs = [raw] /\
    field_text raw (ParsedResponse.remote_signing_certificate_id p);
  rr_cipher :
    match HeaderSchema.response_cipher s with
    | CipherLocation.Body =>
        str_trim body = SecureEnvelope.cipher (ParsedResponse.envelope p) /\
        SecureEnvelope.cipher (ParsedResponse.envelope p) <> []
    | CipherLocation.Header h => exists raw,
        values_of h hs = [raw] /\
        field_text raw (SecureEnvelope.cipher (ParsedResponse.envelope p))
    end;
  rr_context :
    match HeaderSchema.authentication s with
    | HeaderAuthentication.Legacy =>
        ParsedResponse.authentication_context p = AuthenticationContext.legacy
    | HeaderAuthentication.ContextBound => exists rid,
        values_of (HeaderSchema.request_id_header s) hs = [rid] /\
        valid_value rid /\ exact_text rid /\ str_len rid <= u64_max /\
        ParsedResponse.authentication_context p = bound (response_context_bytes rid)
    end;
}.

Lemma field_text_no_cr_lf raw v : field_text raw v -> contains_cr_lf v = false.
Proof.
  intros (Hv & <- & _). apply existsb_false_Forall. apply Forall_forall. intros c Hc.
  pose proof (str_trim_incl raw) as Hi. rewrite Forall_forall in Hi.
  specialize (Hi _ Hc). unfold valid_value in Hv. rewrite Forall_forall in Hv.
  specialize (Hv _ Hi). unfold is_disallowed_value_character in Hv.
  apply not_true_is_false. intros E. apply orb_true_iff in E as [E|E]; apply Z.eqb_eq in E;
    by rewrite E in Hv.
Qed.

Section responses.
Context `{Sys : System}.

Lemma trimmed_nonempty_Ok r v : trimmed_nonempty r = Ok v <-> str_trim r = v /\ v <> [].
Proof. unfold trimmed_nonempty. destruct (str_trim r); cbn; naive_solver. Qed.

Lemma required_response_header_Ok o v :
  required_response_header o = Ok v <-> exists raw, o = Some raw /\ field_text raw v.
Proof.
  unfold required_response_header, field_text. rewrite bind_Ok. setoid_rewrite bind_Ok.
  setoid_rewrite ok_or_Ok. setoid_rewrite map_err_Ok. setoid_rewrite header_value_new_Ok.
  setoid_rewrite trimmed_nonempty_Ok. naive_solver.
Qed.

Lemma parsed_new_Ok e cert raw ctx p :
  field_text raw cert ->
  ParsedResponse.new e cert ctx = Ok p <-> p = ParsedResponse.Build e cert ctx.
Proof.
  intros H. pose proof (field_text_no_cr_lf _ _ H) as Hc. destruct H as (_ & Ht & Hn).
  unfold ParsedResponse.new. rewrite Hc. rewrite <- Ht, str_trim_idemp, Ht.
  destruct cert; [done|]. cbn. naive_solver.
Qed.

#[local] Opaque required_response_header encode_response_context trimmed_nonempty.

Lemma finish_response_Ok s body l p :
  finish_response (new s) body l = Ok p <->
  (exists raw, signature l = Some raw /\
     field_text raw (SecureEnvelope.signature (ParsedResponse.envelope p))) /\
  (exists raw, wrapped_session_key l = Some raw /\
     field_text raw (SecureEnvelope.wrapped_session_key (ParsedResponse.envelope p))) /\
  (exists raw, remote_signing_certificate_id l = Some raw /\
     field_text raw (ParsedResponse.remote_signing_certificate_id p)) /\
  match HeaderSchema.response_cipher s with
  | CipherLocation.Body =>
      str_trim body = SecureEnvelope.cipher (ParsedResponse.envelope p) /\
      SecureEnvelope.cipher (ParsedResponse.envelope p) <> []
  | CipherLocation.Header h => exists raw, cipher l = Some raw /\
      field_text raw (SecureEnvelope.cipher (ParsedResponse.envelope p))
  end /\
  match HeaderSchema.authentication s with
  | HeaderAuthentication.Legacy =>
      ParsedResponse.authentication_context p = AuthenticationContext.legacy
  | HeaderAuthentication.ContextBound => exists rid, request_id l = Some rid /\
      valid_value rid /\ exact_text rid /\ str_len rid <= u64_max /\
      ParsedResponse.authentication_context p = bound (response_context_bytes rid)
  end.
Proof.
  unfold finish_response. cbn [schema]. repeat setoid_rewrite bind_Ok.
  setoid_rewrite required_response_header_Ok. split.
  - intros (sg & Hsg & wk & Hwk & cert & Hcert & ci & Hci & ctx & Hctx & Hp).
    destruct Hcert as (raw & Hr & Hf). apply (parsed_new_Ok _ _ _ _ _ Hf) in Hp as ->.
    cbn [ParsedResponse.envelope ParsedResponse.remote_signing_certificate_id
      ParsedResponse.authentication_context SecureEnvelope.signature
      SecureEnvelope.wrapped_session_key SecureEnvelope.cipher].
    do 3 (split; [eauto|]). split.
    + destruct (HeaderSchema.response_cipher s); [by apply trimmed_nonempty_Ok|].
      by apply required_response_header_Ok.
    + destruct (HeaderSchema.authentication s); [congruence|].
      apply bind_Ok in Hctx as (rid & Hrid%ok_or_Ok & Hctx).
      apply bind_Ok in Hctx as (hv & Hhv%map_err_Ok & Hctx).
      apply header_value_new_Ok in Hhv as [Hv _].
      apply encode_response_context_Ok in Hctx as (? & ? & ->). eauto 10.
  - intros (Hsg & Hwk & (raw & Hr & Hf) & Hci & Hctx). destruct p as [[ci wk sg] cert ctx].
    cbn [ParsedResponse.envelope ParsedResponse.remote_signing_certificate_id
      ParsedResponse.authentication_context SecureEnvelope.signature
      SecureEnvelope.wrapped_session_key SecureEnvelope.cipher] in *.
    exists sg; split; [done|]. exists wk; split; [done|]. exists cert; split; [eauto|].
    exists ci; split.
    { destruct (HeaderSchema.response_cipher s); [by apply trimmed_nonempty_Ok|].
      by apply required_response_header_Ok. }
    exists ctx; split; [|by apply (parsed_new_Ok _ _ _ _ _ Hf)].
    destruct (HeaderSchema.authentication s); [congruence|].
    destruct Hctx as (rid & -> & Hv & He & Hl & ->). cbn [ok_or mbind result_bind].
    rewrite (proj2 (header_value_new_Ok rid _) (conj Hv eq_refl)). cbn [map_err mbind result_bind].
    by apply encode_response_context_Ok.
Qed.

#[local] Transparent required_response_header encode_response_context trimmed_nonempty.

(** A reserved header read into a slot. *)
Lemma slot_values s hs l t h :
  schema_wf s -> location_wf (HeaderSchema.response_cipher s) ->
  collect s hs no_slots = Ok l -> slot_header s t = Some h ->
  forall raw, values_of h hs = [raw] <-> slot t l = Some raw.
Proof.
  intros Hs Hl Hc Hh raw. rewrite collect_fresh in Hc. specialize (Hc t).
  rewrite hits_values, Hh in Hc by done. rewrite Hc. destruct (slot t l); cbn; naive_solver.
Qed.

Lemma collect_total s hs :
  (forall t, (length (hits s t hs) <= 1)%nat) <-> exists l, collect s hs no_slots = Ok l.
Proof.
  setoid_rewrite collect_fresh. split.
  - intros H. exists {|
      signature := head (hits s TSignature hs); wrapped_session_key := head (hits s TWrappedKey hs);
      remote_signing_certificate_id := head (hits s TCertificate hs);
      cipher := head (hits s TCipher hs); request_id := head (hits s TRequestId hs) |}.
    intros t. specialize (H t). destruct t; cbn [slot signature wrapped_session_key
      remote_signing_certificate_id cipher request_id];
      destruct (hits _ _ _) as [|x [|]]; cbn in *; done || lia.
  - intros [l H] t. rewrite H. destruct (slot t l); cbn; lia.
Qed.

Lemma parse_response_run s hs body :
  parse_response (new s) (ResponseParts.new hs body) =
  (l ← collect s hs no_slots; finish_response (new s) body l).
Proof. done. Qed.

Lemma parse_reads s hs body l p :
  schema_wf s -> location_wf (HeaderSchema.response_cipher s) ->
  collect s hs no_slots = Ok l ->
  finish_response (new s) body l = Ok p <-> response_reads s hs body p.
Proof.
  intros Hs Hl Hc. rewrite finish_response_Ok.
  pose proof (slot_values s hs l TSignature _ Hs Hl Hc eq_refl) as V1.
  pose proof (slot_values s hs l TWrappedKey _ Hs Hl Hc eq_refl) as V2.
  pose proof (slot_values s hs l TCertificate _ Hs Hl Hc eq_refl) as V3.
  pose proof (slot_values s hs l TCipher) as V4. pose proof (slot_values s hs l TRequestId) as V5.
  cbn [slot slot_header] in *.
  assert (V4' : match HeaderSchema.response_cipher s with
    | CipherLocation.Body => True
    | CipherLocation.Header h => forall raw, values_of h hs = [raw] <-> cipher l = Some raw end)
    by (destruct (HeaderSchema.response_cipher s); [done|by apply V4]).
  assert (V5' : match HeaderSchema.authentication s with
    | HeaderAuthentication.Legacy => True
    | HeaderAuthentication.ContextBound => forall raw,
        values_of (HeaderSchema.request_id_header s) hs = [raw] <-> request_id l = Some raw end)
    by (destruct (HeaderSchema.authentication s); [done|by apply V5]).
  clear V4 V5. split.
  - intros (H1 & H2 & H3 & H4 & H5).
    setoid_rewrite <- V1 in H1. setoid_rewrite <- V2 in H2. setoid_rewrite <- V3 in H3.
    constructor; [done..| |].
    + destruct (HeaderSchema.response_cipher s); [done|]. by setoid_rewrite V4'.
    + destruct (HeaderSchema.authentication s); [done|]. by setoid_rewrite V5'.
  - intros [H1 H2 H3 H4 H5].
    setoid_rewrite V1 in H1. setoid_rewrite V2 in H2. setoid_rewrite V3 in H3.
    split; [done|]. split; [done|]. split; [done|]. split.
    + destruct (HeaderSchema.response_cipher s); [done|]. by setoid_rewrite <- V4'.
    + destruct (HeaderSchema.authentication s); [done|]. by setoid_rewrite <- V5'.
Qed.

Lemma values_reserved s hs :
  schema_wf s -> location_wf (HeaderSchema.response_cipher s) ->
  (forall h, h ∈ response_names s -> (length (values_of h hs) <= 1)%nat) <->
  exists l, collect s hs no_slots = Ok l.
Proof.
  intros Hs Hl. rewrite <- collect_total. split.
  - intros H t. rewrite hits_values by done. destruct (slot_header s t) eqn:E; [|cbn; lia].
    by eapply H, slot_header_reserved.
  - intros H h Hin. rewrite <- routes_names in Hin.
    apply list_elem_of_fmap in Hin as ([h' t] & -> & Hin). apply routes_slot_header in Hin.
    specialize (H t). by rewrite hits_values, Hin in H.
Qed.

Lemma response_reads_single s hs body p h :
  response_reads s hs body p -> h ∈ response_names s -> (length (values_of h hs) <= 1)%nat.
Proof.
  intros [(? & E1 & _) (? & E2 & _) (? & E3 & _) H4 H5]. unfold response_names.
  rewrite !elem_of_app, !elem_of_cons, elem_of_nil.
  intros [[->|[->|[->|[]]]]|[Hin|Hin]]; [by rewrite ?E1, ?E2, ?E3..| |].
  - unfold HeaderSchema.cipher_header in Hin.
    destruct (HeaderSchema.response_cipher s); [by apply elem_of_nil in Hin|].
    apply list_elem_of_singleton in Hin as ->. destruct H4 as (? & -> & _). done.
  - destruct (HeaderSchema.authentication s); [by apply elem_of_nil in Hin|].
    apply list_elem_of_singleton in Hin as ->. destruct H5 as (? & -> & _). done.
Qed.

Lemma parse_response_Ok s hs body p :
  schema_wf s -> location_wf (HeaderSchema.response_cipher s) ->
  parse_response (new s) (ResponseParts.new hs body) = Ok p <-> response_reads s hs body p.
Proof.
  intros Hs Hl. rewrite parse_response_run, bind_Ok. split.
  - intros (l & Hc & Hf). by apply (parse_reads s hs body l p Hs Hl Hc).
  - intros Hr. destruct (proj1 (values_reserved s hs Hs Hl)) as [l Hc].
    { intros h Hin. by eapply response_reads_single. }
    exists l. split; [done|]. by apply (parse_reads s hs body l p Hs Hl Hc).
Qed.

(** The errors of [parse_response]. *)
Definition response_error (e : AdapterError.t) : Prop :=
  AdapterError.kind e <> AdapterErrorKind.InvalidMapping.

Ltac response_step := fails_step ltac:(done).

Lemma parse_response_fails s r : fails_with response_error (parse_response (new s) r).
Proof.
  destruct r as [hs body]. rewrite parse_response_run. apply fails_bind.
  { by intros e ->%collect_Err. }
  intros l. unfold finish_response, required_response_header, encode_response_context,
    require_exact_trim, push_length_prefixed, trimmed_nonempty, ParsedResponse.new, bound_context.
  cbn [schema]. repeat first [response_step | case_match].
Qed.

End responses.

Section claims.
Context `{Sys : System}.

(** C15. A request built from a well-formed schema carries each field under its own
    header: identity, operation, request id, request time, API version, the three
    certificate ids, signature and wrapped key under the ten headers the schema maps
    them to, found under any casing; every static header; the cipher in its header or
    as the body, which is otherwise empty; and no other header, the names being
    distinct up to case.  Building succeeds exactly when no envelope text is blank
    and those values are valid header values, and otherwise fails with
    [InvalidField]. *)
Theorem build_request_spec s i c e :
  schema_wf s -> location_wf (HeaderSchema.request_cipher s) ->
  (is_ok (build_request (new s) i c e) = true <->
     envelope_nonblank e /\ Forall valid_value (request_values s i c e)) /\
  (forall p, build_request (new s) i c e = Ok p -> request_shows s i c e p) /\
  (forall err, build_request (new s) i c e = Err err ->
     err = AdapterError.new AdapterErrorKind.InvalidField).
Proof.
  intros Hs Hl. rewrite <- all_headers_values by done. split; [|split].
  - split.
    + destruct (build_request (new s) i c e) as [p|] eqn:E; [|done]. intros _.
      by apply build_request_Ok in E as (? & ? & _).
    + intros [He Hv]. by rewrite (proj2 (build_request_Ok s i c e _ Hs Hl) (conj He (conj Hv eq_refl))).
  - intros p. by apply built_request_shows.
  - intros [k] H. apply build_request_Err in H. cbn in H. by subst k.
Qed.

(** C13. [parse_response] succeeds exactly when every reserved response header
    (signature, wrapped key, certificate id, the cipher header if the cipher is not
    in the body, the request id if the schema is context bound) occurs exactly
    once up to ASCII case with a valid, non-blank value, and then returns the
    trimmed values and the response context of the untrimmed request id, which
    must have no surrounding whitespace.  A reserved header that occurs twice is
    [DuplicateField]; no failure is [InvalidMapping]. *)
Theorem parse_response_spec s hs body :
  schema_wf s -> location_wf (HeaderSchema.response_cipher s) ->
  (forall p, parse_response (new s) (ResponseParts.new hs body) = Ok p <->
     response_reads s hs body p) /\
  (forall h, h ∈ response_names s -> 2 <= len (values_of h hs) ->
     parse_response (new s) (ResponseParts.new hs body)
     = Err (AdapterError.new AdapterErrorKind.DuplicateField)) /\
  (forall e, parse_response (new s) (ResponseParts.new hs body) = Err e ->
     AdapterError.kind e <> AdapterErrorKind.InvalidMapping).
Proof.
  intros Hs Hl. split; [intros p; by apply parse_response_Ok|].
  split; [|apply parse_response_fails]. intros h Hin H2. rewrite parse_response_run.
  destruct (collect s hs no_slots) as [l|e] eqn:E; [|by apply collect_Err in E as ->].
  exfalso. pose proof (proj2 (values_reserved s hs Hs Hl) (ex_intro _ l E) h Hin).
  unfold len in H2. lia.
Qed.

(** C24. Parsing depends on the response headers only through the values each
    reserved name carries, as multisets: two header lists that agree on those give the
    same result, error or not.  In particular neither the order of the headers nor a
    header under a name the schema does not reserve changes the result. *)
Theorem parse_response_order_irrelevant s hs hs' body :
  schema_wf s -> location_wf (HeaderSchema.response_cipher s) ->
  ((forall h, h ∈ response_names s -> values_of h hs ≡ₚ values_of h hs') ->
   parse_response (new s) (ResponseParts.new hs body)
     = parse_response (new s) (ResponseParts.new hs' body)) /\
  (hs ≡ₚ hs' -> forall h, values_of h hs ≡ₚ values_of h hs') /\
  (forall n v, to_ascii_lowercase n ∉ canon (response_names s) ->
   parse_response (new s) (ResponseParts.new ((n, v) :: hs) body)
     = parse_response (new s) (ResponseParts.new hs body)).
Proof.
  intros Hs Hl. split; [|split].
  - intros Hv. rewrite !parse_response_run. rewrite (collect_hits s hs hs'); [done|].
    intros t. rewrite !hits_values by done. destruct (slot_header s t) as [h|] eqn:E; [|done].
    by eapply Hv, slot_header_reserved.
  - intros Hp h. unfold values_of. by rewrite Hp.
  - intros n v Hn. rewrite !parse_response_run. cbn [collect].
    destruct (target_of s n) as [t|] eqn:Et; [|done].
    apply target_of_iff in Et as (h & Hh & E); [|done..]. destruct Hn. rewrite E.
    apply list_elem_of_fmap. exists h. split; [done|]. by eapply slot_header_reserved.
Qed.

End claims.
