(* ===== verification/Client.v ===== *)
(** * The client facade (src/client.rs, src/request.rs)

    [SecureClient] composes a configuration, key material and a protocol adapter;
    [RequestBuilder] is its fluent front end.  The adapter is only seen through
    the [ProtocolAdapter] record and, in the theorems, through [AdapterLaws]. *)

From S2P Require Import Prelude.
From S2P Require Import Rust.
From S2P Require Import Text.
From S2P Require Import System.
From S2P Require Import Error.
From S2P Require Import Header.
From S2P Require Import Auth.
From S2P Require Import ClientConfig.
From S2P Require Import External.
From S2P Require Import Keys.
From S2P Require Import Message.
From S2P Require Import EnvelopeBase.
From S2P Require Import Envelope.
From S2P Require Import Adapter.
From S2P Require Import HeaderAdapter.

Definition authentication_matches_pin (mode : AuthenticationMode.t)
    (pinned : AdapterAuthentication.t) : bool :=
  match mode, pinned with
  | AuthenticationMode.LegacyPlaintext, AdapterAuthentication.LegacyPlaintext => true
  | AuthenticationMode.ContextBound _, AdapterAuthentication.ContextBound => true
  | _, _ => false
  end.

Definition serialize_json `{Sys : System} {T} `{Json T} (value : T) : Result (list byte) :=
  ok_or (json_to_writer value) Error.Serialization.

Module SecureClient.
Section client.
Context `{Sys : System} `{Ar : Arch} `{B64 : Base64} `{Cr : !Crypto}.

Record t := Build {
  config : ClientConfig.t;
  keys : KeyMaterial.t;
  adapter : ProtocolAdapter;
}.

Definition new (config : ClientConfig.t) (keys : KeyMaterial.t) (adapter : ProtocolAdapter) :
    Result t :=
  _ ← match Adapter.pinned_authentication adapter with
      | Some pinned =>
          if negb (authentication_matches_pin (ClientConfig.authentication_mode config) pinned)
          then Err Error.AuthenticationContext else Ok tt
      | None => Ok tt
      end;
  Ok (Build config keys adapter).

Definition seal (self : t) (plaintext : list byte) (context : AuthenticationContext.t) :
    IO SecureEnvelope.t :=
  Envelope.seal (config self) (keys self) plaintext context.

Definition open (self : t) (envelope : SecureEnvelope.t) (context : AuthenticationContext.t) :
    Result (list byte) :=
  Envelope.open (config self) (keys self) envelope context.

Definition build_request (self : t) (plaintext : list byte)
    (request_context : RequestContext.t) : IO RequestParts.t :=
  let '(protocol_context, additional_headers) := RequestContext.into_parts request_context in
  authentication_context ← lift (map_err (fun _ => Error.ProtocolAdapter)
    (Adapter.request_authentication_context (adapter self)
       (ClientConfig.identity (config self)) protocol_context));
  envelope ← seal self plaintext authentication_context;
  request ← lift (map_err (fun _ => Error.ProtocolAdapter)
    (Adapter.build_request (adapter self) (ClientConfig.identity (config self))
       protocol_context envelope));
  _ ← lift (RequestParts.validate request);
  let '(appended, request) := RequestParts.append_checked request additional_headers in
  _ ← lift appended;
  mret request.

Definition build_json_request {T} `{Json T} (self : t) (value : T)
    (request_context : RequestContext.t) : IO RequestParts.t :=
  plaintext ← lift (serialize_json value);
  build_request self plaintext request_context.

Definition open_response (self : t) (response : ResponseParts.t) : Result (list byte) :=
  parsed ← map_err (fun _ => Error.ProtocolAdapter)
             (Adapter.parse_response (adapter self) response);
  if negb (bool_decide
       (ParsedResponse.remote_signing_certificate_id parsed
        = ClientIdentity.expected_remote_signing_certificate_id
            (ClientConfig.identity (config self))))
  then Err Error.ProtocolAdapter
  else open self (ParsedResponse.envelope parsed) (ParsedResponse.authentication_context parsed).

Definition open_json_response {T} `{Json T} (self : t) (response : ResponseParts.t) : Result T :=
  plaintext ← open_response self response;
  ok_or (json_from_slice plaintext) Error.Serialization.

End client.
End SecureClient.

Module RequestBuilder.
Section builder.
Context `{Sys : System} `{Ar : Arch} `{B64 : Base64} `{Cr : !Crypto}.

Record t := Build {
  client : SecureClient.t;
  operation : str;
  metadata_ : option RequestMetadata.t;
  headers : HeaderCollection.t;
}.

Definition new (client : SecureClient.t) (operation : str) : t :=
  Build client operation None HeaderCollection.default.

Definition metadata (self : t) (m : RequestMetadata.t) : t :=
  Build (client self) (operation self) (Some m) (headers self).

Definition header (self : t) (name value : str) : Result t :=
  hs ← HeaderCollection.insert (headers self) name value;
  Ok (Build (client self) (operation self) (metadata_ self) hs).

Definition into_context (self : t) : IO (SecureClient.t * RequestContext.t) :=
  metadata ← match metadata_ self with
             | Some metadata => mret metadata
             | None => RequestMetadata.generate
             end;
  context ← lift (RequestContext.from_parts (operation self) metadata
                    (HeaderCollection.into_pairs (headers self)));
  mret (client self, context).

Definition bytes (self : t) (plaintext : list byte) : IO RequestParts.t :=
  '(client, context) ← into_context self;
  SecureClient.build_request client plaintext context.

Definition json {T} `{Json T} (self : t) (value : T) : IO RequestParts.t :=
  '(client, context) ← into_context self;
  plaintext ← lift (serialize_json value);
  SecureClient.build_request client plaintext context.

End builder.
End RequestBuilder.

(** [SecureClient::request]. *)
Definition client_request `{Sys : System} `{Cr : !Crypto} (self : SecureClient.t)
    (operation : str) : RequestBuilder.t := RequestBuilder.new self operation.

(** ** The interface of an adapter *)

Definition context_kind (c : AuthenticationContext.t) : AdapterAuthentication.t :=
  match AuthenticationContext.kind c with
  | ContextKind.Legacy => AdapterAuthentication.LegacyPlaintext
  | ContextKind.Bound _ => AdapterAuthentication.ContextBound
  end.

(** What the client relies on.  [RequestParts] has no public constructor but
    [RequestParts::new], so every adapter satisfies [al_parts]; the other two laws
    are the documented meaning of a pinned kind. *)
Class AdapterLaws (a : ProtocolAdapter) : Prop := {
  al_parts i c e p :
    Adapter.build_request a i c e = Ok p -> collection_wf (RequestParts.headers p);
  al_request_pin i c ctx pin :
    Adapter.pinned_authentication a = Some pin ->
    Adapter.request_authentication_context a i c = Ok ctx -> context_kind ctx = pin;
  al_response_pin r p pin :
    Adapter.pinned_authentication a = Some pin ->
    Adapter.parse_response a r = Ok p ->
    context_kind (ParsedResponse.authentication_context p) = pin;
}.

#[export] Instance header_adapter_laws `{Sys : System} s :
  AdapterLaws (HeaderProtocolAdapter.as_adapter (HeaderProtocolAdapter.new s)).
Proof.
  constructor.
  - intros i c e p H. cbn in H. unfold HeaderProtocolAdapter.build_request in H.
    do 3 (apply bind_Ok in H as (? & _ & H)). case_match. apply map_err_Ok in H.
    apply request_parts_new_Ok in H as [Hv ->]. by apply collection_of_wf.
  - intros i c ctx pin [= <-]. cbn. unfold HeaderProtocolAdapter.request_authentication_context.
    cbn. case_match; [by intros [= <-]|]. by intros (_ & _ & _ & _ & ->)%encode_request_context_Ok.
  - intros [hs body] p pin [= <-] H.
    change (HeaderProtocolAdapter.parse_response (HeaderProtocolAdapter.new s)
              (ResponseParts.new hs body) = Ok p) in H.
    rewrite parse_response_run in H. apply bind_Ok in H as (l & _ & H). apply finish_response_Ok in H as (_ & _ & _ & _ & H).
    cbn. case_match; [by rewrite H|]. by destruct H as (rid & _ & _ & _ & _ & ->).
Qed.

(** A schema and an authentication mode agree on whether contexts are bound. *)
Definition schema_agrees (s : HeaderSchema.t) (m : AuthenticationMode.t) : Prop :=
  is_context_bound m
  = bool_decide (HeaderSchema.authentication s = HeaderAuthentication.ContextBound).

#[export] Instance schema_agrees_dec s m : Decision (schema_agrees s m).
Proof. unfold schema_agrees. apply _. Defined.

Section header_pin.
Context `{Sys : System} `{Ar : Arch} `{B64 : Base64} `{Cr : !Crypto}.

Lemma header_new s c k :
  let a := HeaderProtocolAdapter.as_adapter (HeaderProtocolAdapter.new s) in
  SecureClient.new c k a =
  if decide (schema_agrees s (ClientConfig.authentication_mode c))
  then Ok (SecureClient.Build c k a) else Err Error.AuthenticationContext.
Proof.
  intros a. unfold SecureClient.new. cbn. unfold HeaderProtocolAdapter.pinned_authentication. cbn.
  case_decide as Ha; unfold schema_agrees in Ha;
    by destruct (ClientConfig.authentication_mode c), (HeaderSchema.authentication s).
Qed.

(** The contexts the header adapter supplies are of its schema's kind. *)
Lemma header_kind s m ctx :
  context_kind ctx = match HeaderSchema.authentication s with
                     | HeaderAuthentication.Legacy => AdapterAuthentication.LegacyPlaintext
                     | HeaderAuthentication.ContextBound => AdapterAuthentication.ContextBound
                     end ->
  kinds_match m ctx = bool_decide (schema_agrees s m).
Proof.
  unfold context_kind, kinds_match. case_bool_decide as Ha; unfold schema_agrees in Ha;
    by destruct m, (HeaderSchema.authentication s), (AuthenticationContext.kind ctx).
Qed.

Lemma header_request_kind s i pc ctx m :
  HeaderProtocolAdapter.request_authentication_context (HeaderProtocolAdapter.new s) i pc
    = Ok ctx ->
  kinds_match m ctx = bool_decide (schema_agrees s m).
Proof.
  intros H. apply header_kind.
  by apply (al_request_pin (a := HeaderProtocolAdapter.as_adapter (HeaderProtocolAdapter.new s)) i pc).
Qed.

Lemma header_response_kind s r q m :
  HeaderProtocolAdapter.parse_response (HeaderProtocolAdapter.new s) r = Ok q ->
  kinds_match m (ParsedResponse.authentication_context q) = bool_decide (schema_agrees s m).
Proof.
  intros H. apply header_kind.
  by apply (al_response_pin (a := HeaderProtocolAdapter.as_adapter (HeaderProtocolAdapter.new s)) r).
Qed.

End header_pin.

(** ** Building requests *)

Section building.
Context `{Sys : System} `{Ar : Arch} `{B64 : Base64} `{Cr : !Crypto}.
Import SecureClient.

Lemma append_checked_wf_eq base extra body :
  collection_wf base -> collection_wf extra ->
  RequestParts.append_checked (RequestParts.Build base body) extra =
  if decide (Exists (fun n => n ∈ canonical_names extra) (canonical_names base))
  then (Err Error.HeaderConflict, RequestParts.Build base body)
  else (Ok tt, RequestParts.Build (HeaderCollection.Build
          (HeaderCollection.entries base ++ HeaderCollection.entries extra)) body).
Proof.
  intros Hb He. unfold RequestParts.append_checked, HeaderCollection.append_checked. cbn.
  rewrite (revalidate_wf _ Hb), (revalidate_wf _ He).
  pose proof (clash_iff base extra) as Hc.
  destruct (existsb _ (HeaderCollection.entries extra)); cbn; case_decide as Hd; try done;
    rewrite Exists_exists in Hd.
  - exfalso. by apply Hd, Hc.
  - assert (false = true) by (by apply Hc). done.
Qed.

Lemma build_request_eq self p rc w `{!AdapterLaws (adapter self)} :
  collection_wf (RequestContext.additional_headers rc) ->
  build_request self p rc w =
  match Adapter.request_authentication_context (adapter self)
          (ClientConfig.identity (config self)) (RequestContext.protocol rc) with
  | Err _ => (Err Error.ProtocolAdapter, w)
  | Ok ctx =>
      match seal self p ctx w with
      | (Err err, w') => (Err err, w')
      | (Ok e, w') =>
          match Adapter.build_request (adapter self) (ClientConfig.identity (config self))
                  (RequestContext.protocol rc) e with
          | Err _ => (Err Error.ProtocolAdapter, w')
          | Ok base =>
              if decide (Exists (fun n => n ∈ canonical_names (RequestContext.additional_headers rc))
                           (canonical_names (RequestParts.headers base)))
              then (Err Error.HeaderConflict, w')
              else (Ok (RequestParts.Build (HeaderCollection.Build
                      (HeaderCollection.entries (RequestParts.headers base) ++
                       HeaderCollection.entries (RequestContext.additional_headers rc)))
                      (RequestParts.body base)), w')
          end
      end
  end.
Proof.
  intros Hx. unfold build_request, RequestContext.into_parts, lift, mbind, io_bind.
  destruct (Adapter.request_authentication_context _ _ _) as [ctx|]; cbn [map_err]; [|done].
  destruct (seal self p ctx w) as [[e|err] w']; [|done].
  destruct (Adapter.build_request _ _ _ _) as [base|] eqn:Eb; cbn [map_err]; [|done].
  apply al_parts in Eb. unfold RequestParts.validate. rewrite (revalidate_wf _ Eb).
  destruct base as [base body]. cbn [RequestParts.headers RequestParts.body] in *.
  rewrite append_checked_wf_eq by done. by case_decide.
Qed.

Lemma header_preserved base body extra n v :
  RequestParts.header (RequestParts.Build base body) n = Some v ->
  RequestParts.header (RequestParts.Build (HeaderCollection.Build
    (HeaderCollection.entries base ++ extra)) body) n = Some v.
Proof.
  unfold RequestParts.header. cbn [RequestParts.headers].
  rewrite get_app. destruct base as [es]. cbn [HeaderCollection.entries].
  by destruct (HeaderCollection.get (HeaderCollection.Build es) n).
Qed.

End building.

(** ** The peer's view of a request *)

Section peer.
Context `{Sys : System}.

(** What a peer that knows the schema reads from the request parts. *)
Definition read_envelope (s : HeaderSchema.t) (parts : RequestParts.t) : option SecureEnvelope.t :=
  sig ← RequestParts.header parts (HeaderName.original (HeaderSchema.request_signature_header s));
  wk ← RequestParts.header parts (HeaderName.original (HeaderSchema.request_wrapped_key_header s));
  cipher ← match HeaderSchema.request_cipher s with
           | CipherLocation.Body => Some (RequestParts.body parts)
           | CipherLocation.Header h => RequestParts.header parts (HeaderName.original h)
           end;
  Some (SecureEnvelope.Build cipher wk sig).

(** The authentication context it recomputes from the received headers. *)
Definition read_context (s : HeaderSchema.t) (parts : RequestParts.t) :
    option AuthenticationContext.t :=
  match HeaderSchema.authentication s with
  | HeaderAuthentication.Legacy => Some AuthenticationContext.legacy
  | HeaderAuthentication.ContextBound =>
      op ← RequestParts.header parts (HeaderName.original (HeaderSchema.operation_header s));
      rid ← RequestParts.header parts (HeaderName.original (HeaderSchema.request_id_header s));
      match encode_request_context op rid with Ok c => Some c | Err _ => None end
  end.

Lemma adapter_parts_read s i c e base extra :
  schema_wf s -> location_wf (HeaderSchema.request_cipher s) ->
  HeaderProtocolAdapter.build_request (HeaderProtocolAdapter.new s) i c e = Ok base ->
  let parts := RequestParts.Build (HeaderCollection.Build
    (HeaderCollection.entries (RequestParts.headers base) ++ extra)) (RequestParts.body base) in
  read_envelope s parts = Some e /\
  RequestParts.header parts (HeaderName.original (HeaderSchema.operation_header s))
    = Some (ProtocolRequestContext.operation c) /\
  RequestParts.header parts (HeaderName.original (HeaderSchema.request_id_header s))
    = Some (RequestMetadata.request_id (ProtocolRequestContext.metadata c)).
Proof.
  intros Hs Hl (_ & Hv & ->)%build_request_Ok; [|done..]. intros parts.
  apply all_headers_valid in Hv; [|done..].
  assert (Hfind : forall n v, pair n v ∈ all_headers s i c e ->
    RequestParts.header parts (HeaderName.original n) = Some v).
  { intros n v Hin. apply header_preserved. by eapply parts_lookup. }
  unfold read_envelope. unfold all_headers, HeaderProtocolAdapter.mapped_headers in Hfind.
  rewrite (Hfind (HeaderSchema.request_signature_header s) (SecureEnvelope.signature e))
    by set_solver.
  rewrite (Hfind (HeaderSchema.request_wrapped_key_header s) (SecureEnvelope.wrapped_session_key e))
    by set_solver.
  rewrite (Hfind (HeaderSchema.operation_header s) (ProtocolRequestContext.operation c))
    by set_solver.
  rewrite (Hfind (HeaderSchema.request_id_header s)
    (RequestMetadata.request_id (ProtocolRequestContext.metadata c))) by set_solver.
  split; [|done]. cbn [mbind option_bind].
  assert (RequestParts.body parts = request_body s e) as -> by done.
  unfold request_body. clearbody parts.
  destruct (HeaderSchema.request_cipher s) as [|h] eqn:Ec; cbn [mbind option_bind].
  - by destruct e.
  - rewrite (Hfind h (SecureEnvelope.cipher e)); [by destruct e|].
    unfold cipher_pair. set_solver.
Qed.

End peer.

(** ** The peer's response *)

(** The context a peer seals a response under. *)
Definition response_context `{Sys : System} (s : HeaderSchema.t) (rid : str) :
    AdapterResult AuthenticationContext.t :=
  match HeaderSchema.authentication s with
  | HeaderAuthentication.Legacy => Ok AuthenticationContext.legacy
  | HeaderAuthentication.ContextBound => encode_response_context rid
  end.

(** A response that carries an envelope under a schema, possibly among others. *)
Record response_carries (s : HeaderSchema.t) (e : SecureEnvelope.t) (cert rid : str)
    (hs : list (str * str)) (body : str) : Prop := {
  rc_signature :
    values_of (HeaderSchema.response_signature_header s) hs = [SecureEnvelope.signature e];
  rc_wrapped_session_key :
    values_of (HeaderSchema.response_wrapped_key_header s) hs
      = [SecureEnvelope.wrapped_session_key e];
  rc_certificate :
    values_of (HeaderSchema.response_remote_signing_certificate_header s) hs = [cert];
  rc_cipher :
    match HeaderSchema.response_cipher s with
    | CipherLocation.Body => body = SecureEnvelope.cipher e
    | CipherLocation.Header h => values_of h hs = [SecureEnvelope.cipher e]
    end;
  rc_request_id :
    HeaderSchema.authentication s = HeaderAuthentication.ContextBound ->
    values_of (HeaderSchema.request_id_header s) hs = [rid] /\ valid_value rid;
}.

Section responses.
Context `{Sys : System} `{B64 : Base64} `{!Base64Laws B64}.

Lemma base64_text_field s : base64_text s -> field_text s s.
Proof.
  intros H. split; [|split; [by apply base64_text_trim|by apply base64_text_nonempty]].
  eapply Forall_impl; [by apply base64_text_plain|]. intros c [_ Hc]. apply graphic_value. lia.
Qed.

Lemma carried_response_parses s e cert rid hs body ctx :
  schema_wf s -> location_wf (HeaderSchema.response_cipher s) ->
  response_carries s e cert rid hs body -> response_context s rid = Ok ctx ->
  valid_value cert -> exact_text cert ->
  field_text (SecureEnvelope.cipher e) (SecureEnvelope.cipher e) ->
  field_text (SecureEnvelope.wrapped_session_key e) (SecureEnvelope.wrapped_session_key e) ->
  field_text (SecureEnvelope.signature e) (SecureEnvelope.signature e) ->
  HeaderProtocolAdapter.parse_response (HeaderProtocolAdapter.new s) (ResponseParts.new hs body)
  = Ok (ParsedResponse.Build e cert ctx).
Proof.
  intros Hs Hl [H1 H2 H3 H4 H5] Hctx Hv [Hne Ht] B1 B2 B3.
  apply parse_response_Ok; [done..|]. constructor; cbn [ParsedResponse.envelope
    ParsedResponse.remote_signing_certificate_id ParsedResponse.authentication_context].
  - by eexists.
  - by eexists.
  - by exists cert.
  - destruct (HeaderSchema.response_cipher s); [|by eexists]. subst body. split; apply B1.
  - unfold response_context in Hctx. destruct (HeaderSchema.authentication s); [congruence|].
    destruct (H5 eq_refl) as [Hr Hrv].
    apply encode_response_context_Ok in Hctx as (? & ? & ->). eauto 10.
Qed.

End responses.

Section opening.
Context `{Sys : System} `{Ar : Arch} `{B64 : Base64} `{Cr : !Crypto}.
Import SecureClient.

(** A well-formed response that names the pinned certificate is opened as it is. *)
Lemma open_response_carried s self e rid ctx hs body :
  schema_wf s -> location_wf (HeaderSchema.response_cipher s) ->
  adapter self = HeaderProtocolAdapter.as_adapter (HeaderProtocolAdapter.new s) ->
  response_context s rid = Ok ctx ->
  let cert := ClientIdentity.expected_remote_signing_certificate_id
                (ClientConfig.identity (config self)) in
  valid_value cert -> exact_text cert ->
  response_carries s e cert rid hs body ->
  field_text (SecureEnvelope.cipher e) (SecureEnvelope.cipher e) ->
  field_text (SecureEnvelope.wrapped_session_key e) (SecureEnvelope.wrapped_session_key e) ->
  field_text (SecureEnvelope.signature e) (SecureEnvelope.signature e) ->
  open_response self (ResponseParts.new hs body) = open self e ctx.
Proof.
  intros Hs Hl Ha Hctx cert Hv Ht Hr B1 B2 B3. unfold open_response. rewrite Ha.
  cbn [HeaderProtocolAdapter.as_adapter Adapter.parse_response].
  rewrite (carried_response_parses s e cert rid hs body ctx) by done.
  cbn [map_err mbind result_bind ParsedResponse.remote_signing_certificate_id
    ParsedResponse.envelope ParsedResponse.authentication_context].
  by rewrite bool_decide_true.
Qed.

(** With the header adapter, a pinned certificate id with surrounding whitespace
    matches no response, and an identity that is no header value blocks every
    request. *)
Lemma untrimmed_certificate_rejects s self r p :
  adapter self = HeaderProtocolAdapter.as_adapter (HeaderProtocolAdapter.new s) ->
  str_trim (ClientIdentity.expected_remote_signing_certificate_id
              (ClientConfig.identity (config self)))
    <> ClientIdentity.expected_remote_signing_certificate_id (ClientConfig.identity (config self)) ->
  open_response self r <> Ok p.
Proof.
  intros Ha Ht H. unfold open_response in H. rewrite Ha in H.
  apply bind_Ok in H as (parsed & Hp%map_err_Ok & H).
  case_bool_decide as Hc; [|done]. clear H.
  cbn [HeaderProtocolAdapter.as_adapter Adapter.parse_response] in Hp.
  destruct r as [hs body]. rewrite parse_response_run in Hp. apply bind_Ok in Hp as (l & _ & Hp).
  apply finish_response_Ok in Hp as (_ & _ & (raw & _ & _ & Hr & _) & _).
  apply Ht. rewrite <- Hc, <- Hr. apply str_trim_idemp.
Qed.

Lemma invalid_identity_fails s self p rc w parts w' :
  schema_wf s -> location_wf (HeaderSchema.request_cipher s) ->
  adapter self = HeaderProtocolAdapter.as_adapter (HeaderProtocolAdapter.new s) ->
  ~ valid_value (ClientIdentity.local_identity_id (ClientConfig.identity (config self))) ->
  collection_wf (RequestContext.additional_headers rc) ->
  build_request self p rc w <> (Ok parts, w').
Proof.
  intros Hs Hl Ha Hv Hx H.
  rewrite build_request_eq in H by (try done; rewrite Ha; apply _).
  rewrite Ha in H. cbn [HeaderProtocolAdapter.as_adapter Adapter.request_authentication_context
    Adapter.build_request] in H.
  destruct (HeaderProtocolAdapter.request_authentication_context _ _ _) as [ctx|]; [|done].
  destruct (seal self p ctx w) as [[e|] w1]; [|done].
  destruct (HeaderProtocolAdapter.build_request _ _ _ e) as [base|] eqn:Eb; [|done].
  apply build_request_Ok in Eb as (_ & Hf & _); [|done..].
  apply all_headers_values in Hf; [|done]. apply Hv. by inversion Hf.
Qed.

End opening.

Section claims.
Context `{Sys : System} `{Ar : Arch} `{B64 : Base64} `{Cr : !Crypto}.
Import SecureClient.

(** C37. The pin check refuses exactly the useless clients.  With the header adapter,
    [SecureClient::new] succeeds when the schema and the configuration agree on
    whether contexts are bound; then no request fails for its context, as long as its
    transcript fits in memory.  When they disagree it fails with
    [Error::AuthenticationContext], and rightly so: such a client would refuse to seal
    under every context the adapter supplies, before drawing randomness, and would
    open no response the adapter parses. *)
Theorem client_new_pin_check `{!SystemLaws Sys} `{!Base64Laws B64} `{!CryptoLaws Cr} s c k :
  let a := HeaderProtocolAdapter.as_adapter (HeaderProtocolAdapter.new s) in
  config_wf c ->
  (schema_agrees s (ClientConfig.authentication_mode c) ->
   SecureClient.new c k a = Ok (SecureClient.Build c k a) /\
   forall p rc w err w',
     collection_wf (RequestContext.additional_headers rc) ->
     (forall ctx, Adapter.request_authentication_context a (ClientConfig.identity c)
        (RequestContext.protocol rc) = Ok ctx ->
      80 + len (domain_of (ClientConfig.authentication_mode c)) + len (context_of ctx) + len p
        <= usize_max) ->
     build_request (SecureClient.Build c k a) p rc w = (Err err, w') ->
     err <> Error.AuthenticationContext) /\
  (~ schema_agrees s (ClientConfig.authentication_mode c) ->
   SecureClient.new c k a = Err Error.AuthenticationContext /\
   (forall i pc ctx p w, Adapter.request_authentication_context a i pc = Ok ctx ->
      len p <= ClientConfig.max_plaintext_bytes c ->
      Envelope.seal c k p ctx w = (Err Error.AuthenticationContext, w)) /\
   (forall r q p, Adapter.parse_response a r = Ok q ->
      Envelope.open c k (ParsedResponse.envelope q) (ParsedResponse.authentication_context q)
      <> Ok p)).
Proof.
  intros a (_ & _ & _ & Hm & _). unfold a. rewrite header_new. split; intros Ha.
  - rewrite decide_True by done. split; [done|]. intros p rc w err w' Hx Hz H.
    rewrite build_request_eq in H by (try done; apply _). cbn [adapter config] in H.
    destruct (Adapter.request_authentication_context _ _ _) as [ctx|] eqn:Ec; [|congruence].
    destruct (seal _ p ctx w) as [[e|err'] w1] eqn:Es; [repeat case_match; congruence|].
    apply seal_right_kind_Err in Es; [naive_solver|done| |by apply Hz].
    rewrite (header_request_kind s _ _ _ _ Ec). by apply bool_decide_eq_true.
  - rewrite decide_False by done. rewrite <- (bool_decide_eq_false (schema_agrees s _)) in Ha. split; [done|]. split.
    + intros i pc ctx p w Ec Hp. apply seal_wrong_kind; [done| |done].
      by rewrite (header_request_kind s _ _ _ _ Ec).
    + intros r q p Hq. apply open_wrong_kind. by rewrite (header_response_kind s _ _ _ Hq).
Qed.

(** C12. [SecureClient::build_request] for any lawful adapter, on every branch: an
    adapter failure is [Error::ProtocolAdapter], before sealing (nothing drawn) or
    after; a sealing failure is returned as it is; otherwise the result is the
    adapter's headers followed by the caller's, and [Error::HeaderConflict] exactly
    when they share a name up to ASCII case.  So every header the adapter set is
    found unchanged in the result: a caller can never override one. *)
Theorem client_build_request_spec self p rc w :
  AdapterLaws (adapter self) ->
  collection_wf (RequestContext.additional_headers rc) ->
  build_request self p rc w =
  match Adapter.request_authentication_context (adapter self)
          (ClientConfig.identity (config self)) (RequestContext.protocol rc) with
  | Err _ => (Err Error.ProtocolAdapter, w)
  | Ok ctx =>
      match seal self p ctx w with
      | (Err err, w') => (Err err, w')
      | (Ok e, w') =>
          match Adapter.build_request (adapter self) (ClientConfig.identity (config self))
                  (RequestContext.protocol rc) e with
          | Err _ => (Err Error.ProtocolAdapter, w')
          | Ok base =>
              if decide (Exists (fun n => n ∈ canonical_names (RequestContext.additional_headers rc))
                           (canonical_names (RequestParts.headers base)))
              then (Err Error.HeaderConflict, w')
              else (Ok (RequestParts.Build (HeaderCollection.Build
                      (HeaderCollection.entries (RequestParts.headers base) ++
                       HeaderCollection.entries (RequestContext.additional_headers rc)))
                      (RequestParts.body base)), w')
          end
      end
  end /\
  (forall base extra body n v,
     RequestParts.header (RequestParts.Build base body) n = Some v ->
     RequestParts.header (RequestParts.Build (HeaderCollection.Build
       (HeaderCollection.entries base ++ extra)) body) n = Some v).
Proof. intros Ha Hx. split; [by apply build_request_eq|]. intros. by apply header_preserved. Qed.

(** C10. What [SecureClient::open_response] returns was authenticated: the response
    parsed, it names the pinned signing certificate, and its signature verifies
    under the pinned key over the transcript of the configured domain, the parsed
    context and the returned bytes.  Every failure is [Error::ProtocolAdapter]
    (parsing or certificate id), [Error::MessageTooLarge] or
    [Error::InvalidEnvelope]. *)
Theorem client_open_response_authentic `{!SystemLaws Sys} `{!Base64Laws B64} `{!CryptoLaws Cr}
    self r :
  (forall p, open_response self r = Ok p ->
     exists parsed,
       Adapter.parse_response (adapter self) r = Ok parsed /\
       ParsedResponse.remote_signing_certificate_id parsed =
         ClientIdentity.expected_remote_signing_certificate_id
           (ClientConfig.identity (config self)) /\
       len p <= ClientConfig.max_plaintext_bytes (config self) /\
       signature_covers (config self) (keys self)
         (ParsedResponse.authentication_context parsed) (ParsedResponse.envelope parsed) p) /\
  (forall err, open_response self r = Err err ->
     err = Error.ProtocolAdapter \/ err = Error.InvalidEnvelope \/
     err = Error.MessageTooLarge (ClientConfig.max_plaintext_bytes (config self))).
Proof.
  unfold open_response. split.
  - intros p (parsed & Hp%map_err_Ok & H)%bind_Ok. case_bool_decide as Hc; [|done].
    cbn [negb] in H. unfold open in H. rewrite open_mode in H. apply pm_authentic in H as [? ?].
    eauto 10.
  - intros err [(? & _ & ->)%map_err_Err|(parsed & _ & H)]%bind_Err; [auto|].
    case_bool_decide; cbn [negb] in H; [|left; congruence]. unfold open in H.
    apply envelope_open_Err in H as ->. case_match; auto.
Qed.

(** C8. A request arrives: a peer with the same schema that is the client's
    counterpart reads the envelope from the headers and body of a built request,
    recomputes the authentication context from the operation and request id it
    received, and opens the envelope to exactly the plaintext, whatever headers the
    caller added. *)
Theorem request_end_to_end `{!SystemLaws Sys} `{!Base64Laws B64} `{!CryptoLaws Cr}
    s self cr kr p rc w parts w' :
  schema_wf s -> location_wf (HeaderSchema.request_cipher s) ->
  adapter self = HeaderProtocolAdapter.as_adapter (HeaderProtocolAdapter.new s) ->
  collection_wf (RequestContext.additional_headers rc) ->
  counterpart (config self) (keys self) cr kr -> config_wf cr ->
  len p <= ClientConfig.max_plaintext_bytes cr ->
  build_request self p rc w = (Ok parts, w') ->
  exists e ctx,
    read_envelope s parts = Some e /\ read_context s parts = Some ctx /\
    (representable e -> Envelope.open cr kr e ctx = Ok p).
Proof.
  intros Hs Hl Ha Hx Hc Hw Hp H.
  rewrite build_request_eq in H by (try done; rewrite Ha; apply _).
  rewrite Ha in H. cbn [HeaderProtocolAdapter.as_adapter Adapter.request_authentication_context
    Adapter.build_request] in H.
  destruct (HeaderProtocolAdapter.request_authentication_context _ _ _) as [ctx|] eqn:Ectx; [|done].
  destruct (seal self p ctx w) as [[e|] w1] eqn:Es; [|done].
  destruct (HeaderProtocolAdapter.build_request _ _ _ e) as [base|] eqn:Eb; [|done].
  case_decide; [done|]. injection H as <- <-.
  destruct (adapter_parts_read _ _ _ _ _
    (HeaderCollection.entries (RequestContext.additional_headers rc)) Hs Hl Eb) as (He & Ho & Hr).
  exists e, ctx. split; [done|]. split.
  - unfold read_context. rewrite Ho, Hr. cbn [mbind option_bind].
    unfold HeaderProtocolAdapter.request_authentication_context in Ectx. cbn in Ectx.
    destruct (HeaderSchema.authentication s); [by injection Ectx as <-|]. by rewrite Ectx.
  - intros Hrep. apply seal_mode_Ok in Es as [Hlen Es]. rewrite open_mode.
    rewrite (cp_envelope_mode _ _ _ _ Hc). destruct Hw as (_ & _ & _ & _ & _ & _ & Hm & _).
    by eapply pm_round_trip; [|lia|..].
Qed.

(** C9. A response arrives: when the client's counterpart seals a response under the
    context of the echoed request id and sends it under the schema's headers, in
    any order, among any other headers, [open_response] returns exactly the
    plaintext; and [open_json_response] then returns the value the plaintext
    encodes. *)
Theorem response_end_to_end `{!SystemLaws Sys} `{!Base64Laws B64} `{!CryptoLaws Cr}
    {T} `{J : Json T} s self cs ks p rid ctx w e w' hs body (v : T) :
  schema_wf s -> location_wf (HeaderSchema.response_cipher s) ->
  adapter self = HeaderProtocolAdapter.as_adapter (HeaderProtocolAdapter.new s) ->
  counterpart cs ks (config self) (keys self) -> config_wf (config self) ->
  len p <= ClientConfig.max_plaintext_bytes (config self) ->
  response_context s rid = Ok ctx ->
  Envelope.seal cs ks p ctx w = (Ok e, w') -> representable e ->
  let cert := ClientIdentity.expected_remote_signing_certificate_id
                (ClientConfig.identity (config self)) in
  valid_value cert -> exact_text cert ->
  response_carries s e cert rid hs body ->
  open_response self (ResponseParts.new hs body) = Ok p /\
  (json_from_slice p = Some v ->
   open_json_response self (ResponseParts.new hs body) = Ok v).
Proof.
  intros Hs Hl Ha Hc Hw Hp Hctx He Hrep cert Hv Ht Hr.
  assert (Ho : open_response self (ResponseParts.new hs body) = Ok p).
  { pose proof He as [_ Hm]%seal_mode_Ok. destruct (pm_texts _ _ _ _ _ _ _ Hm) as (B1 & B2 & B3).
    erewrite open_response_carried by (try done; by apply base64_text_field).
    by eapply open_sealed. }
  split; [done|]. intros Hj. unfold open_json_response. rewrite Ho. cbn. by rewrite Hj.
Qed.

(** The fluent builder adds nothing of its own: [RequestBuilder::bytes] is
    [RequestContextBuilder::build] with the same operation, metadata and headers
    followed by [SecureClient::build_request]; [RequestBuilder::json] is [bytes] on
    the serialized value, and when serialization fails it reports
    [Error::Serialization] unless the context already failed. *)
Theorem request_builder_equiv {T} `{J : Json T} b (v : T) w :
  let context_builder :=
    RequestContextBuilder.Build (RequestBuilder.operation b) (RequestBuilder.metadata_ b)
      (RequestBuilder.headers b) in
  (forall p, RequestBuilder.bytes b p w =
     (rc ← RequestContextBuilder.build context_builder;
      build_request (RequestBuilder.client b) p rc) w) /\
  match json_to_writer v with
  | Some p => RequestBuilder.json b v w = RequestBuilder.bytes b p w
  | None =>
      RequestBuilder.json b v w =
      match RequestContextBuilder.build context_builder w with
      | (Ok _, w') => (Err Error.Serialization, w')
      | (Err err, w') => (Err err, w')
      end
  end.
Proof.
  unfold RequestBuilder.bytes, RequestBuilder.json, RequestBuilder.into_context,
    RequestContextBuilder.build, serialize_json, mbind, io_bind, mret, io_ret, lift. cbn.
  split.
  - intros p. destruct (RequestBuilder.metadata_ b).
    + by destruct (RequestContext.from_parts _ _ _).
    + destruct (RequestMetadata.generate w) as [[m|] w1]; [|done].
      by destruct (RequestContext.from_parts _ _ _).
  - destruct (json_to_writer v); cbn; destruct (RequestBuilder.metadata_ b);
      try (by destruct (RequestContext.from_parts _ _ _));
      destruct (RequestMetadata.generate w) as [[m|] w1]; try done;
      by destruct (RequestContext.from_parts _ _ _).
Qed.

(** C40. A gap in the identity checks.  Take any builder that builds, and append a
    space to its pinned remote certificate id, or a control character to its local
    identity: [ClientConfigBuilder::build] still accepts it, and [SecureClient::new]
    accepts the configuration for the header adapter whenever it accepted the
    original.  But the first client rejects every response, and the second fails to
    build any request. *)
Theorem unusable_identities_accepted s b c :
  let a := HeaderProtocolAdapter.as_adapter (HeaderProtocolAdapter.new s) in
  schema_wf s -> location_wf (HeaderSchema.request_cipher s) ->
  ClientConfigBuilder.build b = Ok c ->
  (exists c1,
     ClientConfigBuilder.build (ClientConfigBuilder.expected_remote_signing_certificate_id b
       (ClientIdentity.expected_remote_signing_certificate_id (ClientConfig.identity c) ++ lit " "))
     = Ok c1 /\
     (forall k, is_ok (SecureClient.new c1 k a) = is_ok (SecureClient.new c k a)) /\
     forall k r p, open_response (SecureClient.Build c1 k a) r <> Ok p) /\
  (exists c2,
     ClientConfigBuilder.build (ClientConfigBuilder.local_identity_id b
       (ClientIdentity.local_identity_id (ClientConfig.identity c) ++ [char_of_Z 1]))
     = Ok c2 /\
     (forall k, is_ok (SecureClient.new c2 k a) = is_ok (SecureClient.new c k a)) /\
     forall k p rc w parts w', collection_wf (RequestContext.additional_headers rc) ->
       build_request (SecureClient.Build c2 k a) p rc w <> (Ok parts, w')).
Proof.
  intros a Hs Hl Hb. pose proof (proj1 (build_Ok b c) Hb) as (_ & Hi & _).
  assert (Hnew : forall c' k,
    ClientConfig.authentication_mode c' = ClientConfig.authentication_mode c ->
    is_ok (SecureClient.new c' k a) = is_ok (SecureClient.new c k a)).
  { intros c' k E. unfold a. rewrite !header_new, E. by case_decide. }
  split.
  - destruct (build_other_certificate b c (ClientIdentity.expected_remote_signing_certificate_id
      (ClientConfig.identity c) ++ lit " ") Hb) as (c1 & H1 & Hv & Ha);
      [apply header_text_ok_snoc; [apply Hi|done]|].
    exists c1. split; [done|]. split; [intros k; by apply Hnew|]. intros k r p.
    apply (untrimmed_certificate_rejects s); [done|]. cbn [config]. rewrite Hv.
    by apply str_trim_snoc.
  - destruct (build_other_identity b c (ClientIdentity.local_identity_id
      (ClientConfig.identity c) ++ [char_of_Z 1]) Hb) as (c2 & H2 & Hv & Ha);
      [apply header_text_ok_snoc; [apply Hi|done]|].
    exists c2. split; [done|]. split; [intros k; by apply Hnew|]. intros k p rc w parts w' Hx.
    apply (invalid_identity_fails s); [done..| |done]. cbn [config]. rewrite Hv.
    unfold valid_value. intros [_ Hf]%Forall_app. by inversion Hf.
Qed.

End claims.
