(* ===== verification/Example.v ===== *)
(** * The example protocol (src/examples)

    [build_request.rs] and [open_response.rs] declare the same protocol adapter of
    the integrator's own and configure the same client; both are modelled once.
    The programs themselves are in ExamplePrograms.v. *)

From S2P Require Import Prelude.
From S2P Require Import Rust.
From S2P Require Import Text.
From S2P Require Import Parsing.
From S2P Require Import System.
From S2P Require Import Error.
From S2P Require Import Header.
From S2P Require Import Auth.
From S2P Require Import ClientConfig.
From S2P Require Import External.
From S2P Require Import Keys.
From S2P Require Import Calendar.
From S2P Require Import Message.
From S2P Require Import EnvelopeBase.
From S2P Require Import Envelope.
From S2P Require Import Adapter.
From S2P Require Import HeaderAdapter.
From S2P Require Import Client.

(** ** The adapter *)

Module ExampleContextAdapter.
Section adapter.
Context `{Sys : System}.

Definition request_context_text (operation request_id : str) : str :=
  lit "operation=" ++ operation ++ lit "&request-id=" ++ request_id.

Definition invalid_field : AdapterError.t := AdapterError.new AdapterErrorKind.InvalidField.

Definition request_authentication_context (_ : ClientIdentity.t)
    (context : ProtocolRequestContext.t) : AdapterResult AuthenticationContext.t :=
  map_err (fun _ => invalid_field)
    (AuthenticationContext.context_bound
       (utf8 (request_context_text (ProtocolRequestContext.operation context)
                (RequestMetadata.request_id (ProtocolRequestContext.metadata context))))).

Definition request_headers (identity : ClientIdentity.t) (context : ProtocolRequestContext.t)
    (envelope : SecureEnvelope.t) : list (str * str) :=
  [(lit "Content-Type", lit "application/example-envelope");
   (lit "X-Envelope-Local-Identity", ClientIdentity.local_identity_id identity);
   (lit "X-Envelope-Api-Version", ClientIdentity.api_version identity);
   (lit "X-Envelope-Local-Certificate", ClientIdentity.local_certificate_id identity);
   (lit "X-Envelope-Operation", ProtocolRequestContext.operation context);
   (lit "X-Envelope-Request-Id",
    RequestMetadata.request_id (ProtocolRequestContext.metadata context));
   (lit "X-Envelope-Request-Time",
    RequestMetadata.request_time (ProtocolRequestContext.metadata context));
   (lit "X-Envelope-Request-Signature", SecureEnvelope.signature envelope);
   (lit "X-Envelope-Request-Wrapped-Key", SecureEnvelope.wrapped_session_key envelope)].

Definition build_request (identity : ClientIdentity.t) (context : ProtocolRequestContext.t)
    (envelope : SecureEnvelope.t) : AdapterResult RequestParts.t :=
  map_err (fun _ => invalid_field)
    (RequestParts.new (request_headers identity context envelope)
       (SecureEnvelope.cipher envelope)).

(** The [header] closure: the first header of that name, in any case. *)
Definition response_header (response : ResponseParts.t) (name : str) : AdapterResult str :=
  ok_or (snd <$> List.find (fun '(candidate, _) => eq_ignore_ascii_case candidate name)
                   (ResponseParts.headers response))
    (AdapterError.new AdapterErrorKind.MissingField).

Definition response_context_text (request_id : str) : str := lit "request-id=" ++ request_id.

Definition parse_response (response : ResponseParts.t) : AdapterResult ParsedResponse.t :=
  let header := response_header response in
  wrapped_session_key ← header (lit "X-Envelope-Response-Wrapped-Key");
  signature ← header (lit "X-Envelope-Response-Signature");
  let envelope := SecureEnvelope.Build (ResponseParts.body response) wrapped_session_key signature in
  certificate ← header (lit "X-Envelope-Response-Remote-Signing-Certificate");
  request_id ← header (lit "X-Envelope-Request-Id");
  context ← map_err (fun _ => invalid_field)
              (AuthenticationContext.context_bound (utf8 (response_context_text request_id)));
  ParsedResponse.new envelope certificate context.

(** The [ProtocolAdapter] implementation; it keeps the default pin. *)
Definition as_adapter : ProtocolAdapter := {|
  Adapter.request_authentication_context := request_authentication_context;
  Adapter.pinned_authentication := default_pinned_authentication;
  Adapter.build_request := build_request;
  Adapter.parse_response := parse_response;
|}.

End adapter.
End ExampleContextAdapter.

(** ** The client *)

Section client.
Context `{Sys : System} `{Cr : !Crypto} `{Ar : Arch}.

Definition example_client (keys : KeyMaterial.t) : Result SecureClient.t :=
  let b := ClientConfigBuilder.default in
  let b := ClientConfigBuilder.local_identity_id b (lit "demo-client") in
  let b := ClientConfigBuilder.api_version b (lit "example-v1") in
  let b := ClientConfigBuilder.local_certificate_id b
             (lit "example-local-signing-certificate") in
  let b := ClientConfigBuilder.expected_remote_signing_certificate_id b
             (lit "example-remote-signing-certificate") in
  let b := ClientConfigBuilder.remote_encryption_certificate_id b
             (lit "example-remote-encryption-certificate") in
  let b := ClientConfigBuilder.local_signer_id b (bytes_lit "demo-local-signer") in
  let b := ClientConfigBuilder.expected_remote_signer_id b (bytes_lit "demo-remote-signer") in
  mode ← AuthenticationMode.context_bound (bytes_lit "example-app/envelope/v1");
  let b := ClientConfigBuilder.authentication_mode b mode in
  let b := ClientConfigBuilder.envelope_mode b (EnvelopeMode.Aead AeadAlgorithm.Sm4Gcm) in
  config ← ClientConfigBuilder.build b;
  SecureClient.new config keys ExampleContextAdapter.as_adapter.

End client.

(** ** Contexts of the example adapter *)

(** A separator that occurs in neither suffix determines both sides. *)
Lemma last_split {A} (x x' y y' : list A) c :
  c ∉ y -> c ∉ y' -> x ++ c :: y = x' ++ c :: y' -> x = x' /\ y = y'.
Proof.
  intros Hy Hy'. revert x'. induction x as [|a x IH]; intros [|a' x'] E; cbn in E.
  - by injection E.
  - injection E as -> ->. destruct Hy. rewrite elem_of_app. right. left.
  - injection E as -> <-. destruct Hy'. rewrite elem_of_app. right. left.
  - injection E as -> E. by destruct (IH _ E) as [-> ->].
Qed.

(** A separator that occurs in neither prefix does too. *)
Lemma first_split {A} (x x' y y' : list A) c :
  c ∉ x -> c ∉ x' -> x ++ c :: y = x' ++ c :: y' -> x = x' /\ y = y'.
Proof.
  revert x'. induction x as [|a x IH]; intros [|a' x'] Hx Hx' E; cbn in E.
  - by injection E.
  - injection E as -> _. destruct Hx'. left.
  - injection E as -> _. destruct Hx. left.
  - injection E as -> E. apply not_elem_of_cons in Hx as [_ Hx], Hx' as [_ Hx'].
    by destruct (IH _ Hx Hx' E) as [-> ->].
Qed.

Definition ampersand : char := char_of_Z 38.

Section contexts.
Context `{Sys : System}.
Import ExampleContextAdapter.

Lemma request_context_text_eq op rid :
  request_context_text op rid = (lit "operation=" ++ op) ++ ampersand :: lit "request-id=" ++ rid.
Proof. unfold request_context_text. by rewrite <- app_assoc. Qed.

Lemma ampersand_app pre s :
  bool_decide (ampersand ∈ pre) = false -> ampersand ∉ s -> ampersand ∉ pre ++ s.
Proof. intros Hp%bool_decide_eq_false H. rewrite elem_of_app. tauto. Qed.

Lemma request_context_text_inj op rid op' rid' :
  (ampersand ∉ rid /\ ampersand ∉ rid') \/ (ampersand ∉ op /\ ampersand ∉ op') ->
  request_context_text op rid = request_context_text op' rid' -> op = op' /\ rid = rid'.
Proof.
  rewrite !request_context_text_eq. intros H E.
  assert (lit "operation=" ++ op = lit "operation=" ++ op' /\
          lit "request-id=" ++ rid = lit "request-id=" ++ rid') as [E1 E2].
  { destruct H as [[H H']|[H H']].
    - by apply last_split in E; try apply ampersand_app.
    - by apply first_split in E; try apply ampersand_app. }
  by apply app_inv_head in E1, E2.
Qed.

Lemma request_context_eq i c :
  request_authentication_context i c =
  Ok (bound (utf8 (request_context_text (ProtocolRequestContext.operation c)
        (RequestMetadata.request_id (ProtocolRequestContext.metadata c))))).
Proof.
  unfold request_authentication_context, AuthenticationContext.context_bound.
  by rewrite bool_decide_false by (intros [=]%utf8_nil).
Qed.

(** A generated request id has no ampersand. *)
Lemma hex_no_ampersand bs : ampersand ∉ RequestMetadata.hex_id bs.
Proof.
  pose proof (hex_id_chars bs) as H. rewrite Forall_forall in H.
  intros Hin. by specialize (H _ Hin).
Qed.

(** C32. What the example's request context binds.  The adapter derives a context for
    every request.  Among request ids without an ampersand - every id
    [RequestMetadata::generate] makes, in particular - and likewise among operations
    without one, the context determines both the operation and the request id.  In
    general it does not: there are two valid requests with different operations and
    different request ids that share one context, so a signature over it does not
    tell a peer which of the two was meant. *)
Theorem example_context_binding :
  (forall i c, is_ok (request_authentication_context i c) = true) /\
  (forall i c i' c',
     let op := ProtocolRequestContext.operation in
     let rid c := RequestMetadata.request_id (ProtocolRequestContext.metadata c) in
     (ampersand ∉ rid c /\ ampersand ∉ rid c') \/ (ampersand ∉ op c /\ ampersand ∉ op c') ->
     request_authentication_context i c = request_authentication_context i' c' ->
     op c = op c' /\ rid c = rid c') /\
  (forall bs, ampersand ∉ RequestMetadata.hex_id bs) /\
  (exists op op' m m' c c',
     ProtocolRequestContext.new op m = Ok c /\ ProtocolRequestContext.new op' m' = Ok c' /\
     RequestMetadata.new (RequestMetadata.request_id m) (RequestMetadata.request_time m) = Ok m /\
     RequestMetadata.new (RequestMetadata.request_id m') (RequestMetadata.request_time m') = Ok m' /\
     op <> op' /\ RequestMetadata.request_id m <> RequestMetadata.request_id m' /\
     forall i, request_authentication_context i c = request_authentication_context i c').
Proof.
  split; [intros i c; by rewrite request_context_eq|]. split; [|split; [apply hex_no_ampersand|]].
  - intros i c i' c' op rid H. rewrite !request_context_eq. intros E.
    apply request_context_text_inj; [done|]. apply (inj utf8), bound_inj.
    by apply (inj Ok) in E.
  - exists (lit "pay"), (lit "pay&request-id=1"),
      (RequestMetadata.Build (lit "1&request-id=2") (lit "t")),
      (RequestMetadata.Build (lit "2") (lit "t")).
    do 2 eexists. do 4 (split; [reflexivity|]). split; [by vm_compute|]. split; [by vm_compute|].
    intros i. by rewrite !request_context_eq.
Qed.

End contexts.

(** ** The example client *)

#[export] Instance example_adapter_laws `{Sys : System} :
  AdapterLaws ExampleContextAdapter.as_adapter.
Proof.
  constructor; [|done..]. intros i c e p H. cbn in H. apply map_err_Ok in H.
  apply request_parts_new_Ok in H as [Hv ->]. by apply collection_of_wf.
Qed.

Definition example_identity : ClientIdentity.t :=
  ClientIdentity.Build (lit "demo-client") (lit "example-v1")
    (lit "example-local-signing-certificate") (lit "example-remote-signing-certificate")
    (lit "example-remote-encryption-certificate").

Definition example_domain : list byte := bytes_lit "example-app/envelope/v1".

(** The configuration both programs end up with. *)
Record example_config `{Ar : Arch} (c : ClientConfig.t) : Prop := {
  ec_wf : config_wf c;
  ec_identity : ClientConfig.identity c = example_identity;
  ec_authentication : ClientConfig.authentication_mode c
    = AuthenticationMode.ContextBound example_domain;
  ec_envelope_mode : ClientConfig.envelope_mode c = EnvelopeMode.Aead AeadAlgorithm.Sm4Gcm;
  ec_signer_id : ClientConfig.local_signer_id c = bytes_lit "demo-local-signer";
  ec_remote_signer_id :
    ClientConfig.expected_remote_signer_id c = bytes_lit "demo-remote-signer";
  ec_max : ClientConfig.max_plaintext_bytes c = DEFAULT_MAX_PLAINTEXT_BYTES;
}.

Section client.
Context `{Sys : System} `{Ar : Arch} `{B64 : Base64} `{Cr : !Crypto}.

(** Configuring the client never fails, whatever the keys. *)
Lemma example_client_Ok keys :
  exists self, example_client keys = Ok self /\ SecureClient.keys self = keys /\
    SecureClient.adapter self = ExampleContextAdapter.as_adapter /\
    example_config (SecureClient.config self).
Proof.
  unfold example_client. change (AuthenticationMode.context_bound (bytes_lit "example-app/envelope/v1"))
    with (@Ok Error.t _ (AuthenticationMode.ContextBound example_domain)).
  cbn [mbind result_bind].
  lazymatch goal with |- context [ClientConfigBuilder.build ?b] =>
    destruct (ClientConfigBuilder.build b) as [c|err] eqn:Hc;
      [|assert (is_ok (ClientConfigBuilder.build b) = true) as Hok by (vm_compute; reflexivity);
        by rewrite Hc in Hok] end.
  cbn [mbind result_bind]. eexists. split; [reflexivity|]. split; [done|]. split; [done|].
  cbn [SecureClient.config].
  assert (config_wf c) by (eapply build_wf; [|exact Hc]; by split).
  apply build_Ok in Hc as (Hd & _).
  assert (ClientConfig.envelope_mode c = EnvelopeMode.Aead AeadAlgorithm.Sm4Gcm) as Em
    by (apply (inj Some); by rewrite <- (ds_envelope_mode _ _ Hd)).
  constructor; [done| | |done| | |].
  - destruct (ClientConfig.identity c) eqn:Ei. unfold example_identity.
    destruct Hd. rewrite Ei in *. f_equal; apply (inj Some); symmetry; assumption.
  - apply (inj Some). by rewrite <- (ds_authentication_mode _ _ Hd).
  - apply (inj Some). by rewrite <- (ds_local_signer_id _ _ Hd).
  - apply (inj Some). by rewrite <- (ds_expected_remote_signer_id _ _ Hd).
  - rewrite (ds_max _ _ Hd), Em. reflexivity.
Qed.

Lemma example_client_inv keys self :
  example_client keys = Ok self ->
  SecureClient.keys self = keys /\ SecureClient.adapter self = ExampleContextAdapter.as_adapter /\
  example_config (SecureClient.config self).
Proof. intros H. destruct (example_client_Ok keys) as (self' & H' & ?). congruence. Qed.

End client.

(** ** Requests *)

(** What a peer of the example protocol reads from a request. *)
Definition peer_envelope `{Sys : System} (parts : RequestParts.t) : option SecureEnvelope.t :=
  signature ← RequestParts.header parts (lit "X-Envelope-Request-Signature");
  wrapped_key ← RequestParts.header parts (lit "X-Envelope-Request-Wrapped-Key");
  Some (SecureEnvelope.Build (RequestParts.body parts) wrapped_key signature).

Definition peer_context `{Sys : System} (parts : RequestParts.t) :
    option AuthenticationContext.t :=
  operation ← RequestParts.header parts (lit "X-Envelope-Operation");
  request_id ← RequestParts.header parts (lit "X-Envelope-Request-Id");
  Some (bound (utf8 (ExampleContextAdapter.request_context_text operation request_id))).

Section requests.
Context `{Sys : System} `{Ar : Arch} `{B64 : Base64} `{Cr : !Crypto}.
Context `{!SystemLaws Sys} `{!Base64Laws B64} `{!CryptoLaws Cr}.
Import ExampleContextAdapter.

Lemma build_request_parts i c e parts :
  build_request i c e = Ok parts <->
  valid_pairs (request_headers i c e) /\
  parts = RequestParts.Build (collection_of (request_headers i c e)) (SecureEnvelope.cipher e).
Proof. unfold build_request. by rewrite map_err_Ok, request_parts_new_Ok. Qed.

(** The nine headers are well formed when the request's own values are. *)
Lemma request_headers_valid c e :
  valid_value (ProtocolRequestContext.operation c) ->
  valid_value (RequestMetadata.request_id (ProtocolRequestContext.metadata c)) ->
  valid_value (RequestMetadata.request_time (ProtocolRequestContext.metadata c)) ->
  valid_value (SecureEnvelope.signature e) -> valid_value (SecureEnvelope.wrapped_session_key e) ->
  valid_pairs (request_headers example_identity c e).
Proof.
  intros H1 H2 H3 H4 H5. split.
  - unfold request_headers. rewrite !Forall_cons, Forall_nil.
    repeat split; try assumption; apply (bool_decide_unpack _); vm_compute; exact I.
  - apply (bool_decide_unpack _). vm_compute. exact I.
Qed.

Lemma peer_reads i c e extra :
  valid_pairs (request_headers i c e) ->
  let parts := RequestParts.Build (HeaderCollection.Build
    (HeaderCollection.entries (collection_of (request_headers i c e)) ++ extra))
    (SecureEnvelope.cipher e) in
  peer_envelope parts = Some e /\
  peer_context parts = Some (bound (utf8 (request_context_text
    (ProtocolRequestContext.operation c)
    (RequestMetadata.request_id (ProtocolRequestContext.metadata c))))).
Proof.
  intros Hv parts.
  assert (Hfind : forall k n v, request_headers i c e !! k = Some (n, v) ->
    RequestParts.header parts n = Some v).
  { intros k n v Hk. apply header_preserved. eapply parts_lookup; [done| |done].
    by eapply list_elem_of_lookup_2. }
  unfold peer_envelope, peer_context.
  rewrite (Hfind 7%nat (lit "X-Envelope-Request-Signature") _ eq_refl),
    (Hfind 8%nat (lit "X-Envelope-Request-Wrapped-Key") _ eq_refl),
    (Hfind 4%nat (lit "X-Envelope-Operation") _ eq_refl),
    (Hfind 5%nat (lit "X-Envelope-Request-Id") _ eq_refl).
  by destruct e.
Qed.

(** The example protocol works end to end: what the example client builds from
    any request context and payload is read by a counterpart - the envelope from two
    headers and the body, the context rebuilt from the operation and request id it
    received - and opens to the payload, with any headers the caller added. *)
Theorem example_request_end_to_end keys self cr kr p rc w parts w' :
  example_client keys = Ok self ->
  collection_wf (RequestContext.additional_headers rc) ->
  counterpart (SecureClient.config self) (SecureClient.keys self) cr kr -> config_wf cr ->
  len p <= ClientConfig.max_plaintext_bytes cr ->
  SecureClient.build_request self p rc w = (Ok parts, w') ->
  exists e ctx, peer_envelope parts = Some e /\ peer_context parts = Some ctx /\
    (representable e -> Envelope.open cr kr e ctx = Ok p).
Proof.
  intros Hself Hx Hc Hw Hp H. destruct (example_client_inv _ _ Hself) as (_ & Ha & _).
  rewrite build_request_eq in H by (by rewrite ?Ha; try apply _).
  rewrite Ha in H. cbn [as_adapter Adapter.request_authentication_context
    Adapter.build_request] in H. rewrite request_context_eq in H.
  destruct (SecureClient.seal self p _ w) as [[e|] w1] eqn:Es; [|done].
  destruct (build_request _ _ e) as [base|] eqn:Eb; [|done].
  case_decide; [done|]. injection H as <- <-. apply build_request_parts in Eb as [Hv ->].
  destruct (peer_reads _ _ e (HeaderCollection.entries (RequestContext.additional_headers rc)) Hv)
    as [He Hctx].
  eexists e, _. split; [exact He|]. split; [exact Hctx|]. intros Hr. by eapply open_sealed.
Qed.

End requests.

(** ** Responses *)

Section responses.
Context `{Sys : System} `{Ar : Arch} `{B64 : Base64} `{Cr : !Crypto}.
Import ExampleContextAdapter.

(** The four headers the adapter reads. *)
Record response_read (r : ResponseParts.t) (e : SecureEnvelope.t) (cert rid : str) : Prop := {
  er_wrapped_key : response_header r (lit "X-Envelope-Response-Wrapped-Key")
    = Ok (SecureEnvelope.wrapped_session_key e);
  er_signature : response_header r (lit "X-Envelope-Response-Signature")
    = Ok (SecureEnvelope.signature e);
  er_certificate :
    response_header r (lit "X-Envelope-Response-Remote-Signing-Certificate") = Ok cert;
  er_request_id : response_header r (lit "X-Envelope-Request-Id") = Ok rid;
  er_cipher : ResponseParts.body r = SecureEnvelope.cipher e;
}.

Definition response_bound (rid : str) : AuthenticationContext.t :=
  bound (utf8 (response_context_text rid)).

Lemma example_parse_Ok r p :
  parse_response r = Ok p <->
  exists e cert rid, response_read r e cert rid /\ header_text_ok cert /\
    p = ParsedResponse.Build e cert (response_bound rid).
Proof.
  unfold parse_response. repeat setoid_rewrite bind_Ok. setoid_rewrite map_err_Ok.
  assert (Hctx : forall rid, AuthenticationContext.context_bound (utf8 (response_context_text rid))
    = Ok (response_bound rid)).
  { intros rid. unfold AuthenticationContext.context_bound.
    by rewrite bool_decide_false by (intros [=]%utf8_nil). }
  unfold ParsedResponse.new. setoid_rewrite Hctx. split.
  - intros (wk & H1 & sg & H2 & cert & H3 & rid & H4 & ctx & <-%(inj Ok) & H).
    pose proof (header_text_test cert) as Ht. destruct (_ || _); [done|].
    exists (SecureEnvelope.Build (ResponseParts.body r) wk sg), cert, rid.
    split; [by constructor|]. apply (inj Ok) in H. split; [by apply Ht|done].
  - intros ([] & cert & rid & [] & Ht & ->). cbn in *.
    do 2 (eexists; split; [eassumption|]). do 2 (eexists; split; [eassumption|]).
    eexists. split; [done|]. pose proof (header_text_test cert) as Ht'.
    destruct (_ || _); [naive_solver|]. by subst.
Qed.

Definition example_certificate : str := lit "example-remote-signing-certificate".

Lemma example_open_response_Ok self r p :
  SecureClient.adapter self = as_adapter -> example_config (SecureClient.config self) ->
  SecureClient.open_response self r = Ok p <->
  exists e rid, response_read r e example_certificate rid /\
    SecureClient.open self e (response_bound rid) = Ok p.
Proof.
  intros Ha Hc. unfold SecureClient.open_response. rewrite Ha, (ec_identity _ Hc).
  cbn [as_adapter Adapter.parse_response].
  change (ClientIdentity.expected_remote_signing_certificate_id example_identity)
    with example_certificate.
  rewrite bind_Ok. setoid_rewrite map_err_Ok. setoid_rewrite example_parse_Ok. split.
  - intros (q & (e & cert & rid & Hr & Ht & ->) & H). cbn in H.
    case_bool_decide as E; [|done]. subst cert. by exists e, rid.
  - intros (e & rid & Hr & H). eexists. split.
    + exists e, example_certificate, rid. split; [exact Hr|]. split; [|reflexivity].
      apply (bool_decide_unpack _). vm_compute. exact I.
    + cbn. by rewrite bool_decide_true.
Qed.

(** C30. Opening a response of the example protocol: the client returns a plaintext
    exactly when the response carries the four headers (the first of each name, in
    any case), the certificate is the pinned one, and the envelope they make opens
    under the context of the echoed request id.  So what the counterpart sealed for
    a request id is returned under that request id - and is rejected under any other
    one, as long as the signature it made verifies for nothing else. *)
Theorem example_response_end_to_end `{!SystemLaws Sys} `{!Base64Laws B64} `{!CryptoLaws Cr}
    keys self cs ks p rid e w w' r :
  example_client keys = Ok self ->
  counterpart cs ks (SecureClient.config self) (SecureClient.keys self) ->
  len p <= DEFAULT_MAX_PLAINTEXT_BYTES ->
  Envelope.seal cs ks p (response_bound rid) w = (Ok e, w') -> representable e ->
  response_read r e example_certificate rid ->
  SecureClient.open_response self r = Ok p /\
  (forall r' q, SecureClient.open_response self r' = Ok q <->
     exists e' rid', response_read r' e' example_certificate rid' /\
       SecureClient.open self e' (response_bound rid') = Ok q) /\
  ((forall t sig, base64_decode (SecureEnvelope.signature e) = Some sig ->
      sm2_verify_with_id (KeyMaterial.remote_verification (SecureClient.keys self))
        (ClientConfig.expected_remote_signer_id (SecureClient.config self)) t sig = true ->
      AuthenticationMode.authentication_input
        (ClientConfig.authentication_mode (SecureClient.config self)) (response_bound rid) p
      = Ok t) ->
   forall r' rid', response_read r' e example_certificate rid' -> rid' <> rid ->
     is_ok (SecureClient.open_response self r') = false).
Proof.
  intros Hself Hcp Hp He Hrep Hr. destruct (example_client_inv _ _ Hself) as (_ & Ha & Hc).
  split; [|split; [intros; by apply example_open_response_Ok|]].
  - apply example_open_response_Ok; [done..|]. exists e, rid. split; [done|].
    eapply open_sealed; [exact Hcp|apply Hc|by rewrite (ec_max _ Hc)|exact He|done].
  - intros Hbind r' rid' Hr' Hne.
    destruct (SecureClient.open_response self r') as [q|] eqn:E; [destruct Hne|done].
    apply example_open_response_Ok in E as (e' & rid'' & [] & Ho); [|done..].
    destruct Hr'. assert (e' = e) as -> by (destruct e, e'; cbn in *; congruence).
    assert (rid'' = rid') as -> by congruence.
    unfold SecureClient.open in Ho. rewrite open_mode in Ho.
    apply pm_authentic in Ho as (_ & t & sig & Ht & Hs & Hv).
    assert (Hb : is_context_bound (ClientConfig.authentication_mode (SecureClient.config self))
      = true) by (by rewrite (ec_authentication _ Hc)).
    destruct (authentication_input_inj _ _ _ _ _ _ _ Hb Hb Ht (Hbind t sig Hs Hv))
      as (_ & Hctx%bound_inj%(inj utf8) & _).
    by apply app_inv_head in Hctx.
Qed.

End responses.
