(* ===== verification/ExamplePrograms.v ===== *)
(** * The example programs (src/examples)

    The [main]s of [build_request.rs] and [open_response.rs].  A [main] is a
    computation over the environment that returns the lines it prints or the boxed
    error it ends with. *)

From S2P Require Import Prelude.
From S2P Require Import Rust.
From S2P Require Import Text.
From S2P Require Import Parsing.
From S2P Require Import System.
From S2P Require Import Error.
From S2P Require Import Header.
From S2P Require Import Auth.
From S2P Require Import ClientConfig.
From S2P Require Import External.
From S2P Require Import Keys.
From S2P Require Import Calendar.
From S2P Require Import Message.
From S2P Require Import EnvelopeBase.
From S2P Require Import Envelope.
From S2P Require Import Adapter.
From S2P Require Import HeaderAdapter.
From S2P Require Import Client.
From S2P Require Import Example.

(** ** The programs *)

(** [std::env]: the arguments with the program's name first, each an [OsString],
    and the environment variables that are set and valid UTF-8. *)
Class Process `{System} := {
  os_string : Type;
  os_into_string : os_string -> option str;
  os_path : os_string -> path;
  args_os : world -> list os_string;
  env_var : str -> world -> option str;
}.

(** [Box<dyn std::error::Error>]: a message, or an error of the crate, of [std::fs]
    or of [serde_json]. *)
Module BoxError.
Section error.
Context `{Sys : System}.
Inductive t :=
| Message (text : string)
| Library (source : Error.t)
| Io (source : io_error)
| Json.
End error.
End BoxError.

Section programs.
Context `{Sys : System} `{Ar : Arch} `{B64 : Base64} `{Cr : !Crypto} `{Pr : !Process}.

(** A program: it returns the lines it prints. *)
Abbreviation Main := (io world BoxError.t).

(** [args.next().ok_or(missing)?]. *)
Definition next_arg (missing : string) (args : list os_string) :
    result BoxError.t (os_string * list os_string) :=
  match args with
  | [] => Err (BoxError.Message missing)
  | arg :: args => Ok (arg, args)
  end.

(** The four key paths and the end of the arguments. *)
Definition key_arguments (args : list os_string) : result BoxError.t (path * path * path * path) :=
  '(local_signing_path, args) ← next_arg "missing local signing key argument" args;
  '(local_decryption_path, args) ← next_arg "missing local decryption key argument" args;
  '(remote_verification_path, args) ← next_arg "missing remote verification key argument" args;
  '(remote_encryption_path, args) ← next_arg "missing remote encryption key argument" args;
  match args with
  | _ :: _ => Err (BoxError.Message "too many arguments")
  | [] => Ok (os_path local_signing_path, os_path local_decryption_path,
              os_path remote_verification_path, os_path remote_encryption_path)
  end.

(** The key material and the client of both programs. *)
Definition load_client (paths : path * path * path * path) (w : world) :
    result BoxError.t SecureClient.t :=
  let '(local_signing_path, local_decryption_path, remote_verification_path,
        remote_encryption_path) := paths in
  password ← ok_or (env_var (lit "SECURE_ENVELOPE_KEY_PASSWORD") w)
    (BoxError.Message "SECURE_ENVELOPE_KEY_PASSWORD is not set or is not valid UTF-8");
  let password := utf8 password in
  map_err BoxError.Library
    (local_signing ← PrivateKey.from_encrypted_file local_signing_path password w;
     local_decryption ← PrivateKey.from_encrypted_file local_decryption_path password w;
     remote_verification ← PublicKey.from_file remote_verification_path w;
     remote_encryption ← PublicKey.from_file remote_encryption_path w;
     keys ← KeyMaterial.new local_signing local_decryption remote_verification remote_encryption;
     example_client keys).

(** A read-only computation over the environment, and a fallible call. *)
Definition asks {A} (f : world -> result BoxError.t A) : Main A := fun w => (f w, w).
Definition boxed {A} (m : IO A) : Main A := fun w =>
  let '(r, w') := m w in (map_err BoxError.Library r, w').

(** The lines [build_request] prints about a request. *)
Definition request_report (request : RequestParts.t) : list str :=
  map (fun '(name, _) => lit "header: " ++ HeaderName.as_str name)
      (HeaderCollection.iter (RequestParts.headers request))
  ++ [lit "body bytes: " ++ fmt_dec 0 (str_len (RequestParts.body request))].

(** [main] of build_request.rs. *)
Definition build_request_main : Main (list str) :=
  args ← asks (fun w => Ok (drop 1 (args_os w)));
  '(payload_path, args) ← lift (next_arg "missing payload file argument" args);
  '(operation, args) ← lift (next_arg "missing operation argument" args);
  operation ← lift (ok_or (os_into_string operation)
                      (BoxError.Message "operation must be valid UTF-8"));
  paths ← lift (key_arguments args);
  client ← asks (load_client paths);
  payload ← asks (fun w => map_err BoxError.Io (fs_read (os_path payload_path) w));
  builder ← lift (map_err BoxError.Library
    (RequestBuilder.header (client_request client operation)
       (lit "X-Envelope-Trace") (lit "demo-trace")));
  request ← boxed (RequestBuilder.bytes builder payload);
  mret (request_report request).

(** The JSON document open_response.rs reads. *)
Record ResponseDocument := { headers : list (str * str); body : str }.

(** [main] of open_response.rs. *)
Definition open_response_main `{!Json ResponseDocument} : Main (list str) :=
  args ← asks (fun w => Ok (drop 1 (args_os w)));
  '(response_path, args) ← lift (next_arg "missing response JSON argument" args);
  paths ← lift (key_arguments args);
  client ← asks (load_client paths);
  contents ← asks (fun w => map_err BoxError.Io (fs_read (os_path response_path) w));
  document ← lift (ok_or (json_from_slice contents) BoxError.Json);
  verified ← lift (map_err BoxError.Library
    (SecureClient.open_response client
       (ResponseParts.new (headers document) (body document))));
  mret [lit "verified bytes: " ++ fmt_dec 0 (len verified)].

End programs.

(** ** The programs *)

Section mains.
Context `{Sys : System} `{Ar : Arch} `{B64 : Base64} `{Cr : !Crypto} `{Pr : !Process}.

Lemma next_arg_Ok missing args p :
  next_arg missing args = Ok p <-> args = p.1 :: p.2.
Proof. destruct p, args; naive_solver. Qed.

Lemma key_arguments_Ok args paths :
  key_arguments args = Ok paths <->
  exists k1 k2 k3 k4, args = [k1; k2; k3; k4] /\
    paths = (os_path k1, os_path k2, os_path k3, os_path k4).
Proof.
  destruct args as [|k1 [|k2 [|k3 [|k4 [|]]]]]; cbn; naive_solver.
Qed.

Lemma key_arguments_Err args :
  length args <> 4%nat -> exists text, key_arguments args = Err (BoxError.Message text).
Proof.
  destruct args as [|k1 [|k2 [|k3 [|k4 [|]]]]]; cbn; intros H; eauto. done.
Qed.

(** The client of a program comes from the password variable and four key files. *)
Record client_loaded (k1 k2 k3 k4 : path) (w : world) (client : SecureClient.t) : Prop := {
  cl_adapter : SecureClient.adapter client = ExampleContextAdapter.as_adapter;
  cl_config : example_config (SecureClient.config client);
  cl_local : exists password signing decryption,
    env_var (lit "SECURE_ENVELOPE_KEY_PASSWORD") w = Some password /\
    PrivateKey.from_encrypted_file k1 (utf8 password) w = Ok signing /\
    PrivateKey.from_encrypted_file k2 (utf8 password) w = Ok decryption /\
    KeyMaterial.local_signing (SecureClient.keys client) = PrivateKey.inner signing /\
    KeyMaterial.local_decryption (SecureClient.keys client) = PrivateKey.inner decryption;
  cl_remote : exists verification encryption,
    PublicKey.from_file k3 w = Ok verification /\ PublicKey.from_file k4 w = Ok encryption /\
    KeyMaterial.remote_verification (SecureClient.keys client) = PublicKey.inner verification /\
    KeyMaterial.remote_encryption (SecureClient.keys client) = PublicKey.inner encryption;
  cl_independent : independent_roles (SecureClient.keys client);
}.

Lemma load_client_loaded k1 k2 k3 k4 w client :
  load_client (k1, k2, k3, k4) w = Ok client -> client_loaded k1 k2 k3 k4 w client.
Proof.
  unfold load_client. intros (password & Hp%ok_or_Ok & H%map_err_Ok)%bind_Ok.
  apply bind_Ok in H as (a & Ha & H). apply bind_Ok in H as (b & Hb & H).
  apply bind_Ok in H as (c & Hc & H). apply bind_Ok in H as (d & Hd & H).
  apply bind_Ok in H as (keys & Hk & H). apply new_Ok in Hk as [-> Hi].
  destruct (example_client_inv _ _ H) as (Hk & Had & Hcf).
  constructor; [done|done| | |by rewrite Hk]; rewrite ?Hk; cbn [KeyMaterial.local_signing
    KeyMaterial.local_decryption KeyMaterial.remote_verification KeyMaterial.remote_encryption].
  - by exists password, a, b.
  - by exists c, d.
Qed.

(** What open_response.rs does once it has its arguments. *)
Definition open_document `{!Json ResponseDocument} (response : path)
    (keys : path * path * path * path) (w : world) : result BoxError.t (list byte) :=
  client ← load_client keys w;
  contents ← map_err BoxError.Io (fs_read response w);
  document ← ok_or (json_from_slice contents) BoxError.Json;
  map_err BoxError.Library
    (SecureClient.open_response client
       (ResponseParts.new (headers document) (body document))).

Lemma open_document_Ok `{!Json ResponseDocument} response keys w verified :
  open_document response keys w = Ok verified <->
  exists client contents document,
    load_client keys w = Ok client /\ fs_read response w = Ok contents /\
    json_from_slice contents = Some document /\
    SecureClient.open_response client (ResponseParts.new (headers document) (body document))
    = Ok verified.
Proof.
  unfold open_document. destruct (load_client keys w) as [c|]; cbn [mbind result_bind];
    [|naive_solver].
  destruct (fs_read response w) as [t|]; cbn [map_err mbind result_bind]; [|naive_solver].
  destruct (json_from_slice t) as [d|] eqn:Hd; cbn [ok_or mbind result_bind]; [|naive_solver].
  rewrite map_err_Ok. naive_solver.
Qed.

Lemma open_main_run `{!Json ResponseDocument} w prog response k1 k2 k3 k4 :
  args_os w = [prog; response; k1; k2; k3; k4] ->
  open_response_main w =
  (verified ← open_document (os_path response) (os_path k1, os_path k2, os_path k3, os_path k4) w;
   Ok [lit "verified bytes: " ++ fmt_dec 0 (len verified)], w).
Proof.
  intros Ha. unfold open_response_main, open_document, asks, lift, mbind, io_bind. rewrite Ha.
  cbn [drop next_arg key_arguments mbind result_bind].
  destruct (load_client _ w) as [client|]; [|done]. cbn [result_bind].
  destruct (fs_read (os_path response) w); [|done]. cbn [map_err result_bind].
  destruct (json_from_slice _); [|done]. cbn [ok_or result_bind].
  by destruct (SecureClient.open_response _ _).
Qed.

Lemma open_main_usage `{!Json ResponseDocument} w :
  length (drop 1 (args_os w)) <> 5%nat ->
  exists text, open_response_main w = (Err (BoxError.Message text), w).
Proof.
  unfold open_response_main, asks, lift, mbind, io_bind. intros H.
  destruct (drop 1 (args_os w)) as [|response args]; [by eexists|]. cbn [next_arg].
  destruct (key_arguments_Err args) as [text ->]; [cbn in H; lia|]. by eexists.
Qed.

(** The value of the first header of a name, in any case. *)
Fixpoint first_value (name : string) (pairs : list (str * str)) : option str :=
  match pairs with
  | [] => None
  | (candidate, value) :: pairs =>
      if eq_ignore_ascii_case candidate (lit name) then Some value else first_value name pairs
  end.

Lemma response_header_first name headers body v :
  ExampleContextAdapter.response_header (ResponseParts.new headers body) (lit name) = Ok v <->
  first_value name headers = Some v.
Proof.
  unfold ExampleContextAdapter.response_header. rewrite ok_or_Ok. cbn [ResponseParts.headers].
  induction headers as [|[n x] headers IH]; [done|]. cbn [List.find first_value].
  by destruct (eq_ignore_ascii_case n (lit name)).
Qed.

(** Bytes a response document authenticates under a key: its signature header is a
    signature, under the pinned signer id, over the example's domain, the request id
    of its own header and those bytes; it names the pinned certificate. *)
Definition document_authentic (key : Sm2PublicKey) (document : ResponseDocument)
    (verified : list byte) : Prop :=
  exists request_id signature sig,
    first_value "X-Envelope-Request-Id" (headers document) = Some request_id /\
    first_value "X-Envelope-Response-Remote-Signing-Certificate" (headers document)
      = Some (lit "example-remote-signing-certificate") /\
    first_value "X-Envelope-Response-Signature" (headers document) = Some signature /\
    base64_decode signature = Some sig /\
    sm2_verify_with_id key (bytes_lit "demo-remote-signer")
      (transcript (bytes_lit "example-app/envelope/v1")
         (utf8 (lit "request-id=" ++ request_id)) verified) sig = true.

Lemma opened_document_authentic `{!SystemLaws Sys} `{!Base64Laws B64} `{!CryptoLaws Cr}
    client document verified :
  SecureClient.adapter client = ExampleContextAdapter.as_adapter ->
  example_config (SecureClient.config client) ->
  SecureClient.open_response client (ResponseParts.new (headers document) (body document))
    = Ok verified ->
  document_authentic (KeyMaterial.remote_verification (SecureClient.keys client)) document verified.
Proof.
  intros Ha Hc (e & rid & [_ Hs Hcert Hrid _] & Ho)%example_open_response_Ok; [|done..].
  apply response_header_first in Hs, Hcert, Hrid.
  unfold SecureClient.open in Ho. rewrite open_mode in Ho.
  apply pm_authentic in Ho as (_ & t & sig & Ht & Hd & Hv).
  rewrite (ec_authentication _ Hc) in Ht. apply authentication_input_Ok in Ht as (_ & _ & _ & ->).
  rewrite (ec_remote_signer_id _ Hc) in Hv.
  by exists rid, (SecureEnvelope.signature e), sig.
Qed.

(** C29. [open_response] prints [verified bytes: n] only for authentic bytes.  With
    any other number of arguments than five it ends with a message; otherwise it
    prints exactly one line, and does so exactly when the client loads, the document
    is read and parsed and the client opens the response it describes to [n] bytes.
    Those bytes are then authenticated by that document under the key of the remote
    verification file: the document's signature header is a signature under the
    pinned signer id over the example's domain, the request id in the document's own
    request-id header and exactly the opened bytes, and the document names the
    pinned certificate.  The program never changes its environment. *)
Theorem open_main_prints_authentic `{!Json ResponseDocument}
    `{!SystemLaws Sys} `{!Base64Laws B64} `{!CryptoLaws Cr} w prog args :
  args_os w = prog :: args ->
  (length args <> 5%nat ->
   exists text, open_response_main w = (Err (BoxError.Message text), w)) /\
  forall response k1 k2 k3 k4, args = [response; k1; k2; k3; k4] ->
  exists r, open_response_main w = (r, w) /\
  (forall lines, r = Ok lines <->
     exists client contents document verified,
       load_client (os_path k1, os_path k2, os_path k3, os_path k4) w = Ok client /\
       fs_read (os_path response) w = Ok contents /\ json_from_slice contents = Some document /\
       SecureClient.open_response client
         (ResponseParts.new (headers document) (body document)) = Ok verified /\
       lines = [lit "verified bytes: " ++ fmt_dec 0 (len verified)]) /\
  (forall client document verified,
     load_client (os_path k1, os_path k2, os_path k3, os_path k4) w = Ok client ->
     SecureClient.open_response client
       (ResponseParts.new (headers document) (body document)) = Ok verified ->
     exists key, PublicKey.from_file (os_path k3) w = Ok key /\
       document_authentic (PublicKey.inner key) document verified).
Proof.
  intros Hargs. split.
  { intros Hl. apply open_main_usage. by rewrite Hargs. }
  intros response k1 k2 k3 k4 ->. rewrite (open_main_run w _ _ _ _ _ _ Hargs). eexists.
  split; [reflexivity|]. split.
  - intros lines. rewrite bind_Ok. setoid_rewrite open_document_Ok. split.
    + intros (v & (c & t & d & Hc & Ht & Hd & Hv) & <-%(inj Ok)). by exists c, t, d, v.
    + intros (c & t & d & v & Hc & Ht & Hd & Hv & ->). exists v. split; [by exists c, t, d|done].
  - intros client document verified Hl Ho.
    apply load_client_loaded in Hl as [Ha Hcf _ (key & _ & Hkey & _ & Hrk & _) _].
    exists key. split; [done|]. rewrite <- Hrk. by apply opened_document_authentic.
Qed.

(** The header names of an example request, in their order, and its report. *)
Definition reported_headers : list string :=
  ["Content-Type"; "X-Envelope-Local-Identity"; "X-Envelope-Api-Version";
   "X-Envelope-Local-Certificate"; "X-Envelope-Operation"; "X-Envelope-Request-Id";
   "X-Envelope-Request-Time"; "X-Envelope-Request-Signature"; "X-Envelope-Request-Wrapped-Key";
   "X-Envelope-Trace"]%string.

Definition report_of (n : Z) : list str :=
  map (fun name => lit "header: " ++ lit name) reported_headers
  ++ [lit "body bytes: " ++ fmt_dec 0 n].

Context `{Hh : !Health}.

(** A healthy environment's clock reads a time after 1970. *)
Definition clock_set : Prop :=
  forall w t w', healthy w -> system_time_now w = (t, w') ->
    is_Some (duration_since_epoch t) /\ healthy w'.

Context `{!SystemLaws Sys} `{!Base64Laws B64} `{!CryptoLaws Cr}.
Import ExampleContextAdapter.

Lemma generate_total w :
  available Cr -> clock_set -> healthy w ->
  exists m w', RequestMetadata.generate w = (Ok m, w') /\ healthy w'.
Proof.
  intros Av Hc Hw. rewrite generate_eq. destruct (av_fill Av 16 w Hw) as (bs & w1 & -> & Hw1).
  destruct (system_time_now w1) as [now w2] eqn:Et. destruct (Hc _ _ _ Hw1 Et) as [[d ->] Hw2].
  eauto.
Qed.

Lemma example_seal_total client op m p w :
  example_config (SecureClient.config client) -> available Cr -> healthy w ->
  str_len (RequestMetadata.request_id m) = 32 -> len p <= DEFAULT_MAX_PLAINTEXT_BYTES ->
  str_len op + len p + 300 <= Z.min usize_max INPUT_LIMIT ->
  let ctx := bound (utf8 (request_context_text op (RequestMetadata.request_id m))) in
  exists e w', SecureClient.seal client p ctx w = (Ok e, w').
Proof.
  intros Hc Av Hw Hid Hp Hz ctx. unfold SecureClient.seal.
  cut (exists e w', Envelope.seal (SecureClient.config client) (SecureClient.keys client) p ctx w
    = (Ok e, w') /\ healthy w'); [intros (e & w' & He & _); by exists e, w'|].
  apply envelope_seal_total; rewrite ?(ec_authentication _ Hc), ?(ec_max _ Hc); try done;
    [apply (ec_wf _ Hc)| |].
  2: { rewrite (ec_envelope_mode _ Hc). unfold DEFAULT_MAX_PLAINTEXT_BYTES in Hp. cbn.
       unfold GCM_MAX_PLAINTEXT_BYTES. lia. }
  cbn [domain_of]. change (len example_domain) with 23.
  change (context_of ctx) with (utf8 (request_context_text op (RequestMetadata.request_id m))).
  unfold str_len, request_context_text in *. rewrite !utf8_app, !len_app, Hid.
  change (len (utf8 (lit "operation="))) with 10. change (len (utf8 (lit "&request-id="))) with 12.
  lia.
Qed.

Definition trace_header : HeaderCollection.t :=
  collection_of [(lit "X-Envelope-Trace", lit "demo-trace")].

(** The canonical names of a request's headers do not depend on its values. *)
Lemma trace_header_distinct c e :
  ~ Exists (fun n => n ∈ canonical_names trace_header)
      (canonical_names (collection_of (request_headers example_identity c e))).
Proof. apply (bool_decide_unpack _). vm_compute. exact I. Qed.

Lemma report_eq c e :
  request_report (RequestParts.Build
    (HeaderCollection.Build
       (HeaderCollection.entries (collection_of (request_headers example_identity c e)) ++
        HeaderCollection.entries trace_header)) (SecureEnvelope.cipher e))
  = report_of (str_len (SecureEnvelope.cipher e)).
Proof. reflexivity. Qed.

(** What build_request.rs does with a loaded client. *)
Lemma example_request_total client op p w :
  SecureClient.adapter client = as_adapter -> example_config (SecureClient.config client) ->
  available Cr -> clock_set -> healthy w -> header_text_ok op -> valid_value op ->
  len p <= DEFAULT_MAX_PLAINTEXT_BYTES ->
  str_len op + len p + 300 <= Z.min usize_max INPUT_LIMIT ->
  exists request w',
    RequestBuilder.bytes (RequestBuilder.Build client op None trace_header) p w
      = (Ok request, w') /\
    request_report request = report_of (base64_size (len p + 30)).
Proof.
  intros Ha Hc Av Hclock Hw Ho Hov Hp Hz.
  destruct (generate_total w Av Hclock Hw) as (m & w1 & Hm & Hw1).
  destruct (generate_Ok_values _ _ _ Hm) as (Hi & Ht & Hl).
  assert (Htrace : collection_wf trace_header)
    by (apply collection_of_wf, (bool_decide_unpack _); vm_compute; exact I).
  destruct (example_seal_total client op m p w1 Hc Av Hw1 Hl Hp Hz) as (e & w2 & Hs).
  assert (Hv : valid_pairs (request_headers example_identity (ProtocolRequestContext.Build op m) e)).
  { pose proof Hs as [_ Hm']%seal_mode_Ok. destruct (pm_texts _ _ _ _ _ _ _ Hm') as (_ & B2 & B3).
    apply request_headers_valid; [done..|apply (base64_text_field _ B3)|apply (base64_text_field _ B2)]. }
  pose proof (seal_text_len _ _ _ _ _ _ _ Hs) as Hlen. rewrite (ec_envelope_mode _ Hc) in Hlen.
  change (base64_size (len p + 30)) with
    (sealed_text_len (EnvelopeMode.Aead AeadAlgorithm.Sm4Gcm) (len p)).
  eexists _, w2. split; [|rewrite <- Hlen; apply report_eq].
  unfold RequestBuilder.bytes, RequestBuilder.into_context.
  cbn [RequestBuilder.metadata_ RequestBuilder.operation RequestBuilder.headers
    RequestBuilder.client]. unfold mbind, io_bind, lift, HeaderCollection.into_pairs.
  rewrite Hm, from_parts_eq, decide_True by done. cbn [mret io_ret].
  rewrite build_request_eq by (by rewrite ?Ha; try apply _).
  cbn [RequestContext.protocol RequestContext.additional_headers].
  rewrite Ha, (ec_identity _ Hc). cbn [as_adapter Adapter.request_authentication_context
    Adapter.build_request]. rewrite request_context_eq.
  cbn [ProtocolRequestContext.operation ProtocolRequestContext.metadata]. rewrite Hs.
  rewrite (proj2 (build_request_parts _ _ _ _) (conj Hv eq_refl)).
  rewrite decide_False by apply trace_header_distinct. reflexivity.
Qed.

(** C31. [build_request] works, and tells nothing: given readable key files of four
    independent keys, the password, a payload within the limit, an operation that is
    header text, and an environment in which the random source, the primitives within
    their ranges and the clock answer, it builds its request and prints exactly
    eleven lines, which are the same for every key, operation and payload of that
    size - ten header names, never a value, and the length of the Base64 body, which
    is that of the payload and a 30-byte frame. *)
Theorem build_main_report w prog payload_path operation k1 k2 k3 k4 op client payload :
  args_os w = [prog; payload_path; operation; k1; k2; k3; k4] ->
  os_into_string operation = Some op -> header_text_ok op -> valid_value op ->
  load_client (os_path k1, os_path k2, os_path k3, os_path k4) w = Ok client ->
  fs_read (os_path payload_path) w = Ok payload ->
  len payload <= DEFAULT_MAX_PLAINTEXT_BYTES ->
  str_len op + len payload + 300 <= Z.min usize_max INPUT_LIMIT ->
  available Cr -> clock_set -> healthy w ->
  exists w', build_request_main w = (Ok (report_of ((len payload + 32) / 3 * 4)), w').
Proof.
  intros Ha Hop Ho Hov Hl Hr Hp Hz Av Hclock Hw.
  destruct (load_client_loaded _ _ _ _ _ _ Hl) as [Had Hc _ _ _].
  destruct (example_request_total client op payload w Had Hc Av Hclock Hw Ho Hov Hp Hz)
    as (request & w' & Hb & Hrep).
  exists w'. unfold build_request_main, asks, lift, boxed, mbind, io_bind. rewrite Ha.
  cbn [drop next_arg key_arguments mbind result_bind]. rewrite Hop. cbn [ok_or].
  rewrite Hl, Hr. cbn [map_err].
  assert (RequestBuilder.header (client_request client op) (lit "X-Envelope-Trace")
    (lit "demo-trace") = Ok (RequestBuilder.Build client op None trace_header)) as ->
    by reflexivity.
  cbn [map_err]. rewrite Hb. cbn [map_err]. unfold mret, io_ret. rewrite Hrep.
  unfold base64_size. by replace (len payload + 30 + 2) with (len payload + 32) by lia.
Qed.

End mains.
