(* ===== verification/FuzzInput.v ===== *)
(** * The input format of the fuzz targets (src/fuzz/fuzz_targets/support.rs)

    How a fuzz input selects a scenario, how its length-prefixed fields are cut
    out, and the header lists the generic scenarios build from them.  A panic (an
    index out of range, a failed [expect] or assertion) is the [Err] of a
    [Panics] computation. *)

From S2P Require Import Prelude.
From S2P Require Import Rust.
From S2P Require Import Text.
From S2P Require Import Parsing.
From S2P Require Import System.
From S2P Require Import Error.
From S2P Require Import Header.
From S2P Require Import Auth.
From S2P Require Import Message.

(** ** Scenarios *)

Module TransportScenario.
Inductive t :=
| Success | Duplicate | Unknown | Missing | HeaderCipherSuccess | HeaderCipherMissing
| HeaderCipherEmpty | HeaderCipherDuplicate | HeaderCipherGeneric | Generic.
End TransportScenario.

Module TypedScenario.
Inductive t := Valid | Duplicate | Generic.
End TypedScenario.

Module ContextScenario.
Inductive t := RoundTrip | MismatchedContext | LegacyMarker | OversizePlaintext | Generic.
End ContextScenario.

Module ScenarioOutcome.
Inductive t := Accepted | Rejected.
End ScenarioOutcome.

#[export] Instance transport_scenario_eq_dec : EqDecision TransportScenario.t.
Proof. solve_decision. Defined.
#[export] Instance typed_scenario_eq_dec : EqDecision TypedScenario.t.
Proof. solve_decision. Defined.
#[export] Instance context_scenario_eq_dec : EqDecision ContextScenario.t.
Proof. solve_decision. Defined.
#[export] Instance scenario_outcome_eq_dec : EqDecision ScenarioOutcome.t.
Proof. solve_decision. Defined.

Definition transport_expected_outcome (self : TransportScenario.t) : option ScenarioOutcome.t :=
  match self with
  | TransportScenario.Success | TransportScenario.Unknown
  | TransportScenario.HeaderCipherSuccess => Some ScenarioOutcome.Accepted
  | TransportScenario.Duplicate | TransportScenario.Missing
  | TransportScenario.HeaderCipherMissing | TransportScenario.HeaderCipherEmpty
  | TransportScenario.HeaderCipherDuplicate => Some ScenarioOutcome.Rejected
  | TransportScenario.Generic | TransportScenario.HeaderCipherGeneric => None
  end.

Definition typed_expected_outcome (self : TypedScenario.t) : option ScenarioOutcome.t :=
  match self with
  | TypedScenario.Valid => Some ScenarioOutcome.Accepted
  | TypedScenario.Duplicate => Some ScenarioOutcome.Rejected
  | TypedScenario.Generic => None
  end.

Definition context_expected_outcome (self : ContextScenario.t) : option ScenarioOutcome.t :=
  match self with
  | ContextScenario.RoundTrip => Some ScenarioOutcome.Accepted
  | ContextScenario.MismatchedContext | ContextScenario.LegacyMarker
  | ContextScenario.OversizePlaintext => Some ScenarioOutcome.Rejected
  | ContextScenario.Generic => None
  end.

(** [byte_is b "c"] is [b == b'c']. *)
Definition byte_is (b : byte) (s : string) : bool := bool_decide ([b] = bytes_lit s).

Definition transport_scenario (data : list byte) : TransportScenario.t :=
  match head data with
  | None => TransportScenario.Generic
  | Some b =>
      if byte_is b "S" then TransportScenario.Success
      else if byte_is b "D" then TransportScenario.Duplicate
      else if byte_is b "U" then TransportScenario.Unknown
      else if byte_is b "M" then TransportScenario.Missing
      else if byte_is b "H" then TransportScenario.HeaderCipherSuccess
      else if byte_is b "I" then TransportScenario.HeaderCipherMissing
      else if byte_is b "E" then TransportScenario.HeaderCipherEmpty
      else if byte_is b "J" then TransportScenario.HeaderCipherDuplicate
      else if byte_is b "C" then TransportScenario.HeaderCipherGeneric
      else TransportScenario.Generic
  end.

Definition typed_scenario (data : list byte) : TypedScenario.t :=
  match head data with
  | None => TypedScenario.Generic
  | Some b =>
      if byte_is b "V" then TypedScenario.Valid
      else if byte_is b "D" then TypedScenario.Duplicate
      else TypedScenario.Generic
  end.

Definition context_scenario (data : list byte) : ContextScenario.t :=
  match head data with
  | None => ContextScenario.Generic
  | Some b =>
      if byte_is b "R" then ContextScenario.RoundTrip
      else if byte_is b "M" then ContextScenario.MismatchedContext
      else if byte_is b "L" then ContextScenario.LegacyMarker
      else if byte_is b "O" then ContextScenario.OversizePlaintext
      else ContextScenario.Generic
  end.

(** ** Framing *)

Section framing.
Context `{Arch}.

Definition frame (data : list byte) : list byte * list byte :=
  match position x3a data with
  | None => ([], [])
  | Some colon =>
      match parse_usize (unwrap_or (from_utf8 (take colon data)) []) with
      | None => ([], [])
      | Some length =>
          let body := drop (colon + 1) data in
          let length := Z.min length (len body) in
          let field := take (Z.to_nat length) body in
          let remainder := drop (Z.to_nat length) body in
          (field, unwrap_or (strip_prefix (bytes_lit "|") remainder) remainder)
      end
  end.

(** [std::array::from_fn] over the remainder. *)
Fixpoint frames (n : nat) (remainder : list byte) : list (list byte) :=
  match n with
  | O => []
  | S m => let '(field, next) := frame remainder in field :: frames m next
  end.

Definition framed (n : nat) (data : list byte) : list (list byte) :=
  match get_from 6 data ≫= strip_prefix (bytes_lit "|") with
  | None => replicate n []
  | Some payload => frames n payload
  end.

Definition fields (data : list byte) : list (list byte) := framed 3 data.

Definition text (data : list byte) : str := from_utf8_lossy data.

(** [data.get(..6).unwrap_or_default()] and
    [selectors.get(i).copied().unwrap_or_default()]. *)
Definition selectors_of (data : list byte) : list byte := unwrap_or (get_to 6 data) [].
Definition selector_value (selectors : list byte) (i : nat) : Z :=
  unwrap_or (byte_val <$> selectors !! i) 0.

End framing.

(** ** Header names *)

Definition TRANSPORT_CANONICAL : list str :=
  [lit "X-Fuzz-Response-Signature"; lit "X-Fuzz-Response-Wrapped-Key";
   lit "X-Fuzz-Response-Remote-Signing-Certificate"].
Definition TRANSPORT_MIXED : list str :=
  [lit "X-fUzZ-ReSpOnSe-SiGnAtUrE"; lit "X-fUzZ-ReSpOnSe-WrApPeD-KeY";
   lit "X-fUzZ-ReSpOnSe-ReMoTe-SiGnInG-CeRtIfIcAtE"].

Definition transport_name (selector : option byte) (slot : nat) (raw : list byte) : Panics str :=
  let selector := unwrap_or selector x63 in
  let lower := canonical ← index TRANSPORT_CANONICAL slot; Ok (to_ascii_lowercase canonical) in
  if byte_is selector "c" then index TRANSPORT_CANONICAL slot
  else if byte_is selector "l" then lower
  else if byte_is selector "m" then index TRANSPORT_MIXED slot
  else if byte_is selector "u" then Ok (lit "X-Fuzz-Unknown")
  else if byte_is selector "e" then Ok []
  else if byte_is selector "r" then Ok (text raw)
  else if byte_is selector "s" then index TRANSPORT_CANONICAL 0
  else if byte_is selector "w" then index TRANSPORT_CANONICAL 1
  else if byte_is selector "k" then index TRANSPORT_CANONICAL 2
  else match byte_val selector mod 9 with
  | 0 => index TRANSPORT_CANONICAL slot
  | 1 => lower
  | 2 => index TRANSPORT_MIXED slot
  | 3 => Ok (lit "X-Fuzz-Unknown")
  | 4 => Ok []
  | 5 => Ok (text raw)
  | 6 => index TRANSPORT_CANONICAL 0
  | 7 => index TRANSPORT_CANONICAL 1
  | _ => index TRANSPORT_CANONICAL 2
  end.

Definition CIPHER_CANONICAL : list str := TRANSPORT_CANONICAL ++ [lit "X-Fuzz-Response-Cipher"].
Definition CIPHER_MIXED : list str := TRANSPORT_MIXED ++ [lit "X-fUzZ-ReSpOnSe-CiPhEr"].

Definition header_cipher_name (selector : option byte) (slot : nat) (raw : list byte) : Panics str :=
  let selector := unwrap_or selector x63 in
  let lower := canonical ← index CIPHER_CANONICAL slot; Ok (to_ascii_lowercase canonical) in
  if byte_is selector "c" then index CIPHER_CANONICAL slot
  else if byte_is selector "l" then lower
  else if byte_is selector "m" then index CIPHER_MIXED slot
  else if byte_is selector "u" then Ok (lit "X-Fuzz-Unknown")
  else if byte_is selector "e" then Ok []
  else if byte_is selector "r" then Ok (text raw)
  else if byte_is selector "s" then index CIPHER_CANONICAL 0
  else if byte_is selector "w" then index CIPHER_CANONICAL 1
  else if byte_is selector "k" then index CIPHER_CANONICAL 2
  else if byte_is selector "p" then index CIPHER_CANONICAL 3
  else match byte_val selector mod 10 with
  | 0 => index CIPHER_CANONICAL slot
  | 1 => lower
  | 2 => index CIPHER_MIXED slot
  | 3 => Ok (lit "X-Fuzz-Unknown")
  | 4 => Ok []
  | 5 => Ok (text raw)
  | 6 => index CIPHER_CANONICAL 0
  | 7 => index CIPHER_CANONICAL 1
  | 8 => index CIPHER_CANONICAL 2
  | _ => index CIPHER_CANONICAL 3
  end.

Definition TYPED_CANONICAL : list str := [lit "X-Fuzz-Header"; lit "X-Fuzz-Other"].
Definition TYPED_MIXED : list str := [lit "X-fUzZ-HeAdEr"; lit "X-fUzZ-OtHeR"].

Definition typed_name (selector : option byte) (slot : nat) (raw : list byte) : Panics str :=
  let selector := unwrap_or selector x63 in
  let lower i := canonical ← index TYPED_CANONICAL i; Ok (to_ascii_lowercase canonical) in
  if byte_is selector "c" then index TYPED_CANONICAL slot
  else if byte_is selector "l" then lower slot
  else if byte_is selector "m" then index TYPED_MIXED slot
  else if byte_is selector "h" then lower 0%nat
  else if byte_is selector "o" then index TYPED_CANONICAL 1
  else if byte_is selector "e" then Ok []
  else if byte_is selector "r" then Ok (text raw)
  else match byte_val selector mod 7 with
  | 0 => index TYPED_CANONICAL slot
  | 1 => lower slot
  | 2 => index TYPED_MIXED slot
  | 3 => lower 0%nat
  | 4 => index TYPED_CANONICAL 1
  | 5 => Ok []
  | _ => Ok (text raw)
  end.

(** ** Generic headers *)

(** The step that appends a copy of the first header, as it is or in lower case. *)
Definition push_duplicate (mode : Z) (headers : list (str * str)) : Panics (list (str * str)) :=
  match mode mod 3 with
  | 0 => Ok headers
  | 1 => first ← index headers 0; Ok (headers ++ [first])
  | _ => first ← index headers 0; Ok (headers ++ [(to_ascii_lowercase first.1, first.2)])
  end.

Definition transport_order (selector : Z) : list nat :=
  match selector mod 6 with
  | 0 => [0; 1; 2]%nat
  | 1 => [1; 0; 2]%nat
  | 2 => [0; 2; 1]%nat
  | 3 => [2; 1; 0]%nat
  | 4 => [1; 2; 0]%nat
  | _ => [2; 0; 1]%nat
  end.

Definition cipher_order (selector : Z) : list nat :=
  match selector mod 6 with
  | 0 => [0; 1; 2; 3]%nat
  | 1 => [3; 0; 1; 2]%nat
  | 2 => [0; 1; 3; 2]%nat
  | 3 => [3; 2; 1; 0]%nat
  | 4 => [0; 3; 1; 2]%nat
  | _ => [1; 0; 2; 3]%nat
  end.

Section generic.
Context `{Sys : System} `{Ar : Arch}.

Definition generic_transport_parts (data : list byte) : Panics ResponseParts.t :=
  let framed := framed 7 data in
  let selectors := selectors_of data in
  headers ← mapM (fun slot =>
      raw ← index framed slot;
      name ← transport_name (selectors !! (slot + 1)%nat) slot raw;
      value ← index framed (slot + 3);
      Ok (name, text value)) (seq 0 3);
  headers ← mapM (index headers) (transport_order (selector_value selectors 4));
  headers ← push_duplicate (selector_value selectors 5) headers;
  body ← index framed 6;
  Ok (ResponseParts.new headers (text body)).

Definition generic_header_cipher_parts (data : list byte) : Panics ResponseParts.t :=
  let framed := framed 9 data in
  let selectors := selectors_of data in
  headers ← mapM (fun slot =>
      raw ← index framed slot;
      name ← header_cipher_name (selectors !! (slot + 1)%nat) slot raw;
      value ← index framed (slot + 4);
      Ok (name, text value)) (seq 0 4);
  let packed := selector_value selectors 5 in
  headers ← mapM (index headers) (cipher_order packed);
  headers ← push_duplicate packed headers;
  body ← index framed 8;
  Ok (ResponseParts.new headers (text body)).

(** [names.swap(0, 1)] on two elements. *)
Definition swap2 {A} (p : A * A) : A * A := (p.2, p.1).

Definition generic_typed_parts (data : list byte) : Panics (Result RequestParts.t) :=
  let framed := framed 5 data in
  let selectors := selectors_of data in
  raw0 ← index framed 0;
  name0 ← typed_name (selectors !! 1%nat) 0 raw0;
  raw1 ← index framed 1;
  name1 ← typed_name (selectors !! 2%nat) 1 raw1;
  let names := (name0, name1) in
  let names := if selector_value selectors 3 mod 2 =? 1 then swap2 names else names in
  value0 ← index framed 2;
  value1 ← index framed 3;
  let values := (text value0, text value1) in
  let values := if selector_value selectors 5 mod 2 =? 1 then swap2 values else values in
  let headers := [(names.1, values.1); (names.2, values.2)] in
  headers ← push_duplicate (selector_value selectors 4) headers;
  body ← index framed 4;
  Ok (RequestParts.new headers (text body)).

End generic.

(** ** The frame format *)

Definition encode_frame (field : list byte) : list byte :=
  utf8 (fmt_dec 0 (len field)) ++ x3a :: field.

Fixpoint encode_payload (fs : list (list byte)) : list byte :=
  match fs with
  | [] => []
  | [f] => encode_frame f
  | f :: r => encode_frame f ++ x7c :: encode_payload r
  end.

Lemma utf8_digits s b :
  Forall (fun c => is_digit c = true) s -> b ∈ utf8 s -> 48 <= byte_val b <= 57.
Proof.
  induction 1 as [|c s Hc _ IH]; unfold utf8; cbn [flat_map]; [by intros ?%not_elem_of_nil|].
  unfold is_digit in Hc. bool_hyps. rewrite elem_of_app. intros [Hb|Hb]; [|by apply IH].
  rewrite utf8_char_ascii in Hb by lia. apply list_elem_of_singleton in Hb as ->.
  rewrite byte_val_of_Z_small; lia.
Qed.

Lemma colon_not_in_number z : 0 <= z -> x3a ∉ utf8 (fmt_dec 0 z).
Proof.
  intros Hz Hin. apply utf8_digits in Hin; [|by apply fmt_dec_digits].
  change (byte_val x3a) with 58 in Hin. lia.
Qed.

Section framing_facts.
Context `{Ar : Arch}.

Lemma frame_number n body :
  0 <= n <= usize_max ->
  frame (utf8 (fmt_dec 0 n) ++ x3a :: body) =
  let k := Z.to_nat (Z.min n (len body)) in
  (take k body, unwrap_or (strip_prefix (bytes_lit "|") (drop k body)) (drop k body)).
Proof.
  intros Hn. unfold frame. rewrite position_app by (apply colon_not_in_number; lia).
  rewrite take_app_length, from_utf8_utf8. cbn [unwrap_or].
  rewrite parse_usize_fmt_dec by done.
  assert (drop (length (utf8 (fmt_dec 0 n)) + 1) (utf8 (fmt_dec 0 n) ++ x3a :: body) = body)
    as ->; [|done].
  rewrite <- drop_drop, drop_app_length. done.
Qed.

Lemma frame_encoded f rest :
  len f <= usize_max ->
  frame (encode_frame f ++ rest) = (f, unwrap_or (strip_prefix (bytes_lit "|") rest) rest).
Proof.
  intros Hf. unfold encode_frame. rewrite <- app_assoc. cbn [app].
  rewrite frame_number by len_solve. cbv zeta. rewrite Z.min_l by len_solve.
  unfold len. rewrite Nat2Z.id, take_app_length, drop_app_length. done.
Qed.

Lemma frames_nil n : frames n [] = replicate n [].
Proof. induction n as [|n IH]; [done|]. cbn. by rewrite IH. Qed.

Lemma frames_encoded n fs :
  (length fs <= n)%nat -> Forall (fun f => len f <= usize_max) fs ->
  frames n (encode_payload fs) = fs ++ replicate (n - length fs) [].
Proof.
  revert n. induction fs as [|f fs IH]; intros n Hn Hl.
  - rewrite frames_nil, Nat.sub_0_r. done.
  - apply Forall_cons in Hl as [Hf Hl]. destruct n as [|n]; [cbn in Hn; lia|].
    cbn [length] in Hn. cbn [frames]. destruct fs as [|g fs].
    + cbn [encode_payload]. rewrite <- (app_nil_r (encode_frame f)), frame_encoded by done.
      cbn. by rewrite frames_nil, Nat.sub_0_r.
    + change (encode_payload (f :: g :: fs))
        with (encode_frame f ++ x7c :: encode_payload (g :: fs)).
      rewrite frame_encoded by done.
      change (x7c :: encode_payload (g :: fs)) with (bytes_lit "|" ++ encode_payload (g :: fs)).
      rewrite strip_prefix_app. cbn [unwrap_or]. rewrite IH by (done || lia). done.
Qed.

(** A field and the remainder are cut out of the data, in this order. *)
Lemma frame_cut data f r : frame data = (f, r) -> exists pre mid, data = pre ++ f ++ mid ++ r.
Proof.
  unfold frame. destruct (position _ data) as [i|]; [|intros [= <- <-]; exists data, []; by rewrite !app_nil_r].
  destruct (parse_usize _) as [n|]; [|intros [= <- <-]; exists data, []; by rewrite !app_nil_r].
  set (body := drop (i + 1) data). set (k := Z.to_nat _). intros [<- <-]%pair_equal_spec.
  exists (take (i + 1) data).
  assert (exists mid, drop k body
    = mid ++ unwrap_or (strip_prefix (bytes_lit "|") (drop k body)) (drop k body)) as [mid Hm].
  { destruct (strip_prefix _ (drop k body)) as [r|] eqn:E; [|by exists []].
    apply strip_prefix_Some in E. by exists (bytes_lit "|"). }
  exists mid. rewrite <- Hm, take_drop. unfold body. by rewrite take_drop.
Qed.

Lemma frames_sublist n data : concat (frames n data) `sublist_of` data.
Proof.
  revert data. induction n as [|n IH]; intros data; [apply sublist_nil_l|].
  cbn [frames]. destruct (frame data) as [f r] eqn:E. cbn [concat].
  apply frame_cut in E as (pre & mid & ->). apply sublist_inserts_l.
  apply sublist_app; [done|]. by apply sublist_inserts_l.
Qed.

Lemma frames_length n data : length (frames n data) = n.
Proof.
  revert data. induction n as [|n IH]; intros data; [done|]. cbn [frames].
  destruct (frame data). cbn [length]. by rewrite IH.
Qed.

Lemma framed_length n data : length (framed n data) = n.
Proof. unfold framed. case_match; [apply frames_length|apply length_replicate]. Qed.

Lemma framed_payload n selectors payload :
  length selectors = 6%nat ->
  framed n (selectors ++ bytes_lit "|" ++ payload) = frames n payload.
Proof.
  intros Hs. unfold framed, get_from. rewrite (proj2 (Nat.leb_le 6 _)).
  - rewrite <- Hs, drop_app_length. cbn [mbind option_bind]. by rewrite strip_prefix_app.
  - rewrite length_app. lia.
Qed.

Lemma framed_sublist n data : concat (framed n data) `sublist_of` data.
Proof.
  unfold framed. destruct (get_from 6 data ≫= _) as [p|] eqn:E.
  - apply bind_Some in E as (d & Hd & Hp%strip_prefix_Some). subst d.
    unfold get_from in Hd. destruct (6 <=? length data)%nat; [|done]. injection Hd as Hd.
    rewrite <- (take_drop 6 data), Hd. apply sublist_inserts_l, sublist_cons, frames_sublist.
  - assert (concat (replicate n (@nil byte)) = []) as ->; [|apply sublist_nil_l].
    by induction n.
Qed.

Lemma index_framed n data i : (i < n)%nat -> exists f, index (framed n data) i = Ok f.
Proof.
  intros Hi. unfold index. destruct (framed n data !! i) as [f|] eqn:E; [by exists f|].
  apply lookup_ge_None in E. rewrite framed_length in E. lia.
Qed.

End framing_facts.

(** C34. The frame parser inverts the documented frame format for any selectors and
    any number of fields, the missing ones being empty; whatever the input, it
    yields exactly the requested number of fields, which are disjoint pieces of the
    input in their order; a body shorter than its announced length is taken whole,
    and an input without the separator after the selectors has only empty fields. *)
Theorem framed_spec `{Ar : Arch} n data :
  (forall selectors fs,
     length selectors = 6%nat -> (length fs <= n)%nat ->
     Forall (fun f => len f <= usize_max) fs ->
     framed n (selectors ++ bytes_lit "|" ++ encode_payload fs)
     = fs ++ replicate (n - length fs) []) /\
  length (framed n data) = n /\
  concat (framed n data) `sublist_of` data /\
  (forall k body, len body <= k <= usize_max ->
     frame (utf8 (fmt_dec 0 k) ++ bytes_lit ":" ++ body) = (body, [])) /\
  (data !! 6%nat <> Some x7c -> framed n data = replicate n []).
Proof.
  split; [intros selectors fs Hs Hn Hf; rewrite framed_payload by done; by apply frames_encoded|].
  split; [apply framed_length|]. split; [apply framed_sublist|]. split.
  - intros k body Hk. change (bytes_lit ":" ++ body) with (x3a :: body).
    rewrite frame_number by len_solve. cbv zeta.
    rewrite Z.min_r by lia. unfold len. by rewrite Nat2Z.id, firstn_all, drop_all.
  - intros H. unfold framed. destruct (get_from 6 data ≫= _) as [p|] eqn:E; [|done].
    destruct H. apply bind_Some in E as (d & Hd & Hp%strip_prefix_Some). subst d.
    unfold get_from in Hd. destruct (6 <=? length data)%nat eqn:L; [|done]. injection Hd as Hd.
    rewrite <- (Nat.add_0_r 6), <- lookup_drop, Hd. done.
Qed.

(** ** The generic scenarios build their input without panicking *)

Lemma mapM_index {A} (l : list A) o :
  Forall (fun i => i < length l)%nat o -> mapM (index l) o = Ok (omap (l !!.) o).
Proof.
  induction 1 as [|i o Hi _ IH]; [done|]. apply lookup_lt_is_Some_2 in Hi as [x E].
  cbn [mapM omap list_omap]. rewrite E, (index_Some _ _ _ E).
  cbn [mbind result_bind]. by rewrite IH.
Qed.

Lemma omap_lookup_seq {A} (pre l : list A) :
  omap ((pre ++ l) !!.) (seq (length pre) (length l)) = l.
Proof.
  revert pre. induction l as [|x l IH]; intros pre; [done|].
  cbn [length seq omap list_omap]. rewrite list_lookup_middle by done.
  f_equal. specialize (IH (pre ++ [x])). rewrite <- app_assoc, length_app in IH.
  cbn [length app] in IH. by rewrite Nat.add_1_r in IH.
Qed.

(** Reading a list through a permutation of its indices permutes it. *)
Lemma mapM_index_perm {A} (l : list A) o :
  o ≡ₚ seq 0 (length l) -> exists l', mapM (index l) o = Ok l' /\ l' ≡ₚ l.
Proof.
  intros Ho. exists (omap (l !!.) o). split.
  - apply mapM_index. rewrite Ho. apply Forall_seq. lia.
  - rewrite Ho. pose proof (omap_lookup_seq [] l) as E. cbn [app length] in E. by rewrite E.
Qed.

Ltac perm := apply NoDup_Permutation; [compute_done|compute_done|set_solver].

Lemma transport_order_perm v : transport_order v ≡ₚ seq 0 3.
Proof. unfold transport_order. repeat case_match; perm. Qed.

Lemma cipher_order_perm v : cipher_order v ≡ₚ seq 0 4.
Proof. unfold cipher_order. repeat case_match; perm. Qed.

Lemma transport_name_total selector slot raw :
  (slot < 3)%nat -> exists name, transport_name selector slot raw = Ok name.
Proof.
  intros H. unfold transport_name.
  destruct slot as [|[|[|slot]]]; [..|lia]; cbn [index lookup list_lookup ok_or TRANSPORT_CANONICAL
    TRANSPORT_MIXED mbind result_bind]; repeat case_match; eauto.
Qed.

Lemma header_cipher_name_total selector slot raw :
  (slot < 4)%nat -> exists name, header_cipher_name selector slot raw = Ok name.
Proof.
  intros H. unfold header_cipher_name.
  destruct slot as [|[|[|[|slot]]]]; [..|lia]; cbn [index lookup list_lookup ok_or CIPHER_CANONICAL
    CIPHER_MIXED TRANSPORT_CANONICAL TRANSPORT_MIXED app mbind result_bind];
    repeat case_match; eauto.
Qed.

Lemma typed_name_total selector slot raw :
  (slot < 2)%nat -> exists name, typed_name selector slot raw = Ok name.
Proof.
  intros H. unfold typed_name.
  destruct slot as [|[|slot]]; [..|lia]; cbn [index lookup list_lookup ok_or TYPED_CANONICAL
    TYPED_MIXED mbind result_bind]; repeat case_match; eauto.
Qed.

(** [headers], or [headers] followed by its first element up to the case of its name. *)
Definition maybe_duplicated (headers hs : list (str * str)) : Prop :=
  hs = headers \/
  exists first rest n, headers = first :: rest /\ hs = headers ++ [(n, first.2)] /\
    to_ascii_lowercase n = to_ascii_lowercase first.1.

Lemma push_duplicate_total mode headers :
  headers <> [] -> exists hs, push_duplicate mode headers = Ok hs /\ maybe_duplicated headers hs.
Proof.
  intros H. destruct headers as [|[n v] rest]; [done|]. unfold push_duplicate, maybe_duplicated.
  destruct (mode mod 3) as [|p|p]; [eauto| |]; [destruct p|]; cbn; eexists; split; eauto;
    right; exists (n, v), rest; eauto using to_ascii_lowercase_idemp.
Qed.

(** Name the fields of an input. *)
Ltac name_fields fs H :=
  cbn [length] in H; lazymatch type of H with
  | O = O => idtac
  | O = S _ => discriminate H
  | length fs = O => apply nil_length_inv in H; subst fs
  | length fs = S _ =>
      let f := fresh "f" in let fs' := fresh "fs" in
      destruct fs as [|f fs']; [discriminate H|]; cbn [length] in H; injection H as H;
      name_fields fs' H
  end.

Section generic_facts.
Context `{Sys : System} `{Ar : Arch}.

Lemma generic_transport_shape data :
  exists f0 f1 f2 f3 f4 f5 f6 n0 n1 n2 hs0 hs,
    framed 7 data = [f0; f1; f2; f3; f4; f5; f6] /\
    hs0 ≡ₚ [(n0, text f3); (n1, text f4); (n2, text f5)] /\ maybe_duplicated hs0 hs /\
    generic_transport_parts data = Ok (ResponseParts.new hs (text f6)).
Proof.
  unfold generic_transport_parts. pose proof (framed_length 7 data) as H.
  generalize dependent (framed 7 data). intros fs H. name_fields fs H.
  cbn [seq mapM index lookup list_lookup ok_or mbind result_bind Nat.add].
  destruct (transport_name_total (selectors_of data !! 1%nat) 0 f ltac:(lia)) as [n0 ->].
  destruct (transport_name_total (selectors_of data !! 2%nat) 1 f0 ltac:(lia)) as [n1 ->].
  destruct (transport_name_total (selectors_of data !! 3%nat) 2 f1 ltac:(lia)) as [n2 ->].
  cbn [mbind result_bind mret result_ret].
  destruct (mapM_index_perm [(n0, text f2); (n1, text f3); (n2, text f4)]
    (transport_order (selector_value (selectors_of data) 4)) (transport_order_perm _))
    as (hs0 & -> & Hp). cbn [mbind result_bind].
  destruct (push_duplicate_total (selector_value (selectors_of data) 5) hs0) as (hs & -> & Hd).
  { intros ->. by apply Permutation_nil_l in Hp. }
  cbn [mbind result_bind]. do 12 eexists. eauto.
Qed.

Lemma generic_header_cipher_shape data :
  exists f0 f1 f2 f3 f4 f5 f6 f7 f8 n0 n1 n2 n3 hs0 hs,
    framed 9 data = [f0; f1; f2; f3; f4; f5; f6; f7; f8] /\
    hs0 ≡ₚ [(n0, text f4); (n1, text f5); (n2, text f6); (n3, text f7)] /\
    maybe_duplicated hs0 hs /\
    generic_header_cipher_parts data = Ok (ResponseParts.new hs (text f8)).
Proof.
  unfold generic_header_cipher_parts. pose proof (framed_length 9 data) as H.
  generalize dependent (framed 9 data). intros fs H. name_fields fs H.
  cbn [seq mapM index lookup list_lookup ok_or mbind result_bind Nat.add].
  destruct (header_cipher_name_total (selectors_of data !! 1%nat) 0 f ltac:(lia)) as [n0 ->].
  destruct (header_cipher_name_total (selectors_of data !! 2%nat) 1 f0 ltac:(lia)) as [n1 ->].
  destruct (header_cipher_name_total (selectors_of data !! 3%nat) 2 f1 ltac:(lia)) as [n2 ->].
  destruct (header_cipher_name_total (selectors_of data !! 4%nat) 3 f2 ltac:(lia)) as [n3 ->].
  cbn [mbind result_bind mret result_ret].
  destruct (mapM_index_perm [(n0, text f3); (n1, text f4); (n2, text f5); (n3, text f6)]
    (cipher_order (selector_value (selectors_of data) 5)) (cipher_order_perm _))
    as (hs0 & -> & Hp). cbn [mbind result_bind].
  destruct (push_duplicate_total (selector_value (selectors_of data) 5) hs0) as (hs & -> & Hd).
  { intros ->. by apply Permutation_nil_l in Hp. }
  cbn [mbind result_bind]. do 15 eexists. eauto.
Qed.

Lemma generic_typed_total data : exists r, generic_typed_parts data = Ok r.
Proof.
  unfold generic_typed_parts. pose proof (framed_length 5 data) as H.
  generalize dependent (framed 5 data). intros fs H. name_fields fs H.
  cbn [index lookup list_lookup ok_or mbind result_bind].
  destruct (typed_name_total (selectors_of data !! 1%nat) 0 f ltac:(lia)) as [n0 ->].
  destruct (typed_name_total (selectors_of data !! 2%nat) 1 f0 ltac:(lia)) as [n1 ->].
  cbn [mbind result_bind].
  match goal with |- context [push_duplicate ?m ?hs] =>
    destruct (push_duplicate_total m hs) as (hs' & -> & _); [done|] end.
  cbn [mbind result_bind]. eauto.
Qed.

End generic_facts.
