(* ===== verification/FuzzHarness.v ===== *)
(** * The fuzz harness (src/fuzz/fuzz_targets)

    The fixed schemas, clients and envelopes the targets share, and the targets.
    A target is a function of its input over the harness state: the statics that
    cache the sealed envelopes ([OnceLock]) and the environment.  The statics whose
    initialiser is deterministic (schemas, adapters, clients) are plain
    definitions; for those, computing again and reusing agree. *)

From S2P Require Import Prelude.
From S2P Require Import Rust.
From S2P Require Import Text.
From S2P Require Import Parsing.
From S2P Require Import System.
From S2P Require Import Error.
From S2P Require Import Header.
From S2P Require Import Auth.
From S2P Require Import ClientConfig.
From S2P Require Import External.
From S2P Require Import Keys.
From S2P Require Import Message.
From S2P Require Import EnvelopeBase.
From S2P Require Import Envelope.
From S2P Require Import Adapter.
From S2P Require Import HeaderAdapter.
From S2P Require Import Client.
From S2P Require Import FuzzInput.

Definition TEST_PASSWORD : list byte := bytes_lit "public-fuzz-password".
Definition AUXILIARY_LIMIT : Z := 16 * 1024.
Definition MAX_PLAINTEXT_BYTES : Z := 64.
Definition AEAD_FRAME_OVERHEAD_BYTES : Z := 30.
Definition AEAD_CIPHER_LIMIT : Z :=
  div_ceil (MAX_PLAINTEXT_BYTES + AEAD_FRAME_OVERHEAD_BYTES) 3 * 4.
Definition PADDED_CIPHER_BYTES : Z := (MAX_PLAINTEXT_BYTES / 16 + 1) * 16.
Definition CIPHER_LIMIT : Z := div_ceil PADDED_CIPHER_BYTES 3 * 4.
Definition VALID_PLAINTEXT : list byte := bytes_lit "fuzz envelope".
Definition EXPECTED_REMOTE_SIGNING_CERTIFICATE : str := lit "fuzz-certificate".
Definition CONTEXT_DOMAIN_SEPARATOR : list byte := bytes_lit "fuzz/domain-separator/v1".
Definition DEFAULT_PROTOCOL_CONTEXT : list byte := bytes_lit "operation=fuzz".

(** ** Schemas and adapters *)

Section schemas.
Context `{Sys : System}.

Definition fuzz_schema_builder : HeaderSchemaBuilder.t :=
  let b := HeaderSchemaBuilder.default in
  let b := HeaderSchemaBuilder.static_request_header b (lit "Content-Type")
             (lit "application/fuzz+octets") in
  let b := HeaderSchemaBuilder.local_identity_header b (lit "X-Fuzz-Local-Identity") in
  let b := HeaderSchemaBuilder.operation_header b (lit "X-Fuzz-Operation") in
  let b := HeaderSchemaBuilder.request_id_header b (lit "X-Fuzz-Request-Id") in
  let b := HeaderSchemaBuilder.request_time_header b (lit "X-Fuzz-Request-Time") in
  let b := HeaderSchemaBuilder.api_version_header b (lit "X-Fuzz-Api-Version") in
  let b := HeaderSchemaBuilder.local_certificate_header b (lit "X-Fuzz-Local-Certificate") in
  let b := HeaderSchemaBuilder.remote_signing_certificate_header b
             (lit "X-Fuzz-Remote-Signing-Certificate") in
  let b := HeaderSchemaBuilder.remote_encryption_certificate_header b
             (lit "X-Fuzz-Remote-Encryption-Certificate") in
  let b := HeaderSchemaBuilder.request_signature_header b (lit "X-Fuzz-Request-Signature") in
  let b := HeaderSchemaBuilder.request_wrapped_key_header b (lit "X-Fuzz-Request-Wrapped-Key") in
  let b := HeaderSchemaBuilder.request_cipher b CipherLocation.Body in
  let b := HeaderSchemaBuilder.response_signature_header b (lit "X-Fuzz-Response-Signature") in
  let b := HeaderSchemaBuilder.response_wrapped_key_header b
             (lit "X-Fuzz-Response-Wrapped-Key") in
  HeaderSchemaBuilder.response_remote_signing_certificate_header b
    (lit "X-Fuzz-Response-Remote-Signing-Certificate").

Definition schema : Panics HeaderSchema.t :=
  let b := HeaderSchemaBuilder.response_cipher fuzz_schema_builder CipherLocation.Body in
  let b := HeaderSchemaBuilder.legacy_authentication b in
  expect "fixed complete fuzz schema" (HeaderSchemaBuilder.build b).

Definition header_cipher_schema : Panics HeaderSchema.t :=
  name ← expect "token header name" (HeaderName.new (lit "X-Fuzz-Response-Cipher"));
  let b := HeaderSchemaBuilder.response_cipher fuzz_schema_builder (CipherLocation.Header name) in
  let b := HeaderSchemaBuilder.legacy_authentication b in
  expect "fixed complete header-cipher fuzz schema" (HeaderSchemaBuilder.build b).

Definition context_schema : Panics HeaderSchema.t :=
  let b := HeaderSchemaBuilder.response_cipher fuzz_schema_builder CipherLocation.Body in
  let b := HeaderSchemaBuilder.context_bound_authentication b in
  expect "fixed context-bound fuzz schema" (HeaderSchemaBuilder.build b).

Definition adapter : Panics HeaderProtocolAdapter.t :=
  schema ← schema; Ok (HeaderProtocolAdapter.new schema).

Definition header_cipher_adapter : Panics HeaderProtocolAdapter.t :=
  schema ← header_cipher_schema; Ok (HeaderProtocolAdapter.new schema).

(** ** Fixed transport and header scenarios *)

Definition signature_header : str := lit "X-Fuzz-Response-Signature".
Definition wrapped_key_header : str := lit "X-Fuzz-Response-Wrapped-Key".
Definition certificate_header : str := lit "X-Fuzz-Response-Remote-Signing-Certificate".
Definition cipher_header : str := lit "X-Fuzz-Response-Cipher".

(** The three headers of a well-formed response. *)
Definition success_headers : list (str * str) :=
  [(signature_header, lit "signature"); (wrapped_key_header, lit "wrapped");
   (certificate_header, lit "fuzz-certificate")].

Definition transport_outcome (scenario : TransportScenario.t) : Panics (option ScenarioOutcome.t) :=
  let parse adapter headers body :=
    adapter ← adapter;
    Ok (Some (if is_ok (HeaderProtocolAdapter.parse_response adapter
                          (ResponseParts.new headers body))
              then ScenarioOutcome.Accepted else ScenarioOutcome.Rejected)) in
  match scenario with
  | TransportScenario.Success => parse adapter success_headers (lit "cipher")
  | TransportScenario.Duplicate =>
      parse adapter
        [(signature_header, lit "first"); (lit "x-fuzz-response-signature", lit "second");
         (wrapped_key_header, lit "wrapped"); (certificate_header, lit "fuzz-certificate")]
        (lit "cipher")
  | TransportScenario.Unknown =>
      parse adapter ((lit "X-Fuzz-Unknown", lit "ignored") :: success_headers) (lit "cipher")
  | TransportScenario.Missing =>
      parse adapter [(signature_header, lit "signature")] (lit "cipher")
  | TransportScenario.HeaderCipherSuccess =>
      parse header_cipher_adapter (success_headers ++ [(cipher_header, lit "cipher")])
        (lit "ignored-body")
  | TransportScenario.HeaderCipherMissing =>
      parse header_cipher_adapter success_headers (lit "ignored-body")
  | TransportScenario.HeaderCipherEmpty =>
      parse header_cipher_adapter (success_headers ++ [(cipher_header, [])]) (lit "ignored-body")
  | TransportScenario.HeaderCipherDuplicate =>
      parse header_cipher_adapter
        (success_headers ++ [(cipher_header, lit "first");
                             (lit "x-fuzz-response-cipher", lit "second")])
        (lit "ignored-body")
  | TransportScenario.Generic | TransportScenario.HeaderCipherGeneric => Ok None
  end.

Definition typed_outcome (scenario : TypedScenario.t) : option ScenarioOutcome.t :=
  let outcome (accepted : bool) :=
    Some (if accepted then ScenarioOutcome.Accepted else ScenarioOutcome.Rejected) in
  match scenario with
  | TypedScenario.Valid =>
      outcome (is_ok (HeaderName.new (lit "X-Fuzz-Header"))
        && is_ok (HeaderValue.new (lit "header-value"))
        && is_ok (RequestParts.new
             [(lit "X-Fuzz-Header", lit "header-value"); (lit "X-Fuzz-Other", lit "second")]
             (lit "body")))
  | TypedScenario.Duplicate =>
      outcome (is_ok (RequestParts.new
        [(lit "X-Fuzz-Header", lit "first"); (lit "x-fuzz-header", lit "second")] (lit "body")))
  | TypedScenario.Generic => None
  end.

End schemas.

(** ** The harness state *)

(** The [OnceLock<SecureEnvelope>] statics of [valid_envelope],
    [aead_valid_envelope] and [ccm_valid_envelope]. *)
Record Statics := {
  ENVELOPE : option SecureEnvelope.t;
  AEAD_ENVELOPE : option SecureEnvelope.t;
  CCM_ENVELOPE : option SecureEnvelope.t;
}.

Definition no_statics : Statics :=
  {| ENVELOPE := None; AEAD_ENVELOPE := None; CCM_ENVELOPE := None |}.

Inductive cell := LegacyCell | GcmCell | CcmCell.

#[export] Instance cell_eq_dec : EqDecision cell.
Proof. solve_decision. Defined.

Definition get (c : cell) (s : Statics) : option SecureEnvelope.t :=
  match c with
  | LegacyCell => ENVELOPE s
  | GcmCell => AEAD_ENVELOPE s
  | CcmCell => CCM_ENVELOPE s
  end.

Definition set (c : cell) (e : SecureEnvelope.t) (s : Statics) : Statics :=
  match c with
  | LegacyCell => {| ENVELOPE := Some e; AEAD_ENVELOPE := AEAD_ENVELOPE s;
                     CCM_ENVELOPE := CCM_ENVELOPE s |}
  | GcmCell => {| ENVELOPE := ENVELOPE s; AEAD_ENVELOPE := Some e;
                  CCM_ENVELOPE := CCM_ENVELOPE s |}
  | CcmCell => {| ENVELOPE := ENVELOPE s; AEAD_ENVELOPE := AEAD_ENVELOPE s;
                  CCM_ENVELOPE := Some e |}
  end.

(** A computation of the harness: it may panic. *)
Abbreviation Harness := (io (Statics * world) string).

(** ** Clients *)

Section clients.
Context `{Sys : System} `{Ar : Arch} `{B64 : Base64} `{Cr : !Crypto} `{Kt : !KeyTooling Cr}.

(** The settings every fuzz client starts from. *)
Definition fuzz_config_builder : ClientConfigBuilder.t :=
  let b := ClientConfigBuilder.default in
  let b := ClientConfigBuilder.local_identity_id b (lit "fuzz-identity") in
  let b := ClientConfigBuilder.api_version b (lit "fuzz-v1") in
  let b := ClientConfigBuilder.local_certificate_id b EXPECTED_REMOTE_SIGNING_CERTIFICATE in
  let b := ClientConfigBuilder.expected_remote_signing_certificate_id b
             EXPECTED_REMOTE_SIGNING_CERTIFICATE in
  let b := ClientConfigBuilder.remote_encryption_certificate_id b
             (lit "fuzz-encryption-certificate") in
  let b := ClientConfigBuilder.local_signer_id b (bytes_lit "fuzz-signer") in
  ClientConfigBuilder.expected_remote_signer_id b (bytes_lit "fuzz-signer").

(** The encrypted private key and the public key the clients load. *)
Definition fuzz_key_files : Panics (list byte * list byte) :=
  let scalar := replicate 31 x00 ++ [x07] in
  private ← expect "valid public test scalar" (ok_or (from_bytes_be scalar) tt);
  encrypted ← expect "runtime-only encrypted fuzz key"
    (ok_or (pkcs8_encrypt private TEST_PASSWORD (replicate 16 x07) 1 (replicate 16 x08)) tt);
  Ok (encrypted, spki_encode (public_key private)).

Definition fuzz_key_material (encrypted public : list byte) : Panics KeyMaterial.t :=
  local ← expect "runtime-only fuzz private key"
            (PrivateKey.from_encrypted_der encrypted TEST_PASSWORD);
  remote ← expect "runtime-only fuzz public key" (PublicKey.from_der public);
  Ok (KeyMaterial.shared local remote).

Definition client : Panics SecureClient.t :=
  '(encrypted, public) ← fuzz_key_files;
  let b := ClientConfigBuilder.authentication_mode fuzz_config_builder
             AuthenticationMode.LegacyPlaintext in
  let b := ClientConfigBuilder.envelope_mode b EnvelopeMode.LegacyCbc in
  let b := ClientConfigBuilder.iv b (bytes_lit "0123456789abcdef") in
  let b := ClientConfigBuilder.max_plaintext_bytes b MAX_PLAINTEXT_BYTES in
  config ← expect "fixed fuzz configuration" (ClientConfigBuilder.build b);
  keys ← fuzz_key_material encrypted public;
  schema ← schema;
  expect "legacy header adapter matches LegacyPlaintext"
    (SecureClient.new config keys
       (HeaderProtocolAdapter.as_adapter (HeaderProtocolAdapter.new schema))).

Definition context_client : Panics SecureClient.t :=
  '(encrypted, public) ← fuzz_key_files;
  mode ← expect "nonempty fuzz domain separator"
           (AuthenticationMode.context_bound CONTEXT_DOMAIN_SEPARATOR);
  let b := ClientConfigBuilder.authentication_mode fuzz_config_builder mode in
  let b := ClientConfigBuilder.envelope_mode b EnvelopeMode.LegacyCbc in
  let b := ClientConfigBuilder.iv b (bytes_lit "0123456789abcdef") in
  let b := ClientConfigBuilder.max_plaintext_bytes b MAX_PLAINTEXT_BYTES in
  config ← expect "fixed context-bound fuzz configuration" (ClientConfigBuilder.build b);
  keys ← fuzz_key_material encrypted public;
  schema ← context_schema;
  expect "context-bound header adapter matches ContextBound"
    (SecureClient.new config keys
       (HeaderProtocolAdapter.as_adapter (HeaderProtocolAdapter.new schema))).

Definition aead_client_with (algorithm : AeadAlgorithm.t) : Panics SecureClient.t :=
  '(encrypted, public) ← fuzz_key_files;
  let b := ClientConfigBuilder.authentication_mode fuzz_config_builder
             AuthenticationMode.LegacyPlaintext in
  let b := ClientConfigBuilder.envelope_mode b (EnvelopeMode.Aead algorithm) in
  let b := ClientConfigBuilder.max_plaintext_bytes b MAX_PLAINTEXT_BYTES in
  config ← expect "fixed AEAD fuzz configuration" (ClientConfigBuilder.build b);
  keys ← fuzz_key_material encrypted public;
  schema ← schema;
  expect "legacy header adapter matches LegacyPlaintext"
    (SecureClient.new config keys
       (HeaderProtocolAdapter.as_adapter (HeaderProtocolAdapter.new schema))).

Definition aead_client : Panics SecureClient.t := aead_client_with AeadAlgorithm.Sm4Gcm.
Definition ccm_client : Panics SecureClient.t := aead_client_with AeadAlgorithm.Sm4Ccm.

(** ** The cached envelopes *)

(** A library call inside the harness; its error is a value. *)
Definition run {A} (m : IO A) : Harness (Result A) := fun '(s, w) =>
  let '(r, w') := m w in (Ok r, (s, w')).

(** [OnceLock::get_or_init]. *)
Definition get_or_init (c : cell) (init : Harness SecureEnvelope.t) : Harness SecureEnvelope.t :=
  fun '(s, w) =>
  match get c s with
  | Some e => (Ok e, (s, w))
  | None =>
      match init (s, w) with
      | (Ok e, (s', w')) => (Ok e, (set c e s', w'))
      | (Err panic, state) => (Err panic, state)
      end
  end.

Definition seal_valid (client : Panics SecureClient.t) (msg : string) :
    Harness SecureEnvelope.t :=
  client ← lift client;
  sealed ← run (SecureClient.seal client VALID_PLAINTEXT AuthenticationContext.legacy);
  lift (expect msg sealed).

Definition valid_envelope : Harness SecureEnvelope.t :=
  get_or_init LegacyCell (seal_valid client "runtime-generated valid fuzz envelope").
Definition aead_valid_envelope : Harness SecureEnvelope.t :=
  get_or_init GcmCell (seal_valid aead_client "runtime-generated valid AEAD fuzz envelope").
Definition ccm_valid_envelope : Harness SecureEnvelope.t :=
  get_or_init CcmCell (seal_valid ccm_client "runtime-generated valid CCM fuzz envelope").

(** ** Envelope values *)

Definition mutate (valid : str) (raw : list byte) : Panics str :=
  let value := utf8 valid in
  value ← (if bool_decide (value = []) then Ok value
           else
             let i := Z.to_nat (byte_val (unwrap_or (head raw) x00) mod len value) in
             old ← index value i;
             Ok (<[i := if bool_decide (old = x41) then x42 else x41]> value));
  expect "base64 is UTF-8" (ok_or (from_utf8 value) tt).

Definition select_value (mode boundary : option byte) (raw : list byte) (valid : str)
    (limit : Z) : Panics str :=
  let mode :=
    match mode with
    | Some m => if byte_is m "v" then 0 else if byte_is m "r" then 1
                else if byte_is m "b" then 2 else if byte_is m "m" then 3
                else byte_val m mod 4
    | None => 0
    end in
  match mode with
  | 0 => Ok valid
  | 1 => Ok (text raw)
  | 2 => Ok (replicate (Z.to_nat (Z.max 0 (limit - 1)
                                  + byte_val (unwrap_or boundary x30) mod 3))
               (char_of_Z 65))
  | _ => mutate valid raw
  end.

Definition values_for (data : list byte) (envelope : SecureEnvelope.t) (cipher_limit : Z) :
    Panics (str * str * str) :=
  let fields := fields data in
  signature_raw ← index fields 0;
  wrapped_raw ← index fields 1;
  cipher_raw ← index fields 2;
  let selectors := selectors_of data in
  signature ← select_value (selectors !! 0%nat) (selectors !! 3%nat) signature_raw
                (SecureEnvelope.signature envelope) AUXILIARY_LIMIT;
  wrapped_key ← select_value (selectors !! 1%nat) (selectors !! 4%nat) wrapped_raw
                  (SecureEnvelope.wrapped_session_key envelope) AUXILIARY_LIMIT;
  cipher ← select_value (selectors !! 2%nat) (selectors !! 5%nat) cipher_raw
             (SecureEnvelope.cipher envelope) cipher_limit;
  Ok (signature, wrapped_key, cipher).

Definition encoded_values (data : list byte) : Harness (str * str * str) :=
  envelope ← valid_envelope;
  lift (values_for data envelope CIPHER_LIMIT).

Definition aead_encoded_values_for (data : list byte) (envelope : SecureEnvelope.t) :
    Panics (str * str * str) := values_for data envelope AEAD_CIPHER_LIMIT.

Definition aead_encoded_values (data : list byte) : Harness (str * str * str) :=
  envelope ← aead_valid_envelope; lift (aead_encoded_values_for data envelope).
Definition ccm_encoded_values (data : list byte) : Harness (str * str * str) :=
  envelope ← ccm_valid_envelope; lift (aead_encoded_values_for data envelope).

Definition encoded_certificate_claim (data : list byte) : Panics str :=
  claim ← index (framed 4 data) 3;
  Ok (if bool_decide (claim = []) then EXPECTED_REMOTE_SIGNING_CERTIFICATE else text claim).

Definition envelope_response_parts (values : str * str * str) (data : list byte) :
    Panics ResponseParts.t :=
  let '(signature, wrapped_key, cipher) := values in
  claim ← encoded_certificate_claim data;
  Ok (ResponseParts.new
    [(signature_header, signature); (wrapped_key_header, wrapped_key);
     (certificate_header, claim)] cipher).

Definition encoded_response_parts (data : list byte) : Harness ResponseParts.t :=
  values ← encoded_values data; lift (envelope_response_parts values data).
Definition aead_response_parts (data : list byte) : Harness ResponseParts.t :=
  values ← aead_encoded_values data; lift (envelope_response_parts values data).
Definition ccm_response_parts (data : list byte) : Harness ResponseParts.t :=
  values ← ccm_encoded_values data; lift (envelope_response_parts values data).

(** ** The context-bound scenarios *)

Definition context_outcome (data : list byte) : Harness ScenarioOutcome.t :=
  let scenario := context_scenario data in
  plaintext_raw ← lift (index (fields data) 0);
  context_raw ← lift (index (fields data) 1);
  let plaintext :=
    match scenario with
    | ContextScenario.OversizePlaintext =>
        replicate (Z.to_nat (MAX_PLAINTEXT_BYTES + 1)) x78
    | _ => unwrap_or (get_to (Nat.min (length plaintext_raw) (Z.to_nat MAX_PLAINTEXT_BYTES))
                        plaintext_raw) []
    end in
  let sealing_bytes :=
    if bool_decide (context_raw = []) then DEFAULT_PROTOCOL_CONTEXT else context_raw in
  match AuthenticationContext.context_bound sealing_bytes with
  | Err _ => mret ScenarioOutcome.Rejected
  | Ok sealing_context =>
      client ← lift context_client;
      sealed ← run (SecureClient.seal client plaintext sealing_context);
      match sealed with
      | Err _ => mret ScenarioOutcome.Rejected
      | Ok envelope =>
          opening_context ←
            match scenario with
            | ContextScenario.LegacyMarker => mret AuthenticationContext.legacy
            | ContextScenario.MismatchedContext =>
                lift (expect "nonempty bound context"
                        (AuthenticationContext.context_bound (sealing_bytes ++ [x21])))
            | _ => mret sealing_context
            end;
          match SecureClient.open client envelope opening_context with
          | Ok opened =>
              _ ← lift (guard_err (negb (bool_decide (opened = plaintext)))
                   "a context-bound round trip must return exactly the sealed plaintext"%string);
              mret ScenarioOutcome.Accepted
          | Err _ => mret ScenarioOutcome.Rejected
          end
      end
  end.

(** ** The targets *)

Definition transport_parts_target (data : list byte) : Panics unit :=
  let scenario := transport_scenario data in
  match transport_expected_outcome scenario with
  | Some expected =>
      outcome ← transport_outcome scenario;
      assert (bool_decide (outcome = Some expected)) "transport outcome"
  | None =>
      if bool_decide (scenario = TransportScenario.HeaderCipherGeneric) then
        adapter ← header_cipher_adapter;
        parts ← generic_header_cipher_parts data;
        let _ := HeaderProtocolAdapter.parse_response adapter parts in
        Ok tt
      else
        adapter ← adapter;
        parts ← generic_transport_parts data;
        let _ := HeaderProtocolAdapter.parse_response adapter parts in
        Ok tt
  end.

Definition typed_headers_target (data : list byte) : Panics unit :=
  let scenario := typed_scenario data in
  match typed_expected_outcome scenario with
  | Some expected =>
      assert (bool_decide (typed_outcome scenario = Some expected)) "typed outcome"
  | None => _ ← generic_typed_parts data; Ok tt
  end.

Definition FULL_VALID : list byte := bytes_lit "vvv000|0:|0:|0:" ++ [x0a].

Definition open_target (client : Panics SecureClient.t) (parts : Harness ResponseParts.t)
    (msg : string) (data : list byte) : Harness unit :=
  client ← lift client;
  response ← parts;
  let opened := SecureClient.open_response client response in
  if bool_decide (data = FULL_VALID) then
    opened ← lift (expect msg opened);
    lift (assert (bool_decide (opened = VALID_PLAINTEXT)) "opened plaintext")
  else mret tt.

Definition encoded_envelope_target (data : list byte) : Harness unit :=
  open_target client (encoded_response_parts data) "full valid envelope opens" data.
Definition aead_envelope_target (data : list byte) : Harness unit :=
  open_target aead_client (aead_response_parts data) "full valid AEAD envelope opens" data.
Definition aead_ccm_envelope_target (data : list byte) : Harness unit :=
  open_target ccm_client (ccm_response_parts data) "full valid CCM envelope opens" data.

Definition context_envelope_target (data : list byte) : Harness unit :=
  outcome ← context_outcome data;
  match context_expected_outcome (context_scenario data) with
  | Some expected =>
      lift (assert (bool_decide (outcome = expected))
              "context-bound scenario must reach its declared outcome")
  | None => mret tt
  end.

End clients.
