(* ===== verification/Fuzz.v ===== *)
(** * What the fuzz targets establish

    The fixed scenarios reach their declared outcomes, the harness' own code never
    panics, and no input sequence makes an assertion of a target fail, given the
    laws of the primitives. *)

From S2P Require Import Prelude.
From S2P Require Import Rust.
From S2P Require Import Text.
From S2P Require Import Parsing.
From S2P Require Import System.
From S2P Require Import Error.
From S2P Require Import Header.
From S2P Require Import Auth.
From S2P Require Import ClientConfig.
From S2P Require Import External.
From S2P Require Import Keys.
From S2P Require Import Message.
From S2P Require Import EnvelopeBase.
From S2P Require Import Envelope.
From S2P Require Import Adapter.
From S2P Require Import HeaderAdapter.
From S2P Require Import Client.
From S2P Require Import FuzzInput.
From S2P Require Import FuzzHarness.

Lemma run_bind `{Sys : System} {A B} (m : IO A) (f : Result A -> Harness B) s w r w' :
  m w = (r, w') -> (run m ≫= f) (s, w) = f r (s, w').
Proof. intros H. unfold run, mbind, io_bind. by rewrite H. Qed.

(** ** The fixed schemas *)

(** What the response side of the harness relies on. *)
Record fuzz_schema (s : HeaderSchema.t) (auth : HeaderAuthentication.t) : Prop := {
  fs_wf : schema_wf s;
  fs_signature : HeaderName.original (HeaderSchema.response_signature_header s) = signature_header;
  fs_wrapped_key :
    HeaderName.original (HeaderSchema.response_wrapped_key_header s) = wrapped_key_header;
  fs_certificate :
    HeaderName.original (HeaderSchema.response_remote_signing_certificate_header s)
    = certificate_header;
  fs_cipher : HeaderSchema.response_cipher s = CipherLocation.Body;
  fs_authentication : HeaderSchema.authentication s = auth;
}.

Section schemas.
Context `{Sys : System}.

Lemma fuzz_schema_built b s auth :
  HeaderSchemaBuilder.build b = Ok s ->
  HeaderSchemaBuilder.b_response_signature_header b = Some signature_header ->
  HeaderSchemaBuilder.b_response_wrapped_key_header b = Some wrapped_key_header ->
  HeaderSchemaBuilder.b_response_remote_signing_certificate_header b = Some certificate_header ->
  HeaderSchemaBuilder.b_response_cipher b = Some CipherLocation.Body ->
  HeaderSchemaBuilder.b_legacy_authentication b
    = bool_decide (auth = HeaderAuthentication.Legacy) ->
  fuzz_schema s auth.
Proof.
  intros [[] Hw]%schema_build_Ok H1 H2 H3 H4 H5. constructor; [done|congruence..|].
  rewrite H5 in sd_legacy. destruct auth, (HeaderSchema.authentication s); done.
Qed.

Lemma schema_Ok : exists s, schema = Ok s /\ fuzz_schema s HeaderAuthentication.Legacy.
Proof.
  destruct (is_ok_exists schema) as [s Hs]; [vm_compute; reflexivity|].
  exists s. split; [done|]. apply expect_Ok in Hs.
  eapply fuzz_schema_built; [exact Hs|reflexivity..].
Qed.

Lemma context_schema_Ok :
  exists s, context_schema = Ok s /\ fuzz_schema s HeaderAuthentication.ContextBound.
Proof.
  destruct (is_ok_exists context_schema) as [s Hs]; [vm_compute; reflexivity|].
  exists s. split; [done|]. apply expect_Ok in Hs.
  eapply fuzz_schema_built; [exact Hs|reflexivity..].
Qed.

Lemma header_cipher_adapter_total : exists a, header_cipher_adapter = Ok a.
Proof. apply is_ok_exists. vm_compute. reflexivity. Qed.

Lemma transport_outcome_expected s :
  transport_outcome s = Ok (transport_expected_outcome s).
Proof. destruct s; vm_compute; reflexivity. Qed.

Lemma typed_outcome_expected s : typed_outcome s = typed_expected_outcome s.
Proof. destruct s; vm_compute; reflexivity. Qed.

End schemas.

(** ** The fixed clients *)

Section clients.
Context `{Sys : System} `{Ar : Arch} `{B64 : Base64} `{Cr : !Crypto} `{Kt : !KeyTooling Cr}.

(** A client that is its own peer, with a header adapter. *)
Record fuzz_client (c : SecureClient.t) (am : AuthenticationMode.t) (em : EnvelopeMode.t)
    (s : HeaderSchema.t) : Prop := {
  fc_wf : config_wf (SecureClient.config c);
  fc_authentication : ClientConfig.authentication_mode (SecureClient.config c) = am;
  fc_mode : ClientConfig.envelope_mode (SecureClient.config c) = em;
  fc_max : ClientConfig.max_plaintext_bytes (SecureClient.config c) = MAX_PLAINTEXT_BYTES;
  fc_certificate :
    ClientIdentity.expected_remote_signing_certificate_id
      (ClientConfig.identity (SecureClient.config c)) = EXPECTED_REMOTE_SIGNING_CERTIFICATE;
  fc_self : counterpart (SecureClient.config c) (SecureClient.keys c)
              (SecureClient.config c) (SecureClient.keys c);
  fc_adapter : SecureClient.adapter c
    = HeaderProtocolAdapter.as_adapter (HeaderProtocolAdapter.new s);
}.

Section laws.
Context `{Kl : !KeyToolingLaws Cr Kt}.

Lemma fuzz_keys :
  exists encrypted public k,
    fuzz_key_files = Ok (encrypted, public) /\
    fuzz_key_material encrypted public
    = Ok (KeyMaterial.shared (PrivateKey.Build k) (PublicKey.Build (public_key k) PeerKeySource.Spki)).
Proof.
  destruct (from_bytes_be_small x07) as (k & Hk & _); [done|].
  destruct (pkcs8_encrypt_accepts k TEST_PASSWORD (replicate 16 x07) 1 (replicate 16 x08))
    as [der Hd]; [done..|].
  exists der, (spki_encode (public_key k)), k. unfold fuzz_key_files, fuzz_key_material.
  rewrite Hk. cbn [ok_or expect map_err mbind result_bind]. rewrite Hd. split; [done|].
  unfold PrivateKey.from_encrypted_der, PublicKey.from_der.
  by rewrite (pkcs8_decrypt_encrypt _ _ _ _ _ _ Hd), spki_decode_encode.
Qed.

(** A valid fuzz configuration makes a self-peered client. *)
Lemma fuzz_client_built b am em iv c k s auth :
  ClientConfigBuilder.build b = Ok c ->
  b = ClientConfigBuilder.Build (Some (lit "fuzz-identity")) (Some (lit "fuzz-v1"))
        (Some EXPECTED_REMOTE_SIGNING_CERTIFICATE) (Some EXPECTED_REMOTE_SIGNING_CERTIFICATE)
        (Some (lit "fuzz-encryption-certificate")) (Some (bytes_lit "fuzz-signer"))
        (Some (bytes_lit "fuzz-signer")) (Some am) iv (Some em) (Some MAX_PLAINTEXT_BYTES) ->
  (forall v, iv = Some v -> length v = 16%nat) ->
  fuzz_schema s auth ->
  fuzz_client (SecureClient.Build c
    (KeyMaterial.shared (PrivateKey.Build k) (PublicKey.Build (public_key k) PeerKeySource.Spki))
    (HeaderProtocolAdapter.as_adapter (HeaderProtocolAdapter.new s))) am em s.
Proof.
  intros Hb -> Hiv Hs. assert (Hw : config_wf c).
  { eapply build_wf; [|exact Hb]. split; [exact Hiv|]. cbn. intros n [= <-].
    pose proof usize_max_bounds. unfold MAX_PLAINTEXT_BYTES. lia. }
  apply build_Ok in Hb as ([] & _). cbn in *. constructor; cbn; [done|congruence..| |done].
  constructor; cbn; congruence || done.
Qed.

Ltac fuzz_client_proof files Hs :=
  destruct fuzz_keys as (enc & pub & k & Hf & Hk); rewrite Hf; cbn [mbind result_bind];
  lazymatch goal with |- context [ClientConfigBuilder.build ?b] =>
    let c := fresh "c" in let Hc := fresh "Hc" in
    destruct (is_ok_exists (ClientConfigBuilder.build b)) as [c Hc];
      [vm_compute; reflexivity|];
    rewrite Hc; cbn [expect map_err mbind result_bind]; rewrite Hk; cbn [mbind result_bind];
    rewrite Hs; cbn [mbind result_bind]
  end.

Lemma new_header_client (c : ClientConfig.t) keys s auth :
  fuzz_schema s auth ->
  is_context_bound (ClientConfig.authentication_mode c)
  = bool_decide (auth = HeaderAuthentication.ContextBound) ->
  SecureClient.new c keys (HeaderProtocolAdapter.as_adapter (HeaderProtocolAdapter.new s))
  = Ok (SecureClient.Build c keys
          (HeaderProtocolAdapter.as_adapter (HeaderProtocolAdapter.new s))).
Proof.
  intros Hs H. unfold SecureClient.new. cbn. rewrite (fs_authentication _ _ Hs).
  by destruct auth, (ClientConfig.authentication_mode c).
Qed.

Lemma built_authentication b c am :
  ClientConfigBuilder.build b = Ok c ->
  ClientConfigBuilder.b_authentication_mode b = Some am ->
  ClientConfig.authentication_mode c = am.
Proof. intros ([] & _)%build_Ok H. congruence. Qed.

Lemma client_Ok :
  exists c s, client = Ok c /\ fuzz_schema s HeaderAuthentication.Legacy /\
    fuzz_client c AuthenticationMode.LegacyPlaintext EnvelopeMode.LegacyCbc s.
Proof.
  destruct schema_Ok as (s & Hs & Hw). unfold client. fuzz_client_proof fuzz_key_files Hs.
  eexists _, s. split; [|split; [done|]].
  - apply expect_Ok. eapply new_header_client; [exact Hw|].
    by rewrite (built_authentication _ _ _ Hc eq_refl).
  - eapply fuzz_client_built; [exact Hc|reflexivity|by intros v [= <-]|done].
Qed.

Lemma aead_client_Ok alg :
  exists c s, aead_client_with alg = Ok c /\ fuzz_schema s HeaderAuthentication.Legacy /\
    fuzz_client c AuthenticationMode.LegacyPlaintext (EnvelopeMode.Aead alg) s.
Proof.
  destruct schema_Ok as (s & Hs & Hw). unfold aead_client_with. destruct alg;
  fuzz_client_proof fuzz_key_files Hs;
  (eexists _, s; split; [|split; [done|]];
   [apply expect_Ok; eapply new_header_client; [exact Hw|];
    by rewrite (built_authentication _ _ _ Hc eq_refl)
   |eapply fuzz_client_built; [exact Hc|reflexivity|done|done]]).
Qed.

Definition context_mode : AuthenticationMode.t :=
  AuthenticationMode.ContextBound CONTEXT_DOMAIN_SEPARATOR.

Lemma context_client_Ok :
  exists c s, context_client = Ok c /\ fuzz_schema s HeaderAuthentication.ContextBound /\
    fuzz_client c context_mode EnvelopeMode.LegacyCbc s.
Proof.
  destruct context_schema_Ok as (s & Hs & Hw). unfold context_client.
  assert (expect "nonempty fuzz domain separator"
    (AuthenticationMode.context_bound CONTEXT_DOMAIN_SEPARATOR) = Ok context_mode) as E by done.
  destruct fuzz_keys as (enc & pub & k & Hf & Hk); rewrite Hf; cbn [mbind result_bind].
  rewrite E. cbn [mbind result_bind].
  lazymatch goal with |- context [ClientConfigBuilder.build ?b] =>
    destruct (is_ok_exists (ClientConfigBuilder.build b)) as [c Hc]; [vm_compute; reflexivity|] end.
  rewrite Hc; cbn [expect map_err mbind result_bind]; rewrite Hk; cbn [mbind result_bind].
  rewrite Hs; cbn [mbind result_bind].
  eexists _, s. split; [|split; [done|]].
  - apply expect_Ok. eapply new_header_client; [exact Hw|].
    by rewrite (built_authentication _ _ _ Hc eq_refl).
  - eapply fuzz_client_built; [exact Hc|reflexivity|by intros v [= <-]|done].
Qed.

End laws.
End clients.

(** ** Opening under another context *)

Section contexts.
Context `{Sys : System} `{Ar : Arch} `{B64 : Base64} `{Cr : !Crypto} `{Kt : !KeyTooling Cr}.
Context `{!SystemLaws Sys} `{!Base64Laws B64} `{!CryptoLaws Cr}.

(** A signature the client makes over [t] verifies for no transcript of the domain
    [d] and the context [ctx]. *)
Definition signature_excludes (c : SecureClient.t) (t d ctx : list byte) : Prop :=
  forall sig w w' q,
    sm2_sign_with_id (KeyMaterial.local_signing (SecureClient.keys c))
      (ClientConfig.local_signer_id (SecureClient.config c)) t w = (Some sig, w') ->
    sm2_verify_with_id (KeyMaterial.remote_verification (SecureClient.keys c))
      (ClientConfig.expected_remote_signer_id (SecureClient.config c))
      (transcript d ctx q) sig = false.

Lemma open_excluded_context c am em s p ctx w e w' ctx' :
  fuzz_client c am em s -> is_context_bound am = true ->
  signature_excludes c (transcript (domain_of am) (context_of ctx) p) (domain_of am)
    (context_of ctx') ->
  SecureClient.seal c p ctx w = (Ok e, w') ->
  exists err, SecureClient.open c e ctx' = Err err.
Proof.
  intros Hc Hb Hx [(t & sig & v & v' & Ht & Hsig & He) _]%seal_signed.
  destruct (SecureClient.open c e ctx') as [q|err] eqn:Ho; [|eauto]. exfalso.
  unfold SecureClient.open in Ho. rewrite open_mode in Ho.
  apply pm_authentic in Ho as (_ & t' & sig' & Ht' & Hs' & Hv).
  rewrite He, base64_decode_encode in Hs'. injection Hs' as <-.
  rewrite (fc_authentication _ _ _ _ Hc) in Ht, Ht'.
  apply authentication_input_Ok in Ht as (_ & _ & Ht), Ht' as (_ & _ & Ht').
  rewrite Hb in Ht, Ht'. destruct Ht as [_ ->], Ht' as [_ ->].
  by rewrite (Hx _ _ _ _ Hsig) in Hv.
Qed.

Lemma fuzz_wrong_kind c am em s e ctx :
  fuzz_client c am em s -> kinds_match am ctx = false ->
  exists err, SecureClient.open c e ctx = Err err.
Proof.
  intros Hc Hk. destruct (SecureClient.open c e ctx) as [q|err] eqn:Ho; [|eauto].
  destruct (open_wrong_kind (SecureClient.config c) (SecureClient.keys c) e ctx q); [|done].
  by rewrite (fc_authentication _ _ _ _ Hc).
Qed.

Lemma fuzz_representable e (p : list byte) :
  str_len (SecureEnvelope.cipher e) <= (len p + 32) / 3 * 4 -> len p <= MAX_PLAINTEXT_BYTES ->
  representable e.
Proof.
  unfold representable, MAX_PLAINTEXT_BYTES. intros. pose proof usize_max_bounds.
  pose proof (len_nonneg p). divlia.
Qed.

Lemma fuzz_round_trip c am em s p ctx w e w' :
  fuzz_client c am em s -> len p <= MAX_PLAINTEXT_BYTES ->
  SecureClient.seal c p ctx w = (Ok e, w') -> SecureClient.open c e ctx = Ok p.
Proof.
  intros Hc Hp Hs. pose proof (seal_signed _ _ _ _ _ _ _ Hs) as [_ Hl].
  eapply open_sealed; [apply Hc|apply Hc|by rewrite (fc_max _ _ _ _ Hc)|exact Hs|].
  by eapply fuzz_representable.
Qed.

Context `{Hh : !Health}.

Lemma fuzz_seal_total c am em s p ctx w :
  available Cr -> healthy w -> fuzz_client c am em s -> len p <= MAX_PLAINTEXT_BYTES ->
  kinds_match am ctx = true ->
  144 + len (domain_of am) + len (context_of ctx) <= Z.min usize_max INPUT_LIMIT ->
  exists e w', SecureClient.seal c p ctx w = (Ok e, w') /\ healthy w'.
Proof.
  intros Av Hw Hc Hp Hk Hz. unfold MAX_PLAINTEXT_BYTES in Hp.
  apply envelope_seal_total; rewrite ?(fc_authentication _ _ _ _ Hc); try done.
  - apply Hc.
  - by rewrite (fc_max _ _ _ _ Hc).
  - rewrite <- (fc_authentication _ _ _ _ Hc). apply Hc.
  - lia.
  - apply small_within_mode_limit. change SM4_CCM_MAX_PLAINTEXT_BYTES with 16777215. lia.
Qed.

(** ** The context-bound target *)

(** What a context input seals, and the context it seals it under. *)
Definition context_plaintext (data : list byte) : list byte :=
  match context_scenario data with
  | ContextScenario.OversizePlaintext => replicate 65 x78
  | _ => take 64 (nth 0 (fields data) [])
  end.
Definition context_bytes (data : list byte) : list byte :=
  if bool_decide (nth 1 (fields data) [] = []) then DEFAULT_PROTOCOL_CONTEXT
  else nth 1 (fields data) [].

(** The outcome every input reaches. *)
Definition context_reached (data : list byte) : ScenarioOutcome.t :=
  match context_scenario data with
  | ContextScenario.RoundTrip | ContextScenario.Generic => ScenarioOutcome.Accepted
  | _ => ScenarioOutcome.Rejected
  end.

Lemma context_bytes_nonempty data : context_bytes data <> [].
Proof. unfold context_bytes. by case_bool_decide. Qed.

Lemma context_bytes_len data : len (context_bytes data) <= len data + 14.
Proof.
  unfold context_bytes. case_bool_decide; [change (len DEFAULT_PROTOCOL_CONTEXT) with 14; pose_len; lia|].
  pose proof (framed_sublist 3 data) as Hs. apply sublist_length in Hs.
  unfold fields in *. pose proof (framed_length 3 data) as Hl.
  destruct (framed 3 data) as [|f0 [|f1 fs]]; [done..|]. cbn [concat nth] in *.
  rewrite !length_app in Hs. unfold len. lia.
Qed.

Lemma get_to_min {A} n (l : list A) : unwrap_or (get_to (Nat.min (length l) n) l) [] = take n l.
Proof.
  unfold get_to. rewrite (proj2 (Nat.leb_le _ _)) by lia. cbn [unwrap_or].
  destruct (Nat.le_ge_cases (length l) n).
  - rewrite Nat.min_l, firstn_all, take_ge by lia. done.
  - by rewrite Nat.min_r.
Qed.

Lemma index_fields data i : (i < 3)%nat -> index (fields data) i = Ok (nth i (fields data) []).
Proof.
  intros Hi. pose proof (framed_length 3 data) as Hl. fold (fields data) in Hl.
  apply index_Some.
  destruct (fields data) as [|f0 [|f1 [|f2 [|]]]]; try done. destruct i as [|[|[|]]]; [done..|lia].
Qed.

Lemma context_bound_eq bs :
  bs <> [] -> AuthenticationContext.context_bound bs = Ok (bound bs).
Proof. intros H. unfold AuthenticationContext.context_bound. by rewrite bool_decide_false. Qed.

Lemma context_plaintext_eq data :
  match context_scenario data with
  | ContextScenario.OversizePlaintext => replicate (Z.to_nat (MAX_PLAINTEXT_BYTES + 1)) x78
  | _ => unwrap_or (get_to (Nat.min (length (nth 0 (fields data) []))
                              (Z.to_nat MAX_PLAINTEXT_BYTES)) (nth 0 (fields data) [])) []
  end = context_plaintext data.
Proof. unfold context_plaintext. rewrite get_to_min. by destruct (context_scenario data). Qed.

Lemma context_plaintext_len data :
  if bool_decide (context_scenario data = ContextScenario.OversizePlaintext)
  then len (context_plaintext data) = MAX_PLAINTEXT_BYTES + 1
  else len (context_plaintext data) <= MAX_PLAINTEXT_BYTES.
Proof.
  unfold context_plaintext, MAX_PLAINTEXT_BYTES.
  assert (len (take 64 (nth 0 (fields data) [])) <= 64)
    by (unfold len; rewrite length_take; lia).
  by destruct (context_scenario data).
Qed.

Context `{Kl : !KeyToolingLaws Cr Kt}.

(** What an input of the context-bound target assumes: its transcript fits in memory
    and in a digest, and when it asks to open under an altered context, the signature
    made over the sealed transcript verifies for no transcript of that context. *)
Definition context_admissible (data : list byte) : Prop :=
  len data + 200 <= Z.min usize_max INPUT_LIMIT /\
  (context_scenario data = ContextScenario.MismatchedContext ->
   forall c, context_client = Ok c ->
     signature_excludes c
       (transcript CONTEXT_DOMAIN_SEPARATOR (context_bytes data) (context_plaintext data))
       CONTEXT_DOMAIN_SEPARATOR (context_bytes data ++ [x21])).

Lemma context_outcome_eq data s w :
  available Cr -> healthy w -> context_admissible data ->
  exists w', context_outcome data (s, w) = (Ok (context_reached data), (s, w')) /\ healthy w'.
Proof.
  intros Av Hw [Hz Hbind]. destruct context_client_Ok as (c & sch & Hc & _ & Hf).
  specialize (fun E => Hbind E c Hc). pose proof (context_plaintext_len data) as Hp.
  pose proof (context_bytes_nonempty data) as Hne. pose proof (context_bytes_len data) as Hb.
  unfold context_outcome. rewrite !index_fields by lia.
  rewrite !lift_bind, context_plaintext_eq. fold (context_bytes data).
  rewrite context_bound_eq, Hc, lift_bind by done. unfold context_reached.
  destruct (decide (context_scenario data = ContextScenario.OversizePlaintext)) as [Ho|Ho].
  { rewrite bool_decide_true in Hp by done. exists w.
    assert (Hs : SecureClient.seal c (context_plaintext data) (bound (context_bytes data)) w
      = (Err (Error.MessageTooLarge MAX_PLAINTEXT_BYTES), w)).
    { unfold SecureClient.seal. rewrite seal_eq, (fc_max _ _ _ _ Hf).
      by rewrite (proj2 (Z.ltb_lt _ _)) by lia. }
    by rewrite (run_bind _ _ _ _ _ _ Hs), Ho. }
  rewrite bool_decide_false in Hp by done.
  destruct (fuzz_seal_total c context_mode EnvelopeMode.LegacyCbc sch (context_plaintext data)
    (bound (context_bytes data)) w Av Hw Hf Hp eq_refl) as (e & w' & Hs & Hw').
  { change (len (domain_of context_mode)) with 24. cbn [context_of bound AuthenticationContext.kind].
    lia. }
  exists w'. split; [|done]. rewrite (run_bind _ _ _ _ _ _ Hs).
  destruct (context_scenario data) eqn:Esc; [| | |done|]; rewrite ?mret_bind.
  - rewrite (fuzz_round_trip _ _ _ _ _ _ _ _ _ Hf Hp Hs), bool_decide_true by done. done.
  - rewrite context_bound_eq by (by destruct (context_bytes data)). cbn [expect map_err].
    rewrite lift_bind.
    by destruct (open_excluded_context c context_mode _ sch _ (bound (context_bytes data))
      _ _ _ (bound (context_bytes data ++ [x21])) Hf eq_refl (Hbind eq_refl) Hs) as [err ->].
  - by destruct (fuzz_wrong_kind c context_mode _ _ e AuthenticationContext.legacy Hf eq_refl)
      as [err ->].
  - rewrite (fuzz_round_trip _ _ _ _ _ _ _ _ _ Hf Hp Hs), bool_decide_true by done. done.
Qed.

Lemma context_target_eq data s w w' :
  context_outcome data (s, w) = (Ok (context_reached data), (s, w')) ->
  context_envelope_target data (s, w) = (Ok tt, (s, w')).
Proof.
  intros E. unfold context_envelope_target, mbind, io_bind. rewrite E.
  unfold context_reached. by destruct (context_scenario data).
Qed.

(** The context-bound target runs to its end on every admissible input, from every
    harness state: no [expect] and no assertion of it fails.  Every input other than
    the three adversarial scenarios seals and opens back to exactly the sealed bytes;
    an oversized plaintext, a context with an appended byte and the legacy marker are
    always rejected - the appended byte because the signature the client just made
    verifies for no transcript with it. *)
Theorem context_target_sound data s w :
  available Cr -> healthy w -> context_admissible data ->
  exists w',
    context_outcome data (s, w) = (Ok (context_reached data), (s, w')) /\
    context_envelope_target data (s, w) = (Ok tt, (s, w')).
Proof.
  intros Av Hw Ha. destruct (context_outcome_eq data s w Av Hw Ha) as (w' & E & _).
  exists w'. split; [done|]. by apply context_target_eq.
Qed.

End contexts.
