(* ===== verification/FuzzTargets.v ===== *)
(** * The envelope targets and fuzzing campaigns

    The cached envelopes, the values the envelope targets derive from them, the
    limits those values straddle, and runs of any sequence of targets. *)

From S2P Require Import Prelude.
From S2P Require Import Rust.
From S2P Require Import Text.
From S2P Require Import Parsing.
From S2P Require Import System.
From S2P Require Import Error.
From S2P Require Import Header.
From S2P Require Import Auth.
From S2P Require Import ClientConfig.
From S2P Require Import External.
From S2P Require Import Keys.
From S2P Require Import Message.
From S2P Require Import EnvelopeBase.
From S2P Require Import Envelope.
From S2P Require Import Adapter.
From S2P Require Import HeaderAdapter.
From S2P Require Import Client.
From S2P Require Import FuzzInput.
From S2P Require Import FuzzHarness.
From S2P Require Import Fuzz.

(** ** ASCII text *)

Lemma from_utf8_ascii bs :
  Forall (fun b => byte_val b < 0x80) bs ->
  exists s, from_utf8 bs = Some s /\ ascii s /\ utf8 s = bs.
Proof.
  induction 1 as [|b bs Hb _ (s & E & Hs & Hu)]; [exists []; repeat split; constructor|].
  pose proof (byte_val_range b). exists (char_of_Z (byte_val b) :: s). cbn [from_utf8].
  rewrite (proj2 (Z.ltb_lt _ _) Hb), E. split; [done|].
  assert (code (char_of_Z (byte_val b)) = byte_val b) as Hc
    by (apply code_char_of_Z, is_scalar_ascii; lia).
  split; [constructor; [lia|done]|]. unfold utf8. cbn [flat_map].
  rewrite utf8_char_ascii, Hc, byte_of_Z_val by lia. fold (utf8 s). by rewrite Hu.
Qed.

Lemma base64_text_ascii `{B64 : Base64} `{!Base64Laws B64} s : base64_text s -> ascii s.
Proof. intros H%base64_text_plain. eapply Forall_impl; [exact H|]. intros c [_ ?]. lia. Qed.

(** ** Mutation and selection *)

(** A mutated text: one byte differs, the rest and the length are kept. *)
Definition mutation_of (valid s : str) : Prop :=
  exists i old new, utf8 valid !! i = Some old /\ new <> old /\ utf8 s = <[i := new]> (utf8 valid).

Lemma mutate_total valid raw :
  ascii valid ->
  exists s, mutate valid raw = Ok s /\ ascii s /\ (valid = [] /\ s = [] \/ mutation_of valid s).
Proof.
  intros Ha. unfold mutate. case_bool_decide as E.
  { apply utf8_nil in E as ->. exists []. repeat split; [constructor|by left]. }
  set (i := Z.to_nat (byte_val (unwrap_or (head raw) x00) mod len (utf8 valid))).
  assert (i < length (utf8 valid))%nat as Hi.
  { assert (0 < len (utf8 valid)).
    { unfold len. destruct (utf8 valid); [done|cbn; lia]. }
    pose proof (Z.mod_pos_bound (byte_val (unwrap_or (head raw) x00)) (len (utf8 valid)) ltac:(done)).
    unfold i, len in *. lia. }
  apply lookup_lt_is_Some_2 in Hi as [old Ho]. rewrite (index_Some _ _ _ Ho).
  cbn [mbind result_bind].
  set (new := if bool_decide (old = x41) then x42 else x41).
  destruct (from_utf8_ascii (<[i := new]> (utf8 valid))) as (s & -> & Hs & Hu).
  { apply Forall_insert; [by apply utf8_ascii_bytes|].
    unfold new. by case_bool_decide. }
  exists s. split; [done|]. split; [done|]. right. exists i, old, new. split; [done|].
  split; [|done]. unfold new. case_bool_decide; congruence.
Qed.

Lemma select_value_total mode boundary raw valid limit :
  ascii valid -> exists s, select_value mode boundary raw valid limit = Ok s.
Proof.
  intros Ha. unfold select_value.
  destruct (mutate_total valid raw Ha) as (s & Hs & _).
  generalize (match mode with
    | Some m => if byte_is m "v" then 0 else if byte_is m "r" then 1
                else if byte_is m "b" then 2 else if byte_is m "m" then 3
                else byte_val m mod 4
    | None => 0 end).
  intros z. destruct z as [|p|p]; [eauto|..]; [|eauto]. destruct p as [p|p|]; [eauto| |eauto].
  destruct p; eauto.
Qed.

Lemma select_valid boundary raw valid limit :
  select_value (Some x76) boundary raw valid limit = Ok valid.
Proof. done. Qed.

Lemma select_boundary boundary raw valid limit :
  1 <= limit ->
  select_value (Some x62) boundary raw valid limit
  = Ok (replicate (Z.to_nat (limit - 1 + byte_val (unwrap_or boundary x30) mod 3)) (char_of_Z 65)).
Proof.
  intros H. unfold select_value. change (byte_is x62 "v") with false.
  change (byte_is x62 "r") with false. change (byte_is x62 "b") with true. cbv iota.
  do 4 f_equal. lia.
Qed.

(** ** The cached envelopes *)

Section targets.
Context `{Sys : System} `{Ar : Arch} `{B64 : Base64} `{Cr : !Crypto} `{Kt : !KeyTooling Cr}.
Context `{!SystemLaws Sys} `{!Base64Laws B64} `{!CryptoLaws Cr} `{Kl : !KeyToolingLaws Cr Kt}.
Context `{Hh : !Health}.

Definition cell_client (x : cell) : Panics SecureClient.t :=
  match x with
  | LegacyCell => client
  | GcmCell => aead_client
  | CcmCell => ccm_client
  end.
Definition cell_mode (x : cell) : EnvelopeMode.t :=
  match x with
  | LegacyCell => EnvelopeMode.LegacyCbc
  | GcmCell => EnvelopeMode.Aead AeadAlgorithm.Sm4Gcm
  | CcmCell => EnvelopeMode.Aead AeadAlgorithm.Sm4Ccm
  end.
Definition cell_envelope (x : cell) : Harness SecureEnvelope.t :=
  match x with
  | LegacyCell => valid_envelope
  | GcmCell => aead_valid_envelope
  | CcmCell => ccm_valid_envelope
  end.
Definition cell_limit (x : cell) : Z :=
  match x with LegacyCell => CIPHER_LIMIT | _ => AEAD_CIPHER_LIMIT end.
Definition cell_target (x : cell) : list byte -> Harness unit :=
  match x with
  | LegacyCell => encoded_envelope_target
  | GcmCell => aead_envelope_target
  | CcmCell => aead_ccm_envelope_target
  end.
Definition cell_parts (x : cell) (data : list byte) : Harness ResponseParts.t :=
  match x with
  | LegacyCell => encoded_response_parts data
  | GcmCell => aead_response_parts data
  | CcmCell => ccm_response_parts data
  end.

Lemma cell_client_Ok x :
  exists c s, cell_client x = Ok c /\ fuzz_schema s HeaderAuthentication.Legacy /\
    fuzz_client c AuthenticationMode.LegacyPlaintext (cell_mode x) s.
Proof. destruct x; [apply client_Ok|apply aead_client_Ok..]. Qed.

(** A cached envelope is the sealed [VALID_PLAINTEXT] of its own client. *)
Definition sealed_for (x : cell) (e : SecureEnvelope.t) : Prop :=
  exists c w w', cell_client x = Ok c /\
    SecureClient.seal c VALID_PLAINTEXT AuthenticationContext.legacy w = (Ok e, w').

Definition statics_ok (s : Statics) : Prop := forall x e, get x s = Some e -> sealed_for x e.

Lemma statics_ok_initial : statics_ok no_statics.
Proof. by intros []. Qed.

Lemma get_set x y e s :
  get y (set x e s) = if decide (x = y) then Some e else get y s.
Proof. destruct x, y; done. Qed.

(** What one step may do to the statics: keep what is cached, add sealed envelopes. *)
Definition extends (s s' : Statics) : Prop :=
  (forall x e, get x s = Some e -> get x s' = Some e) /\ (statics_ok s -> statics_ok s').

Lemma extends_refl s : extends s s.
Proof. by split. Qed.

Lemma extends_trans s1 s2 s3 : extends s1 s2 -> extends s2 s3 -> extends s1 s3.
Proof. intros [] []. split; eauto. Qed.

Lemma cell_envelope_Ok x s w :
  available Cr -> healthy w -> statics_ok s ->
  exists e s' w', cell_envelope x (s, w) = (Ok e, (s', w')) /\
    get x s' = Some e /\ extends s s' /\ statics_ok s' /\ healthy w'.
Proof.
  intros Av Hw Hs. destruct (get x s) as [e|] eqn:Eg.
  { exists e, s, w. split; [by destruct x; cbn in *; rewrite Eg|].
    split; [done|]. split; [apply extends_refl|done]. }
  destruct (cell_client_Ok x) as (c & sch & Hc & _ & Hf).
  destruct (fuzz_seal_total c AuthenticationMode.LegacyPlaintext _ sch VALID_PLAINTEXT
    AuthenticationContext.legacy w Av Hw Hf) as (e & w' & He & Hw'); [by vm_compute|done|
    change (144 + 0 + 0 <= Z.min usize_max INPUT_LIMIT); pose proof usize_max_bounds;
    unfold INPUT_LIMIT; lia|].
  assert (Hsealed : sealed_for x e) by (by exists c, w, w').
  assert (Hok : statics_ok (set x e s)).
  { intros y e' Hy. rewrite get_set in Hy. case_decide; [subst|by apply Hs].
    by injection Hy as <-. }
  exists e, (set x e s), w'. split.
  { destruct x; cbn in Hc, Eg; unfold cell_envelope, valid_envelope, aead_valid_envelope,
      ccm_valid_envelope, get_or_init; cbn [get]; rewrite Eg; unfold seal_valid;
      rewrite Hc, lift_bind, (run_bind _ _ _ _ _ _ He); done. }
  split; [rewrite get_set; by case_decide|]. split; [|by split]. split; [|done].
  intros y e' Hy. rewrite get_set. case_decide; congruence.
Qed.

(** ** The values of an input *)

Lemma values_for_total data e limit :
  ascii (SecureEnvelope.signature e) -> ascii (SecureEnvelope.wrapped_session_key e) ->
  ascii (SecureEnvelope.cipher e) -> exists v, values_for data e limit = Ok v.
Proof.
  intros H1 H2 H3. unfold values_for. rewrite !index_fields by lia. cbn [mbind result_bind].
  destruct (select_value_total (selectors_of data !! 0%nat) (selectors_of data !! 3%nat)
    (nth 0 (fields data) []) _ AUXILIARY_LIMIT H1) as [v1 ->]. cbn [mbind result_bind].
  destruct (select_value_total (selectors_of data !! 1%nat) (selectors_of data !! 4%nat)
    (nth 1 (fields data) []) _ AUXILIARY_LIMIT H2) as [v2 ->]. cbn [mbind result_bind].
  destruct (select_value_total (selectors_of data !! 2%nat) (selectors_of data !! 5%nat)
    (nth 2 (fields data) []) _ limit H3) as [v3 ->]. cbn [mbind result_bind]. eauto.
Qed.

Lemma claim_total data : exists claim, encoded_certificate_claim data = Ok claim.
Proof.
  unfold encoded_certificate_claim. destruct (index_framed 4 data 3) as [f ->]; [lia|].
  cbn. eauto.
Qed.

Lemma sealed_for_texts x e :
  sealed_for x e ->
  base64_text (SecureEnvelope.cipher e) /\ base64_text (SecureEnvelope.wrapped_session_key e) /\
  base64_text (SecureEnvelope.signature e).
Proof. intros (c & w & w' & _ & [_ H]%seal_mode_Ok). by eapply pm_texts. Qed.

Lemma cell_parts_run x data s w e s' w' v :
  cell_envelope x (s, w) = (Ok e, (s', w')) -> values_for data e (cell_limit x) = Ok v ->
  cell_parts x data (s, w) = (envelope_response_parts v data, (s', w')).
Proof.
  intros He Hv. destruct x; cbn [cell_parts cell_envelope cell_limit] in *;
    unfold encoded_response_parts, aead_response_parts, ccm_response_parts, encoded_values,
      aead_encoded_values, ccm_encoded_values, aead_encoded_values_for, mbind, io_bind, lift;
    by rewrite He, Hv.
Qed.

(** The response an input is turned into. *)
Lemma cell_parts_total x data s w :
  available Cr -> healthy w -> statics_ok s ->
  exists e v claim s' w',
    get x s' = Some e /\ extends s s' /\ statics_ok s' /\ sealed_for x e /\
    values_for data e (cell_limit x) = Ok v /\ encoded_certificate_claim data = Ok claim /\
    healthy w' /\
    cell_parts x data (s, w) =
      (Ok (ResponseParts.new [(signature_header, v.1.1); (wrapped_key_header, v.1.2);
                              (certificate_header, claim)] v.2), (s', w')).
Proof.
  intros Av Hw Hs.
  destruct (cell_envelope_Ok x s w Av Hw Hs) as (e & s' & w' & He & Hg & Hx & Hs' & Hw').
  pose proof (Hs' _ _ Hg) as Hsf. destruct (sealed_for_texts _ _ Hsf) as (B1 & B2 & B3).
  destruct (values_for_total data e (cell_limit x)) as [[[v1 v2] v3] Hv];
    [by apply base64_text_ascii..|].
  destruct (claim_total data) as [claim Hc].
  exists e, (v1, v2, v3), claim, s', w'. repeat (split; [done|]).
  rewrite (cell_parts_run _ _ _ _ _ _ _ _ He Hv). unfold envelope_response_parts.
  by rewrite Hc.
Qed.

(** ** Opening the responses *)

Lemma fuzz_response_carries s e claim :
  fuzz_schema s HeaderAuthentication.Legacy ->
  response_carries s e claim []
    [(signature_header, SecureEnvelope.signature e);
     (wrapped_key_header, SecureEnvelope.wrapped_session_key e); (certificate_header, claim)]
    (SecureEnvelope.cipher e).
Proof.
  intros Hf. constructor; unfold values_of; rewrite ?(fs_signature _ _ Hf),
    ?(fs_wrapped_key _ _ Hf), ?(fs_certificate _ _ Hf), ?(fs_cipher _ _ Hf);
    [by vm_compute..|]. rewrite (fs_authentication _ _ Hf). done.
Qed.

Lemma fuzz_certificate_ok :
  valid_value EXPECTED_REMOTE_SIGNING_CERTIFICATE /\ exact_text EXPECTED_REMOTE_SIGNING_CERTIFICATE.
Proof.
  split; [|split; [done|by vm_compute]].
  apply (bool_decide_unpack _). vm_compute. exact I.
Qed.

(** A response made of plain texts under the pinned certificate reaches [open]. *)
Lemma fuzz_open_response x c s e :
  cell_client x = Ok c -> fuzz_schema s HeaderAuthentication.Legacy ->
  fuzz_client c AuthenticationMode.LegacyPlaintext (cell_mode x) s ->
  field_text (SecureEnvelope.cipher e) (SecureEnvelope.cipher e) ->
  field_text (SecureEnvelope.wrapped_session_key e) (SecureEnvelope.wrapped_session_key e) ->
  field_text (SecureEnvelope.signature e) (SecureEnvelope.signature e) ->
  SecureClient.open_response c (ResponseParts.new
    [(signature_header, SecureEnvelope.signature e);
     (wrapped_key_header, SecureEnvelope.wrapped_session_key e);
     (certificate_header, EXPECTED_REMOTE_SIGNING_CERTIFICATE)] (SecureEnvelope.cipher e))
  = SecureClient.open c e AuthenticationContext.legacy.
Proof.
  intros Hc Hs Hf B1 B2 B3. destruct fuzz_certificate_ok as [Hv Ht].
  eapply (open_response_carried s c e []); try rewrite (fc_certificate _ _ _ _ Hf); try done.
  - apply Hs.
  - rewrite (fs_cipher _ _ Hs). constructor.
  - apply Hf.
  - unfold response_context. by rewrite (fs_authentication _ _ Hs).
  - by apply fuzz_response_carries.
Qed.

Lemma fuzz_sealed_opens x c s e :
  cell_client x = Ok c -> fuzz_client c AuthenticationMode.LegacyPlaintext (cell_mode x) s ->
  sealed_for x e -> SecureClient.open c e AuthenticationContext.legacy = Ok VALID_PLAINTEXT.
Proof.
  intros Hc Hf (c' & w & w' & Hc' & He). assert (c' = c) as -> by congruence.
  eapply fuzz_round_trip; [exact Hf|by vm_compute|exact He].
Qed.


Lemma selectors_of_eq data : (6 <= length data)%nat -> selectors_of data = take 6 data.
Proof. intros H. unfold selectors_of, get_to. by rewrite (proj2 (Nat.leb_le _ _)). Qed.

Lemma selector_lookup data i :
  (6 <= length data)%nat -> (i < 6)%nat -> selectors_of data !! i = data !! i.
Proof. intros H Hi. rewrite selectors_of_eq by done. by apply lookup_take_lt. Qed.

Lemma values_for_valid data e limit :
  (6 <= length data)%nat -> take 3 data = bytes_lit "vvv" ->
  values_for data e limit
  = Ok (SecureEnvelope.signature e, SecureEnvelope.wrapped_session_key e, SecureEnvelope.cipher e).
Proof.
  intros Hl Hv. unfold values_for. rewrite !index_fields by lia. cbn [mbind result_bind].
  rewrite (selector_lookup data 0), (selector_lookup data 1), (selector_lookup data 2) by lia.
  destruct data as [|a [|b [|c data]]]; try (cbn in Hl; lia). injection Hv as -> -> ->.
  cbn [lookup list_lookup]. by rewrite !select_valid.
Qed.

(** The certificate claim of an input: its fourth field, or the pinned one. *)
Definition claim_of (data : list byte) : str :=
  let claim := nth 3 (framed 4 data) [] in
  if bool_decide (claim = []) then EXPECTED_REMOTE_SIGNING_CERTIFICATE else text claim.

Lemma claim_eq data : encoded_certificate_claim data = Ok (claim_of data).
Proof.
  unfold encoded_certificate_claim, claim_of. pose proof (framed_length 4 data) as Hl.
  destruct (framed 4 data) as [|f0 [|f1 [|f2 [|f3 [|]]]]]; done.
Qed.

Lemma cell_target_eq x data c s w r s' w' :
  cell_client x = Ok c -> cell_parts x data (s, w) = (Ok r, (s', w')) ->
  (data = FULL_VALID -> SecureClient.open_response c r = Ok VALID_PLAINTEXT) ->
  cell_target x data (s, w) = (Ok tt, (s', w')).
Proof.
  intros Hc Hr Hv.
  assert (exists msg, cell_target x data = open_target (cell_client x) (cell_parts x data) msg data)
    as [msg ->] by (destruct x; eexists; reflexivity).
  unfold open_target. rewrite Hc, lift_bind. unfold mbind, io_bind. rewrite Hr.
  case_bool_decide as E; [|done]. by rewrite (Hv E).
Qed.

Lemma frame_zero body :
  frame (x30 :: x3a :: body) = ([], unwrap_or (strip_prefix (bytes_lit "|") body) body).
Proof.
  pose proof usize_max_bounds.
  change (x30 :: x3a :: body) with (utf8 (fmt_dec 0 0) ++ x3a :: body).
  rewrite frame_number by lia. cbv zeta. rewrite Z.min_l by (pose_len; lia). done.
Qed.

Lemma full_valid_claim : claim_of FULL_VALID = EXPECTED_REMOTE_SIGNING_CERTIFICATE.
Proof.
  unfold claim_of, FULL_VALID.
  change (bytes_lit "vvv000|0:|0:|0:" ++ [x0a])
    with (bytes_lit "vvv000" ++ bytes_lit "|" ++ x30 :: x3a :: bytes_lit "|" ++ x30 :: x3a
          :: bytes_lit "|" ++ x30 :: x3a :: [x0a]).
  rewrite framed_payload by done. cbn [frames]. rewrite frame_zero, strip_prefix_app.
  cbn [unwrap_or]. rewrite frame_zero, strip_prefix_app. cbn [unwrap_or]. rewrite frame_zero.
  done.
Qed.

(** An input that selects the three cached values under the pinned certificate. *)
Lemma valid_parts_open x data s w :
  available Cr -> healthy w -> statics_ok s -> (6 <= length data)%nat -> take 3 data = bytes_lit "vvv" ->
  exists c r s' w',
    cell_client x = Ok c /\ cell_parts x data (s, w) = (Ok r, (s', w')) /\
    extends s s' /\ statics_ok s' /\ healthy w' /\
    (claim_of data = EXPECTED_REMOTE_SIGNING_CERTIFICATE ->
     SecureClient.open_response c r = Ok VALID_PLAINTEXT) /\
    (str_trim (claim_of data) <> EXPECTED_REMOTE_SIGNING_CERTIFICATE ->
     SecureClient.open_response c r = Err Error.ProtocolAdapter).
Proof.
  intros Av Hhw Hs Hl Hv. destruct (cell_client_Ok x) as (c & sch & Hc & Hw & Hf).
  destruct (cell_parts_total x data s w Av Hhw Hs)
    as (e & v & claim & s' & w' & _ & Hx & Hs' & Hsf & Hval & Hclaim & Hhw' & Hp).
  rewrite values_for_valid in Hval by done. injection Hval as <-.
  rewrite claim_eq in Hclaim. injection Hclaim as <-. cbn [fst snd] in Hp.
  exists c. eexists _, s', w'. split; [done|]. split; [exact Hp|]. do 3 (split; [done|]).
  destruct (sealed_for_texts _ _ Hsf) as (B1 & B2 & B3). split.
  - intros ->. rewrite (fuzz_open_response x c sch) by (try done; by apply base64_text_field).
    by eapply fuzz_sealed_opens.
  - intros Hne. unfold SecureClient.open_response. rewrite (fc_adapter _ _ _ _ Hf).
    cbn [HeaderProtocolAdapter.as_adapter Adapter.parse_response].
    destruct (HeaderProtocolAdapter.parse_response _ _) as [p|] eqn:E; [|done].
    apply parse_response_Ok in E as [_ _ (raw & Hraw & _ & Ht & _) _ _];
      [|apply Hw|rewrite (fs_cipher _ _ Hw); constructor].
    rewrite (rc_certificate _ _ _ _ _ _ (fuzz_response_carries sch e (claim_of data) Hw)) in Hraw.
    injection Hraw as <-. cbn [map_err mbind result_bind].
    rewrite (fc_certificate _ _ _ _ Hf), <- Ht, bool_decide_false by done. done.
Qed.

(** An input that selects the three cached values opens, in the CBC, GCM and CCM
    target alike and from any harness state, to the plaintext the harness sealed,
    provided its certificate claim is empty or the pinned id; under any other claim
    the client rejects it with [Error::ProtocolAdapter]. *)
Theorem valid_selection_opens x data s w :
  available Cr -> healthy w -> statics_ok s -> (6 <= length data)%nat -> take 3 data = bytes_lit "vvv" ->
  exists c r s' w',
    cell_client x = Ok c /\ cell_parts x data (s, w) = (Ok r, (s', w')) /\
    (claim_of data = EXPECTED_REMOTE_SIGNING_CERTIFICATE ->
     SecureClient.open_response c r = Ok VALID_PLAINTEXT) /\
    (str_trim (claim_of data) <> EXPECTED_REMOTE_SIGNING_CERTIFICATE ->
     SecureClient.open_response c r = Err Error.ProtocolAdapter).
Proof.
  intros Av Hw Hs Hl Hv.
  destruct (valid_parts_open x data s w Av Hw Hs Hl Hv)
    as (c & r & s' & w' & ? & ? & _ & _ & _ & ? & ?).
  by exists c, r, s', w'.
Qed.

Lemma cell_target_total x data s w :
  available Cr -> healthy w -> statics_ok s ->
  exists s' w', cell_target x data (s, w) = (Ok tt, (s', w')) /\
    extends s s' /\ statics_ok s' /\ healthy w'.
Proof.
  intros Av Hw Hs. destruct (decide (data = FULL_VALID)) as [->|Hd].
  - destruct (valid_parts_open x FULL_VALID s w Av Hw Hs)
      as (c & r & s' & w' & Hc & Hr & Hx & Hs' & Hw' & Ho & _);
      [by vm_compute; lia|done|].
    exists s', w'. split; [|done]. eapply cell_target_eq; [exact Hc|exact Hr|].
    intros _. apply Ho, full_valid_claim.
  - destruct (cell_client_Ok x) as (c & sch & Hc & _).
    destruct (cell_parts_total x data s w Av Hw Hs)
      as (e & v & cl & s' & w' & _ & Hx & Hs' & _ & _ & _ & Hw' & Hp).
    exists s', w'. split; [|done]. by eapply cell_target_eq.
Qed.

(** ** The limits the boundary values straddle *)

Lemma cell_client_limit x c :
  cell_client x = Ok c ->
  ClientConfig.max_plaintext_bytes (SecureClient.config c) = MAX_PLAINTEXT_BYTES /\
  max_cipher_text (SecureClient.config c) = cell_limit x /\
  sealed_text_len (ClientConfig.envelope_mode (SecureClient.config c)) MAX_PLAINTEXT_BYTES
  = cell_limit x.
Proof.
  intros Hc. destruct (cell_client_Ok x) as (c' & sch & Hc' & _ & Hf).
  assert (c' = c) as -> by congruence. pose proof usize_max_bounds.
  assert (sealed_text_len (ClientConfig.envelope_mode (SecureClient.config c)) MAX_PLAINTEXT_BYTES
    = cell_limit x) as E by (rewrite (fc_mode _ _ _ _ Hf); destruct x; reflexivity).
  assert (cell_limit x <= 128) by (by destruct x).
  split; [apply (fc_max _ _ _ _ Hf)|]. split; [|done].
  rewrite max_cipher_text_eq; rewrite (fc_max _ _ _ _ Hf); [done|done|lia].
Qed.

(** The response of an input under its pinned certificate, with given texts. *)
Lemma cell_parts_values x data s w e s' w' v :
  cell_envelope x (s, w) = (Ok e, (s', w')) -> values_for data e (cell_limit x) = Ok v ->
  claim_of data = EXPECTED_REMOTE_SIGNING_CERTIFICATE ->
  cell_parts x data (s, w) =
    (Ok (ResponseParts.new [(signature_header, v.1.1); (wrapped_key_header, v.1.2);
                            (certificate_header, EXPECTED_REMOTE_SIGNING_CERTIFICATE)] v.2),
     (s', w')).
Proof.
  intros He Hv Hc. rewrite (cell_parts_run _ _ _ _ _ _ _ _ He Hv).
  destruct v as [[v1 v2] v3]. unfold envelope_response_parts. by rewrite claim_eq, Hc.
Qed.

(** A text of [n] letters A, the boundary value. *)
Lemma letters_field n :
  (0 < n)%nat -> field_text (replicate n (char_of_Z 65)) (replicate n (char_of_Z 65)).
Proof.
  intros Hn. assert (Ha : Forall (fun c => c = char_of_Z 65) (replicate n (char_of_Z 65)))
    by (by apply Forall_replicate).
  split; [|split].
  - eapply Forall_impl; [exact Ha|]. by intros c ->.
  - apply str_trim_no_whitespace. eapply Forall_impl; [exact Ha|]. by intros c ->.
  - by destruct n; [lia|].
Qed.

Lemma letters_len n : str_len (replicate n (char_of_Z 65)) = Z.of_nat n.
Proof.
  unfold str_len, len. rewrite utf8_ascii_len, length_replicate; [done|].
  apply Forall_replicate. by vm_compute.
Qed.

(** A selector that takes the cached value or a boundary value, and the case where
    the boundary value is the one past the limit. *)
Definition valid_or_boundary (mode : byte) : Prop := mode = x76 \/ mode = x62.
Definition past_limit (mode boundary : byte) : Prop :=
  mode = x62 /\ byte_val boundary mod 3 = 2.

Lemma select_value_limit mode boundary raw valid limit :
  2 <= limit -> valid_or_boundary mode -> field_text valid valid -> str_len valid <= limit ->
  exists v, select_value (Some mode) (Some boundary) raw valid limit = Ok v /\
    field_text v v /\ (limit < str_len v <-> past_limit mode boundary).
Proof.
  intros Hl Hm Hf Hv. pose proof (Z.mod_pos_bound (byte_val boundary) 3 ltac:(done)) as Hb.
  destruct Hm as [->| ->].
  - exists valid. rewrite select_valid. split; [done|]. split; [done|]. unfold past_limit.
    split; [lia|]. intros [? _]. discriminate.
  - eexists. rewrite select_boundary by lia. cbn [unwrap_or]. split; [done|].
    split; [apply letters_field; lia|].
    rewrite letters_len. unfold past_limit.
    split; [intros H; split; [done|lia]|intros [_ ?]; lia].
Qed.

(** The response of such an input, and what opening it comes to. *)
Lemma boundary_response x cl a b c i j k rest s w :
  let data := a :: b :: c :: i :: j :: k :: rest in
  available Cr -> healthy w -> statics_ok s -> cell_client x = Ok cl ->
  valid_or_boundary a -> valid_or_boundary b -> valid_or_boundary c ->
  claim_of data = EXPECTED_REMOTE_SIGNING_CERTIFICATE ->
  exists v1 v2 v3 r s' w',
    cell_parts x data (s, w) = (Ok r, (s', w')) /\
    SecureClient.open_response cl r
      = SecureClient.open cl (SecureEnvelope.Build v3 v2 v1) AuthenticationContext.legacy /\
    (AUXILIARY_LIMIT < str_len v1 <-> past_limit a i) /\
    (AUXILIARY_LIMIT < str_len v2 <-> past_limit b j) /\
    (cell_limit x < str_len v3 <-> past_limit c k).
Proof.
  intros data Av Hhw Hs Hcl Ha Hb Hc Hclaim.
  destruct (cell_client_Ok x) as (cl' & sch & Hcl' & Hw & Hf). assert (cl' = cl) as -> by congruence.
  destruct (cell_envelope_Ok x s w Av Hhw Hs) as (e & s' & w' & He & Hg & _ & Hs' & _).
  pose proof (Hs' _ _ Hg) as Hsf. destruct (sealed_for_texts _ _ Hsf) as (B1 & B2 & B3).
  pose proof (fuzz_sealed_opens _ _ _ _ Hcl Hf Hsf) as Ho. unfold SecureClient.open in Ho.
  apply open_Ok_bounds in Ho as (L1 & L2 & L3).
  rewrite (proj1 (proj2 (cell_client_limit x cl Hcl))) in L1.
  destruct (select_value_limit a i (nth 0 (fields data) []) _ AUXILIARY_LIMIT
    ltac:(done) Ha (base64_text_field _ B3) L3) as (v1 & E1 & T1 & P1).
  destruct (select_value_limit b j (nth 1 (fields data) []) _ AUXILIARY_LIMIT
    ltac:(done) Hb (base64_text_field _ B2) L2) as (v2 & E2 & T2 & P2).
  destruct (select_value_limit c k (nth 2 (fields data) []) _ (cell_limit x)
    ltac:(destruct x; vm_compute; discriminate) Hc (base64_text_field _ B1) L1)
    as (v3 & E3 & T3 & P3).
  assert (values_for data e (cell_limit x) = Ok (v1, v2, v3)) as Hv.
  { unfold values_for. rewrite !index_fields by lia. cbn [mbind result_bind].
    rewrite !selector_lookup by (cbn; lia). cbn [lookup list_lookup data].
    by rewrite E1, E2, E3. }
  exists v1, v2, v3. eexists _, s', w'. split; [exact (cell_parts_values _ _ _ _ _ _ _ _ He Hv Hclaim)|].
  split; [by apply (fuzz_open_response x cl sch (SecureEnvelope.Build v3 v2 v1))|done].
Qed.

(** C33. The boundary inputs of the three envelope targets test exactly the limits of
    the code.  The longest plaintext a harness client accepts seals to a payload
    text of exactly the harness' limit, and no sealed text is longer.  For an input
    that takes cached or boundary values under the pinned certificate, in any
    harness state and an environment where the primitives answer (the first input of
    a target seals its cached envelope): [open_response] reports [MessageTooLarge] precisely when the
    payload text is the one past its limit; otherwise a signature or wrapped key
    past the auxiliary limit makes the envelope invalid. *)
Theorem boundary_values_exact x a b c i j k rest s w :
  let data := a :: b :: c :: i :: j :: k :: rest in
  available Cr -> healthy w -> statics_ok s ->
  valid_or_boundary a -> valid_or_boundary b -> valid_or_boundary c ->
  claim_of data = EXPECTED_REMOTE_SIGNING_CERTIFICATE ->
  exists cl r s' w',
    cell_client x = Ok cl /\ cell_parts x data (s, w) = (Ok r, (s', w')) /\
    (forall p ctx v e v', SecureClient.seal cl p ctx v = (Ok e, v') ->
       str_len (SecureEnvelope.cipher e) <= cell_limit x /\
       (len p = MAX_PLAINTEXT_BYTES -> str_len (SecureEnvelope.cipher e) = cell_limit x)) /\
    (SecureClient.open_response cl r = Err (Error.MessageTooLarge MAX_PLAINTEXT_BYTES)
       <-> past_limit c k) /\
    (~ past_limit c k -> past_limit a i \/ past_limit b j ->
     SecureClient.open_response cl r = Err Error.InvalidEnvelope).
Proof.
  intros data Av Hw Hs Ha Hb Hc Hclaim. destruct (cell_client_Ok x) as (cl & _ & Hcl & _ & _).
  destruct (boundary_response x cl a b c i j k rest s w Av Hw Hs Hcl Ha Hb Hc Hclaim)
    as (v1 & v2 & v3 & r & s' & w' & Hp & Hr & P1 & P2 & P3).
  destruct (cell_client_limit x cl Hcl) as (Hm & Hlim & Hst).
  exists cl, r, s', w'. split; [done|]. split; [exact Hp|]. split.
  { intros p ctx v e v' Hseal. unfold SecureClient.seal in Hseal.
    pose proof (seal_text_len _ _ _ _ _ _ _ Hseal) as Hl.
    apply seal_mode_Ok in Hseal as [Hp' _]. rewrite Hm in Hp'. rewrite Hl, <- Hst.
    split; [by apply sealed_text_len_mono|]. by intros ->. }
  rewrite Hr, <- P1, <- P2, <- P3, <- Hm, <- Hlim. unfold SecureClient.open. split; [split|].
  - intros H%envelope_open_Err. cbn [SecureEnvelope.cipher] in H.
    destruct (Z.ltb_spec (max_cipher_text (SecureClient.config cl)) (str_len v3)); [done|discriminate].
  - apply (open_oversized _ _ (SecureEnvelope.Build v3 v2 v1)).
  - intros H3 H12. apply open_within; cbn [SecureEnvelope.cipher]; [lia|].
    destruct (open _ _ _ _) as [q|] eqn:Eq; [|done]. apply open_Ok_bounds in Eq as (_ & G2 & G1).
    cbn [SecureEnvelope.wrapped_session_key SecureEnvelope.signature] in G1, G2.
    change MAX_AUXILIARY_BASE64_BYTES with AUXILIARY_LIMIT in G1, G2. lia.
Qed.

(** ** Campaigns *)

(** The fuzz targets of the crate, and one input given to one of them. *)
Inductive target := TransportParts | TypedHeaders | EnvelopeOf (x : cell) | ContextEnvelope.

Definition run_target (t : target) (data : list byte) : Harness unit :=
  match t with
  | TransportParts => lift (transport_parts_target data)
  | TypedHeaders => lift (typed_headers_target data)
  | EnvelopeOf x => cell_target x data
  | ContextEnvelope => context_envelope_target data
  end.

(** A fuzzing campaign: any inputs, one after the other, in one process. *)
Fixpoint campaign (runs : list (target * list byte)) : Harness unit :=
  match runs with
  | [] => mret tt
  | (t, data) :: runs => _ ← run_target t data; campaign runs
  end.

(** Only inputs of the context-bound target carry an assumption. *)
Definition admissible (run : target * list byte) : Prop :=
  run.1 = ContextEnvelope -> context_admissible run.2.

Lemma transport_parts_target_Ok data : transport_parts_target data = Ok tt.
Proof.
  unfold transport_parts_target. rewrite transport_outcome_expected.
  destruct (transport_expected_outcome _) as [o|] eqn:E.
  { cbn [mbind result_bind]. rewrite bool_decide_true by done. done. }
  destruct schema_Ok as (sch & Hsch & _). unfold adapter. rewrite Hsch.
  destruct header_cipher_adapter_total as [a ->]. cbn [mbind result_bind]. case_bool_decide.
  - destruct (generic_header_cipher_shape data) as (?&?&?&?&?&?&?&?&?&?&?&?&?&?&?&_&_&_&->). done.
  - destruct (generic_transport_shape data) as (?&?&?&?&?&?&?&?&?&?&?&?&_&_&_&->). done.
Qed.

Lemma typed_headers_target_Ok data : typed_headers_target data = Ok tt.
Proof.
  unfold typed_headers_target. cbv zeta.
  pose proof (typed_outcome_expected (typed_scenario data)) as E.
  destruct (typed_expected_outcome _) as [o|].
  - by rewrite bool_decide_true.
  - destruct (generic_typed_total data) as [r ->]. done.
Qed.

Lemma run_target_Ok t data s w :
  available Cr -> healthy w -> statics_ok s -> admissible (t, data) ->
  exists s' w', run_target t data (s, w) = (Ok tt, (s', w')) /\
    extends s s' /\ statics_ok s' /\ healthy w'.
Proof.
  intros Av Hw Hs Ha. destruct t as [| |x|]; cbn [run_target].
  - exists s, w. rewrite transport_parts_target_Ok. by repeat split.
  - exists s, w. rewrite typed_headers_target_Ok. by repeat split.
  - by apply cell_target_total.
  - destruct (context_outcome_eq data s w Av Hw (Ha eq_refl)) as (w' & E & Hw'). exists s, w'.
    split; [|by repeat split]. by apply context_target_eq.
Qed.

(** C28. No fuzzing campaign makes the harness panic: in an environment where the
    primitives answer, any sequence of targets and inputs, from any state of the
    harness' statics that campaigns can reach, runs to its end - every fixed scenario
    meets its declared outcome, every [expect], index and assertion holds.  Inputs of
    the context-bound target are assumed to fit in memory, and one that opens under
    an altered context to come with a signature that verifies for no transcript of
    that context, since the harness asserts the rejection.  The statics behave as [OnceLock]s: an envelope once cached is never replaced, and
    every cached envelope opens to the plaintext that was sealed. *)
Theorem campaign_never_panics runs s w :
  available Cr -> healthy w -> statics_ok s -> Forall admissible runs ->
  exists s' w',
    campaign runs (s, w) = (Ok tt, (s', w')) /\ statics_ok s' /\
    (forall x e, get x s = Some e -> get x s' = Some e) /\
    (forall x e, get x s' = Some e ->
       exists c, cell_client x = Ok c /\
         SecureClient.open c e AuthenticationContext.legacy = Ok VALID_PLAINTEXT).
Proof.
  intros Av Hw Hs Hr. cut (exists s' w', campaign runs (s, w) = (Ok tt, (s', w')) /\
    extends s s' /\ statics_ok s' /\ healthy w').
  { intros (s' & w' & H & [Hx _] & Hs' & _). exists s', w'. repeat (split; [done|]).
    intros x e He. destruct (cell_client_Ok x) as (c & sch & Hc & _ & Hf). exists c.
    split; [done|]. by eapply fuzz_sealed_opens, Hs'. }
  revert s w Hw Hs. induction Hr as [|[t data] runs Ha _ IH]; intros s w Hw Hs.
  { exists s, w. split; [done|]. split; [apply extends_refl|done]. }
  destruct (run_target_Ok t data s w Av Hw Hs Ha) as (s1 & w1 & H1 & X1 & S1 & W1).
  destruct (IH s1 w1 W1 S1) as (s2 & w2 & H2 & X2 & S2). exists s2, w2.
  split; [|split; [by eapply extends_trans|done]].
  cbn [campaign]. unfold mbind, io_bind. by rewrite H1.
Qed.

End targets.
