(* ===== verification/TestSupport.v ===== *)
(** * Test support (src/envelope_crypto/mod.rs, [mod test_support])

    The two peers every envelope test starts from, the calls the tests make, and a
    small program logic for tests.  A test is a program in [Test]: it may panic,
    and it runs over the verification tally of the test build and the
    environment.  [RejectionLaws] states what the tests expect of the primitives
    beyond the laws of [External.v]: which malformed inputs they refuse, with the
    signature idealised. *)

From S2P Require Import Prelude.
From S2P Require Import Rust.
From S2P Require Import Text.
From S2P Require Import System.
From S2P Require Import Error.
From S2P Require Import Auth.
From S2P Require Import ClientConfig.
From S2P Require Import External.
From S2P Require Import Keys.
From S2P Require Import Message.
From S2P Require Import EnvelopeBase.
From S2P Require Import Cbc.
From S2P Require Import Aead.
From S2P Require Import Envelope.

Definition IV : list byte := bytes_lit "0123456789abcdef".
Definition SENDER_SIGNER_ID : list byte := bytes_lit "sender-directional-id".
Definition RECEIVER_SIGNER_ID : list byte := bytes_lit "receiver-directional-id".

Definition SENDER_SIGNING : byte := x01.
Definition SENDER_DECRYPTION : byte := x02.
Definition RECEIVER_SIGNING : byte := x03.
Definition RECEIVER_DECRYPTION : byte := x04.
Definition UNRELATED_KEY : byte := x05.

(** A test: it may panic, and it reads and changes the tally of SM2 verifications
    and the environment. *)
Abbreviation Test := (io (Z * world) string).

(** A loop over the elements of an array. *)
Fixpoint for_each {W E A} (l : list A) (f : A -> io W E unit) : io W E unit :=
  match l with
  | [] => mret tt
  | x :: l => _ ← f x; for_each l f
  end.

(** [bytes[i] ^= mask]. *)
Definition xor_at (bytes : list byte) (i : nat) (mask : Z) : Panics (list byte) :=
  old ← index bytes i;
  Ok (<[i := byte_of_Z (Z.lxor (byte_val old) mask)]> bytes).

(** [a - b] on [usize] values: the debug build panics on underflow. *)
Definition usize_sub (a b : Z) : Panics Z :=
  if a <? b then Err "attempt to subtract with overflow"%string else Ok (a - b).

(** [SecureEnvelope { field: value, ..envelope }]. *)
Definition with_cipher (envelope : SecureEnvelope.t) (cipher : str) : SecureEnvelope.t :=
  SecureEnvelope.Build cipher (SecureEnvelope.wrapped_session_key envelope)
    (SecureEnvelope.signature envelope).
Definition with_wrapped_session_key (envelope : SecureEnvelope.t) (wrapped_session_key : str) :
    SecureEnvelope.t :=
  SecureEnvelope.Build (SecureEnvelope.cipher envelope) wrapped_session_key
    (SecureEnvelope.signature envelope).
Definition with_signature (envelope : SecureEnvelope.t) (signature : str) : SecureEnvelope.t :=
  SecureEnvelope.Build (SecureEnvelope.cipher envelope)
    (SecureEnvelope.wrapped_session_key envelope) signature.

(** [text.repeat(n)] of one character. *)
Definition repeat_char (c : Z) (n : nat) : str := replicate n (char_of_Z c).

(** "你好，secure envelope 🔐 — café". *)
Definition unicode_plaintext : list byte := bytes_lit "你好，secure envelope 🔐 — café".

(** [(0..length).map(|index| (index % 251) as u8).collect()]. *)
Definition sweep_plaintext (length : Z) : list byte :=
  map (fun i => byte_of_Z (Z.of_nat i mod 251)) (seq 0 (Z.to_nat length)).

Section support.
Context `{Sys : System} `{Ar : Arch} `{B64 : Base64} `{Cr : !Crypto} `{Kt : !KeyTooling Cr}.

Record Peers := {
  sender_config : ClientConfig.t;
  sender_keys : KeyMaterial.t;
  receiver_config : ClientConfig.t;
  receiver_keys : KeyMaterial.t;
}.

(** The settings the CBC and the AEAD configurations share. *)
Definition base_config (name : string) (local_signer_id expected_remote_signer_id : list byte)
    (mode : AuthenticationMode.t) : ClientConfigBuilder.t :=
  let b := ClientConfigBuilder.default in
  let b := ClientConfigBuilder.local_identity_id b (lit (name ++ "-identity")) in
  let b := ClientConfigBuilder.api_version b (lit "test-v1") in
  let b := ClientConfigBuilder.local_certificate_id b (lit (name ++ "-signing-certificate")) in
  let b := ClientConfigBuilder.expected_remote_signing_certificate_id b
             (lit (name ++ "-remote-signing-certificate")) in
  let b := ClientConfigBuilder.remote_encryption_certificate_id b
             (lit (name ++ "-remote-encryption-certificate")) in
  let b := ClientConfigBuilder.local_signer_id b local_signer_id in
  let b := ClientConfigBuilder.expected_remote_signer_id b expected_remote_signer_id in
  ClientConfigBuilder.authentication_mode b mode.

Definition config (name : string) (local_signer_id expected_remote_signer_id : list byte)
    (mode : AuthenticationMode.t) (max_plaintext_bytes : Z) : Panics ClientConfig.t :=
  let b := base_config name local_signer_id expected_remote_signer_id mode in
  let b := ClientConfigBuilder.iv b IV in
  let b := ClientConfigBuilder.max_plaintext_bytes b max_plaintext_bytes in
  let b := ClientConfigBuilder.envelope_mode b EnvelopeMode.LegacyCbc in
  expect "valid test configuration" (ClientConfigBuilder.build b).

Definition aead_config (name : string) (local_signer_id expected_remote_signer_id : list byte)
    (mode : AuthenticationMode.t) (max_plaintext_bytes : Z) (algorithm : AeadAlgorithm.t) :
    Panics ClientConfig.t :=
  let b := base_config name local_signer_id expected_remote_signer_id mode in
  let b := ClientConfigBuilder.envelope_mode b (EnvelopeMode.Aead algorithm) in
  let b := ClientConfigBuilder.max_plaintext_bytes b max_plaintext_bytes in
  expect "valid AEAD test configuration" (ClientConfigBuilder.build b).

Definition raw_private_key (scalar : byte) : Panics Sm2PrivateKey :=
  expect "small nonzero SM2 scalar" (ok_or (from_bytes_be (replicate 31 x00 ++ [scalar])) tt).

Definition private_key (scalar : byte) : Panics PrivateKey.t :=
  inner ← raw_private_key scalar; Ok (PrivateKey.Build inner).

Definition public_key_of (scalar : byte) : Panics PublicKey.t :=
  raw ← raw_private_key scalar;
  expect "runtime SPKI public key" (PublicKey.from_der (spki_encode (public_key raw))).

Definition key_material (local_signing local_decryption remote_verification
    remote_encryption : byte) : Panics KeyMaterial.t :=
  a ← private_key local_signing;
  b ← private_key local_decryption;
  c ← public_key_of remote_verification;
  d ← public_key_of remote_encryption;
  expect "independent test key roles" (KeyMaterial.new a b c d).

Definition peers (mode : AuthenticationMode.t) (max_plaintext_bytes : Z) : Panics Peers :=
  sc ← config "sender" SENDER_SIGNER_ID RECEIVER_SIGNER_ID mode max_plaintext_bytes;
  sk ← key_material SENDER_SIGNING SENDER_DECRYPTION RECEIVER_SIGNING RECEIVER_DECRYPTION;
  rc ← config "receiver" RECEIVER_SIGNER_ID SENDER_SIGNER_ID mode max_plaintext_bytes;
  rk ← key_material RECEIVER_SIGNING RECEIVER_DECRYPTION SENDER_SIGNING SENDER_DECRYPTION;
  Ok {| sender_config := sc; sender_keys := sk; receiver_config := rc; receiver_keys := rk |}.

Definition aead_peers_with (mode : AuthenticationMode.t) (max_plaintext_bytes : Z)
    (algorithm : AeadAlgorithm.t) : Panics Peers :=
  sc ← aead_config "sender" SENDER_SIGNER_ID RECEIVER_SIGNER_ID mode max_plaintext_bytes algorithm;
  sk ← key_material SENDER_SIGNING SENDER_DECRYPTION RECEIVER_SIGNING RECEIVER_DECRYPTION;
  rc ← aead_config "receiver" RECEIVER_SIGNER_ID SENDER_SIGNER_ID mode max_plaintext_bytes
         algorithm;
  rk ← key_material RECEIVER_SIGNING RECEIVER_DECRYPTION SENDER_SIGNING SENDER_DECRYPTION;
  Ok {| sender_config := sc; sender_keys := sk; receiver_config := rc; receiver_keys := rk |}.

Definition aead_peers (mode : AuthenticationMode.t) (max_plaintext_bytes : Z) : Panics Peers :=
  aead_peers_with mode max_plaintext_bytes AeadAlgorithm.Sm4Gcm.
Definition ccm_peers (mode : AuthenticationMode.t) (max_plaintext_bytes : Z) : Panics Peers :=
  aead_peers_with mode max_plaintext_bytes AeadAlgorithm.Sm4Ccm.

Definition legacy_context : AuthenticationContext.t := AuthenticationContext.legacy.

Definition assert_invalid_envelope (result : Result (list byte)) : Panics unit :=
  assert (match result with Err Error.InvalidEnvelope => true | _ => false end)
    "assertion failed: matches!(result, Err(Error::InvalidEnvelope))".

Definition is_message_too_large {A} (limit : Z) (result : Result A) : bool :=
  match result with Err (Error.MessageTooLarge l) => l =? limit | _ => false end.

(** ** The calls of a test *)

(** [envelope_crypto::seal] and [open] as the test build runs them: [open] in CBC
    mode counts its verifications. *)
Definition world_call {A} (f : world -> A * world) : Test A :=
  fun '(calls, w) => let '(r, w') := f w in (Ok r, (calls, w')).

Definition seal_call (config : ClientConfig.t) (keys : KeyMaterial.t) (plaintext : list byte)
    (context : AuthenticationContext.t) : Test (Result SecureEnvelope.t) :=
  world_call (Envelope.seal config keys plaintext context).

Definition open_call (config : ClientConfig.t) (keys : KeyMaterial.t)
    (envelope : SecureEnvelope.t) (context : AuthenticationContext.t) :
    Test (Result (list byte)) :=
  fun '(calls, w) =>
  match ClientConfig.envelope_mode config with
  | EnvelopeMode.Aead algorithm =>
      (Ok (Aead.open config keys envelope context algorithm), (calls, w))
  | EnvelopeMode.LegacyCbc =>
      let '(r, calls') := Cbc.open config keys envelope context calls in (Ok r, (calls', w))
  end.

Definition take_verify_calls : Test Z :=
  fun '(calls, w) => let '(n, calls') := Cbc.take_verify_calls calls in (Ok n, (calls', w)).

(** [m.expect(msg)] on the result of a call. *)
Definition expecting {A} (msg : string) (m : Test (Result A)) : Test A :=
  r ← m; lift (expect msg r).

(** [assert_invalid_envelope(open(..))]. *)
Definition open_invalid (c : ClientConfig.t) (k : KeyMaterial.t) (e : SecureEnvelope.t)
    (ctx : AuthenticationContext.t) : Test unit :=
  r ← open_call c k e ctx; lift (assert_invalid_envelope r).

(** [STANDARD.decode(text).expect(msg)]. *)
Definition decode_expect (msg : string) (text : str) : Test (list byte) :=
  lift (expect msg (ok_or (base64_decode text) tt)).

(** [assert_eq!] on byte strings. *)
Definition assert_bytes (actual expected : list byte) : Test unit :=
  lift (assert (bool_decide (actual = expected)) "assertion `left == right` failed").

Definition LEGACY : AuthenticationMode.t := AuthenticationMode.LegacyPlaintext.

(** [seal(&peers.sender_config, &peers.sender_keys, ..).expect(msg)] and the
    receiver's [open(..).expect(msg)]. *)
Definition sender_seals (peers : Peers) (msg : string) (plaintext : list byte)
    (context : AuthenticationContext.t) : Test SecureEnvelope.t :=
  expecting msg (seal_call (sender_config peers) (sender_keys peers) plaintext context).
Definition receiver_opens (peers : Peers) (msg : string) (envelope : SecureEnvelope.t)
    (context : AuthenticationContext.t) : Test (list byte) :=
  expecting msg (open_call (receiver_config peers) (receiver_keys peers) envelope context).
Definition receiver_rejects (peers : Peers) (envelope : SecureEnvelope.t)
    (context : AuthenticationContext.t) : Test unit :=
  open_invalid (receiver_config peers) (receiver_keys peers) envelope context.

Definition bound_mode (domain : string) : Panics AuthenticationMode.t :=
  expect "nonempty domain separator" (AuthenticationMode.context_bound (bytes_lit domain)).
Definition bound_context (context : string) : Panics AuthenticationContext.t :=
  expect "bound context" (AuthenticationContext.context_bound (bytes_lit context)).

(** Sealing one plaintext, opening it and comparing. *)
Definition round_trip (peers : Peers) (context : AuthenticationContext.t)
    (seal_msg open_msg : string) (plaintext : list byte) : Test unit :=
  envelope ← sender_seals peers seal_msg plaintext context;
  opened ← receiver_opens peers open_msg envelope context;
  assert_bytes opened plaintext.

(** The signature with the last bit of its last byte flipped. *)
Definition tampered_signature_of (valid : SecureEnvelope.t) : Test SecureEnvelope.t :=
  signature ← decode_expect "signature Base64" (SecureEnvelope.signature valid);
  final_byte ← lift (usize_sub (len signature) 1);
  signature ← lift (xor_at signature (Z.to_nat final_byte) 1);
  mret (with_signature valid (base64_encode signature)).

Definition wrapped_plaintext_for_receiver (bytes : list byte) : Test str :=
  receiver ← lift (raw_private_key RECEIVER_DECRYPTION);
  wrapped ← world_call (sm2_encrypt (public_key receiver) bytes);
  wrapped ← lift (expect "wrap test bytes for receiver" (ok_or wrapped tt));
  mret (base64_encode wrapped).

End support.
Arguments Peers {_ _}.

(** ** What the primitives reject

    The laws about keys and signatures are idealised: a real scheme breaks them only
    on inputs that nobody can find, and the tests rely on not meeting one. *)

Class RejectionLaws `{System} (B : Base64) (C : Crypto) : Prop := {
  (** Trailing bits of a Base64 text are zero. *)
  base64_trailing_bits : base64_decode (lit "AB==") = None;
  (** SM2 ciphertexts and signatures are DER sequences, and a signature holds two
      integers. *)
  sm2_decrypt_der sk c m : sm2_decrypt sk c = Some m -> head c = Some x30;
  sm2_verify_der pk id m s :
    sm2_verify_with_id pk id m s = true -> head s = Some x30 /\ 8 <= len s;
  (** The digest in a ciphertext rejects another private key, and public keys of
      different private keys are different. *)
  sm2_decrypt_other sk sk' m w c w' :
    sm2_encrypt (public_key sk) m w = (Some c, w') -> to_bytes_be sk <> to_bytes_be sk' ->
    sm2_decrypt sk' c = None;
  public_key_inj sk sk' :
    to_sec1_uncompressed (public_key sk) = to_sec1_uncompressed (public_key sk') ->
    to_bytes_be sk = to_bytes_be sk';
  (** CBC is a permutation of the padded blocks: what decrypts is the encryption of
      the result. *)
  cbc_decrypt_strict k iv c p : cbc_decrypt k iv c = Some p -> c = cbc_encrypt k iv p;
  (** An ideal signature, on messages of at most 94 bytes: it verifies for no other
      message, under no other key, and not with its last bit flipped. *)
  sm2_signature_binds sk id m w s w' pk m' :
    sm2_sign_with_id sk id m w = (Some s, w') -> len m <= 94 -> len m' <= 94 ->
    sm2_verify_with_id pk id m' s = true ->
    m' = m /\ to_sec1_uncompressed pk = to_sec1_uncompressed (public_key sk);
  sm2_signature_bit sk id m w s b w' :
    sm2_sign_with_id sk id m w = (Some (s ++ [b]), w') ->
    sm2_verify_with_id (public_key sk) id m (s ++ [byte_of_Z (Z.lxor (byte_val b) 1)]) = false;
}.

(** ** Running tests *)

(** What a computation keeps of its state. *)
Class Invariant (W : Type) := invariant : W -> Prop.

(** A test keeps the environment healthy. *)
#[export] Instance healthy_state `{System} `{!Health} : Invariant (Z * world) :=
  fun s => healthy (snd s).

(** [runs m w Q]: from a state [w] with the invariant, [m] does not panic and ends in
    a state with the invariant, and [Q] holds of its result. *)
Definition runs {W} `{Invariant W} {E A} (m : io W E A) (w : W) (Q : A -> W -> Prop) : Prop :=
  invariant w -> exists a w', m w = (Ok a, w') /\ invariant w' /\ Q a w'.

(** A test passes: from every tally and healthy environment it runs to its end. *)
Definition passes `{System} `{!Health} (t : Test unit) : Prop :=
  forall s, runs t s (fun _ _ => True).

Section runs.
Context {W : Type} `{Iv : Invariant W} {E : Type}.

Lemma runs_ret {A} (a : A) w (Q : A -> W -> Prop) : Q a w -> runs (E := E) (mret a) w Q.
Proof. intros H I. by exists a, w. Qed.

Lemma runs_bind {A B} (m : io W E A) (f : A -> io W E B) w Q R :
  runs m w R -> (forall a w', R a w' -> runs (f a) w' Q) -> runs (m ≫= f) w Q.
Proof.
  intros Hm Hf I. destruct (Hm I) as (a & w' & Em & I' & Hr).
  destruct (Hf a w' Hr I') as (b & w'' & Hb & I'' & Hq).
  exists b, w''. split; [|done]. by rewrite (step_bind _ _ _ _ _ Em).
Qed.

Lemma runs_last {A} (m : io W E A) w Q : runs (m ≫= mret) w Q -> runs m w Q.
Proof.
  intros H I. destruct (H I) as (a & w' & Hm & I' & Hq).
  apply io_bind_Ok in Hm as (b & w1 & Hm & [= -> ->]). by exists a, w'.
Qed.

Lemma runs_lift {A} (r : result E A) a w (Q : A -> W -> Prop) :
  r = Ok a -> Q a w -> runs (lift r) w Q.
Proof. intros -> H I. by exists a, w. Qed.

Lemma runs_lift_bind {A B} (r : result E A) a (f : A -> io W E B) w Q :
  r = Ok a -> runs (f a) w Q -> runs (lift r ≫= f) w Q.
Proof. intros -> H. exact H. Qed.

Lemma runs_mono {A} (m : io W E A) w (Q R : A -> W -> Prop) :
  runs m w R -> (forall a w', R a w' -> Q a w') -> runs m w Q.
Proof. intros Hm H I. destruct (Hm I) as (a & w' & Em & I' & Hr). exists a, w'. auto. Qed.

Lemma runs_for_each {A} (f : A -> io W E unit) l w Q :
  (forall x w, x ∈ l -> runs (f x) w (fun _ _ => True)) -> (forall w, Q tt w) ->
  runs (for_each l f) w Q.
Proof.
  intros Hf HQ. revert w. induction l as [|x l IH]; intros w; [by apply runs_ret|].
  cbn [for_each]. eapply runs_bind; [apply Hf, list_elem_of_here|].
  intros _ w' _. apply IH. intros y w'' Hy. by apply Hf, list_elem_of_further.
Qed.

End runs.

Lemma assert_true b msg : b = true -> assert b msg = Ok tt.
Proof. by intros ->. Qed.

Lemma xor_at_Ok (bs : list byte) i b mask :
  bs !! i = Some b -> xor_at bs i mask = Ok (<[i := byte_of_Z (Z.lxor (byte_val b) mask)]> bs).
Proof. intros H. unfold xor_at. by rewrite (index_Some _ _ _ H). Qed.

Lemma lxor_byte_range a b : 0 <= a < 256 -> 0 <= b < 256 -> 0 <= Z.lxor a b < 256.
Proof.
  intros Ha Hb. assert (0 <= Z.lxor a b) by (apply Z.lxor_nonneg; lia). split; [done|].
  destruct (Z.eq_dec (Z.lxor a b) 0); [lia|]. apply (Z.log2_lt_pow2 _ 8); [lia|].
  assert (forall z, 0 <= z < 256 -> Z.log2 z < 8) as Hl.
  { intros z Hz. destruct (Z.eq_dec z 0) as [->|]; [done|]. apply Z.log2_lt_pow2; lia. }
  pose proof (Z.log2_lxor a b). pose proof (Hl a). pose proof (Hl b). lia.
Qed.

Lemma xor_byte_ne b mask : 0 < mask < 256 -> byte_of_Z (Z.lxor (byte_val b) mask) <> b.
Proof.
  intros Hm E. apply (f_equal byte_val) in E.
  rewrite byte_val_of_Z_small in E by (apply lxor_byte_range; [apply byte_val_range|lia]).
  apply (f_equal (Z.lxor (byte_val b))) in E.
  rewrite <- Z.lxor_assoc, Z.lxor_nilpotent, Z.lxor_0_l in E. lia.
Qed.

Lemma xor_at_ne (bs : list byte) i b mask :
  bs !! i = Some b -> 0 < mask < 256 ->
  <[i := byte_of_Z (Z.lxor (byte_val b) mask)]> bs <> bs.
Proof.
  intros Hi Hm E. pose proof (xor_byte_ne b mask Hm) as Hne. apply Hne.
  assert (i < length bs)%nat by (by eapply lookup_lt_Some).
  apply (f_equal (lookup i)) in E. rewrite list_lookup_insert_eq in E by done. congruence.
Qed.

(** ** The peers *)

Section peers.
Context `{Sys : System} `{Ar : Arch} `{B64 : Base64} `{Cr : !Crypto} `{Kt : !KeyTooling Cr}.

(** The private key of a scalar below 256. *)
Definition is_key (scalar : byte) (k : Sm2PrivateKey) : Prop :=
  from_bytes_be (replicate 31 x00 ++ [scalar]) = Some k.

(** Keys in the roles [key_material] gives them. *)
Record key_set (signing decryption verification encryption : byte) (k : KeyMaterial.t) : Prop := {
  ks_signing : is_key signing (KeyMaterial.local_signing k);
  ks_decryption : is_key decryption (KeyMaterial.local_decryption k);
  ks_verification : exists x, is_key verification x /\
    KeyMaterial.remote_verification k = public_key x;
  ks_encryption : exists x, is_key encryption x /\
    KeyMaterial.remote_encryption k = public_key x;
}.

Record config_is (local remote : list byte) (am : AuthenticationMode.t) (em : EnvelopeMode.t)
    (max : Z) (c : ClientConfig.t) : Prop := {
  ci_wf : config_wf c;
  ci_local : ClientConfig.local_signer_id c = local;
  ci_remote : ClientConfig.expected_remote_signer_id c = remote;
  ci_authentication : ClientConfig.authentication_mode c = am;
  ci_mode : ClientConfig.envelope_mode c = em;
  ci_iv : ClientConfig.iv c = if decide (em = EnvelopeMode.LegacyCbc) then IV else replicate 16 x00;
  ci_max : ClientConfig.max_plaintext_bytes c = max;
}.

Record peers_are (am : AuthenticationMode.t) (em : EnvelopeMode.t) (max : Z) (p : Peers) : Prop := {
  pa_sender : config_is SENDER_SIGNER_ID RECEIVER_SIGNER_ID am em max (sender_config p);
  pa_sender_keys : key_set SENDER_SIGNING SENDER_DECRYPTION RECEIVER_SIGNING RECEIVER_DECRYPTION
                     (sender_keys p);
  pa_receiver : config_is RECEIVER_SIGNER_ID SENDER_SIGNER_ID am em max (receiver_config p);
  pa_receiver_keys : key_set RECEIVER_SIGNING RECEIVER_DECRYPTION SENDER_SIGNING SENDER_DECRYPTION
                       (receiver_keys p);
}.

Lemma is_key_fun b k k' : is_key b k -> is_key b k' -> k = k'.
Proof. unfold is_key. congruence. Qed.

Lemma is_key_raw b k : is_key b k -> raw_private_key b = Ok k.
Proof. unfold raw_private_key. by intros ->. Qed.

Lemma peers_counterpart l r am em max cs ks cr kr a b c d :
  config_is l r am em max cs -> key_set a b c d ks ->
  config_is r l am em max cr -> key_set c d a b kr ->
  counterpart cs ks cr kr.
Proof.
  intros Hcs Hks Hcr Hkr.
  destruct (ks_encryption _ _ _ _ _ Hks) as (x & Hx & Ex).
  destruct (ks_verification _ _ _ _ _ Hkr) as (y & Hy & Ey).
  constructor.
  - rewrite Ex. f_equal. eapply is_key_fun; [exact Hx|]. by apply Hkr.
  - rewrite Ey. f_equal. eapply is_key_fun; [exact Hy|]. by apply Hks.
  - by rewrite (ci_remote _ _ _ _ _ _ Hcr), (ci_local _ _ _ _ _ _ Hcs).
  - by rewrite (ci_authentication _ _ _ _ _ _ Hcr), (ci_authentication _ _ _ _ _ _ Hcs).
  - by rewrite (ci_mode _ _ _ _ _ _ Hcr), (ci_mode _ _ _ _ _ _ Hcs).
  - by rewrite (ci_iv _ _ _ _ _ _ Hcr), (ci_iv _ _ _ _ _ _ Hcs).
Qed.

Lemma peers_forward am em max p :
  peers_are am em max p ->
  counterpart (sender_config p) (sender_keys p) (receiver_config p) (receiver_keys p).
Proof. intros []. by eapply peers_counterpart. Qed.

Lemma peers_backward am em max p :
  peers_are am em max p ->
  counterpart (receiver_config p) (receiver_keys p) (sender_config p) (sender_keys p).
Proof. intros []. by eapply peers_counterpart. Qed.

Context `{Kl : !KeyToolingLaws Cr Kt} `{Rl : !RejectionLaws B64 Cr}.

Lemma small_key b :
  b <> x00 ->
  exists k, is_key b k /\ raw_private_key b = Ok k /\ to_bytes_be k = replicate 31 x00 ++ [b].
Proof.
  intros Hb. destruct (from_bytes_be_small b Hb) as (k & Hk & He).
  exists k. unfold raw_private_key. by rewrite Hk.
Qed.

Lemma is_key_bytes b k : b <> x00 -> is_key b k -> to_bytes_be k = replicate 31 x00 ++ [b].
Proof.
  intros Hb Hk. destruct (small_key b Hb) as (k' & Hk' & _ & He).
  by rewrite (is_key_fun _ _ _ Hk Hk').
Qed.

Lemma is_key_ne a b ka kb :
  a <> x00 -> b <> x00 -> a <> b -> is_key a ka -> is_key b kb ->
  to_bytes_be ka <> to_bytes_be kb.
Proof.
  intros Ha Hb Hn Hka Hkb E. rewrite (is_key_bytes a), (is_key_bytes b) in E by done.
  apply app_inv_head in E. congruence.
Qed.

Lemma public_key_of_Ok b :
  b <> x00 ->
  exists k, is_key b k /\
    public_key_of b = Ok (PublicKey.Build (public_key k) PeerKeySource.Spki).
Proof.
  intros Hb. destruct (small_key b Hb) as (k & Hk & Hr & _). exists k. split; [done|].
  unfold public_key_of. rewrite Hr. cbn [mbind result_bind].
  unfold PublicKey.from_der. by rewrite spki_decode_encode.
Qed.

Lemma key_material_Ok a b c d :
  Forall (fun x => x <> x00) [a; b; c; d] -> a <> b -> c <> d ->
  exists k, key_material a b c d = Ok k /\ key_set a b c d k.
Proof.
  intros H0 Hab Hcd. rewrite !Forall_cons in H0. destruct H0 as (Ha & Hb & Hc & Hd & _).
  destruct (small_key a) as (ka & Ka & Ra & _), (small_key b) as (kb & Kb & Rb & _),
    (public_key_of_Ok c) as (kc & Kc & Rc), (public_key_of_Ok d) as (kd & Kd & Rd); try done.
  unfold key_material, private_key. rewrite Ra, Rb, Rc, Rd. cbn [mbind result_bind].
  eexists. split.
  - apply expect_Ok, new_Ok. split; [done|]. cbn. split.
    + by apply (is_key_ne a b).
    + intros E%public_key_inj. revert E. by apply (is_key_ne c d).
  - constructor; cbn; [done|done|by exists kc|by exists kd].
Qed.

(** The limits the suites configure. *)
Definition test_limit (max : Z) : Prop := 1 <= max <= SM4_CCM_MAX_PLAINTEXT_BYTES.

(** The names of a test configuration are header text. *)
Definition name_ok (name : string) : Prop :=
  header_text_ok (lit (name ++ "-identity")) /\ header_text_ok (lit "test-v1") /\
  header_text_ok (lit (name ++ "-signing-certificate")) /\
  header_text_ok (lit (name ++ "-remote-signing-certificate")) /\
  header_text_ok (lit (name ++ "-remote-encryption-certificate")).

Lemma peer_names_ok : name_ok "sender" /\ name_ok "receiver".
Proof. split; repeat split; by vm_compute. Qed.

Lemma built_config name l r am em max b :
  b = ClientConfigBuilder.Build (Some (lit (name ++ "-identity"))) (Some (lit "test-v1"))
        (Some (lit (name ++ "-signing-certificate")))
        (Some (lit (name ++ "-remote-signing-certificate")))
        (Some (lit (name ++ "-remote-encryption-certificate"))) (Some l) (Some r) (Some am)
        (match em with EnvelopeMode.LegacyCbc => Some IV | _ => None end) (Some em) (Some max) ->
  name_ok name -> signer_id_ok l -> signer_id_ok r -> mode_wf am -> test_limit max ->
  exists c, ClientConfigBuilder.build b = Ok c /\ config_is l r am em max c.
Proof.
  intros Hb Hn Hl Hr Ham Hmax.
  set (v := if decide (em = EnvelopeMode.LegacyCbc) then IV else replicate 16 x00).
  eset (c := ClientConfig.Build (ClientIdentity.Build _ _ _ _ _) l r am v em max).
  assert (Hc : ClientConfigBuilder.build b = Ok c).
  { apply build_Ok. rewrite Hb. split; [constructor; cbn; try reflexivity; by destruct em|].
    split; [exact Hn|]. split; [done|]. split; [done|]. split; [done|].
    unfold limit_ok, test_limit in *. cbn. lia. }
  exists c. split; [exact Hc|]. constructor; try done.
  eapply build_wf; [|exact Hc]. rewrite Hb. split; cbn.
  - intros x. destruct em; [by intros [= <-]|done].
  - intros n [= <-]. unfold test_limit, SM4_CCM_MAX_PLAINTEXT_BYTES in Hmax.
    pose proof usize_max_bounds. change (Z.shiftl 1 24 - 1) with 16777215 in *. lia.
Qed.

Lemma signer_ids_ok : signer_id_ok SENDER_SIGNER_ID /\ signer_id_ok RECEIVER_SIGNER_ID.
Proof. split; (split; [done|by vm_compute]). Qed.

Lemma config_Ok name l r am max :
  name_ok name -> signer_id_ok l -> signer_id_ok r -> mode_wf am -> test_limit max ->
  exists c, config name l r am max = Ok c /\ config_is l r am EnvelopeMode.LegacyCbc max c.
Proof.
  intros. setoid_rewrite expect_Ok. eapply built_config; [reflexivity|done..].
Qed.

Lemma aead_config_Ok name l r am max alg :
  name_ok name -> signer_id_ok l -> signer_id_ok r -> mode_wf am -> test_limit max ->
  exists c, aead_config name l r am max alg = Ok c /\
    config_is l r am (EnvelopeMode.Aead alg) max c.
Proof.
  intros. setoid_rewrite expect_Ok. eapply built_config; [reflexivity|done..].
Qed.

Lemma peers_Ok am max :
  mode_wf am -> test_limit max ->
  exists p, peers am max = Ok p /\ peers_are am EnvelopeMode.LegacyCbc max p.
Proof.
  intros Ham Hmax. destruct signer_ids_ok as [Hs Hr], peer_names_ok as [Ns Nr].
  destruct (config_Ok "sender" SENDER_SIGNER_ID RECEIVER_SIGNER_ID am max) as (sc & Esc & Hsc);
    [done..|].
  destruct (config_Ok "receiver" RECEIVER_SIGNER_ID SENDER_SIGNER_ID am max) as (rc & Erc & Hrc);
    [done..|].
  destruct (key_material_Ok SENDER_SIGNING SENDER_DECRYPTION RECEIVER_SIGNING RECEIVER_DECRYPTION)
    as (sk & Esk & Hsk); [by repeat constructor|done..|].
  destruct (key_material_Ok RECEIVER_SIGNING RECEIVER_DECRYPTION SENDER_SIGNING SENDER_DECRYPTION)
    as (rk & Erk & Hrk); [by repeat constructor|done..|].
  unfold peers. rewrite Esc, Esk, Erc, Erk. eexists. split; [reflexivity|]. by constructor.
Qed.

Lemma aead_peers_Ok am max alg :
  mode_wf am -> test_limit max ->
  exists p, aead_peers_with am max alg = Ok p /\ peers_are am (EnvelopeMode.Aead alg) max p.
Proof.
  intros Ham Hmax. destruct signer_ids_ok as [Hs Hr], peer_names_ok as [Ns Nr].
  destruct (aead_config_Ok "sender" SENDER_SIGNER_ID RECEIVER_SIGNER_ID am max alg)
    as (sc & Esc & Hsc); [done..|].
  destruct (aead_config_Ok "receiver" RECEIVER_SIGNER_ID SENDER_SIGNER_ID am max alg)
    as (rc & Erc & Hrc); [done..|].
  destruct (key_material_Ok SENDER_SIGNING SENDER_DECRYPTION RECEIVER_SIGNING RECEIVER_DECRYPTION)
    as (sk & Esk & Hsk); [by repeat constructor|done..|].
  destruct (key_material_Ok RECEIVER_SIGNING RECEIVER_DECRYPTION SENDER_SIGNING SENDER_DECRYPTION)
    as (rk & Erk & Hrk); [by repeat constructor|done..|].
  unfold aead_peers_with. rewrite Esc, Esk, Erc, Erk. eexists. split; [reflexivity|].
  by constructor.
Qed.

End peers.
