(* ===== verification/TestReasoning.v ===== *)
(** * Reasoning about envelope tests

    What a test may conclude about sealing and opening: the parts of sealed and of
    opened envelopes, one lemma per kind of test step, and why each alteration of an
    envelope keeps it from opening.  Both payload modes are covered, so the suites of
    cbc.rs and aead.rs share these lemmas. *)

From S2P Require Import Prelude.
From S2P Require Import Rust.
From S2P Require Import Text.
From S2P Require Import System.
From S2P Require Import Error.
From S2P Require Import Auth.
From S2P Require Import ClientConfig.
From S2P Require Import External.
From S2P Require Import Keys.
From S2P Require Import Message.
From S2P Require Import EnvelopeBase.
From S2P Require Import Cbc.
From S2P Require Import Aead.
From S2P Require Import Envelope.
From S2P Require Import TestSupport.

(** ** Sealing and opening in tests *)

Section calls.
Context `{Sys : System} `{Ar : Arch} `{B64 : Base64} `{Cr : !Crypto} `{Hh : !Health}.

(** An envelope some run of [seal] returned. *)
Definition sealed (c : ClientConfig.t) (k : KeyMaterial.t) (p : list byte)
    (ctx : AuthenticationContext.t) (e : SecureEnvelope.t) : Prop :=
  exists w w', Envelope.seal c k p ctx w = (Ok e, w').

(** What a payload says: for CBC the encryption of the plaintext, for AEAD a frame
    with the nonce, the ciphertext and the tag. *)
Definition payload_seals (c : ClientConfig.t) (ctx : AuthenticationContext.t)
    (key p payload : list byte) : Prop :=
  match ClientConfig.envelope_mode c with
  | EnvelopeMode.LegacyCbc => payload = cbc_encrypt key (ClientConfig.iv c) p
  | EnvelopeMode.Aead alg => exists nonce ct tag aad,
      len nonce = 12 /\ payload = Aead.frame_of alg nonce ct tag /\
      AuthenticationMode.aead_aad (ClientConfig.authentication_mode c) ctx
        (Aead.header_of alg nonce) = Ok aad /\
      Aead.aead_encrypt alg key nonce aad p = Ok (ct, tag)
  end.
Definition payload_opens (c : ClientConfig.t) (ctx : AuthenticationContext.t)
    (key payload p : list byte) : Prop :=
  match ClientConfig.envelope_mode c with
  | EnvelopeMode.LegacyCbc => cbc_decrypt key (ClientConfig.iv c) payload = Some p
  | EnvelopeMode.Aead alg => exists nonce ct tag aad,
      len nonce = 12 /\ len tag = 16 /\ payload = Aead.frame_of alg nonce ct tag /\
      AuthenticationMode.aead_aad (ClientConfig.authentication_mode c) ctx
        (Aead.header_of alg nonce) = Ok aad /\
      Aead.aead_decrypt alg key nonce aad ct tag = Ok p
  end.

(** The parts of a sealed envelope: session key, payload, wrapped key, signature and
    signed transcript. *)
Record sealed_parts (c : ClientConfig.t) (k : KeyMaterial.t) (p : list byte)
    (ctx : AuthenticationContext.t) (e : SecureEnvelope.t)
    (key payload wk sig t : list byte) : Prop := {
  sp_envelope : e = SecureEnvelope.Build (base64_encode payload) (base64_encode wk)
                      (base64_encode sig);
  sp_key : len key = 16;
  sp_payload : payload_seals c ctx key p payload;
  sp_wrapped : exists w w', sm2_encrypt (KeyMaterial.remote_encryption k) key w = (Some wk, w');
  sp_input : AuthenticationMode.authentication_input (ClientConfig.authentication_mode c) ctx p
    = Ok t;
  sp_signature : exists w w',
    sm2_sign_with_id (KeyMaterial.local_signing k) (ClientConfig.local_signer_id c) t w
    = (Some sig, w');
}.

(** The parts of an envelope that opens. *)
Record opened_parts (c : ClientConfig.t) (k : KeyMaterial.t) (ctx : AuthenticationContext.t)
    (e : SecureEnvelope.t) (p key payload wk sig t : list byte) : Prop := {
  op_cipher : base64_decode (SecureEnvelope.cipher e) = Some payload;
  op_wrapped : base64_decode (SecureEnvelope.wrapped_session_key e) = Some wk;
  op_signature : base64_decode (SecureEnvelope.signature e) = Some sig;
  op_key : sm2_decrypt (KeyMaterial.local_decryption k) wk = Some key /\ len key = 16;
  op_payload : payload_opens c ctx key payload p;
  op_limit : len p <= ClientConfig.max_plaintext_bytes c;
  op_input : AuthenticationMode.authentication_input (ClientConfig.authentication_mode c) ctx p
    = Ok t;
  op_verified : sm2_verify_with_id (KeyMaterial.remote_verification k)
    (ClientConfig.expected_remote_signer_id c) t sig = true;
}.

Lemma open_Ok_parts `{!SystemLaws Sys} `{!Base64Laws B64} `{!CryptoLaws Cr} c k e ctx p :
  Envelope.open c k e ctx = Ok p ->
  exists key payload wk sig t, opened_parts c k ctx e p key payload wk sig t.
Proof.
  intros H. rewrite open_mode in H. pose proof (pm_authentic _ _ _ _ _ H) as [Hl _].
  rewrite <- open_mode in H. revert H.
  unfold Envelope.open. destruct (ClientConfig.envelope_mode c) as [|alg] eqn:Em.
  - destruct (Cbc.open c k e ctx 0) as [r n] eqn:E. cbn. intros ->.
    apply Cbc.cbc_open_Ok in E as (_ & x & y & z & (wk & Hd & Hk) & Hc).
    apply Cbc.cbc_conclude_Ok in Hc as (? & _ & t & ? & ?).
    exists z, x, wk, y, t. destruct Hd as (_ & _ & _ & ? & _ & ? & ?). constructor; try done.
    unfold payload_opens. by rewrite Em.
  - intros (n & ct & tag & wk & sig & [] & Hc)%Aead.aead_open_Ok.
    apply Aead.aead_conclude_Ok in Hc as (key & aad & t & ? & ? & ? & ? & ? & ?).
    exists key, (Aead.frame_of alg n ct tag), wk, sig, t. constructor; try done.
    unfold payload_opens. rewrite Em. by exists n, ct, tag, aad.
Qed.

Lemma sealed_Ok_parts `{!SystemLaws Sys} c k p ctx e :
  sealed c k p ctx e ->
  exists key payload wk sig t, sealed_parts c k p ctx e key payload wk sig t.
Proof.
  intros (w & w' & H). revert H. rewrite seal_eq. case_match; [done|].
  destruct (ClientConfig.envelope_mode c) as [|alg] eqn:Em; cbn.
  - intros (t & key & w1 & wk & w2 & sig & Ht & Hk & Hw & Hs & ->)%Cbc.cbc_seal_Ok.
    apply generate_session_key_Ok in Hk as [_ Hk].
    exists key, (cbc_encrypt key (ClientConfig.iv c) p), wk, sig, t.
    constructor; eauto. unfold payload_seals. by rewrite Em.
  - intros (t & key & nonce & aad & ct & tag & wk & sig & w1 & w2 & w3 & [])%Aead.aead_seal_Ok.
    apply generate_session_key_Ok in sl_key as [_ Hk].
    exists key, (Aead.frame_of alg nonce ct tag), wk, sig, t. constructor; eauto.
    unfold payload_seals. rewrite Em. exists nonce, ct, tag, aad.
    apply getrandom_fill_len in sl_nonce. unfold len. split; [lia|done].
Qed.

(** The call counts verifications but returns what [open] returns. *)
Lemma open_call_eq c k e ctx n w :
  exists n', open_call c k e ctx (n, w) = (Ok (Envelope.open c k e ctx), (n', w)).
Proof.
  unfold open_call, Envelope.open. destruct (ClientConfig.envelope_mode c); [|eauto].
  destruct (Cbc.cbc_open_tally c k e ctx n) as [-> _]. eauto.
Qed.

Lemma runs_open c k e ctx s :
  runs (open_call c k e ctx) s (fun r _ => r = Envelope.open c k e ctx).
Proof.
  intros I. destruct s as [n w]. destruct (open_call_eq c k e ctx n w) as [n' H].
  by exists (Envelope.open c k e ctx), (n', w).
Qed.

Lemma runs_expecting {A} msg (m : Test (Result A)) s (a : A) :
  runs m s (fun r _ => r = Ok a) -> runs (expecting msg m) s (fun x _ => x = a).
Proof.
  intros H. eapply runs_bind; [exact H|]. intros r s' ->. by eapply runs_lift.
Qed.

(** Sealing succeeds when the primitives answer. *)
Lemma runs_seal `{!SystemLaws Sys} `{!CryptoLaws Cr} msg c k p ctx s :
  available Cr -> config_wf c -> len p <= ClientConfig.max_plaintext_bytes c ->
  kinds_match (ClientConfig.authentication_mode c) ctx = true ->
  len (domain_of (ClientConfig.authentication_mode c)) + len (context_of ctx) <= 1000 ->
  len p <= SM4_CCM_MAX_PLAINTEXT_BYTES ->
  runs (expecting msg (seal_call c k p ctx)) s (fun e _ => sealed c k p ctx e).
Proof.
  intros Av Hc Hl Hk Hd Hp I. pose proof Hc as (_ & _ & _ & Hm & _). destruct s as [n w].
  pose proof usize_max_bounds. assert (len p <= 16777215) by exact Hp.
  destruct (envelope_seal_total c k p ctx w Av I) as (e & w' & He & I');
    [apply Hc|done..|unfold INPUT_LIMIT; lia|by apply small_within_mode_limit|].
  exists e, (n, w'). split; [|split; [exact I'|by exists w, w']].
  unfold expecting, seal_call, world_call, mbind, io_bind. by rewrite He.
Qed.

(** A context of the wrong kind, and a plaintext over the limit. *)
Lemma runs_seal_wrong_kind l r am em max c k p ctx s :
  config_is l r am em max c -> kinds_match am ctx = false -> len p <= max ->
  runs (seal_call c k p ctx) s (fun r _ => r = Err Error.AuthenticationContext).
Proof.
  intros Hc Hk Hl I. destruct s as [n w].
  exists (Err Error.AuthenticationContext), (n, w). split; [|done].
  unfold seal_call, world_call. pose proof (ci_wf _ _ _ _ _ _ Hc) as (_ & _ & _ & Hm & _).
  rewrite seal_wrong_kind; [done|done|by rewrite (ci_authentication _ _ _ _ _ _ Hc)|].
  by rewrite (ci_max _ _ _ _ _ _ Hc).
Qed.

Lemma runs_seal_too_large l r am em max c k p ctx s :
  config_is l r am em max c -> max < len p ->
  runs (seal_call c k p ctx) s (fun r _ => r = Err (Error.MessageTooLarge max)).
Proof.
  intros Hc Hl. destruct s as [n w]. exists (Err (Error.MessageTooLarge max)), (n, w).
  split; [|done]. unfold seal_call, world_call.
  by rewrite seal_eq, (ci_max _ _ _ _ _ _ Hc), (proj2 (Z.ltb_lt _ _) Hl).
Qed.

(** A counterpart opens what was sealed. *)
Lemma sealed_opens `{!SystemLaws Sys} `{!Base64Laws B64} `{!CryptoLaws Cr} cs ks cr kr p ctx e :
  counterpart cs ks cr kr -> config_wf cr -> len p <= ClientConfig.max_plaintext_bytes cr ->
  len p <= SM4_CCM_MAX_PLAINTEXT_BYTES -> sealed cs ks p ctx e ->
  Envelope.open cr kr e ctx = Ok p.
Proof.
  intros Hc Hw Hl Hp (w & w' & H). eapply open_sealed; [done..|exact H|].
  unfold representable. rewrite (seal_text_len _ _ _ _ _ _ _ H). pose_len.
  change SM4_CCM_MAX_PLAINTEXT_BYTES with 16777215 in Hp.
  pose proof usize_max_bounds. unfold sealed_text_len, base64_size, Cbc.padded_size.
  case_match; divlia.
Qed.

Lemma runs_round_trip `{!SystemLaws Sys} `{!Base64Laws B64} `{!CryptoLaws Cr}
    msg cs ks cr kr p ctx e s :
  counterpart cs ks cr kr -> config_wf cr -> len p <= ClientConfig.max_plaintext_bytes cr ->
  len p <= SM4_CCM_MAX_PLAINTEXT_BYTES -> sealed cs ks p ctx e ->
  runs (expecting msg (open_call cr kr e ctx)) s (fun q _ => q = p).
Proof.
  intros Hc Hw Hl Hp H. apply runs_expecting. eapply runs_mono; [apply runs_open|].
  intros r _ ->. by eapply sealed_opens.
Qed.

(** An envelope within the size bound that cannot open is invalid. *)
Lemma runs_open_invalid c k e ctx s :
  str_len (SecureEnvelope.cipher e) <= max_cipher_text c ->
  (forall p, Envelope.open c k e ctx <> Ok p) ->
  runs (open_invalid c k e ctx) s (fun _ _ => True).
Proof.
  intros Hl Hp. eapply runs_bind; [apply runs_open|]. intros r s' ->.
  rewrite (open_within c k e ctx Hl); [by eapply runs_lift|].
  destruct (Envelope.open c k e ctx) as [p|]; [|done]. by destruct (Hp p).
Qed.

End calls.

(** ** The steps of a test

    One lemma per kind of step, in the order a test makes them; each reduces the run
    of a test to the run of what follows. *)

Section steps.
Context `{Sys : System} `{Ar : Arch} `{B64 : Base64} `{Cr : !Crypto} `{Kt : !KeyTooling Cr}.
Context `{Hh : !Health}.
Context `{Sl : !SystemLaws Sys} `{Bl : !Base64Laws B64} `{Cl : !CryptoLaws Cr}.
Context `{Kl : !KeyToolingLaws Cr Kt} `{Rl : !RejectionLaws B64 Cr}.
Context {A : Type}.
Implicit Types (Q : A -> Z * world -> Prop) (s : Z * world).

Lemma runs_peers am max (f : Peers -> Test A) s Q :
  mode_wf am -> test_limit max ->
  (forall p, peers_are am EnvelopeMode.LegacyCbc max p -> runs (f p) s Q) ->
  runs (lift (peers am max) ≫= f) s Q.
Proof.
  intros Ha Hm Hf. destruct (peers_Ok am max Ha Hm) as (p & Hp & H).
  by eapply runs_lift_bind; [exact Hp|apply Hf].
Qed.

Lemma runs_aead_peers am max alg (f : Peers -> Test A) s Q :
  mode_wf am -> test_limit max ->
  (forall p, peers_are am (EnvelopeMode.Aead alg) max p -> runs (f p) s Q) ->
  runs (lift (aead_peers_with am max alg) ≫= f) s Q.
Proof.
  intros Ha Hm Hf. destruct (aead_peers_Ok am max alg Ha Hm) as (p & Hp & H).
  by eapply runs_lift_bind; [exact Hp|apply Hf].
Qed.

Lemma runs_key_material a b c d (f : KeyMaterial.t -> Test A) s Q :
  Forall (fun x => x <> x00) [a; b; c; d] -> a <> b -> c <> d ->
  (forall k, key_set a b c d k -> runs (f k) s Q) ->
  runs (lift (key_material a b c d) ≫= f) s Q.
Proof.
  intros H0 Hab Hcd Hf. destruct (key_material_Ok a b c d H0 Hab Hcd) as (k & Hk & H).
  by eapply runs_lift_bind; [exact Hk|apply Hf].
Qed.

Lemma runs_bound_mode d (f : AuthenticationMode.t -> Test A) s Q :
  bytes_lit d <> [] ->
  runs (f (AuthenticationMode.ContextBound (bytes_lit d))) s Q ->
  runs (lift (bound_mode d) ≫= f) s Q.
Proof.
  intros Hd Hf. eapply runs_lift_bind; [|exact Hf].
  unfold bound_mode, AuthenticationMode.context_bound. by rewrite bool_decide_false.
Qed.

(** A bound context of the given text. *)
Definition bound (text : string) : AuthenticationContext.t :=
  AuthenticationContext.Build (ContextKind.Bound (bytes_lit text)).

Lemma runs_bound_context c (f : AuthenticationContext.t -> Test A) s Q :
  bytes_lit c <> [] -> runs (f (bound c)) s Q -> runs (lift (bound_context c) ≫= f) s Q.
Proof.
  intros Hc Hf. eapply runs_lift_bind; [|exact Hf].
  unfold bound_context, AuthenticationContext.context_bound. by rewrite bool_decide_false.
Qed.

(** What a test may seal: a context of the mode's kind, and sizes within reach. *)
Definition sealable (am : AuthenticationMode.t) (max : Z) (ctx : AuthenticationContext.t)
    (p : list byte) : Prop :=
  kinds_match am ctx = true /\ len (domain_of am) + len (context_of ctx) <= 1000 /\
  len p <= max /\ len p <= SM4_CCM_MAX_PLAINTEXT_BYTES.

Lemma runs_sealing msg l r am em max c k p ctx (f : SecureEnvelope.t -> Test A) s Q :
  available Cr -> config_is l r am em max c -> sealable am max ctx p ->
  (forall e s', sealed c k p ctx e -> runs (f e) s' Q) ->
  runs (expecting msg (seal_call c k p ctx) ≫= f) s Q.
Proof.
  intros Av [] (Hk & Hd & Hl & Hp) Hf. eapply runs_bind; [|exact Hf].
  by apply runs_seal; rewrite ?ci_authentication, ?ci_max.
Qed.

Lemma runs_opening msg l r am em max cs ks c k p ctx e (f : list byte -> Test A) s Q :
  counterpart cs ks c k -> config_is l r am em max c -> sealable am max ctx p ->
  sealed cs ks p ctx e ->
  (forall s', runs (f p) s' Q) ->
  runs (expecting msg (open_call c k e ctx) ≫= f) s Q.
Proof.
  intros Hc H (_ & _ & Hl & Hp) He Hf. apply runs_bind with (fun q _ => q = p); [|by intros q s' ->].
  pose proof (ci_max _ _ _ _ _ _ H).
  apply (runs_round_trip _ cs ks c k p); [done|apply H|congruence|done|done].
Qed.

Lemma runs_rejecting c k e ctx (f : unit -> Test A) s Q :
  str_len (SecureEnvelope.cipher e) <= max_cipher_text c ->
  (forall p, Envelope.open c k e ctx <> Ok p) ->
  (forall s', runs (f tt) s' Q) ->
  runs (open_invalid c k e ctx ≫= f) s Q.
Proof.
  intros Hl Hp Hf. eapply runs_bind; [by apply runs_open_invalid|]. intros [] s' _. apply Hf.
Qed.

Lemma runs_same_bytes bs (f : unit -> Test A) s Q :
  runs (f tt) s Q -> runs (assert_bytes bs bs ≫= f) s Q.
Proof.
  intros Hf. eapply runs_lift_bind; [|exact Hf]. apply assert_true. by apply bool_decide_eq_true.
Qed.

Lemma runs_decode msg bs (f : list byte -> Test A) s Q :
  runs (f bs) s Q -> runs (decode_expect msg (base64_encode bs) ≫= f) s Q.
Proof.
  intros Hf. eapply runs_lift_bind; [|exact Hf]. by rewrite base64_decode_encode.
Qed.

End steps.

(** ** Why an altered envelope does not open *)

Section rejections.
Context `{Sys : System} `{Ar : Arch} `{B64 : Base64} `{Cr : !Crypto} `{Kt : !KeyTooling Cr}.
Context `{Hh : !Health}.
Context `{Sl : !SystemLaws Sys} `{Bl : !Base64Laws B64} `{Cl : !CryptoLaws Cr}.
Context `{Kl : !KeyToolingLaws Cr Kt} `{Rl : !RejectionLaws B64 Cr}.

Lemma text_within l r am em max c text :
  config_is l r am em max c -> test_limit max ->
  str_len text <= sealed_text_len em max -> str_len text <= max_cipher_text c.
Proof.
  intros [] Hm Ht. unfold test_limit in Hm. change SM4_CCM_MAX_PLAINTEXT_BYTES with 16777215 in Hm.
  pose proof usize_max_bounds.
  assert (sealed_text_len em max <= usize_max).
  { unfold sealed_text_len, base64_size, Cbc.padded_size. destruct em; divlia. }
  by rewrite max_cipher_text_eq; rewrite ci_max, ?ci_mode; [|lia|].
Qed.

Lemma sealed_within l r am em max c cs ks p ctx e :
  config_is l r am em max c -> test_limit max -> ClientConfig.envelope_mode cs = em ->
  sealed cs ks p ctx e -> sealed_text_len em (len p) <= sealed_text_len em max ->
  str_len (SecureEnvelope.cipher e) <= max_cipher_text c.
Proof.
  intros Hc Hm He (w & w' & H) Hl. eapply text_within; [done..|].
  by rewrite (seal_text_len _ _ _ _ _ _ _ H), He.
Qed.

Lemma bad_text_rejected c k e ctx :
  base64_decode (SecureEnvelope.cipher e) = None \/
  base64_decode (SecureEnvelope.wrapped_session_key e) = None \/
  base64_decode (SecureEnvelope.signature e) = None ->
  forall p, Envelope.open c k e ctx <> Ok p.
Proof.
  intros H p (key & x & y & z & t & [])%open_Ok_parts. destruct H as [H|[H|H]]; congruence.
Qed.

Lemma oversized_text_rejected c k e ctx :
  MAX_AUXILIARY_BASE64_BYTES < str_len (SecureEnvelope.wrapped_session_key e) \/
  MAX_AUXILIARY_BASE64_BYTES < str_len (SecureEnvelope.signature e) ->
  forall p, Envelope.open c k e ctx <> Ok p.
Proof. intros H p (_ & ? & ?)%open_Ok_bounds. lia. Qed.

Lemma unwrap_rejected c k e ctx wk :
  SecureEnvelope.wrapped_session_key e = base64_encode wk ->
  (forall key, sm2_decrypt (KeyMaterial.local_decryption k) wk = Some key -> len key <> 16) ->
  forall p, Envelope.open c k e ctx <> Ok p.
Proof.
  intros He H p (key & x & y & z & t & [])%open_Ok_parts.
  rewrite He, base64_decode_encode in op_wrapped0. injection op_wrapped0 as <-.
  destruct op_key0 as [Hk Hl]. by apply (H key).
Qed.

Lemma not_der_rejected c k e ctx wk :
  SecureEnvelope.wrapped_session_key e = base64_encode wk -> head wk <> Some x30 ->
  forall p, Envelope.open c k e ctx <> Ok p.
Proof. intros He H. eapply unwrap_rejected; [exact He|]. by intros key ?%sm2_decrypt_der. Qed.

(** A signature that verifies for no transcript. *)
Lemma signature_rejected c k e ctx sig :
  SecureEnvelope.signature e = base64_encode sig ->
  (forall t, sm2_verify_with_id (KeyMaterial.remote_verification k)
     (ClientConfig.expected_remote_signer_id c) t sig = false) ->
  forall p, Envelope.open c k e ctx <> Ok p.
Proof.
  intros He H p (key & x & y & z & t & [])%open_Ok_parts.
  rewrite He, base64_decode_encode in op_signature0. injection op_signature0 as <-.
  rewrite H in op_verified0. done.
Qed.

Lemma malformed_signature_rejected c k e ctx sig :
  SecureEnvelope.signature e = base64_encode sig -> head sig <> Some x30 \/ len sig < 8 ->
  forall p, Envelope.open c k e ctx <> Ok p.
Proof.
  intros He H. eapply signature_rejected; [exact He|]. intros t.
  apply not_true_is_false. intros [? ?]%sm2_verify_der. destruct H; [done|lia].
Qed.

(** Text that is not Base64. *)
Lemma base64_rejects_character s c :
  c ∈ s -> base64_alphabet c = false -> base64_decode s = None.
Proof.
  intros Hc Hb. destruct (base64_decode s) as [bs|] eqn:E; [|done].
  apply base64_canonical in E as ->. pose proof (base64_encode_alphabet bs) as H.
  rewrite Forall_forall in H. specialize (H c Hc). congruence.
Qed.

Lemma base64_rejects_length s : str_len s mod 4 <> 0 -> base64_decode s = None.
Proof.
  intros Hc. destruct (base64_decode s) as [bs|] eqn:E; [|done].
  apply base64_canonical in E as ->. rewrite base64_encode_len in Hc. divlia.
Qed.

(** An opened envelope with the wrapped key of a sealed one has its session key. *)
Lemma opened_key c k ctx e p key x wk sig t c' k' ctx' e' p' key' x' wk' sig' t' :
  sealed_parts c k p ctx e key x wk sig t ->
  opened_parts c' k' ctx' e' p' key' x' wk' sig' t' ->
  KeyMaterial.remote_encryption k = public_key (KeyMaterial.local_decryption k') ->
  SecureEnvelope.wrapped_session_key e' = SecureEnvelope.wrapped_session_key e ->
  key' = key.
Proof.
  intros [Ee _ _ (w & w' & Hw) _ _] [_ Hwk _ [Hk _] _ _ _ _] E Es.
  rewrite Es, Ee in Hwk. cbn in Hwk. rewrite base64_decode_encode in Hwk. injection Hwk as <-.
  rewrite E in Hw. apply sm2_decrypt_encrypt in Hw. congruence.
Qed.

(** With the signature of a sealed one it has its transcript and is verified under
    the sender's key. *)
Lemma opened_transcript c k ctx e p key x wk sig t c' k' ctx' e' p' key' x' wk' sig' t' :
  sealed_parts c k p ctx e key x wk sig t ->
  opened_parts c' k' ctx' e' p' key' x' wk' sig' t' ->
  ClientConfig.expected_remote_signer_id c' = ClientConfig.local_signer_id c ->
  SecureEnvelope.signature e' = SecureEnvelope.signature e ->
  len t <= 94 -> len t' <= 94 ->
  t' = t /\
  to_sec1_uncompressed (KeyMaterial.remote_verification k')
  = to_sec1_uncompressed (public_key (KeyMaterial.local_signing k)).
Proof.
  intros [Ee _ _ _ _ (w & w' & Hs)] [_ _ Hsig _ _ _ _ Hv] E Es Hl Hl'.
  rewrite Es, Ee in Hsig. cbn in Hsig. rewrite base64_decode_encode in Hsig.
  injection Hsig as <-. rewrite E in Hv. by eapply sm2_signature_binds.
Qed.

(** An opened payload is no shorter than the plaintext, and sealing is undone by
    opening under the same settings. *)
Lemma payload_opens_len c ctx key x p : payload_opens c ctx key x p -> len p <= len x.
Proof.
  unfold payload_opens. destruct (ClientConfig.envelope_mode c).
  - intros ->%cbc_decrypt_strict. rewrite cbc_encrypt_len. pose_len. divlia.
  - intros (n & ct & tag & aad & Hn & Ht & -> & _ & ->%Aead.aead_decrypt_len); [|done].
    rewrite Aead.len_frame_of by done. lia.
Qed.

Lemma payload_opens_sealed c c' ctx key p x p' :
  payload_seals c ctx key p x -> payload_opens c' ctx key x p' ->
  ClientConfig.envelope_mode c' = ClientConfig.envelope_mode c ->
  ClientConfig.authentication_mode c' = ClientConfig.authentication_mode c ->
  ClientConfig.iv c' = ClientConfig.iv c -> p' = p.
Proof.
  intros Hs Ho Em Ea Ei. unfold payload_seals, payload_opens in *. rewrite Em, Ea, Ei in *.
  destruct (ClientConfig.envelope_mode c).
  - subst x. rewrite cbc_decrypt_encrypt in Ho. congruence.
  - destruct Hs as (n & ct & tag & aad & Hn & -> & Ha & He).
    destruct Ho as (n' & ct' & tag' & aad' & Hn' & Ht' & Ex & Ha' & Hd).
    pose proof (Aead.aead_encrypt_len _ _ _ _ _ _ _ He) as [_ Ht].
    apply Aead.frame_of_inj in Ex as (_ & <- & <- & <-); [|done..].
    apply Aead.aead_decrypt_encrypt in He. congruence.
Qed.

(** The untouched payload and key give the untouched plaintext. *)
Lemma opened_plaintext c k ctx e p key x wk sig t c' k' e' p' key' x' wk' sig' t' :
  sealed_parts c k p ctx e key x wk sig t ->
  opened_parts c' k' ctx e' p' key' x' wk' sig' t' ->
  KeyMaterial.remote_encryption k = public_key (KeyMaterial.local_decryption k') ->
  ClientConfig.envelope_mode c' = ClientConfig.envelope_mode c ->
  ClientConfig.authentication_mode c' = ClientConfig.authentication_mode c ->
  ClientConfig.iv c' = ClientConfig.iv c ->
  SecureEnvelope.cipher e' = SecureEnvelope.cipher e ->
  SecureEnvelope.wrapped_session_key e' = SecureEnvelope.wrapped_session_key e ->
  p' = p /\ t' = t.
Proof.
  intros Hs Ho Ek Em Ea Ei Ec Ew. pose proof (opened_key _ _ _ _ _ _ _ _ _ _ _ _ _ _ _ _ _ _ _ _ Hs Ho Ek Ew).
  subst key'. destruct Hs as [Ee _ Hs _ Hi _], Ho as [Hx _ _ _ Ho _ Hi' _].
  rewrite Ec, Ee in Hx. cbn in Hx. rewrite base64_decode_encode in Hx. injection Hx as <-.
  assert (p' = p) as -> by (by eapply payload_opens_sealed). split; [done|]. congruence.
Qed.

End rejections.

(** ** Round trips *)

Lemma runs_round_trips `{Sys : System} `{Ar : Arch} `{B64 : Base64} `{Cr : !Crypto}
    `{Kt : !KeyTooling Cr} `{Hh : !Health} `{Sl : !SystemLaws Sys} `{Bl : !Base64Laws B64} `{Cl : !CryptoLaws Cr}
    am em max P m1 m2 p ctx s :
  available Cr -> peers_are am em max P -> sealable am max ctx p ->
  runs (round_trip P ctx m1 m2 p) s (fun _ _ => True).
Proof.
  intros Av HP Hp. eapply runs_sealing; [exact Av|apply (pa_sender _ _ _ _ HP)|exact Hp|].
  intros e s' He. eapply runs_opening;
    [exact (peers_forward _ _ _ _ HP)|apply (pa_receiver _ _ _ _ HP)|exact Hp|exact He|].
  intros s''. eapply runs_lift; [|done]. apply assert_true. by apply bool_decide_eq_true.
Qed.

(** ** The peers' rejections *)

Section peer_rejections.
Context `{Sys : System} `{Ar : Arch} `{B64 : Base64} `{Cr : !Crypto} `{Kt : !KeyTooling Cr}.
Context `{Hh : !Health}.
Context `{Sl : !SystemLaws Sys} `{Bl : !Base64Laws B64} `{Cl : !CryptoLaws Cr}.
Context `{Kl : !KeyToolingLaws Cr Kt} `{Rl : !RejectionLaws B64 Cr}.
Context (am : AuthenticationMode.t) (em : EnvelopeMode.t) (max : Z) (P : Peers).
Context (HP : peers_are am em max P) (p : list byte) (ctx : AuthenticationContext.t).
Context (e : SecureEnvelope.t) (He : sealed (sender_config P) (sender_keys P) p ctx e).

(** The longest plaintext a payload of a plaintext of [n] bytes can decrypt to. *)
Definition reread_len (n : Z) : Z :=
  match em with EnvelopeMode.LegacyCbc => Cbc.padded_size n - 1 | EnvelopeMode.Aead _ => n end.

Lemma sender_receiver_mode :
  ClientConfig.envelope_mode (sender_config P) = em /\
  ClientConfig.authentication_mode (sender_config P) = am.
Proof. destruct HP as [[] _ _ _]. done. Qed.

(** A key set with the receiver's decryption key unwraps what was sealed. *)
Lemma receiver_unwraps a c d k :
  key_set a RECEIVER_DECRYPTION c d k ->
  KeyMaterial.remote_encryption (sender_keys P) = public_key (KeyMaterial.local_decryption k).
Proof.
  intros [_ Hd _ _]. destruct HP as [_ [_ _ _ (x & Hx & ->)] _ _].
  f_equal. by eapply is_key_fun.
Qed.

(** Another domain or context: the signed transcript is not the expected one. *)
Lemma context_rejected am' max' c ctx' :
  config_is RECEIVER_SIGNER_ID SENDER_SIGNER_ID am' em max' c ->
  is_context_bound am = true ->
  (kinds_match am' ctx' = true ->
   is_context_bound am' = true /\ (am', ctx') <> (am, ctx) /\
   25 + len (domain_of am) + len (context_of ctx) + len p <= 94 /\
   25 + len (domain_of am') + len (context_of ctx') + reread_len (len p) <= 94) ->
  forall p', Envelope.open c (receiver_keys P) e ctx' <> Ok p'.
Proof.
  intros Hc Hb Hk p' Ho.
  destruct (sealed_Ok_parts _ _ _ _ _ He) as (key & x & wk & sig & t & Hs).
  destruct (open_Ok_parts _ _ _ _ _ Ho) as (key' & x' & wk' & sig' & t' & Hp).
  destruct sender_receiver_mode as [Em Ea].
  pose proof (op_input _ _ _ _ _ _ _ _ _ _ Hp) as Hi'.
  rewrite (ci_authentication _ _ _ _ _ _ Hc) in Hi'.
  pose proof (sp_input _ _ _ _ _ _ _ _ _ _ Hs) as Hi. rewrite Ea in Hi.
  pose proof Hi' as (_ & Hm & Ht')%authentication_input_Ok.
  pose proof Hi as (_ & _ & Ht)%authentication_input_Ok.
  destruct (Hk Hm) as (Hb' & Hn & L & L'). rewrite Hb in Ht. rewrite Hb' in Ht'.
  assert (len p' <= reread_len (len p)) as Hl.
  { assert (x' = x) as ->.
    { pose proof (op_cipher _ _ _ _ _ _ _ _ _ _ Hp) as Hx.
      rewrite (sp_envelope _ _ _ _ _ _ _ _ _ _ Hs) in Hx. cbn in Hx.
      rewrite base64_decode_encode in Hx. congruence. }
    pose proof (op_payload _ _ _ _ _ _ _ _ _ _ Hp) as Hpo.
    pose proof (sp_payload _ _ _ _ _ _ _ _ _ _ Hs) as Hps.
    unfold reread_len, payload_opens, payload_seals in *.
    rewrite (ci_mode _ _ _ _ _ _ Hc) in Hpo. rewrite Em in Hps. destruct em.
    - subst x. apply cbc_decrypt_strict, (f_equal len) in Hpo. rewrite !cbc_encrypt_len in Hpo.
      unfold Cbc.padded_size. pose_len. divlia.
    - destruct Hps as (n & ct & tag & aad & Hn1 & -> & _ & He1).
      destruct Hpo as (n' & ct' & tag' & aad' & Hn' & Htag & Ex & _ & Hd).
      apply Aead.aead_encrypt_len in He1 as [He1 Ht1].
      apply Aead.aead_decrypt_len in Hd; [|done].
      apply Aead.frame_of_inj in Ex as (_ & _ & <- & _); [lia|done..]. }
  assert (t' = t) as ->.
  { eapply opened_transcript; [exact Hs|exact Hp| |done|..].
    - by rewrite (ci_remote _ _ _ _ _ _ Hc), (ci_local _ _ _ _ _ _ (pa_sender _ _ _ _ HP)).
    - destruct Ht as [_ ->]. unfold transcript. len_solve.
    - destruct Ht' as [_ ->]. unfold transcript. len_solve. }
  destruct (authentication_input_inj _ _ _ _ _ _ _ Hb' Hb Hi' Hi) as (-> & -> & _). done.
Qed.

(** The receiver of the same mode reads the plaintext and the transcript of an
    untouched payload. *)
Lemma receiver_reads a c d k e' p' key x wk sig t key' x' wk' sig' t' :
  key_set a RECEIVER_DECRYPTION c d k ->
  sealed_parts (sender_config P) (sender_keys P) p ctx e key x wk sig t ->
  opened_parts (receiver_config P) k ctx e' p' key' x' wk' sig' t' ->
  SecureEnvelope.cipher e' = SecureEnvelope.cipher e ->
  SecureEnvelope.wrapped_session_key e' = SecureEnvelope.wrapped_session_key e ->
  p' = p /\ t' = t.
Proof.
  intros Hk Hs Ho Ec Ew. pose proof (peers_forward _ _ _ _ HP) as [].
  eapply opened_plaintext; [exact Hs|exact Ho|by eapply receiver_unwraps|done..].
Qed.

(** A signature with its last bit flipped. *)
Lemma flipped_signature_rejected sig b :
  SecureEnvelope.signature e = base64_encode (sig ++ [b]) ->
  forall p', Envelope.open (receiver_config P) (receiver_keys P)
    (with_signature e (base64_encode (sig ++ [byte_of_Z (Z.lxor (byte_val b) 1)]))) ctx <> Ok p'.
Proof.
  intros Eb p' Ho.
  destruct (sealed_Ok_parts _ _ _ _ _ He) as (key & x & wk & sig0 & t & Hs).
  destruct (open_Ok_parts _ _ _ _ _ Ho) as (key' & x' & wk' & sig' & t' & Hp).
  destruct (receiver_reads _ _ _ _ _ _ _ _ _ _ _ _ _ _ _ _ (pa_receiver_keys _ _ _ _ HP) Hs Hp)
    as [_ ->]; [done..|].
  destruct Hs as [Ee _ _ _ _ (w & w' & Hs)], Hp as [_ _ Hsig _ _ _ _ Hv].
  rewrite Ee in Eb. cbn in Eb. apply (f_equal base64_decode) in Eb.
  rewrite !base64_decode_encode in Eb. injection Eb as ->.
  cbn in Hsig. rewrite base64_decode_encode in Hsig. injection Hsig as <-.
  pose proof (peers_forward _ _ _ _ HP) as [_ Ev Eid _ _ _]. rewrite Ev, Eid in Hv.
  apply sm2_signature_bit in Hs. congruence.
Qed.

(** A private key other than the receiver's. *)
Lemma wrong_decryption_rejected cr a b c d k ctx' :
  key_set a b c d k -> b <> x00 -> b <> RECEIVER_DECRYPTION ->
  forall p', Envelope.open cr k e ctx' <> Ok p'.
Proof.
  intros Hk Hb Hn p'.
  destruct (sealed_Ok_parts _ _ _ _ _ He) as (key & x & wk & sig0 & t & [-> _ _ (w & w' & Hw) _ _]).
  eapply unwrap_rejected; [reflexivity|]. intros key' Hd.
  pose proof (peers_forward _ _ _ _ HP) as [Ee _ _ _ _ _]. rewrite Ee in Hw.
  rewrite (sm2_decrypt_other _ _ _ _ _ _ Hw) in Hd; [done|].
  eapply (is_key_ne RECEIVER_DECRYPTION b); [done|done|done| |apply Hk].
  apply (pa_receiver_keys _ _ _ _ HP).
Qed.

(** A verification key other than the sender's. *)
Lemma wrong_verification_rejected a c d k :
  key_set a RECEIVER_DECRYPTION c d k -> c <> x00 -> c <> SENDER_SIGNING ->
  len p <= 94 -> am = AuthenticationMode.LegacyPlaintext ->
  forall p', Envelope.open (receiver_config P) k e ctx <> Ok p'.
Proof.
  intros Hk Hc Hn Hl Ham p' Ho.
  destruct (sealed_Ok_parts _ _ _ _ _ He) as (key & x & wk & sig & t & Hs).
  destruct (open_Ok_parts _ _ _ _ _ Ho) as (key' & x' & wk' & sig' & t' & Hp).
  destruct (receiver_reads _ _ _ _ _ _ _ _ _ _ _ _ _ _ _ _ Hk Hs Hp) as [-> ->]; [done..|].
  pose proof (sp_input _ _ _ _ _ _ _ _ _ _ Hs) as Hi.
  destruct sender_receiver_mode as [_ Ea]. rewrite Ea, Ham in Hi.
  apply authentication_input_Ok in Hi as (_ & _ & ->).
  pose proof (peers_forward _ _ _ _ HP) as [_ _ Eid _ _ _].
  destruct (opened_transcript _ _ _ _ _ _ _ _ _ _ _ _ _ _ _ _ _ _ _ _ Hs Hp Eid eq_refl Hl Hl)
    as [_ E].
  destruct (ks_verification _ _ _ _ _ Hk) as (y & Hy & Ey). rewrite Ey in E.
  apply public_key_inj in E. revert E.
  eapply (is_key_ne c SENDER_SIGNING); [done|done|done|done|].
  apply (pa_sender_keys _ _ _ _ HP).
Qed.

End peer_rejections.

(** ** Steps that prepare an altered envelope *)

Section alterations.
Context `{Sys : System} `{Ar : Arch} `{B64 : Base64} `{Cr : !Crypto} `{Kt : !KeyTooling Cr}.
Context `{Hh : !Health}.
Context `{Sl : !SystemLaws Sys} `{Bl : !Base64Laws B64} `{Cl : !CryptoLaws Cr}.
Context `{Kl : !KeyToolingLaws Cr Kt} `{Rl : !RejectionLaws B64 Cr}.
Context {A : Type}.
Implicit Types (Q : A -> Z * world -> Prop) (s : Z * world).

Lemma usize_sub_Ok a b : b <= a -> usize_sub a b = Ok (a - b).
Proof. intros H. unfold usize_sub. by rewrite (proj2 (Z.ltb_ge a b)). Qed.

Lemma runs_tampered_signature c k p ctx e (f : SecureEnvelope.t -> Test A) s Q :
  sealed c k p ctx e ->
  (forall sig b, SecureEnvelope.signature e = base64_encode (sig ++ [b]) ->
     runs (f (with_signature e
       (base64_encode (sig ++ [byte_of_Z (Z.lxor (byte_val b) 1)])))) s Q) ->
  runs (tampered_signature_of e ≫= f) s Q.
Proof.
  intros (key & x & wk & sig & t & [Ee _ _ _ _ (w & w' & Hs)])%sealed_Ok_parts Hf.
  assert (Eb : SecureEnvelope.signature e = base64_encode sig) by (by rewrite Ee).
  apply sm2_sign_len in Hs as [Hs _].
  destruct (exists_last (l := sig)) as (sig0 & b & ->); [by intros ->|].
  apply runs_bind with (fun e' s' => s' = s /\ e' =
    with_signature e (base64_encode (sig0 ++ [byte_of_Z (Z.lxor (byte_val b) 1)]))).
  - unfold tampered_signature_of. rewrite Eb. apply runs_decode.
    assert (Hl : len (sig0 ++ [b]) - 1 = len sig0) by len_solve.
    eapply runs_lift_bind; [apply usize_sub_Ok; lia|]. rewrite Hl.
    unfold len. rewrite Nat2Z.id.
    eapply runs_lift_bind; [apply xor_at_Ok; by rewrite list_lookup_middle|].
    apply runs_ret. split; [done|]. by rewrite insert_app_r_alt, Nat.sub_diag by lia.
  - intros e' s' [-> ->]. by apply Hf.
Qed.

Lemma runs_wrapped_plaintext am em max P bs (f : str -> Test A) s Q :
  available Cr -> peers_are am em max P -> 1 <= len bs <= SESSION_KEY_BYTES ->
  (forall wk s', sm2_decrypt (KeyMaterial.local_decryption (receiver_keys P)) wk = Some bs ->
     runs (f (base64_encode wk)) s' Q) ->
  runs (wrapped_plaintext_for_receiver bs ≫= f) s Q.
Proof.
  intros Av HP Hl Hf I. destruct s as [n w].
  pose proof (ks_decryption _ _ _ _ _ (pa_receiver_keys _ _ _ _ HP)) as Hk.
  destruct (av_sm2_encrypt Av (public_key (KeyMaterial.local_decryption (receiver_keys P))) bs w I Hl)
    as (wk & w' & Hw & I').
  revert I. apply runs_bind with (fun t s' => t = base64_encode wk).
  - unfold wrapped_plaintext_for_receiver.
    eapply runs_lift_bind; [by apply is_key_raw|].
    intros _. exists (base64_encode wk), (n, w'). split; [|done].
    unfold world_call, mbind, io_bind. by rewrite Hw.
  - intros t s' ->. apply Hf. by eapply sm2_decrypt_encrypt.
Qed.

(** A changed CBC payload. *)
Lemma changed_cipher_rejected max P p e key x wk sig t x' :
  peers_are AuthenticationMode.LegacyPlaintext EnvelopeMode.LegacyCbc max P ->
  sealed_parts (sender_config P) (sender_keys P) p AuthenticationContext.legacy e key x wk sig t ->
  len p <= 94 -> x' <> x -> len x' <= 94 ->
  forall p', Envelope.open (receiver_config P) (receiver_keys P)
    (with_cipher e (base64_encode x')) AuthenticationContext.legacy <> Ok p'.
Proof.
  intros HP Hs Hl Hx Hl' p' Ho.
  destruct (open_Ok_parts _ _ _ _ _ Ho) as (key' & x0 & wk' & sig' & t' & Hp).
  pose proof (peers_forward _ _ _ _ HP) as Hc.
  destruct (sender_receiver_mode _ _ _ _ HP) as [Em Ea].
  pose proof (op_input _ _ _ _ _ _ _ _ _ _ Hp) as Hi'.
  rewrite (cp_authentication_mode _ _ _ _ Hc), Ea in Hi'. injection Hi' as <-.
  pose proof (sp_input _ _ _ _ _ _ _ _ _ _ Hs) as Hi. rewrite Ea in Hi. injection Hi as <-.
  pose proof (payload_opens_len _ _ _ _ _ (op_payload _ _ _ _ _ _ _ _ _ _ Hp)) as Hlen.
  pose proof (op_cipher _ _ _ _ _ _ _ _ _ _ Hp) as E. cbn in E.
  rewrite base64_decode_encode in E. injection E as <-.
  destruct (opened_transcript _ _ _ _ _ _ _ _ _ _ _ _ _ _ _ _ _ _ _ _ Hs Hp) as [-> _];
    [apply Hc|done|done|lia|].
  assert (key' = key) by (eapply opened_key; [exact Hs|exact Hp|apply Hc|done]); subst key'.
  pose proof (op_payload _ _ _ _ _ _ _ _ _ _ Hp) as Hpo.
  pose proof (sp_payload _ _ _ _ _ _ _ _ _ _ Hs) as Hps.
  unfold payload_opens, payload_seals in *.
  rewrite (cp_envelope_mode _ _ _ _ Hc), (cp_iv _ _ _ _ Hc), Em in *.
  apply cbc_decrypt_strict in Hpo. congruence.
Qed.

(** A plaintext over the limit of a receiver with the same keys. *)
Lemma over_limit_rejected am em P O max max' p ctx e :
  peers_are am em max P -> peers_are am em max' O ->
  sealed (sender_config P) (sender_keys P) p ctx e -> max' < len p ->
  forall p', Envelope.open (receiver_config O) (receiver_keys O) e ctx <> Ok p'.
Proof.
  intros HP HO He Hl p' Ho.
  destruct (open_Ok_parts _ _ _ _ _ Ho) as (key' & x' & wk' & sig' & t' & Hp).
  destruct (sealed_Ok_parts _ _ _ _ _ He) as (key & x & wk & sig & t & Hs).
  destruct (pa_sender _ _ _ _ HP), (pa_receiver _ _ _ _ HO).
  destruct (opened_plaintext _ _ _ _ _ _ _ _ _ _ _ _ _ _ _ _ _ _ _ Hs Hp) as [-> _];
    [by eapply receiver_unwraps, HO|congruence|congruence|congruence|done|done|].
  pose proof (op_limit _ _ _ _ _ _ _ _ _ _ Hp). lia.
Qed.

End alterations.
