(* ===== verification/CbcTests.v ===== *)
(** * The CBC test suite (src/envelope_crypto/cbc.rs, [mod tests])

    The unit tests of the CBC mode as programs, and a proof that each passes for
    every implementation of the primitives with the stated laws, from every state
    with a healthy environment.  [every_seal_uses_a_fresh_random_session_key] is left out:
    it passes with overwhelming probability, not always. *)

From S2P Require Import Prelude.
From S2P Require Import Rust.
From S2P Require Import Text.
From S2P Require Import System.
From S2P Require Import Error.
From S2P Require Import Auth.
From S2P Require Import ClientConfig.
From S2P Require Import External.
From S2P Require Import Keys.
From S2P Require Import Message.
From S2P Require Import EnvelopeBase.
From S2P Require Import Cbc.
From S2P Require Import Envelope.
From S2P Require Import TestSupport.
From S2P Require Import TestReasoning.

Module CbcTests.
Section tests.
Context `{Sys : System} `{Ar : Arch} `{B64 : Base64} `{Cr : !Crypto} `{Kt : !KeyTooling Cr}.

Definition legacy_exact_plaintext_round_trips_in_both_directions_with_distinct_roles : Test unit :=
  peers ← lift (peers LEGACY 256);
  let sender_plaintext :=
    bytes_lit "sender signs exactly these bytes" ++ [x00] ++ bytes_lit "with no framing" in
  sender_envelope ← sender_seals peers "sender seals" sender_plaintext legacy_context;
  sender_signature ← decode_expect "signature Base64" (SecureEnvelope.signature sender_envelope);
  signing ← lift (raw_private_key SENDER_SIGNING);
  _ ← lift (assert (sm2_verify_with_id (public_key signing) SENDER_SIGNER_ID sender_plaintext
                      sender_signature) "assertion failed: sm2::verify_with_id(..)");
  opened ← receiver_opens peers "receiver opens" sender_envelope legacy_context;
  _ ← assert_bytes opened sender_plaintext;
  let receiver_plaintext := bytes_lit "receiver response uses inverse directional roles" in
  receiver_envelope ← expecting "receiver seals"
    (seal_call (receiver_config peers) (receiver_keys peers) receiver_plaintext legacy_context);
  opened ← expecting "sender opens"
    (open_call (sender_config peers) (sender_keys peers) receiver_envelope legacy_context);
  assert_bytes opened receiver_plaintext.

Definition context_bound_round_trip_rejects_different_or_wrong_context_kinds : Test unit :=
  mode ← lift (bound_mode "example/request/v1");
  peers ← lift (peers mode 256);
  context ← lift (bound_context "operation=pay&id=17");
  envelope ← sender_seals peers "seal context-bound payload"
               (bytes_lit "context-bound payload") context;
  opened ← receiver_opens peers "matching context opens" envelope context;
  _ ← assert_bytes opened (bytes_lit "context-bound payload");
  different ← lift (bound_context "operation=pay&id=18");
  _ ← receiver_rejects peers envelope different;
  _ ← receiver_rejects peers envelope legacy_context;
  seal_error ← seal_call (sender_config peers) (sender_keys peers)
                 (bytes_lit "wrong context kind") legacy_context;
  lift (assert (match seal_error with Err Error.AuthenticationContext => true | _ => false end)
          "outbound context mismatch must be specific").

Definition context_bound_round_trip_preserves_exact_unicode_utf8_bytes : Test unit :=
  mode ← lift (bound_mode "example/unicode/v1");
  peers ← lift (peers mode 256);
  context ← lift (bound_context "operation=unicode");
  round_trip peers context "seal Unicode UTF-8 bytes" "open Unicode UTF-8 bytes"
    unicode_plaintext.

Definition context_bound_domain_separator_is_part_of_the_verified_transcript : Test unit :=
  sender_mode ← lift (bound_mode "example/request/v1");
  receiver_mode ← lift (bound_mode "example/response/v1");
  peers ← lift (peers sender_mode 256);
  mismatched_receiver_config ← lift (config "receiver" RECEIVER_SIGNER_ID SENDER_SIGNER_ID
                                       receiver_mode 256);
  context ← lift (bound_context "operation=pay&id=17");
  envelope ← sender_seals peers "seal with sender domain" (bytes_lit "domain-separated payload")
               context;
  open_invalid mismatched_receiver_config (receiver_keys peers) envelope context.

Definition empty_plaintext_round_trips : Test unit :=
  peers ← lift (peers LEGACY 32);
  round_trip peers legacy_context "seal empty plaintext" "open empty plaintext" [].

Definition LENGTHS : list Z :=
  [0; 1; 2; 3; 4; 5; 15; 16; 17; 31; 32; 33; 47; 48; 49; 63; 64; 65; 255; 256; 257; 1023; 1024;
   1025].

Definition plaintext_length_sweep_round_trips_across_block_and_base64_boundaries : Test unit :=
  mode ← lift (bound_mode "example/sweep/v1");
  context ← lift (bound_context "operation=sweep");
  for_each [(LEGACY, legacy_context); (mode, context)] (fun '(mode, context) =>
    peers ← lift (peers mode 2048);
    for_each LENGTHS (fun length =>
      round_trip peers context "seal bytes" "open bytes" (sweep_plaintext length))).

Definition seal_rejects_plaintext_over_the_configured_limit : Test unit :=
  peers ← lift (peers LEGACY 8);
  error ← seal_call (sender_config peers) (sender_keys peers) (bytes_lit "123456789")
            legacy_context;
  lift (assert (is_message_too_large 8 error)
          "assertion failed: matches!(error, Error::MessageTooLarge { limit: 8 })").

Definition oversized_encoded_or_decoded_cipher_is_rejected_before_key_operations : Test unit :=
  peers ← lift (peers LEGACY 17);
  let encoded_too_large :=
    SecureEnvelope.Build (repeat_char 33 45) (lit "not Base64") (lit "not Base64") in
  encoded_error ← open_call (receiver_config peers) (receiver_keys peers) encoded_too_large
                    legacy_context;
  _ ← lift (assert (is_message_too_large 17 encoded_error)
              "assertion failed: matches!(encoded_error, ..)");
  let decoded_too_large :=
    SecureEnvelope.Build (base64_encode (replicate 33 x00)) (lit "not Base64")
      (lit "not Base64") in
  receiver_rejects peers decoded_too_large legacy_context.

Definition invalid_base64_in_any_envelope_field_is_indistinguishable : Test unit :=
  peers ← lift (peers LEGACY 128);
  valid ← sender_seals peers "seal valid envelope" (bytes_lit "valid envelope") legacy_context;
  for_each [with_cipher valid (lit "!!!!"); with_wrapped_session_key valid (lit "!!!!");
            with_signature valid (lit "!!!!")]
    (fun invalid => receiver_rejects peers invalid legacy_context).

Definition base64_requires_canonical_trailing_bits_and_standard_padding : Test unit :=
  peers ← lift (peers LEGACY 128);
  valid ← sender_seals peers "seal valid envelope" (bytes_lit "canonical Base64 envelope")
            legacy_context;
  for_each [with_cipher valid (lit "AA"); with_wrapped_session_key valid (lit "AB==");
            with_signature valid (lit "AA")]
    (fun invalid => receiver_rejects peers invalid legacy_context).

Definition malformed_wrapped_keys_and_wrong_length_unwrapped_keys_are_indistinguishable :
    Test unit :=
  peers ← lift (peers LEGACY 128);
  valid ← sender_seals peers "seal valid envelope" (bytes_lit "wrapped key failures")
            legacy_context;
  let malformed := with_wrapped_session_key valid (base64_encode (bytes_lit "not SM2 DER")) in
  _ ← receiver_rejects peers malformed legacy_context;
  wrapped ← wrapped_plaintext_for_receiver (bytes_lit "not-16-bytes");
  receiver_rejects peers (with_wrapped_session_key valid wrapped) legacy_context.

Definition wrong_decryption_key_is_an_invalid_envelope : Test unit :=
  peers ← lift (peers LEGACY 128);
  envelope ← sender_seals peers "seal valid envelope"
               (bytes_lit "encrypted for receiver decryption role") legacy_context;
  wrong_keys ← lift (key_material RECEIVER_SIGNING UNRELATED_KEY SENDER_SIGNING
                       SENDER_DECRYPTION);
  open_invalid (receiver_config peers) wrong_keys envelope legacy_context.

(** The ciphertext with the byte that controls the padding flipped, and with its
    first byte changed. *)
Definition bad_padding_of (valid : SecureEnvelope.t) : Test SecureEnvelope.t :=
  bad_padding ← decode_expect "cipher Base64" (SecureEnvelope.cipher valid);
  previous_block_last_byte ← lift (usize_sub (len bad_padding) 17);
  bad_padding ← lift (xor_at bad_padding (Z.to_nat previous_block_last_byte) 0x0f);
  mret (with_cipher valid (base64_encode bad_padding)).

Definition cbc_padding_and_cipher_tampering_is_an_invalid_envelope : Test unit :=
  peers ← lift (peers LEGACY 128);
  valid ← sender_seals peers "seal two-block cipher" (replicate 17 x78) legacy_context;
  bad_padding ← bad_padding_of valid;
  _ ← receiver_rejects peers bad_padding legacy_context;
  changed_cipher ← decode_expect "cipher Base64" (SecureEnvelope.cipher valid);
  changed_cipher ← lift (xor_at changed_cipher 0 1);
  receiver_rejects peers (with_cipher valid (base64_encode changed_cipher)) legacy_context.

Definition truncated_cipher_and_malformed_signature_encoding_are_invalid_envelopes : Test unit :=
  peers ← lift (peers LEGACY 128);
  valid ← sender_seals peers "seal valid envelope" (bytes_lit "truncation and signature encoding")
            legacy_context;
  truncated_cipher ← decode_expect "cipher Base64" (SecureEnvelope.cipher valid);
  _ ← lift (expect "nonempty padded ciphertext" (ok_or (last truncated_cipher) tt));
  let truncated := with_cipher valid (base64_encode (removelast truncated_cipher)) in
  _ ← receiver_rejects peers truncated legacy_context;
  receiver_rejects peers (with_signature valid (base64_encode [x30; x01; x00])) legacy_context.

Definition signature_tampering_and_wrong_verification_key_are_indistinguishable : Test unit :=
  peers ← lift (peers LEGACY 128);
  valid ← sender_seals peers "seal valid envelope"
            (bytes_lit "decrypted plaintext must remain unverified") legacy_context;
  tampered ← tampered_signature_of valid;
  _ ← receiver_rejects peers tampered legacy_context;
  wrong_keys ← lift (key_material RECEIVER_SIGNING RECEIVER_DECRYPTION UNRELATED_KEY
                       SENDER_DECRYPTION);
  open_invalid (receiver_config peers) wrong_keys valid legacy_context.

Definition oversized_wrapped_key_and_signature_inputs_are_bounded : Test unit :=
  peers ← lift (peers LEGACY 128);
  valid ← sender_seals peers "seal valid envelope" (bytes_lit "bounded auxiliary fields")
            legacy_context;
  let oversized := repeat_char 65 (Z.to_nat (16 * 1024 + 1)) in
  _ ← receiver_rejects peers (with_wrapped_session_key valid oversized) legacy_context;
  receiver_rejects peers (with_signature valid oversized) legacy_context.

Definition configured_plaintext_boundary_round_trips : Test unit :=
  peers ← lift (peers LEGACY 64);
  round_trip peers legacy_context "seal boundary-size plaintext"
    "open boundary-size plaintext" (replicate 64 xa5).

Definition post_decrypt_oversize_and_unverified_plaintext_are_never_returned : Test unit :=
  sealing_peers ← lift (peers LEGACY 18);
  opening_peers ← lift (peers LEGACY 17);
  envelope ← sender_seals sealing_peers "seal payload within the sender's limit"
               (replicate 18 x7a) legacy_context;
  _ ← receiver_rejects opening_peers envelope legacy_context;
  let unverified := with_signature envelope (base64_encode (bytes_lit "malformed signature")) in
  receiver_rejects sealing_peers unverified legacy_context.

(** [take_verify_calls(); open(..); assert_eq!(take_verify_calls(), calls)]. *)
Definition counting {A} (m : Test A) (calls : Z) : Test A :=
  _ ← take_verify_calls;
  r ← m;
  n ← take_verify_calls;
  _ ← lift (assert (n =? calls) "assertion `left == right` failed");
  mret r.

Definition open_runs_exactly_one_verification_on_every_post_unwrap_path : Test unit :=
  peers ← lift (peers LEGACY 128);
  valid ← sender_seals peers "seal two-block cipher" (replicate 17 x78) legacy_context;
  _ ← counting (receiver_opens peers "valid envelope opens" valid legacy_context) 1;
  bad_padding ← bad_padding_of valid;
  _ ← counting (receiver_rejects peers bad_padding legacy_context) 1;
  smaller ← lift (TestSupport.peers LEGACY 16);
  _ ← counting (receiver_rejects smaller valid legacy_context) 1;
  bad_signature ← tampered_signature_of valid;
  _ ← counting (receiver_rejects peers bad_signature legacy_context) 1;
  let unwrappable :=
    with_wrapped_session_key valid (base64_encode (bytes_lit "not an SM2 ciphertext")) in
  counting (receiver_rejects peers unwrappable legacy_context) 0.

Definition a_signed_cleartext_placed_in_cipher_reaches_verify_yet_is_rejected : Test unit :=
  peers ← lift (peers LEGACY 128);
  let signed_plaintext := bytes_lit "a legitimately signed plaintext, replayed as cleartext" in
  _ ← lift (assert (negb (len signed_plaintext mod 16 =? 0))
              "must be block-misaligned for a deterministic decrypt failure");
  legitimate ← sender_seals peers "seal a legitimate envelope" signed_plaintext legacy_context;
  let forged := with_cipher legitimate (base64_encode signed_plaintext) in
  result ← counting (open_call (receiver_config peers) (receiver_keys peers) forged
                       legacy_context) 1;
  lift (assert_invalid_envelope result).

(** The suite. *)
Definition suite : list (Test unit) :=
  [legacy_exact_plaintext_round_trips_in_both_directions_with_distinct_roles;
   context_bound_round_trip_rejects_different_or_wrong_context_kinds;
   context_bound_round_trip_preserves_exact_unicode_utf8_bytes;
   context_bound_domain_separator_is_part_of_the_verified_transcript;
   empty_plaintext_round_trips;
   plaintext_length_sweep_round_trips_across_block_and_base64_boundaries;
   seal_rejects_plaintext_over_the_configured_limit;
   oversized_encoded_or_decoded_cipher_is_rejected_before_key_operations;
   invalid_base64_in_any_envelope_field_is_indistinguishable;
   base64_requires_canonical_trailing_bits_and_standard_padding;
   malformed_wrapped_keys_and_wrong_length_unwrapped_keys_are_indistinguishable;
   wrong_decryption_key_is_an_invalid_envelope;
   cbc_padding_and_cipher_tampering_is_an_invalid_envelope;
   truncated_cipher_and_malformed_signature_encoding_are_invalid_envelopes;
   signature_tampering_and_wrong_verification_key_are_indistinguishable;
   oversized_wrapped_key_and_signature_inputs_are_bounded;
   configured_plaintext_boundary_round_trips;
   post_decrypt_oversize_and_unverified_plaintext_are_never_returned;
   open_runs_exactly_one_verification_on_every_post_unwrap_path;
   a_signed_cleartext_placed_in_cipher_reaches_verify_yet_is_rejected].

End tests.
(** ** Every test passes *)

Section sound.
Context `{Sys : System} `{Ar : Arch} `{B64 : Base64} `{Cr : !Crypto} `{Kt : !KeyTooling Cr}.
Context `{Sl : !SystemLaws Sys} `{Bl : !Base64Laws B64} `{Cl : !CryptoLaws Cr}.
Context `{Kl : !KeyToolingLaws Cr Kt} `{Rl : !RejectionLaws B64 Cr}.
Context `{Hh : !Health} (Av : available Cr).

(** Side conditions about the constants of the suite. *)
Ltac ground :=
  match goal with
  | |- test_limit _ => split; by vm_compute
  | |- sealable _ _ _ _ => repeat split; by vm_compute
  | |- Forall _ _ => by repeat constructor
  | |- mode_wf _ => done
  | |- _ <> _ => done
  end.

(** Seal as the sender; open as the receiver; reject as the receiver. *)
Ltac seal_step HP e He :=
  eapply runs_sealing; [exact Av|exact (pa_sender _ _ _ _ HP)|ground|intros e ? He].
Ltac open_step HP :=
  eapply runs_opening; [exact (peers_forward _ _ _ _ HP)|exact (pa_receiver _ _ _ _ HP)| |eassumption|intros ?]; [ground|].

Lemma legacy_round_trip_passes :
  passes legacy_exact_plaintext_round_trips_in_both_directions_with_distinct_roles.
Proof.
  intros s. apply runs_peers; [ground..|]. intros P HP.
  seal_step HP e He. destruct (sealed_Ok_parts _ _ _ _ _ He) as (key & x & wk & sig & t & [Ee _ _ _ Ei (w & w' & Es)]).
  rewrite Ee at 1. apply runs_decode.
  eapply runs_lift_bind; [by apply is_key_raw, HP|].
  eapply runs_lift_bind.
  { apply assert_true. rewrite (ci_authentication _ _ _ _ _ _ (pa_sender _ _ _ _ HP)) in Ei.
    injection Ei as <-. rewrite (ci_local _ _ _ _ _ _ (pa_sender _ _ _ _ HP)) in Es.
    by eapply sm2_verify_sign. }
  open_step HP. apply runs_same_bytes.
  eapply runs_sealing; [exact Av|exact (pa_receiver _ _ _ _ HP)|ground|intros e' ? He'].
  eapply runs_opening;
    [exact (peers_backward _ _ _ _ HP)|exact (pa_sender _ _ _ _ HP)| |eassumption|intros ?]; [ground|].
  eapply runs_lift; [|done]. apply assert_true. by apply bool_decide_eq_true.
Qed.

(** Reject as the receiver, as the last step and before another one. *)
Ltac within_of HP HS :=
  cbn [SecureEnvelope.cipher with_wrapped_session_key with_signature];
  eapply sealed_within; [exact (pa_receiver _ _ _ _ HP)|ground|by apply (sender_receiver_mode _ _ _ _ HS)
    |eassumption|by vm_compute].
Ltac within HP := within_of HP HP.
Ltac text_len HP :=
  eapply text_within; [exact (pa_receiver _ _ _ _ HP)|ground|
    cbn [SecureEnvelope.cipher with_cipher];
    first [rewrite base64_encode_len; by vm_compute | by vm_compute]].

Lemma context_bound_round_trip_passes :
  passes context_bound_round_trip_rejects_different_or_wrong_context_kinds.
Proof.
  intros s. apply runs_bound_mode; [ground|]. apply runs_peers; [ground..|]. intros P HP.
  apply runs_bound_context; [ground|]. seal_step HP e He. open_step HP. apply runs_same_bytes.
  apply runs_bound_context; [ground|].
  apply runs_rejecting; [within HP| |intros ?].
  { eapply context_rejected; [exact HP|exact He|apply (pa_receiver _ _ _ _ HP)|done|].
    intros _. split; [done|]. split; [by injection|by vm_compute]. }
  apply runs_rejecting; [within HP| |intros ?].
  { eapply context_rejected; [exact HP|exact He|apply (pa_receiver _ _ _ _ HP)|done|done]. }
  eapply runs_bind; [eapply runs_seal_wrong_kind; [apply (pa_sender _ _ _ _ HP)|done|by vm_compute]|].
  intros r ? ->. by eapply runs_lift.
Qed.

Lemma unicode_passes : passes context_bound_round_trip_preserves_exact_unicode_utf8_bytes.
Proof.
  intros s. apply runs_bound_mode; [ground|]. apply runs_peers; [ground..|]. intros P HP.
  apply runs_bound_context; [ground|]. by eapply runs_round_trips; [exact Av|exact HP|ground].
Qed.

Lemma domain_separator_passes :
  passes context_bound_domain_separator_is_part_of_the_verified_transcript.
Proof.
  intros s. apply runs_bound_mode; [ground|]. apply runs_bound_mode; [ground|].
  apply runs_peers; [ground..|]. intros P HP.
  destruct signer_ids_ok as [Hs Hr], peer_names_ok as [_ Hn].
  destruct (config_Ok "receiver" RECEIVER_SIGNER_ID SENDER_SIGNER_ID
    (AuthenticationMode.ContextBound (bytes_lit "example/response/v1")) 256) as (c & Ec & Hc);
    [done|done|done|ground|ground|].
  eapply runs_lift_bind; [exact Ec|]. apply runs_bound_context; [ground|]. seal_step HP e He.
  apply runs_open_invalid; [eapply sealed_within; [exact Hc|ground|
    by apply (sender_receiver_mode _ _ _ _ HP)|eassumption|by vm_compute]|].
  eapply context_rejected; [exact HP|exact He|exact Hc|done|].
  intros _. split; [done|]. split; [by injection|by vm_compute].
Qed.

Lemma empty_passes : passes empty_plaintext_round_trips.
Proof.
  intros s. apply runs_peers; [ground..|]. intros P HP.
  by eapply runs_round_trips; [exact Av|exact HP|ground].
Qed.

Lemma boundary_passes : passes configured_plaintext_boundary_round_trips.
Proof.
  intros s. apply runs_peers; [ground..|]. intros P HP.
  by eapply runs_round_trips; [exact Av|exact HP|ground].
Qed.

Lemma sweep_passes :
  passes plaintext_length_sweep_round_trips_across_block_and_base64_boundaries.
Proof.
  intros s. apply runs_bound_mode; [ground|]. apply runs_bound_context; [ground|].
  apply runs_for_each; [|done]. intros [am ctx] s' Hin.
  assert (mode_wf am /\ kinds_match am ctx = true /\
    len (domain_of am) + len (context_of ctx) <= 1000) as (Hw & Hk & Hd).
  { apply elem_of_cons in Hin as [E|E%list_elem_of_singleton];
      injection E as -> ->; (split; [done|split; [done|by vm_compute]]). }
  apply runs_peers; [done|ground|]. intros P HP. apply runs_for_each; [|done].
  intros n s'' Hn. eapply runs_round_trips; [exact Av|exact HP|].
  assert (0 <= n <= 1025) as Hb.
  { revert n Hn. apply Forall_forall. unfold LENGTHS. repeat constructor; done. }
  assert (len (sweep_plaintext n) = n) as El.
  { unfold sweep_plaintext. rewrite len_map. unfold len. rewrite length_seq. lia. }
  split; [done|]. split; [done|]. rewrite El.
  change SM4_CCM_MAX_PLAINTEXT_BYTES with 16777215. lia.
Qed.

Lemma seal_limit_passes : passes seal_rejects_plaintext_over_the_configured_limit.
Proof.
  intros s. apply runs_peers; [ground..|]. intros P HP.
  eapply runs_bind; [eapply runs_seal_too_large; [apply (pa_sender _ _ _ _ HP)|by vm_compute]|].
  intros r ? ->. by eapply runs_lift.
Qed.

(** ** Rejected envelopes *)

(** The three ways to alter one field keep the bounds of the ciphertext text. *)
Lemma oversized_passes :
  passes oversized_encoded_or_decoded_cipher_is_rejected_before_key_operations.
Proof.
  intros s. apply runs_peers; [ground..|]. intros P HP.
  eapply runs_bind; [apply runs_open|]. intros r ? ->.
  eapply runs_lift_bind.
  { apply assert_true. rewrite open_oversized.
    - by rewrite (ci_max _ _ _ _ _ _ (pa_receiver _ _ _ _ HP)).
    - pose proof (pa_receiver _ _ _ _ HP) as []. pose proof usize_max_bounds.
      rewrite max_cipher_text_eq; rewrite ci_max, ?ci_mode; [by vm_compute|lia|].
      change (sealed_text_len EnvelopeMode.LegacyCbc 17) with 44. lia. }
  apply runs_open_invalid; [text_len HP|].
  apply bad_text_rejected. right. left. by apply base64_rejects_length.
Qed.

Lemma invalid_base64_passes :
  passes invalid_base64_in_any_envelope_field_is_indistinguishable.
Proof.
  intros s. apply runs_peers; [ground..|]. intros P HP. seal_step HP e He.
  assert (Hb : base64_decode (lit "!!!!") = None)
    by (eapply base64_rejects_character; [apply list_elem_of_here|done]).
  apply runs_for_each; [|done]. intros e' ? Hin. rewrite !elem_of_cons in Hin.
  destruct Hin as [-> |[-> |[-> |[]%not_elem_of_nil]]];
    (apply runs_open_invalid; [|apply bad_text_rejected; cbn; auto]).
  - text_len HP.
  - within HP.
  - within HP.
Qed.

Lemma canonical_base64_passes :
  passes base64_requires_canonical_trailing_bits_and_standard_padding.
Proof.
  intros s. apply runs_peers; [ground..|]. intros P HP. seal_step HP e He.
  assert (Hb : base64_decode (lit "AA") = None) by (by apply base64_rejects_length).
  pose proof base64_trailing_bits as Ht.
  apply runs_for_each; [|done]. intros e' ? Hin. rewrite !elem_of_cons in Hin.
  destruct Hin as [-> |[-> |[-> |[]%not_elem_of_nil]]];
    (apply runs_open_invalid; [|apply bad_text_rejected; cbn; auto]).
  - text_len HP.
  - within HP.
  - within HP.
Qed.

Lemma malformed_key_passes :
  passes malformed_wrapped_keys_and_wrong_length_unwrapped_keys_are_indistinguishable.
Proof.
  intros s. apply runs_peers; [ground..|]. intros P HP. seal_step HP e He.
  apply runs_rejecting; [within HP|by eapply not_der_rejected|intros ?].
  eapply runs_wrapped_plaintext; [exact Av|exact HP|done|]. intros wk ? Hw.
  apply runs_open_invalid; [within HP|]. eapply unwrap_rejected; [reflexivity|].
  intros key. rewrite Hw. by intros [= <-].
Qed.

Lemma wrong_decryption_passes : passes wrong_decryption_key_is_an_invalid_envelope.
Proof.
  intros s. apply runs_peers; [ground..|]. intros P HP. seal_step HP e He.
  apply runs_key_material; [ground..|]. intros k Hk.
  apply runs_open_invalid; [within HP|]. by eapply wrong_decryption_rejected.
Qed.

Lemma oversized_fields_pass : passes oversized_wrapped_key_and_signature_inputs_are_bounded.
Proof.
  intros s. apply runs_peers; [ground..|]. intros P HP. seal_step HP e He.
  assert (Ho : MAX_AUXILIARY_BASE64_BYTES < str_len (repeat_char 65 (Z.to_nat (16 * 1024 + 1)))).
  { unfold str_len, repeat_char, utf8.
    assert (forall n, len (flat_map utf8_char (replicate n (char_of_Z 65))) = Z.of_nat n) as ->.
    { induction n as [|n IH]; [done|]. cbn [replicate flat_map]. rewrite len_app, IH.
      change (len (utf8_char (char_of_Z 65))) with 1. lia. }
    by vm_compute. }
  apply runs_rejecting; [within HP|apply oversized_text_rejected; by left|intros ?].
  apply runs_open_invalid; [within HP|apply oversized_text_rejected; by right].
Qed.

Lemma signature_tampering_passes :
  passes signature_tampering_and_wrong_verification_key_are_indistinguishable.
Proof.
  intros s. apply runs_peers; [ground..|]. intros P HP. seal_step HP e He.
  eapply runs_tampered_signature; [exact He|]. intros sig b Eb.
  apply runs_rejecting; [within HP|by eapply flipped_signature_rejected|intros ?].
  apply runs_key_material; [ground..|]. intros k Hk.
  apply runs_open_invalid; [within HP|].
  by eapply wrong_verification_rejected; [exact HP|exact He|exact Hk|..].
Qed.

(** ** Altered ciphertexts *)

Lemma cbc_parts P max p e :
  peers_are LEGACY EnvelopeMode.LegacyCbc max P ->
  sealed (sender_config P) (sender_keys P) p legacy_context e ->
  exists key x wk sig t,
    sealed_parts (sender_config P) (sender_keys P) p legacy_context e key x wk sig t /\
    SecureEnvelope.cipher e = base64_encode x /\ len x = Cbc.padded_size (len p).
Proof.
  intros HP (key & x & wk & sig & t & Hs)%sealed_Ok_parts. exists key, x, wk, sig, t.
  split; [done|]. split; [by rewrite (sp_envelope _ _ _ _ _ _ _ _ _ _ Hs)|].
  pose proof (sp_payload _ _ _ _ _ _ _ _ _ _ Hs) as Hx. unfold payload_seals in Hx.
  rewrite (proj1 (sender_receiver_mode _ _ _ _ HP)) in Hx. by rewrite Hx, cbc_encrypt_len.
Qed.

Lemma runs_flip_byte {A} bs i mask (f : list byte -> Test A) s Q :
  (i < length bs)%nat -> 0 < mask < 256 ->
  (forall bs', bs' <> bs -> len bs' = len bs -> runs (f bs') s Q) ->
  runs (lift (xor_at bs i mask) ≫= f) s Q.
Proof.
  intros [b Hb]%lookup_lt_is_Some Hm Hf. eapply runs_lift_bind; [by apply xor_at_Ok|].
  apply Hf; [by apply xor_at_ne|]. unfold len. by rewrite length_insert.
Qed.

Lemma runs_bad_padding {A} e x (f : SecureEnvelope.t -> Test A) s Q :
  SecureEnvelope.cipher e = base64_encode x -> 17 <= len x ->
  (forall x', x' <> x -> len x' = len x -> runs (f (with_cipher e (base64_encode x'))) s Q) ->
  runs (bad_padding_of e ≫= f) s Q.
Proof.
  intros Ec Hx Hf.
  apply runs_bind with (fun e' s' => s' = s /\
    exists x', x' <> x /\ len x' = len x /\ e' = with_cipher e (base64_encode x')).
  - unfold bad_padding_of. rewrite Ec. apply runs_decode.
    eapply runs_lift_bind; [by apply usize_sub_Ok|].
    apply runs_flip_byte; [unfold len in *; lia|lia|]. intros x' Hn Hl. apply runs_ret. eauto.
  - intros e' s' (-> & x' & Hn & Hl & ->). by apply Hf.
Qed.

Lemma padding_tampering_passes : passes cbc_padding_and_cipher_tampering_is_an_invalid_envelope.
Proof.
  intros s. apply runs_peers; [ground..|]. intros P HP. seal_step HP e He.
  destruct (cbc_parts _ _ _ _ HP He) as (key & x & wk & sig & t & Hs & Ec & Hx).
  change (Cbc.padded_size (len (replicate 17 "x"%byte))) with 32 in Hx.
  assert (Hr : forall x', x' <> x -> len x' = len x ->
    str_len (base64_encode x') <= max_cipher_text (receiver_config P) /\
    forall p', Envelope.open (receiver_config P) (receiver_keys P)
      (with_cipher e (base64_encode x')) legacy_context <> Ok p').
  { intros x' Hn Hl. split.
    - eapply text_within; [apply (pa_receiver _ _ _ _ HP)|ground|].
      rewrite base64_encode_len, Hl, Hx. by vm_compute.
    - eapply changed_cipher_rejected; [exact HP|exact Hs|by vm_compute|done|lia]. }
  eapply runs_bad_padding; [exact Ec|lia|]. intros x1 H1 L1.
  apply runs_rejecting; [by apply Hr|by apply Hr|intros ?].
  rewrite Ec. apply runs_decode. apply runs_flip_byte; [unfold len in Hx; lia|lia|].
  intros x2 H2 L2. by apply runs_open_invalid; apply Hr.
Qed.

Lemma truncation_passes :
  passes truncated_cipher_and_malformed_signature_encoding_are_invalid_envelopes.
Proof.
  intros s. apply runs_peers; [ground..|]. intros P HP. seal_step HP e He.
  destruct (cbc_parts _ _ _ _ HP He) as (key & x & wk & sig & t & Hs & Ec & Hx).
  change (Cbc.padded_size (len (bytes_lit "truncation and signature encoding"))) with 48 in Hx.
  destruct (exists_last (l := x)) as (x' & b & ->); [by intros ->|].
  rewrite Ec. apply runs_decode. eapply runs_lift_bind; [by rewrite last_snoc|].
  rewrite removelast_last. rewrite len_app in Hx. change (len [b]) with 1 in Hx.
  apply runs_rejecting; [| |intros ?].
  - eapply text_within; [apply (pa_receiver _ _ _ _ HP)|ground|].
    cbn [SecureEnvelope.cipher with_cipher]. rewrite base64_encode_len.
    replace (len x') with 47 by lia. by vm_compute.
  - eapply changed_cipher_rejected; [exact HP|exact Hs|by vm_compute| |lia].
    intros E%(f_equal len). rewrite len_app in E. change (len [b]) with 1 in E. lia.
  - apply runs_open_invalid; [within HP|].
    eapply malformed_signature_rejected; [reflexivity|by right].
Qed.

Lemma oversize_passes :
  passes post_decrypt_oversize_and_unverified_plaintext_are_never_returned.
Proof.
  intros s. apply runs_peers; [ground..|]. intros P HP.
  apply runs_peers; [ground..|]. intros O HO. seal_step HP e He.
  apply runs_rejecting; [within_of HO HP| |intros ?].
  - eapply over_limit_rejected; [exact HP|exact HO|exact He|by vm_compute].
  - apply runs_open_invalid; [within HP|].
    eapply malformed_signature_rejected; [reflexivity|by left].
Qed.

(** ** Counting verifications *)

Lemma runs_counting {A B} (m : Test A) n (f : A -> Test B) s Q (R : A -> Prop) :
  (forall w, exists a, m (0, w) = (Ok a, (n, w)) /\ R a) ->
  (forall a s', R a -> runs (f a) s' Q) ->
  runs (counting m n ≫= f) s Q.
Proof.
  intros Hm Hf. destruct s as [c w]. destruct (Hm w) as (a & Ha & Hr).
  apply runs_bind with (fun x _ => x = a); [|by intros x s' ->; apply Hf].
  intros I. exists a, (0, w). split; [|done]. unfold counting, take_verify_calls, Cbc.take_verify_calls,
    lift, mret, io_ret, mbind, io_bind. rewrite Ha, Z.eqb_refl. done.
Qed.

(** An open whose session key unwraps counts one verification, and any other none. *)
Lemma open_call_one c k e ctx w :
  ClientConfig.envelope_mode c = EnvelopeMode.LegacyCbc ->
  (exists cipher sig key, Cbc.unwraps c k e cipher sig key) ->
  open_call c k e ctx (0, w) = (Ok (Envelope.open c k e ctx), (1, w)).
Proof.
  intros Em (x & y & z & Hu). unfold open_call, Envelope.open. rewrite Em.
  by rewrite (Cbc.open_after_unwrap _ _ _ _ _ _ _ _ Hu).
Qed.

Lemma open_call_none c k e ctx w :
  ClientConfig.envelope_mode c = EnvelopeMode.LegacyCbc ->
  ~ (exists cipher sig key, Cbc.unwraps c k e cipher sig key) ->
  open_call c k e ctx (0, w) = (Ok (Envelope.open c k e ctx), (0, w)).
Proof.
  intros Em Hn. unfold open_call, Envelope.open. rewrite Em.
  by destruct (Cbc.cbc_open_cases c k e ctx 0) as [?|Hf]; [|rewrite Hf].
Qed.

(** [assert_invalid_envelope(open(..))] in the middle of a count. *)
Lemma runs_counting_invalid {B} c k e ctx n (f : unit -> Test B) s Q :
  (forall w, open_call c k e ctx (0, w) = (Ok (Envelope.open c k e ctx), (n, w))) ->
  str_len (SecureEnvelope.cipher e) <= max_cipher_text c ->
  (forall p, Envelope.open c k e ctx <> Ok p) ->
  (forall s', runs (f tt) s' Q) ->
  runs (counting (open_invalid c k e ctx) n ≫= f) s Q.
Proof.
  intros Hc Hl Hn Hf. apply runs_counting with (fun _ => True); [|intros [] s' _; apply Hf].
  intros w. exists tt. split; [|done]. unfold open_invalid, mbind, io_bind. rewrite Hc.
  rewrite (open_within c k e ctx Hl); [done|].
  destruct (Envelope.open c k e ctx) as [p|]; [|done]. by destruct (Hn p).
Qed.

(** The receiver's key unwraps whatever carries the wrapped key of a sealed envelope. *)
Lemma receiver_verifies P max p ctx e key x wk sig t max' O x' sig' :
  peers_are LEGACY EnvelopeMode.LegacyCbc max P ->
  peers_are LEGACY EnvelopeMode.LegacyCbc max' O -> test_limit max' ->
  sealed_parts (sender_config P) (sender_keys P) p ctx e key x wk sig t ->
  len x' <= Cbc.padded_size max' -> len sig' <= 128 ->
  exists cipher sg ky, Cbc.unwraps (receiver_config O) (receiver_keys O)
    (SecureEnvelope.Build (base64_encode x') (base64_encode wk) (base64_encode sig'))
    cipher sg ky.
Proof.
  intros HP HO Hm [Ee Ek _ (w & w' & Hw) _ _] Hx Hs. exists x', sig', key, wk.
  pose proof (ci_max _ _ _ _ _ _ (pa_receiver _ _ _ _ HO)) as Em.
  pose proof (receiver_unwraps _ _ _ _ HP _ _ _ _ (pa_receiver_keys _ _ _ _ HO)) as Er.
  pose proof (sm2_encrypt_len _ _ _ _ _ Hw) as [_ Lw]. rewrite Er in Hw.
  split; [|split; [by eapply sm2_decrypt_encrypt|done]].
  unfold test_limit in Hm. change SM4_CCM_MAX_PLAINTEXT_BYTES with 16777215 in Hm.
  pose proof usize_max_bounds. pose_len. unfold Cbc.decoded. rewrite Em. cbn -[base64_encode str_len].
  rewrite !base64_decode_encode, !base64_encode_len, Cbc.padded_cipher_len_eq by lia.
  assert (Hb : Cbc.padded_size max' <= 16777232) by (unfold Cbc.padded_size; divlia).
  assert (0 <= Cbc.padded_size max') by lia.
  rewrite Z.min_l, base64_len_eq by lia. unfold base64_size, MAX_AUXILIARY_BASE64_BYTES.
  repeat split; try done; divlia.
Qed.

Lemma one_verification_passes :
  passes open_runs_exactly_one_verification_on_every_post_unwrap_path.
Proof.
  intros s. apply runs_peers; [ground..|]. intros P HP. seal_step HP e He.
  destruct (cbc_parts _ _ _ _ HP He) as (key & x & wk & sig & t & Hs & Ec & Hx).
  change (Cbc.padded_size (len (replicate 17 "x"%byte))) with 32 in Hx.
  pose proof (sp_envelope _ _ _ _ _ _ _ _ _ _ Hs) as Ee.
  assert (Lsig : len sig <= 128).
  { destruct (sp_signature _ _ _ _ _ _ _ _ _ _ Hs) as (w & w' & H). by apply sm2_sign_len in H as [_ ?]. }
  pose proof (pa_receiver _ _ _ _ HP) as Hr.
  assert (Ho : Envelope.open (receiver_config P) (receiver_keys P) e legacy_context
    = Ok (replicate 17 "x"%byte)).
  { eapply sealed_opens; [exact (peers_forward _ _ _ _ HP)|apply Hr| |by vm_compute|exact He].
    rewrite (ci_max _ _ _ _ _ _ Hr). by vm_compute. }
  (* The valid envelope. *)
  apply runs_counting with (fun _ => True); [|intros _ ? _].
  { intros w. exists (replicate 17 "x"%byte). split; [|done].
    unfold receiver_opens, expecting, mbind, io_bind. rewrite open_call_one, Ho; [done|apply Hr|].
    rewrite Ee. eapply receiver_verifies; [exact HP|exact HP|ground|exact Hs|by rewrite Hx|done]. }
  (* Invalid padding. *)
  eapply runs_bad_padding; [exact Ec|lia|]. intros x' Hn Hl.
  apply runs_counting_invalid; [|eapply text_within; [exact Hr|ground|]; cbn [SecureEnvelope.cipher with_cipher]; rewrite base64_encode_len, Hl, Hx; by vm_compute| |intros ?].
  { intros w. apply open_call_one; [apply Hr|]. rewrite Ee.
    eapply receiver_verifies; [exact HP|exact HP|ground|exact Hs|by rewrite Hl, Hx|done]. }
  { eapply changed_cipher_rejected; [exact HP|exact Hs|by vm_compute|done|lia]. }
  (* A plaintext over the limit of the opening client. *)
  apply runs_peers; [ground..|]. intros O HO.
  apply runs_counting_invalid; [|within_of HO HP| |intros ?].
  { intros w. apply open_call_one; [apply (pa_receiver _ _ _ _ HO)|]. rewrite Ee.
    eapply receiver_verifies; [exact HP|exact HO|ground|exact Hs|by rewrite Hx|done]. }
  { eapply over_limit_rejected; [exact HP|exact HO|exact He|by vm_compute]. }
  (* A bad signature. *)
  eapply runs_tampered_signature; [exact He|]. intros sg b Eb.
  apply runs_counting_invalid; [|within HP|by eapply flipped_signature_rejected|intros ?].
  { intros w. apply open_call_one; [apply Hr|]. rewrite Ee in Eb |- *. cbn in Eb.
    apply (f_equal base64_decode) in Eb. rewrite !base64_decode_encode in Eb. injection Eb as ->.
    eapply receiver_verifies; [exact HP|exact HP|ground|exact Hs|by rewrite Hx|len_solve]. }
  (* A wrapped key that does not unwrap. *)
  apply runs_last.
  apply runs_counting_invalid; [|within HP|by eapply not_der_rejected|intros ?; by apply runs_ret].
  intros w. apply open_call_none; [apply Hr|].
  intros (c & sg' & ky & wk' & (_ & _ & _ & _ & _ & Hw & _) & Hd & _).
  cbn in Hw. rewrite base64_decode_encode in Hw. injection Hw as <-.
  by apply sm2_decrypt_der in Hd.
Qed.

Lemma signed_cleartext_passes :
  passes a_signed_cleartext_placed_in_cipher_reaches_verify_yet_is_rejected.
Proof.
  intros s. apply runs_peers; [ground..|]. intros P HP.
  eapply runs_lift_bind; [by vm_compute|]. seal_step HP e He.
  destruct (cbc_parts _ _ _ _ HP He) as (key & x & wk & sig & t & Hs & Ec & Hx).
  pose proof (sp_envelope _ _ _ _ _ _ _ _ _ _ Hs) as Ee.
  pose proof (pa_receiver _ _ _ _ HP) as Hr.
  set (signed := bytes_lit "a legitimately signed plaintext, replayed as cleartext") in *.
  set (c := with_cipher e (base64_encode signed)).
  assert (Hi : Envelope.open (receiver_config P) (receiver_keys P) c legacy_context
    = Err Error.InvalidEnvelope).
  { apply open_within.
    - eapply text_within; [exact Hr|ground|]. cbn [c SecureEnvelope.cipher with_cipher].
      rewrite base64_encode_len. by vm_compute.
    - destruct (Envelope.open _ _ _ _) as [p|] eqn:Ho; [|done].
      exfalso. revert Ho. eapply changed_cipher_rejected; [exact HP|exact Hs|by vm_compute| |by vm_compute].
      intros E. rewrite <- E in Hx. by vm_compute in Hx. }
  apply runs_counting with (fun r => r = Err Error.InvalidEnvelope).
  - intros w. exists (Envelope.open (receiver_config P) (receiver_keys P) c legacy_context).
    split; [|exact Hi]. apply open_call_one; [apply Hr|]. unfold c. rewrite Ee.
    eapply receiver_verifies; [exact HP|exact HP|ground|exact Hs|by vm_compute|].
    destruct (sp_signature _ _ _ _ _ _ _ _ _ _ Hs) as (w0 & w1 & H). by apply sm2_sign_len in H as [_ ?].
  - intros r ? ->. by eapply runs_lift.
Qed.

End sound.

(** The CBC suite passes: the round trips hold at every swept length, every altered
    envelope is [InvalidEnvelope], and each open after a successful unwrap makes
    exactly one verification. *)
Lemma cbc_suite_passes `{Sys : System} `{Ar : Arch} `{B64 : Base64} `{Cr : !Crypto}
    `{Kt : !KeyTooling Cr} `{!SystemLaws Sys} `{!Base64Laws B64} `{!CryptoLaws Cr}
    `{!KeyToolingLaws Cr Kt} `{!RejectionLaws B64 Cr} `{Hh : !Health} :
  available Cr -> Forall passes suite.
Proof.
  intros Av. unfold suite. repeat constructor.
  - by apply legacy_round_trip_passes.
  - by apply context_bound_round_trip_passes.
  - by apply unicode_passes.
  - by apply domain_separator_passes.
  - by apply empty_passes.
  - by apply sweep_passes.
  - by apply seal_limit_passes.
  - by apply oversized_passes.
  - by apply invalid_base64_passes.
  - by apply canonical_base64_passes.
  - by apply malformed_key_passes.
  - by apply wrong_decryption_passes.
  - by apply padding_tampering_passes.
  - by apply truncation_passes.
  - by apply signature_tampering_passes.
  - by apply oversized_fields_pass.
  - by apply boundary_passes.
  - by apply oversize_passes.
  - by apply one_verification_passes.
  - by apply signed_cleartext_passes.
Qed.

End CbcTests.
