(* ===== verification/AeadTests.v ===== *)
(** * The AEAD test suite (src/envelope_crypto/aead.rs, [mod tests])

    The unit tests of the SM4-GCM and SM4-CCM modes.  The source writes most tests
    twice, once per algorithm; here each pair shares a body with the algorithm and
    the constants that differ as parameters, and every test of the source is one
    definition.  The suite passes for every implementation of the primitives with the
    stated laws, the tag idealised.  The two tests about fresh session keys and nonces are left
    out: they pass with overwhelming probability, not always. *)

From S2P Require Import Prelude.
From S2P Require Import Rust.
From S2P Require Import Text.
From S2P Require Import System.
From S2P Require Import Error.
From S2P Require Import Auth.
From S2P Require Import ClientConfig.
From S2P Require Import External.
From S2P Require Import Keys.
From S2P Require Import Message.
From S2P Require Import EnvelopeBase.
From S2P Require Import Cbc.
From S2P Require Import Aead.
From S2P Require Import Envelope.
From S2P Require Import TestSupport.
From S2P Require Import TestReasoning.
From S2P Require Import CbcTests.

(** [bytes[i] = value], [bytes.pop()], [bytes.truncate(n)] and [bytes[a..b]]. *)
Definition set_at (bytes : list byte) (i : nat) (value : byte) : Panics (list byte) :=
  _ ← index bytes i; Ok (<[i := value]> bytes).
Definition pop (bytes : list byte) : list byte := removelast bytes.
Definition truncate (bytes : list byte) (n : Z) : list byte := take (Z.to_nat n) bytes.
Definition slice (bytes : list byte) (a b : Z) : Panics (list byte) :=
  if (a <=? b) && (b <=? len bytes)
  then Ok (take (Z.to_nat (b - a)) (drop (Z.to_nat a) bytes))
  else Err "range out of bounds"%string.

Module AeadTests.
Section tests.
Context `{Sys : System} `{Ar : Arch} `{B64 : Base64} `{Cr : !Crypto} `{Kt : !KeyTooling Cr}.
Implicit Types (algorithm : AeadAlgorithm.t) (peers : Peers).

Definition FRAME_HEADER_BYTES : Z := 14.
Definition FRAME_OVERHEAD_BYTES : Z := 30.
Definition TAG_BYTES : Z := 16.

Definition assert_len (bytes : list byte) (expected : Z) : Test unit :=
  lift (assert (len bytes =? expected) "assertion `left == right` failed").
Definition assert_byte (bytes : list byte) (i : nat) (expected : byte) : Test unit :=
  b ← lift (index bytes i);
  lift (assert (bool_decide (b = expected)) "assertion `left == right` failed").

(** The elements of an array whose initialisers may panic. *)
Fixpoint collect {A} (l : list (Test A)) : Test (list A) :=
  match l with
  | [] => mret []
  | m :: l => x ← m; xs ← collect l; mret (x :: xs)
  end.

(** ** Round trips *)

Definition round_trips_in_both_directions algorithm (request response : list byte) : Test unit :=
  peers ← lift (aead_peers_with LEGACY 256 algorithm);
  envelope ← sender_seals peers "sender seals" request legacy_context;
  frame ← decode_expect "cipher Base64" (SecureEnvelope.cipher envelope);
  _ ← assert_len frame (len request + FRAME_OVERHEAD_BYTES);
  _ ← assert_byte frame 0 x01;
  _ ← assert_byte frame 1
        (match algorithm with AeadAlgorithm.Sm4Gcm => x01 | AeadAlgorithm.Sm4Ccm => x02 end);
  opened ← receiver_opens peers "receiver opens" envelope legacy_context;
  _ ← assert_bytes opened request;
  reply ← expecting "receiver seals"
    (seal_call (receiver_config peers) (receiver_keys peers) response legacy_context);
  opened ← expecting "sender opens"
    (open_call (sender_config peers) (sender_keys peers) reply legacy_context);
  assert_bytes opened response.

Definition aead_round_trips_in_both_directions_with_distinct_roles : Test unit :=
  round_trips_in_both_directions AeadAlgorithm.Sm4Gcm
    (bytes_lit "aead request payload " ++ [x00] ++ bytes_lit " with binary bytes")
    (bytes_lit "aead response uses inverse directional roles").
Definition ccm_round_trips_in_both_directions_with_distinct_roles : Test unit :=
  round_trips_in_both_directions AeadAlgorithm.Sm4Ccm
    (bytes_lit "ccm request payload " ++ [x00] ++ bytes_lit " with binary bytes")
    (bytes_lit "ccm response uses inverse directional roles").

Definition context_bound_round_trip algorithm (domain payload : string) : Test unit :=
  mode ← lift (bound_mode domain);
  peers ← lift (aead_peers_with mode 256 algorithm);
  context ← lift (bound_context "operation=pay&id=17");
  envelope ← sender_seals peers "seal context-bound payload" (bytes_lit payload) context;
  opened ← receiver_opens peers "matching context opens" envelope context;
  _ ← assert_bytes opened (bytes_lit payload);
  different ← lift (bound_context "operation=pay&id=18");
  _ ← receiver_rejects peers envelope different;
  _ ← receiver_rejects peers envelope legacy_context;
  seal_error ← seal_call (sender_config peers) (sender_keys peers)
                 (bytes_lit "wrong context kind") legacy_context;
  lift (assert (match seal_error with Err Error.AuthenticationContext => true | _ => false end)
          "outbound context mismatch must be specific").

Definition aead_context_bound_round_trip_rejects_wrong_or_mismatched_contexts : Test unit :=
  context_bound_round_trip AeadAlgorithm.Sm4Gcm "example/aead/v1" "context-bound aead payload".
Definition ccm_context_bound_round_trip_rejects_wrong_or_mismatched_contexts : Test unit :=
  context_bound_round_trip AeadAlgorithm.Sm4Ccm "example/ccm/v1" "context-bound ccm payload".

Definition round_trips_boundaries algorithm : Test unit :=
  peers ← lift (aead_peers_with LEGACY 64 algorithm);
  for_each [[]; replicate 64 xa5; unicode_plaintext]
    (round_trip peers legacy_context "seal boundary payload" "open boundary payload").

Definition aead_round_trips_empty_boundary_and_unicode_plaintext : Test unit :=
  round_trips_boundaries AeadAlgorithm.Sm4Gcm.
Definition ccm_round_trips_empty_boundary_and_unicode_plaintext : Test unit :=
  round_trips_boundaries AeadAlgorithm.Sm4Ccm.

Definition LENGTHS : list Z :=
  [0; 1; 2; 3; 4; 5; 15; 16; 17; 31; 32; 33; 63; 64; 65; 255; 256; 257; 1023; 1024; 1025].

Definition length_sweep algorithm (domain : string) : Test unit :=
  mode ← lift (bound_mode domain);
  context ← lift (bound_context "operation=sweep");
  for_each [(LEGACY, legacy_context); (mode, context)] (fun '(mode, context) =>
    peers ← lift (aead_peers_with mode 2048 algorithm);
    for_each LENGTHS (fun length =>
      let plaintext := sweep_plaintext length in
      envelope ← sender_seals peers "seal bytes" plaintext context;
      framed ← decode_expect "framed cipher is Base64" (SecureEnvelope.cipher envelope);
      _ ← assert_len framed (length + FRAME_OVERHEAD_BYTES);
      opened ← receiver_opens peers "open bytes" envelope context;
      assert_bytes opened plaintext)).

Definition aead_plaintext_length_sweep_round_trips_across_frame_and_base64_boundaries :
    Test unit :=
  length_sweep AeadAlgorithm.Sm4Gcm "example/aead-sweep/v1".
Definition ccm_plaintext_length_sweep_round_trips_across_frame_and_base64_boundaries :
    Test unit :=
  length_sweep AeadAlgorithm.Sm4Ccm "example/ccm-sweep/v1".

Definition seal_rejects_over_limit algorithm : Test unit :=
  peers ← lift (aead_peers_with LEGACY 8 algorithm);
  error ← seal_call (sender_config peers) (sender_keys peers) (bytes_lit "123456789")
            legacy_context;
  lift (assert (is_message_too_large 8 error)
          "assertion failed: matches!(error, Error::MessageTooLarge { limit: 8 })").

Definition aead_seal_rejects_plaintext_over_the_configured_limit : Test unit :=
  seal_rejects_over_limit AeadAlgorithm.Sm4Gcm.
Definition ccm_seal_rejects_plaintext_over_the_configured_limit : Test unit :=
  seal_rejects_over_limit AeadAlgorithm.Sm4Ccm.

(** ** The negative matrix *)

Definition valid_envelope peers : Test SecureEnvelope.t :=
  sender_seals peers "seal valid AEAD envelope" (bytes_lit "aead negative-matrix payload")
    legacy_context.
Definition valid_ccm_envelope peers : Test SecureEnvelope.t :=
  sender_seals peers "seal valid CCM envelope" (bytes_lit "ccm negative-matrix payload")
    legacy_context.

(** The valid envelope of an algorithm's negative tests. *)
Definition negative_envelope algorithm peers : Test SecureEnvelope.t :=
  match algorithm with
  | AeadAlgorithm.Sm4Gcm => valid_envelope peers
  | AeadAlgorithm.Sm4Ccm => valid_ccm_envelope peers
  end.

Definition with_mutated_frame (valid : SecureEnvelope.t)
    (mutate : list byte -> Panics (list byte)) : Test SecureEnvelope.t :=
  frame ← decode_expect "cipher Base64" (SecureEnvelope.cipher valid);
  frame ← lift (mutate frame);
  mret (with_cipher valid (base64_encode frame)).

Definition literal_aad (label frame_header domain_separator protocol_context : list byte) :
    Panics (list byte) :=
  label_len ← expect "label length fits u64" (ok_or (u64_try_from (len label)) tt);
  header_len ← expect "header length fits u64" (ok_or (u64_try_from (len frame_header)) tt);
  domain_len ← expect "domain length fits u64" (ok_or (u64_try_from (len domain_separator)) tt);
  context_len ← expect "context length fits u64"
                  (ok_or (u64_try_from (len protocol_context)) tt);
  Ok (u64_to_be_bytes label_len ++ label ++ u64_to_be_bytes header_len ++ frame_header
      ++ u64_to_be_bytes domain_len ++ domain_separator
      ++ u64_to_be_bytes context_len ++ protocol_context).

Definition rejects_ids algorithm (other_algorithm : byte) : Test unit :=
  peers ← lift (aead_peers_with LEGACY 128 algorithm);
  valid ← negative_envelope algorithm peers;
  mutated ← collect
    [with_mutated_frame valid (fun frame => xor_at frame 0 0x01);
     with_mutated_frame valid (fun frame => set_at frame 0 x02);
     with_mutated_frame valid (fun frame => set_at frame 1 other_algorithm);
     with_mutated_frame valid (fun frame => set_at frame 1 x7f)];
  for_each mutated (fun mutated => receiver_rejects peers mutated legacy_context).

Definition aead_gcm_rejects_wrong_version_and_non_gcm_algorithm_ids : Test unit :=
  rejects_ids AeadAlgorithm.Sm4Gcm x02.
Definition ccm_rejects_wrong_version_and_non_ccm_algorithm_ids : Test unit :=
  rejects_ids AeadAlgorithm.Sm4Ccm x01.

Definition rejects_short_frames algorithm (algorithm_id : byte) : Test unit :=
  peers ← lift (aead_peers_with LEGACY 128 algorithm);
  valid ← negative_envelope algorithm peers;
  floor_minus_one ← lift (set_at (replicate 29 x00) 0 x01);
  floor_minus_one ← lift (set_at floor_minus_one 1 algorithm_id);
  mutated ← collect
    [mret (with_cipher valid (base64_encode floor_minus_one));
     mret (with_cipher valid []);
     with_mutated_frame valid (fun frame => Ok (pop frame));
     with_mutated_frame valid (fun frame => Ok (truncate frame FRAME_HEADER_BYTES))];
  for_each mutated (fun mutated => receiver_rejects peers mutated legacy_context).

Definition aead_short_and_truncated_frames_are_rejected : Test unit :=
  rejects_short_frames AeadAlgorithm.Sm4Gcm x01.
Definition ccm_short_and_truncated_frames_are_rejected : Test unit :=
  rejects_short_frames AeadAlgorithm.Sm4Ccm x02.

Definition rejects_tampering algorithm : Test unit :=
  peers ← lift (aead_peers_with LEGACY 128 algorithm);
  valid ← negative_envelope algorithm peers;
  mutated ← collect
    [with_mutated_frame valid (fun frame => xor_at frame 2 0x01);
     with_mutated_frame valid (fun frame => xor_at frame (Z.to_nat FRAME_HEADER_BYTES) 0x01);
     with_mutated_frame valid (fun frame =>
       ciphertext_len ← usize_sub (len frame) FRAME_OVERHEAD_BYTES;
       let middle := FRAME_HEADER_BYTES + ciphertext_len / 2 in
       xor_at frame (Z.to_nat middle) 0x01);
     with_mutated_frame valid (fun frame =>
       tag_start ← usize_sub (len frame) TAG_BYTES;
       last_ciphertext ← usize_sub tag_start 1;
       xor_at frame (Z.to_nat last_ciphertext) 0x01);
     with_mutated_frame valid (fun frame =>
       last ← usize_sub (len frame) 1;
       xor_at frame (Z.to_nat last) 0x01);
     with_mutated_frame valid (fun frame =>
       tag_start ← usize_sub (len frame) 16;
       Ok (truncate frame tag_start ++ replicate 16 x00))];
  for_each mutated (fun mutated => receiver_rejects peers mutated legacy_context).

Definition aead_nonce_ciphertext_and_tag_tampering_are_indistinguishable : Test unit :=
  rejects_tampering AeadAlgorithm.Sm4Gcm.
Definition ccm_nonce_ciphertext_and_tag_tampering_are_indistinguishable : Test unit :=
  rejects_tampering AeadAlgorithm.Sm4Ccm.

Definition rejects_other_domain algorithm (payload : string) : Test unit :=
  sender_mode ← lift (bound_mode "example/request/v1");
  receiver_mode ← lift (bound_mode "example/response/v1");
  peers ← lift (aead_peers_with sender_mode 256 algorithm);
  mismatched_receiver_config ← lift (aead_config "receiver" RECEIVER_SIGNER_ID SENDER_SIGNER_ID
                                       receiver_mode 256 algorithm);
  context ← lift (bound_context "operation=pay&id=17");
  envelope ← sender_seals peers "seal with sender domain" (bytes_lit payload) context;
  open_invalid mismatched_receiver_config (receiver_keys peers) envelope context.

Definition aead_domain_separator_and_context_are_covered_by_the_aad : Test unit :=
  rejects_other_domain AeadAlgorithm.Sm4Gcm "domain-separated aead payload".
Definition ccm_domain_separator_and_context_are_covered_by_the_aad : Test unit :=
  rejects_other_domain AeadAlgorithm.Sm4Ccm "domain-separated ccm payload".

(** ** What the tag binds *)

(** The primitive as the tests call it: [mode_gcm::decrypt] on the two slices, and
    [mode_ccm::decrypt] on their concatenation. *)
Definition primitive_decrypt algorithm (key nonce aad ciphertext tag : list byte) :
    option (list byte) :=
  match algorithm with
  | AeadAlgorithm.Sm4Gcm => gcm_decrypt key nonce aad ciphertext tag
  | AeadAlgorithm.Sm4Ccm => ccm_decrypt key nonce aad (ciphertext ++ tag) 16
  end.

Definition AAD_LABEL : list byte := bytes_lit "gmcrypto-envelope-lite/aead-aad/v1".
Definition DOMAIN : list byte := bytes_lit "example/request/v1".
Definition CONTEXT : list byte := bytes_lit "operation=pay&id=17".

Definition tag_binds_aad algorithm (algorithm_id : byte) (plaintext : list byte) : Test unit :=
  mode ← lift (bound_mode "example/request/v1");
  peers ← lift (aead_peers_with mode 256 algorithm);
  context ← lift (bound_context "operation=pay&id=17");
  envelope ← sender_seals peers "seal context-bound envelope" plaintext context;
  let untouched_envelope := envelope in
  wrapped_session_key ← decode_expect "wrapped key Base64"
                          (SecureEnvelope.wrapped_session_key envelope);
  receiver_private ← lift (raw_private_key RECEIVER_DECRYPTION);
  session_key ← lift (expect "unwrap session key"
                        (ok_or (sm2_decrypt receiver_private wrapped_session_key) tt));
  _ ← lift (assert (len session_key =? 16) "16-byte session key");
  frame ← decode_expect "cipher Base64" (SecureEnvelope.cipher envelope);
  _ ← assert_len frame (FRAME_OVERHEAD_BYTES + len plaintext);
  frame_header ← lift (slice frame 0 FRAME_HEADER_BYTES);
  _ ← assert_byte frame_header 0 x01;
  _ ← assert_byte frame_header 1 algorithm_id;
  ciphertext_end ← lift (usize_sub (len frame) TAG_BYTES);
  ciphertext ← lift (slice frame FRAME_HEADER_BYTES ciphertext_end);
  tag ← lift (slice frame ciphertext_end (len frame));
  nonce ← lift (slice frame_header 2 FRAME_HEADER_BYTES);
  expected_aad ← lift (literal_aad AAD_LABEL frame_header DOMAIN CONTEXT);
  opened ← lift (expect "literal four-field AAD verifies the sealed tag"
                   (ok_or (primitive_decrypt algorithm session_key nonce expected_aad ciphertext
                             tag) tt));
  _ ← assert_bytes opened plaintext;
  different_header ← lift (xor_at frame_header 0 0x01);
  different ← collect
    [lift (literal_aad (bytes_lit "gmcrypto-envelope-lite/aead-aad/v2") frame_header DOMAIN
             CONTEXT);
     lift (literal_aad AAD_LABEL different_header DOMAIN CONTEXT);
     lift (literal_aad AAD_LABEL frame_header (bytes_lit "example/response/v1") CONTEXT);
     lift (literal_aad AAD_LABEL frame_header DOMAIN (bytes_lit "operation=pay&id=18"))];
  _ ← for_each different (fun different_aad =>
    lift (assert (negb (is_some (primitive_decrypt algorithm session_key nonce different_aad
                                   ciphertext tag)))
            "changing the field must fail primitive tag verification"));
  lift (assert (bool_decide (envelope = untouched_envelope))
          "AAD-only mutations must not alter the sealed envelope or its signature").

Definition aead_seal_gcm_tag_binds_literal_label_header_domain_and_context : Test unit :=
  tag_binds_aad AeadAlgorithm.Sm4Gcm x01 (bytes_lit "independently verified GCM AAD").
Definition ccm_seal_tag_binds_literal_label_header_domain_and_context : Test unit :=
  tag_binds_aad AeadAlgorithm.Sm4Ccm x02 (bytes_lit "independently verified CCM AAD").

(** ** Bounds and the other fields *)

Definition oversized_ciphers algorithm : Test unit :=
  peers ← lift (aead_peers_with LEGACY 17 algorithm);
  let encoded_too_large :=
    SecureEnvelope.Build (repeat_char 33 65) (lit "not Base64") (lit "not Base64") in
  encoded_error ← open_call (receiver_config peers) (receiver_keys peers) encoded_too_large
                    legacy_context;
  _ ← lift (assert (is_message_too_large 17 encoded_error)
              "assertion failed: matches!(encoded_error, ..)");
  sealing_peers ← lift (aead_peers_with LEGACY 18 algorithm);
  valid ← sender_seals sealing_peers "seal valid 18-byte payload" (replicate 18 x7a)
            legacy_context;
  decoded_frame ← decode_expect "cipher Base64" (SecureEnvelope.cipher valid);
  _ ← assert_len decoded_frame 48;
  _ ← lift (assert (str_len (SecureEnvelope.cipher valid) =? 64)
              "assertion `left == right` failed");
  receiver_rejects peers (with_cipher valid (base64_encode decoded_frame)) legacy_context.

Definition aead_oversized_encoded_and_decoded_ciphers_split_the_public_bounds : Test unit :=
  oversized_ciphers AeadAlgorithm.Sm4Gcm.
Definition ccm_oversized_encoded_and_decoded_ciphers_split_the_public_bounds : Test unit :=
  oversized_ciphers AeadAlgorithm.Sm4Ccm.

Definition field_and_key_failures algorithm : Test unit :=
  peers ← lift (aead_peers_with LEGACY 128 algorithm);
  valid ← negative_envelope algorithm peers;
  let malformed_wrapped :=
    with_wrapped_session_key valid (base64_encode (bytes_lit "not SM2 DER")) in
  wrapped ← wrapped_plaintext_for_receiver (bytes_lit "not-16-bytes");
  let wrong_length_wrapped := with_wrapped_session_key valid wrapped in
  tampered_signature ← tampered_signature_of valid;
  _ ← for_each
    [malformed_wrapped; wrong_length_wrapped; tampered_signature;
     with_cipher valid (lit "AA"); with_wrapped_session_key valid (lit "!!!!");
     with_signature valid (lit "!!!!")]
    (fun mutated => receiver_rejects peers mutated legacy_context);
  wrong_decryption ← lift (key_material RECEIVER_SIGNING UNRELATED_KEY SENDER_SIGNING
                             SENDER_DECRYPTION);
  _ ← open_invalid (receiver_config peers) wrong_decryption valid legacy_context;
  wrong_verification ← lift (key_material RECEIVER_SIGNING RECEIVER_DECRYPTION UNRELATED_KEY
                               SENDER_DECRYPTION);
  open_invalid (receiver_config peers) wrong_verification valid legacy_context.

Definition aead_wrapped_key_signature_and_wrong_key_failures_match_cbc_semantics : Test unit :=
  field_and_key_failures AeadAlgorithm.Sm4Gcm.
Definition ccm_wrapped_key_signature_and_wrong_key_failures_match_cbc_semantics : Test unit :=
  field_and_key_failures AeadAlgorithm.Sm4Ccm.

(** ** Clients of different modes *)

(** What the first peers seal the second reject, and the converse. *)
Definition reject_each_other (first second : Panics Peers) (first_msg second_msg : string)
    (first_payload second_payload : string) : Test unit :=
  first ← lift first;
  second ← lift second;
  first_envelope ← sender_seals first first_msg (bytes_lit first_payload) legacy_context;
  _ ← receiver_rejects second first_envelope legacy_context;
  second_envelope ← sender_seals second second_msg (bytes_lit second_payload) legacy_context;
  receiver_rejects first second_envelope legacy_context.

Definition aead_and_cbc_clients_reject_each_other_s_envelopes : Test unit :=
  reject_each_other (peers LEGACY 128) (aead_peers LEGACY 128) "CBC seal" "AEAD seal"
    "cbc payload" "aead payload".
Definition ccm_and_gcm_clients_reject_each_other_s_envelopes : Test unit :=
  reject_each_other (aead_peers LEGACY 128) (ccm_peers LEGACY 128) "GCM seal" "CCM seal"
    "gcm payload" "ccm payload".
Definition ccm_and_cbc_clients_reject_each_other_s_envelopes : Test unit :=
  reject_each_other (peers LEGACY 128) (ccm_peers LEGACY 128) "CBC seal" "CCM seal"
    "cbc payload" "ccm payload".

(** ** The ceiling of CCM *)

Definition ccm_client_at_the_nonce_ceiling_still_round_trips_a_small_payload : Test unit :=
  peers ← lift (ccm_peers LEGACY SM4_CCM_MAX_PLAINTEXT_BYTES);
  _ ← lift (assert (ClientConfig.max_plaintext_bytes (sender_config peers)
                      =? SM4_CCM_MAX_PLAINTEXT_BYTES) "assertion `left == right` failed");
  round_trip peers legacy_context "ceiling-configured client seals"
    "ceiling-configured client opens" (bytes_lit "under the q=3 ceiling").

Definition ccm_seals_exactly_the_12_byte_nonce_ceiling : Test unit :=
  peers ← lift (ccm_peers LEGACY SM4_CCM_MAX_PLAINTEXT_BYTES);
  round_trip peers legacy_context "ceiling plaintext seals" "ceiling plaintext opens"
    (replicate (Z.to_nat SM4_CCM_MAX_PLAINTEXT_BYTES) x5a).

Definition ccm_primitive_rejects_plaintext_above_the_12_byte_nonce_ceiling : Test unit :=
  let over := replicate (Z.to_nat (SM4_CCM_MAX_PLAINTEXT_BYTES + 1)) x00 in
  lift (assert (negb (is_some (ccm_encrypt (replicate 16 x42) (replicate 12 x00) [] over 16)))
          "q=3 must reject 16 MiB plaintext before encrypting").

(** The suite. *)
Definition suite : list (Test unit) :=
  [aead_round_trips_in_both_directions_with_distinct_roles;
   aead_context_bound_round_trip_rejects_wrong_or_mismatched_contexts;
   aead_round_trips_empty_boundary_and_unicode_plaintext;
   aead_plaintext_length_sweep_round_trips_across_frame_and_base64_boundaries;
   aead_seal_rejects_plaintext_over_the_configured_limit;
   aead_gcm_rejects_wrong_version_and_non_gcm_algorithm_ids;
   aead_short_and_truncated_frames_are_rejected;
   aead_nonce_ciphertext_and_tag_tampering_are_indistinguishable;
   aead_domain_separator_and_context_are_covered_by_the_aad;
   aead_seal_gcm_tag_binds_literal_label_header_domain_and_context;
   ccm_seal_tag_binds_literal_label_header_domain_and_context;
   aead_oversized_encoded_and_decoded_ciphers_split_the_public_bounds;
   aead_wrapped_key_signature_and_wrong_key_failures_match_cbc_semantics;
   aead_and_cbc_clients_reject_each_other_s_envelopes;
   ccm_round_trips_in_both_directions_with_distinct_roles;
   ccm_context_bound_round_trip_rejects_wrong_or_mismatched_contexts;
   ccm_round_trips_empty_boundary_and_unicode_plaintext;
   ccm_plaintext_length_sweep_round_trips_across_frame_and_base64_boundaries;
   ccm_seal_rejects_plaintext_over_the_configured_limit;
   ccm_client_at_the_nonce_ceiling_still_round_trips_a_small_payload;
   ccm_seals_exactly_the_12_byte_nonce_ceiling;
   ccm_primitive_rejects_plaintext_above_the_12_byte_nonce_ceiling;
   ccm_rejects_wrong_version_and_non_ccm_algorithm_ids;
   ccm_short_and_truncated_frames_are_rejected;
   ccm_nonce_ciphertext_and_tag_tampering_are_indistinguishable;
   ccm_domain_separator_and_context_are_covered_by_the_aad;
   ccm_oversized_encoded_and_decoded_ciphers_split_the_public_bounds;
   ccm_wrapped_key_signature_and_wrong_key_failures_match_cbc_semantics;
   ccm_and_gcm_clients_reject_each_other_s_envelopes;
   ccm_and_cbc_clients_reject_each_other_s_envelopes].

End tests.

(** ** What the AEAD primitives reject

    A ciphertext decrypts only to what encrypts to it; under a 12-byte nonce the key
    stream of a block or more determines the nonce; CCM refuses what its length field
    cannot hold.  The tag is idealised: it covers each byte of the additional data and
    its length, and is never all zero. *)
Class AeadRejectionLaws `{System} (C : Crypto) : Prop := {
  gcm_decrypt_strict k n a c t p :
    gcm_decrypt k n a c t = Some p -> gcm_encrypt k n a p = Some (c, t);
  gcm_nonce k n n' a a' p c t t' :
    len n = 12 -> len n' = 12 -> 16 <= len p ->
    gcm_encrypt k n a p = Some (c, t) -> gcm_encrypt k n' a' p = Some (c, t') -> n' = n;
  gcm_tag_nonzero k n a p c t : gcm_encrypt k n a p = Some (c, t) -> t <> replicate 16 x00;
  gcm_aad_byte k n x b b' y p c t :
    b' <> b -> gcm_encrypt k n (x ++ b :: y) p = Some (c, t) ->
    gcm_decrypt k n (x ++ b' :: y) c t = None;
  gcm_aad_len k n a a' p c t :
    len a <= 255 -> len a' <= 255 -> len a' <> len a ->
    gcm_encrypt k n a p = Some (c, t) -> gcm_decrypt k n a' c t = None;
  ccm_decrypt_strict k n a j p :
    ccm_decrypt k n a j 16 = Some p -> ccm_encrypt k n a p 16 = Some j;
  ccm_nonce k n n' a a' p c t t' :
    len n = 12 -> len n' = 12 -> 16 <= len p -> len t = 16 -> len t' = 16 ->
    ccm_encrypt k n a p 16 = Some (c ++ t) -> ccm_encrypt k n' a' p 16 = Some (c ++ t') -> n' = n;
  ccm_tag_nonzero k n a p c t :
    len t = 16 -> ccm_encrypt k n a p 16 = Some (c ++ t) -> t <> replicate 16 x00;
  ccm_aad_byte k n x b b' y p j :
    b' <> b -> ccm_encrypt k n (x ++ b :: y) p 16 = Some j ->
    ccm_decrypt k n (x ++ b' :: y) j 16 = None;
  ccm_aad_len k n a a' p j :
    len a <= 255 -> len a' <= 255 -> len a' <> len a ->
    ccm_encrypt k n a p 16 = Some j -> ccm_decrypt k n a' j 16 = None;
  ccm_ceiling k n a p :
    len n = 12 -> SM4_CCM_MAX_PLAINTEXT_BYTES < len p -> ccm_encrypt k n a p 16 = None;
}.

(** ** The laws for either algorithm *)

Section laws.
Context `{Sys : System} `{Cr : !Crypto} `{Cl : !CryptoLaws Cr} `{Al : !AeadRejectionLaws Cr}.
Implicit Types alg : AeadAlgorithm.t.

Lemma aead_decrypt_primitive alg key nonce aad ct tag :
  Aead.aead_decrypt alg key nonce aad ct tag
  = ok_or (primitive_decrypt alg key nonce aad ct tag) Error.InvalidEnvelope.
Proof. by destruct alg. Qed.

(** An encryption by either algorithm as one of its primitive. *)
Lemma ccm_encrypt_join key nonce aad p ct tag :
  Aead.aead_encrypt AeadAlgorithm.Sm4Ccm key nonce aad p = Ok (ct, tag) <->
  ccm_encrypt key nonce aad p 16 = Some (ct ++ tag) /\ len tag = 16.
Proof.
  cbn. rewrite bind_Ok. setoid_rewrite ok_or_Ok. split.
  - intros (j & Hj & [-> ?]%Aead.split_ciphertext_and_tag_Some). done.
  - intros [Hj Ht]. exists (ct ++ tag). split; [done|].
    by apply Aead.split_ciphertext_and_tag_Some.
Qed.

Lemma aead_strict alg key nonce aad ct tag p :
  len tag = 16 -> Aead.aead_decrypt alg key nonce aad ct tag = Ok p ->
  Aead.aead_encrypt alg key nonce aad p = Ok (ct, tag).
Proof.
  intros Ht. destruct alg; cbn; intros H%ok_or_Ok.
  - apply ok_or_Ok. by apply gcm_decrypt_strict.
  - apply ccm_encrypt_join. split; [by apply ccm_decrypt_strict|done].
Qed.

Lemma aead_nonce alg key n n' aad aad' p ct tag tag' :
  len n = 12 -> len n' = 12 -> 16 <= len p ->
  Aead.aead_encrypt alg key n aad p = Ok (ct, tag) ->
  Aead.aead_encrypt alg key n' aad' p = Ok (ct, tag') -> n' = n.
Proof.
  intros Hn Hn' Hp. destruct alg.
  - cbn. intros H%ok_or_Ok H'%ok_or_Ok. by eapply gcm_nonce.
  - intros [H Ht]%ccm_encrypt_join [H' Ht']%ccm_encrypt_join. by apply (ccm_nonce key n n' aad aad' p ct tag tag').
Qed.

Lemma aead_tag_nonzero alg key n aad p ct tag :
  Aead.aead_encrypt alg key n aad p = Ok (ct, tag) -> tag <> replicate 16 x00.
Proof.
  destruct alg.
  - cbn. intros H%ok_or_Ok. by eapply gcm_tag_nonzero.
  - intros [H Ht]%ccm_encrypt_join. by eapply ccm_tag_nonzero.
Qed.

Lemma aead_aad_byte alg key n x b b' y p ct tag :
  b' <> b -> Aead.aead_encrypt alg key n (x ++ b :: y) p = Ok (ct, tag) ->
  primitive_decrypt alg key n (x ++ b' :: y) ct tag = None.
Proof.
  intros Hb. destruct alg.
  - cbn. intros H%ok_or_Ok. by eapply gcm_aad_byte.
  - intros [H Ht]%ccm_encrypt_join. by eapply ccm_aad_byte.
Qed.

Lemma aead_aad_len alg key n a a' p ct tag :
  len a <= 255 -> len a' <= 255 -> len a' <> len a ->
  Aead.aead_encrypt alg key n a p = Ok (ct, tag) ->
  primitive_decrypt alg key n a' ct tag = None.
Proof.
  intros H1 H2 Hl. destruct alg.
  - cbn. intros H%ok_or_Ok. by eapply (gcm_aad_len key n a).
  - intros [H Ht]%ccm_encrypt_join. by eapply (ccm_aad_len key n a).
Qed.

End laws.

(** ** Every test passes *)

Section sound.
Context `{Sys : System} `{Ar : Arch} `{B64 : Base64} `{Cr : !Crypto} `{Kt : !KeyTooling Cr}.
Context `{Sl : !SystemLaws Sys} `{Bl : !Base64Laws B64} `{Cl : !CryptoLaws Cr}.
Context `{Kl : !KeyToolingLaws Cr Kt} `{Rl : !RejectionLaws B64 Cr} `{Al : !AeadRejectionLaws Cr}.
Context `{Health0 : !Health} (Av : available Cr).
Implicit Types alg : AeadAlgorithm.t.

Ltac ground :=
  match goal with
  | |- test_limit _ => split; by vm_compute
  | |- sealable _ _ _ _ => repeat split; by vm_compute
  | |- Forall _ _ => by repeat constructor
  | |- mode_wf _ => done
  | |- _ <> _ => done
  end.
Ltac seal_step HP e He :=
  eapply runs_sealing; [exact Av|exact (pa_sender _ _ _ _ HP)|ground|intros e ? He].
Ltac open_step HP :=
  eapply runs_opening; [exact (peers_forward _ _ _ _ HP)|exact (pa_receiver _ _ _ _ HP)| |
    eassumption|intros ?]; [ground|].
Ltac within_of HP HS :=
  cbn [SecureEnvelope.cipher with_wrapped_session_key with_signature];
  eapply sealed_within; [exact (pa_receiver _ _ _ _ HP)|ground|
    by apply (sender_receiver_mode _ _ _ _ HS)|eassumption|by vm_compute].
Ltac within HP := within_of HP HP.

Lemma runs_assert_byte {A} bs i b (f : unit -> Test A) s Q :
  bs !! i = Some b -> runs (f tt) s Q -> runs (assert_byte bs i b ≫= f) s Q.
Proof.
  intros Hb Hf. eapply runs_bind with (fun _ s' => s' = s); [|by intros [] s' ->].
  eapply runs_lift_bind; [by apply index_Some|]. eapply runs_lift; [|done].
  apply assert_true. by apply bool_decide_eq_true.
Qed.

(** The frame of what AEAD peers seal. *)
Lemma aead_parts am alg max P p ctx e :
  peers_are am (EnvelopeMode.Aead alg) max P ->
  sealed (sender_config P) (sender_keys P) p ctx e ->
  exists key nonce ct tag aad wk sig t,
    sealed_parts (sender_config P) (sender_keys P) p ctx e key
      (Aead.frame_of alg nonce ct tag) wk sig t /\
    SecureEnvelope.cipher e = base64_encode (Aead.frame_of alg nonce ct tag) /\
    len nonce = 12 /\ len tag = 16 /\ len ct = len p /\
    AuthenticationMode.aead_aad am ctx (Aead.header_of alg nonce) = Ok aad /\
    Aead.aead_encrypt alg key nonce aad p = Ok (ct, tag).
Proof.
  intros HP (key & x & wk & sig & t & Hs)%sealed_Ok_parts.
  pose proof (sp_payload _ _ _ _ _ _ _ _ _ _ Hs) as Hx. unfold payload_seals in Hx.
  destruct (sender_receiver_mode _ _ _ _ HP) as [Em Ea]. rewrite Em, Ea in Hx.
  destruct Hx as (nonce & ct & tag & aad & Hn & -> & Ha & He).
  pose proof (Aead.aead_encrypt_len _ _ _ _ _ _ _ He) as [Hc Ht].
  exists key, nonce, ct, tag, aad, wk, sig, t. split; [done|].
  split; [by rewrite (sp_envelope _ _ _ _ _ _ _ _ _ _ Hs)|done].
Qed.

Lemma round_trips_pass alg request response :
  sealable LEGACY 256 legacy_context request -> sealable LEGACY 256 legacy_context response ->
  passes (round_trips_in_both_directions alg request response).
Proof.
  intros Hq Hr s. apply runs_aead_peers; [ground..|]. intros P HP.
  eapply runs_sealing; [exact Av|exact (pa_sender _ _ _ _ HP)|exact Hq|intros e ? He].
  destruct (aead_parts _ _ _ _ _ _ _ HP He) as
    (key & n & ct & tag & aad & wk & sig & t & _ & Ec & Hn & Ht & Hc & _).
  rewrite Ec. apply runs_decode. eapply runs_lift_bind.
  { apply assert_true. rewrite Aead.len_frame_of by done. apply Z.eqb_eq.
    unfold FRAME_OVERHEAD_BYTES. lia. }
  eapply runs_assert_byte; [reflexivity|].
  eapply runs_assert_byte; [by destruct alg|].
  eapply runs_opening; [exact (peers_forward _ _ _ _ HP)|exact (pa_receiver _ _ _ _ HP)|
    exact Hq|exact He|intros ?]. apply runs_same_bytes.
  eapply runs_sealing; [exact Av|exact (pa_receiver _ _ _ _ HP)|exact Hr|intros e' ? He'].
  eapply runs_opening; [exact (peers_backward _ _ _ _ HP)|exact (pa_sender _ _ _ _ HP)|
    exact Hr|exact He'|intros ?].
  eapply runs_lift; [|done]. apply assert_true. by apply bool_decide_eq_true.
Qed.

Lemma context_bound_round_trips_pass alg domain payload :
  bytes_lit domain <> [] ->
  sealable (AuthenticationMode.ContextBound (bytes_lit domain)) 256 (bound "operation=pay&id=17")
    (bytes_lit payload) ->
  44 + len (bytes_lit domain) + len (bytes_lit payload) <= 94 ->
  passes (context_bound_round_trip alg domain payload).
Proof.
  intros Hd Hp Hl s. apply runs_bound_mode; [done|]. apply runs_aead_peers; [done|ground|].
  intros P HP. apply runs_bound_context; [ground|].
  eapply runs_sealing; [exact Av|exact (pa_sender _ _ _ _ HP)|exact Hp|intros e ? He].
  eapply runs_opening; [exact (peers_forward _ _ _ _ HP)|exact (pa_receiver _ _ _ _ HP)|
    exact Hp|exact He|intros ?]. apply runs_same_bytes.
  apply runs_bound_context; [ground|].
  assert (Hw : str_len (SecureEnvelope.cipher e) <= max_cipher_text (receiver_config P)).
  { eapply sealed_within; [exact (pa_receiver _ _ _ _ HP)|ground|
      by apply (sender_receiver_mode _ _ _ _ HP)|exact He|].
    apply sealed_text_len_mono. apply Hp. }
  apply runs_rejecting; [done| |intros ?].
  { eapply context_rejected; [exact HP|exact He|apply (pa_receiver _ _ _ _ HP)|done|].
    intros _. split; [done|]. split; [by injection|]. cbn [domain_of].
    change (len (context_of (bound "operation=pay&id=17"))) with 19.
    change (len (context_of (bound "operation=pay&id=18"))) with 19. unfold reread_len. lia. }
  apply runs_rejecting; [done| |intros ?].
  { eapply context_rejected; [exact HP|exact He|apply (pa_receiver _ _ _ _ HP)|done|done]. }
  eapply runs_bind; [eapply runs_seal_wrong_kind; [apply (pa_sender _ _ _ _ HP)|done|by vm_compute]|].
  intros r ? ->. by eapply runs_lift.
Qed.

Lemma boundaries_pass alg : passes (round_trips_boundaries alg).
Proof.
  intros s. apply runs_aead_peers; [ground..|]. intros P HP.
  apply runs_for_each; [|done]. intros p s' Hp.
  eapply runs_round_trips; [exact Av|exact HP|].
  rewrite !elem_of_cons in Hp. destruct Hp as [-> |[-> |[-> |[]%not_elem_of_nil]]]; ground.
Qed.

Lemma frame_sweep_passes alg domain :
  bytes_lit domain <> [] -> len (bytes_lit domain) <= 100 -> passes (length_sweep alg domain).
Proof.
  intros Hd Hl s. apply runs_bound_mode; [done|]. apply runs_bound_context; [ground|].
  apply runs_for_each; [|done]. intros [am ctx] s' Hin.
  assert (mode_wf am /\ kinds_match am ctx = true /\
    len (domain_of am) + len (context_of ctx) <= 1000) as (Hw & Hk & Hz).
  { apply elem_of_cons in Hin as [E|E%list_elem_of_singleton]; injection E as -> ->.
    - split; [done|split; [done|by vm_compute]].
    - split; [done|split; [done|]]. cbn [domain_of].
      change (len (context_of (bound "operation=sweep"))) with 15. lia. }
  apply runs_aead_peers; [done|ground|]. intros P HP. apply runs_for_each; [|done].
  intros n s'' Hn. assert (0 <= n <= 1025) as Hb.
  { revert n Hn. apply Forall_forall. unfold LENGTHS. repeat constructor; done. }
  assert (len (sweep_plaintext n) = n) as El.
  { unfold sweep_plaintext. rewrite len_map. unfold len. rewrite length_seq. lia. }
  assert (Hp : sealable am 2048 ctx (sweep_plaintext n)).
  { split; [done|]. split; [done|]. rewrite El.
    change SM4_CCM_MAX_PLAINTEXT_BYTES with 16777215. lia. }
  eapply runs_sealing; [exact Av|exact (pa_sender _ _ _ _ HP)|exact Hp|intros e ? He].
  destruct (aead_parts _ _ _ _ _ _ _ HP He) as
    (key & nonce & ct & tag & aad & wk & sig & t & _ & Ec & Hno & Ht & Hc & _).
  rewrite Ec. apply runs_decode. eapply runs_lift_bind.
  { apply assert_true. rewrite Aead.len_frame_of by done. apply Z.eqb_eq.
    unfold FRAME_OVERHEAD_BYTES. lia. }
  eapply runs_opening; [exact (peers_forward _ _ _ _ HP)|exact (pa_receiver _ _ _ _ HP)|
    exact Hp|exact He|intros ?].
  eapply runs_lift; [|done]. apply assert_true. by apply bool_decide_eq_true.
Qed.

Lemma frame_limit_passes alg : passes (seal_rejects_over_limit alg).
Proof.
  intros s. apply runs_aead_peers; [ground..|]. intros P HP.
  eapply runs_bind; [eapply runs_seal_too_large; [apply (pa_sender _ _ _ _ HP)|by vm_compute]|].
  intros r ? ->. by eapply runs_lift.
Qed.

Lemma other_domain_passes alg payload :
  len (bytes_lit payload) <= 31 -> passes (rejects_other_domain alg payload).
Proof.
  intros Hl s. apply runs_bound_mode; [ground|]. apply runs_bound_mode; [ground|].
  apply runs_aead_peers; [ground..|]. intros P HP.
  destruct signer_ids_ok as [Hs Hr], peer_names_ok as [_ Hn].
  destruct (aead_config_Ok "receiver" RECEIVER_SIGNER_ID SENDER_SIGNER_ID
    (AuthenticationMode.ContextBound (bytes_lit "example/response/v1")) 256 alg) as (c & Ec & Hc);
    [done|done|done|ground|ground|].
  eapply runs_lift_bind; [exact Ec|]. apply runs_bound_context; [ground|].
  assert (Hp : sealable (AuthenticationMode.ContextBound (bytes_lit "example/request/v1")) 256
    (bound "operation=pay&id=17") (bytes_lit payload)).
  { split; [done|]. split; [by vm_compute|]. change SM4_CCM_MAX_PLAINTEXT_BYTES with 16777215. lia. }
  eapply runs_sealing; [exact Av|exact (pa_sender _ _ _ _ HP)|exact Hp|intros e ? He].
  apply runs_open_invalid; [eapply sealed_within; [exact Hc|ground|
    by apply (sender_receiver_mode _ _ _ _ HP)|eassumption|apply sealed_text_len_mono, Hp]|].
  eapply context_rejected; [exact HP|exact He|exact Hc|done|].
  intros _. split; [done|]. split; [by injection|]. cbn [domain_of].
  change (len (context_of (bound "operation=pay&id=17"))) with 19.
  change (len (bytes_lit "example/request/v1")) with 18.
  change (len (bytes_lit "example/response/v1")) with 19. unfold reread_len. lia.
Qed.

(** ** Altered frames *)

(** A frame that still opens under the signature and key of a sealed one is the
    encryption of the same plaintext. *)
Lemma frame_reread alg max P p e key x wk sig t x' p' :
  peers_are LEGACY (EnvelopeMode.Aead alg) max P ->
  sealed_parts (sender_config P) (sender_keys P) p legacy_context e key x wk sig t ->
  len p <= 94 -> len x' <= 94 ->
  Envelope.open (receiver_config P) (receiver_keys P) (with_cipher e (base64_encode x'))
    legacy_context = Ok p' ->
  exists n ct tag aad, x' = Aead.frame_of alg n ct tag /\ len n = 12 /\ len tag = 16 /\
    AuthenticationMode.aead_aad LEGACY legacy_context (Aead.header_of alg n) = Ok aad /\
    Aead.aead_encrypt alg key n aad p = Ok (ct, tag).
Proof.
  intros HP Hs Hl Hl' Ho.
  destruct (open_Ok_parts _ _ _ _ _ Ho) as (key' & x0 & wk' & sig' & t' & Hp).
  pose proof (peers_forward _ _ _ _ HP) as Hc.
  destruct (sender_receiver_mode _ _ _ _ HP) as [Em Ea].
  pose proof (op_input _ _ _ _ _ _ _ _ _ _ Hp) as Hi'.
  rewrite (cp_authentication_mode _ _ _ _ Hc), Ea in Hi'. injection Hi' as <-.
  pose proof (sp_input _ _ _ _ _ _ _ _ _ _ Hs) as Hi. rewrite Ea in Hi. injection Hi as <-.
  pose proof (payload_opens_len _ _ _ _ _ (op_payload _ _ _ _ _ _ _ _ _ _ Hp)) as Hlen.
  pose proof (op_cipher _ _ _ _ _ _ _ _ _ _ Hp) as E. cbn in E.
  rewrite base64_decode_encode in E. injection E as <-.
  destruct (opened_transcript _ _ _ _ _ _ _ _ _ _ _ _ _ _ _ _ _ _ _ _ Hs Hp) as [-> _];
    [apply Hc|done|done|lia|].
  assert (key' = key) by (eapply opened_key; [exact Hs|exact Hp|apply Hc|done]); subst key'.
  pose proof (op_payload _ _ _ _ _ _ _ _ _ _ Hp) as Hpo. unfold payload_opens in Hpo.
  rewrite (cp_envelope_mode _ _ _ _ Hc), (cp_authentication_mode _ _ _ _ Hc), Em, Ea in Hpo.
  destruct Hpo as (n & ct & tag & aad & Hn & Ht & -> & Ha & Hd).
  exists n, ct, tag, aad. repeat split; try done. by apply aead_strict.
Qed.

(** Changing the header and the nonce only, or what follows them only, keeps a frame
    from opening. *)
Lemma altered_frame_rejected alg max P p e key n ct tag aad wk sig t x' :
  peers_are LEGACY (EnvelopeMode.Aead alg) max P ->
  sealed_parts (sender_config P) (sender_keys P) p legacy_context e key
    (Aead.frame_of alg n ct tag) wk sig t ->
  len n = 12 -> len tag = 16 ->
  AuthenticationMode.aead_aad LEGACY legacy_context (Aead.header_of alg n) = Ok aad ->
  Aead.aead_encrypt alg key n aad p = Ok (ct, tag) ->
  16 <= len p <= 64 -> x' <> Aead.frame_of alg n ct tag -> len x' <= 94 ->
  take 14 x' = take 14 (Aead.frame_of alg n ct tag) \/
  drop 14 x' = drop 14 (Aead.frame_of alg n ct tag) ->
  forall p', Envelope.open (receiver_config P) (receiver_keys P)
    (with_cipher e (base64_encode x')) legacy_context <> Ok p'.
Proof.
  intros HP Hs Hn Ht Ha He Hp Hx Hl Hk p' Ho.
  destruct (frame_reread _ _ _ _ _ _ _ _ _ _ _ _ HP Hs ltac:(lia) Hl Ho)
    as (n' & ct' & tag' & aad' & -> & Hn' & Ht' & Ha' & He').
  assert (n' = n -> False) as Hne.
  { intros ->. rewrite Ha in Ha'. injection Ha' as <-. rewrite He in He'.
    injection He' as -> ->. done. }
  rewrite !Aead.frame_of_header in Hk.
  rewrite !take_app_len, !drop_app_len in Hk by (by rewrite Aead.len_header_of).
  destruct Hk as [Hk|Hk].
  - apply Hne. unfold Aead.header_of in Hk. cbn in Hk. congruence.
  - pose proof (Aead.aead_encrypt_len _ _ _ _ _ _ _ He) as [Lc _].
    pose proof (Aead.aead_encrypt_len _ _ _ _ _ _ _ He') as [Lc' _].
    apply app_len_inj in Hk as [-> ->]; [|lia]. apply Hne.
    eapply (aead_nonce alg key n n' aad aad' p); [done|done|lia|exact He|exact He'].
Qed.

(** What a mutation of the frame's bytes makes of the frame. *)
Definition keeps_part (x x' : list byte) : Prop :=
  x' <> x /\ len x' <= len x /\ (take 14 x' = take 14 x \/ drop 14 x' = drop 14 x).

Lemma insert_keeps_part x i b v :
  x !! i = Some b -> v <> b -> keeps_part x (<[i := v]> x).
Proof.
  intros Hi Hv. assert (i < length x)%nat by (by eapply lookup_lt_Some). split; [|split].
  - intros E. apply (f_equal (lookup i)) in E. rewrite list_lookup_insert_eq in E by done.
    congruence.
  - unfold len. rewrite length_insert. lia.
  - destruct (decide (i < 14)%nat).
    + right. by rewrite drop_insert_lt.
    + left. by rewrite take_insert_ge by lia.
Qed.

Lemma take_keeps_part x n :
  (14 <= n < length x)%nat -> keeps_part x (take n x).
Proof.
  intros Hn. split; [|split].
  - intros E%(f_equal length). rewrite length_take in E. lia.
  - unfold len. rewrite length_take. lia.
  - left. rewrite take_take. f_equal. lia.
Qed.

(** A mutated envelope of a negative test. *)
Definition frame_mutant (e e' : SecureEnvelope.t) (x : list byte) : Prop :=
  exists x', keeps_part x x' /\ e' = with_cipher e (base64_encode x').

Lemma runs_mutated e x (mutate : list byte -> Panics (list byte)) x' s :
  SecureEnvelope.cipher e = base64_encode x -> mutate x = Ok x' -> keeps_part x x' ->
  runs (with_mutated_frame e mutate) s (fun e' _ => frame_mutant e e' x).
Proof.
  intros Ec Hm Hk. unfold with_mutated_frame. rewrite Ec. apply runs_decode.
  eapply runs_lift_bind; [exact Hm|]. apply runs_ret. by exists x'.
Qed.

Lemma runs_collect {A} (l : list (Test A)) (R : A -> Prop) s :
  Forall (fun m => forall s, runs m s (fun x _ => R x)) l ->
  runs (collect l) s (fun xs _ => Forall R xs).
Proof.
  intros H. revert s. induction H as [|m l Hm _ IH]; intros s; [by apply runs_ret|].
  cbn [collect]. eapply runs_bind; [apply Hm|]. intros x s' Hx.
  eapply runs_bind; [apply IH|]. intros xs s'' Hxs. apply runs_ret. by constructor.
Qed.

(** The loops over mutated envelopes. *)
Lemma runs_all_rejected P (R : SecureEnvelope.t -> Prop) (l : list (Test SecureEnvelope.t)) s :
  Forall (fun m => forall s, runs m s (fun x _ => R x)) l ->
  (forall e', R e' -> str_len (SecureEnvelope.cipher e') <= max_cipher_text (receiver_config P) /\
     forall p, Envelope.open (receiver_config P) (receiver_keys P) e' legacy_context <> Ok p) ->
  runs (mutated ← collect l;
        for_each mutated (fun mutated => receiver_rejects P mutated legacy_context)) s
    (fun _ _ => True).
Proof.
  intros Hl Hr. eapply runs_bind; [by apply runs_collect|]. intros es s' Hes.
  apply runs_for_each; [|done]. intros e' s'' Hin. rewrite Forall_forall in Hes.
  destruct (Hr e' (Hes e' Hin)). by apply runs_open_invalid.
Qed.

(** ** The negative matrix *)

Definition negative_payload alg : list byte :=
  match alg with
  | AeadAlgorithm.Sm4Gcm => bytes_lit "aead negative-matrix payload"
  | AeadAlgorithm.Sm4Ccm => bytes_lit "ccm negative-matrix payload"
  end.

Lemma negative_payload_len alg : 16 <= len (negative_payload alg) <= 64.
Proof. destruct alg; by vm_compute. Qed.

Lemma runs_negative {A} alg P (f : SecureEnvelope.t -> Test A) s Q :
  peers_are LEGACY (EnvelopeMode.Aead alg) 128 P ->
  (forall e s', sealed (sender_config P) (sender_keys P) (negative_payload alg) legacy_context e ->
     str_len (SecureEnvelope.cipher e) <= max_cipher_text (receiver_config P) ->
     runs (f e) s' Q) ->
  runs (negative_envelope alg P ≫= f) s Q.
Proof.
  intros HP Hf.
  assert (Hw : forall e, sealed (sender_config P) (sender_keys P) (negative_payload alg)
    legacy_context e -> str_len (SecureEnvelope.cipher e) <= max_cipher_text (receiver_config P)).
  { intros e He. eapply sealed_within; [exact (pa_receiver _ _ _ _ HP)|ground|
      by apply (sender_receiver_mode _ _ _ _ HP)|exact He|].
    apply sealed_text_len_mono. pose proof (negative_payload_len alg). lia. }
  destruct alg; (eapply runs_sealing; [exact Av|exact (pa_sender _ _ _ _ HP)|ground|];
    intros e s' He; apply Hf; [exact He|by apply Hw]).
Qed.

(** The frame of the negative envelope, and what keeps a part of it. *)
Record negative_frame alg (P : Peers) (e : SecureEnvelope.t) (x : list byte) : Prop := {
  nf_text : SecureEnvelope.cipher e = base64_encode x;
  nf_len : len x = 30 + len (negative_payload alg);
  nf_start : x !! 0%nat = Some x01 /\ x !! 1%nat = Some (Aead.algorithm_byte alg);
  nf_tag : drop (Z.to_nat (len x - 16)) x <> replicate 16 x00;
  nf_mutants e' : frame_mutant e e' x ->
    str_len (SecureEnvelope.cipher e') <= max_cipher_text (receiver_config P) /\
    forall p, Envelope.open (receiver_config P) (receiver_keys P) e' legacy_context <> Ok p;
}.

Lemma negative_frame_of alg P e :
  peers_are LEGACY (EnvelopeMode.Aead alg) 128 P ->
  sealed (sender_config P) (sender_keys P) (negative_payload alg) legacy_context e ->
  exists x, negative_frame alg P e x.
Proof.
  intros HP He. destruct (aead_parts _ _ _ _ _ _ _ HP He) as
    (key & n & ct & tag & aad & wk & sig & t & Hs & Ec & Hn & Ht & Hc & Ha & Henc).
  pose proof (negative_payload_len alg) as Hl.
  assert (Lx : len (Aead.frame_of alg n ct tag) = 30 + len (negative_payload alg))
    by (rewrite Aead.len_frame_of by done; lia).
  exists (Aead.frame_of alg n ct tag). constructor; [done|done|by destruct alg| |].
  - rewrite Lx, Aead.frame_of_header, app_assoc, drop_app_len; [by eapply aead_tag_nonzero|].
    rewrite len_app, Aead.len_header_of by done. rewrite Z2Nat.id; lia.
  - intros e' (x' & (Hx & Hlx & Hk) & ->). split.
    + eapply text_within; [exact (pa_receiver _ _ _ _ HP)|ground|].
      cbn [SecureEnvelope.cipher with_cipher sealed_text_len]. rewrite base64_encode_len.
      apply base64_size_mono. lia.
    + eapply altered_frame_rejected; [exact HP|exact Hs|done|done|exact Ha|exact Henc|lia|done|lia|done].
Qed.

Lemma ids_pass alg other :
  other <> Aead.algorithm_byte alg -> passes (rejects_ids alg other).
Proof.
  intros Ho s. apply runs_aead_peers; [ground..|]. intros P HP. apply runs_negative; [exact HP|].
  intros e s' He _. destruct (negative_frame_of _ _ _ HP He) as [x [Ec _ [H0 H1] _ Hr]].
  apply runs_all_rejected with (fun e' => frame_mutant e e' x); [|exact Hr].
  unfold set_at. repeat (apply Forall_cons; split; [|]); [..|done]; intros s'';
    (eapply runs_mutated; [exact Ec| |]).
  - by apply xor_at_Ok.
  - eapply insert_keeps_part; [exact H0|done].
  - by rewrite (index_Some _ _ _ H0).
  - eapply insert_keeps_part; [exact H0|done].
  - by rewrite (index_Some _ _ _ H1).
  - eapply insert_keeps_part; [exact H1|done].
  - by rewrite (index_Some _ _ _ H1).
  - eapply insert_keeps_part; [exact H1|by destruct alg].
Qed.

Lemma base64_encode_nil : base64_encode [] = [].
Proof.
  pose proof (base64_encode_len []) as H. change ((len (@nil byte) + 2) / 3 * 4) with 0 in H.
  unfold str_len in H. apply len_zero in H. by apply utf8_nil in H.
Qed.

(** A payload too short for a frame. *)
Lemma short_payload_rejected alg max P c e x ctx :
  peers_are LEGACY (EnvelopeMode.Aead alg) max P ->
  len x < 30 -> c = base64_encode x ->
  forall p, Envelope.open (receiver_config P) (receiver_keys P) (with_cipher e c) ctx <> Ok p.
Proof.
  intros HP Hx -> p Ho.
  destruct (open_Ok_parts _ _ _ _ _ Ho) as (key' & x' & wk' & sig' & t' & [Hc _ _ _ Hp _ _ _]).
  cbn in Hc. rewrite base64_decode_encode in Hc. injection Hc as <-.
  unfold payload_opens in Hp. rewrite (ci_mode _ _ _ _ _ _ (pa_receiver _ _ _ _ HP)) in Hp.
  destruct Hp as (n & ct & tag & aad & Hn & Ht & -> & _).
  rewrite Aead.len_frame_of in Hx by done. pose proof (len_nonneg ct). lia.
Qed.

Lemma short_frames_pass alg id : passes (rejects_short_frames alg id).
Proof.
  intros s. apply runs_aead_peers; [ground..|]. intros P HP. apply runs_negative; [exact HP|].
  intros e s' He _. destruct (negative_frame_of _ _ _ HP He) as [x [Ec Lx _ _ Hr]].
  pose proof (negative_payload_len alg) as Hl.
  eapply runs_lift_bind; [reflexivity|]. eapply runs_lift_bind; [reflexivity|].
  set (short := <[1%nat:=id]> _).
  apply runs_all_rejected with (fun e' => frame_mutant e e' x \/
    exists y, len y <= 29 /\ e' = with_cipher e (base64_encode y)).
  - repeat (apply Forall_cons; split; [|]); [..|done]; intros s''.
    + apply runs_ret. right. exists short. split; [done|done].
    + apply runs_ret. right. exists []. by rewrite base64_encode_nil.
    + eapply runs_mono; [eapply runs_mutated; [exact Ec|reflexivity|]|auto].
      unfold pop. rewrite removelast_firstn_len. apply take_keeps_part. unfold len in *. lia.
    + eapply runs_mono; [eapply runs_mutated; [exact Ec|reflexivity|]|auto].
      apply take_keeps_part. unfold len in *. change (Z.to_nat FRAME_HEADER_BYTES) with 14%nat. lia.
  - intros e' [H|(y & Hy & ->)]; [by apply Hr|]. split.
    + eapply text_within; [exact (pa_receiver _ _ _ _ HP)|ground|].
      cbn [SecureEnvelope.cipher with_cipher sealed_text_len]. rewrite base64_encode_len.
      apply base64_size_mono. lia.
    + eapply short_payload_rejected; [exact HP| |reflexivity]. lia.
Qed.

Lemma xor_keeps_part (x : list byte) i :
  (i < length x)%nat ->
  exists x', xor_at x i 1 = Ok x' /\ keeps_part x x'.
Proof.
  intros [b Hb]%lookup_lt_is_Some. eexists. split; [by apply xor_at_Ok|].
  eapply insert_keeps_part; [exact Hb|by apply xor_byte_ne].
Qed.

Lemma tampering_passes alg : passes (rejects_tampering alg).
Proof.
  intros s. apply runs_aead_peers; [ground..|]. intros P HP. apply runs_negative; [exact HP|].
  intros e s' He _. destruct (negative_frame_of _ _ _ HP He) as [x [Ec Lx _ Htag Hr]].
  pose proof (negative_payload_len alg) as Hl.
  apply runs_all_rejected with (fun e' => frame_mutant e e' x); [|exact Hr].
  assert (Hxor : forall i mutate s'', (i < length x)%nat -> mutate x = xor_at x i 0x01 ->
    runs (with_mutated_frame e mutate) s'' (fun e' _ => frame_mutant e e' x)).
  { intros i mutate s'' Hi Hm. destruct (xor_keeps_part x i Hi) as (x' & Hx & Hk).
    eapply runs_mutated; [exact Ec|by rewrite Hm|done]. }
  assert (Hlen : Z.of_nat (length x) = 30 + len (negative_payload alg)) by exact Lx.
  unfold FRAME_HEADER_BYTES, FRAME_OVERHEAD_BYTES, TAG_BYTES.
  repeat (apply Forall_cons; split; [|]); [..|done]; intros s''.
  - apply (Hxor 2%nat); [lia|done].
  - apply (Hxor 14%nat); [lia|done].
  - apply (Hxor (Z.to_nat (14 + (len x - 30) / 2))); [rewrite Lx; divlia|].
    by rewrite usize_sub_Ok by lia.
  - apply (Hxor (Z.to_nat (len x - 16 - 1))); [lia|].
    rewrite usize_sub_Ok by lia. cbn [mbind result_bind]. by rewrite usize_sub_Ok by lia.
  - apply (Hxor (Z.to_nat (len x - 1))); [lia|]. by rewrite usize_sub_Ok by lia.
  - eapply runs_mutated; [exact Ec|by rewrite usize_sub_Ok by lia|]. unfold truncate.
    split; [|split].
    + intros E. apply Htag, (app_inv_head (take (Z.to_nat (len x - 16)) x)).
      rewrite take_drop. symmetry. exact E.
    + rewrite len_app, len_replicate. unfold len in *. rewrite length_take. lia.
    + left. rewrite take_app_le by (rewrite length_take; lia). rewrite take_take. f_equal. lia.
Qed.

(** ** What the tag binds *)

Lemma literal_aad_Ok label h d c :
  len label <= 1000 -> len h <= 1000 -> len d <= 1000 -> len c <= 1000 ->
  literal_aad label h d c = Ok (field label ++ field h ++ field d ++ field c).
Proof.
  intros Hl Hh Hd Hc. pose proof usize_max_bounds.
  unfold literal_aad. rewrite !u64_try_from_small by lia.
  cbn [ok_or expect map_err mbind result_bind]. unfold field. by rewrite <- !app_assoc.
Qed.

(** Byte strings that were computed without a panic, collected. *)
Lemma runs_collect_lift {A} (rs : list (Panics A)) xs s :
  Forall2 (fun r x => r = Ok x) rs xs ->
  runs (collect (map lift rs)) s (fun ys s' => ys = xs).
Proof.
  induction 1 as [|r x rs xs -> _ IH]; [by apply runs_ret|]. cbn [map collect].
  eapply runs_lift_bind; [done|]. eapply runs_bind; [exact IH|]. intros ys s' ->.
  by apply runs_ret.
Qed.

Lemma slice_Ok bs a b :
  0 <= a <= b -> b <= len bs ->
  slice bs a b = Ok (take (Z.to_nat (b - a)) (drop (Z.to_nat a) bs)).
Proof.
  intros Ha Hb. unfold slice. by rewrite (proj2 (Z.leb_le a b)), (proj2 (Z.leb_le b (len bs))) by lia.
Qed.

(** Cutting [x ++ y ++ z] at the lengths of its parts. *)
Lemma slice_middle x y z a b :
  len x = a -> a + len y = b -> slice (x ++ y ++ z) a b = Ok y.
Proof.
  intros Ha Hb. pose proof (len_nonneg x). pose proof (len_nonneg y). pose proof (len_nonneg z).
  rewrite slice_Ok by len_solve. f_equal.
  rewrite drop_app_len by lia. apply take_app_len. lia.
Qed.

Lemma slice_tail x y a b : len x = a -> a + len y = b -> slice (x ++ y) a b = Ok y.
Proof. intros Ha Hb. rewrite <- (app_nil_r y) at 1. by apply slice_middle. Qed.

(** One changed byte in one field, with the other fields unchanged. *)
Lemma changed_byte_detected alg key n pre post b b' p ct tag aad aad' :
  aad = pre ++ b :: post -> aad' = pre ++ b' :: post -> b' <> b ->
  Aead.aead_encrypt alg key n aad p = Ok (ct, tag) ->
  primitive_decrypt alg key n aad' ct tag = None.
Proof. intros -> -> Hb He. by eapply aead_aad_byte. Qed.

(** The four altered forms of the additional data fail. *)
Lemma altered_aads_detected alg key n h h' p ct tag :
  len h = 14 -> (exists b b' r, h = b :: r /\ h' = b' :: r /\ b' <> b) ->
  Aead.aead_encrypt alg key n (field AAD_LABEL ++ field h ++ field DOMAIN ++ field CONTEXT) p
    = Ok (ct, tag) ->
  Forall (fun aad => primitive_decrypt alg key n aad ct tag = None)
    [field (bytes_lit "gmcrypto-envelope-lite/aead-aad/v2") ++ field h ++ field DOMAIN
       ++ field CONTEXT;
     field AAD_LABEL ++ field h' ++ field DOMAIN ++ field CONTEXT;
     field AAD_LABEL ++ field h ++ field (bytes_lit "example/response/v1") ++ field CONTEXT;
     field AAD_LABEL ++ field h ++ field DOMAIN ++ field (bytes_lit "operation=pay&id=18")].
Proof.
  intros Hh (b & b' & r & Eh & Eh' & Hb) He. repeat (apply Forall_cons; split; [|]); [..|done].
  - eapply (changed_byte_detected alg key n
      (u64_to_be_bytes 34 ++ bytes_lit "gmcrypto-envelope-lite/aead-aad/v")
      (field h ++ field DOMAIN ++ field CONTEXT) "1"%byte "2"%byte); [reflexivity..|done|exact He].
  - assert (El : len h' = len h) by (subst; by rewrite !len_cons).
    eapply (changed_byte_detected alg key n (field AAD_LABEL ++ u64_to_be_bytes (len h))
      (r ++ field DOMAIN ++ field CONTEXT) b b'); [| |exact Hb|exact He].
    + unfold field at 2. rewrite Eh at 2. by rewrite <- !app_assoc.
    + unfold field at 2. rewrite Eh' at 2. rewrite El. by rewrite <- !app_assoc.
  - eapply aead_aad_len; [| | |exact He]; rewrite !len_app, !len_field, Hh; by vm_compute.
  - eapply (changed_byte_detected alg key n
      (field AAD_LABEL ++ field h ++ field DOMAIN ++ u64_to_be_bytes 19
         ++ bytes_lit "operation=pay&id=1") [] "7"%byte "8"%byte);
      [by rewrite <- !app_assoc|by rewrite <- !app_assoc|done|exact He].
Qed.

Lemma tag_binding_passes alg p :
  1 <= len p <= 64 -> passes (tag_binds_aad alg (Aead.algorithm_byte alg) p).
Proof.
  intros Hp s. apply runs_bound_mode; [ground|]. apply runs_aead_peers; [ground..|].
  intros P HP. apply runs_bound_context; [ground|].
  assert (Hz : sealable (AuthenticationMode.ContextBound (bytes_lit "example/request/v1")) 256
    (bound "operation=pay&id=17") p).
  { split; [done|]. split; [by vm_compute|]. change SM4_CCM_MAX_PLAINTEXT_BYTES with 16777215. lia. }
  eapply runs_sealing; [exact Av|exact (pa_sender _ _ _ _ HP)|exact Hz|intros e ? He].
  destruct (aead_parts _ _ _ _ _ _ _ HP He) as
    (key & n & ct & tag & aad & wk & sig & t & Hs & Ec & Hn & Ht & Hc & Ha & Henc).
  cbv zeta. rewrite (sp_envelope _ _ _ _ _ _ _ _ _ _ Hs) at 1. apply runs_decode.
  eapply runs_lift_bind; [by apply is_key_raw, (pa_receiver_keys _ _ _ _ HP)|].
  eapply runs_lift_bind.
  { destruct (sp_wrapped _ _ _ _ _ _ _ _ _ _ Hs) as (w & w' & Hw).
    rewrite (cp_encryption _ _ _ _ (peers_forward _ _ _ _ HP)) in Hw.
    apply sm2_decrypt_encrypt in Hw. by rewrite Hw. }
  eapply runs_lift_bind; [by rewrite (sp_key _ _ _ _ _ _ _ _ _ _ Hs)|].
  rewrite Ec. apply runs_decode.
  assert (Lx : len (Aead.frame_of alg n ct tag) = 30 + len p)
    by (rewrite Aead.len_frame_of by done; lia).
  eapply runs_lift_bind.
  { apply assert_true, Z.eqb_eq. unfold FRAME_OVERHEAD_BYTES. lia. }
  rewrite Lx. unfold FRAME_HEADER_BYTES, TAG_BYTES, FRAME_OVERHEAD_BYTES.
  assert (Lh : len (Aead.header_of alg n) = 14) by (by apply Aead.len_header_of).
  rewrite !Aead.frame_of_header.
  eapply runs_lift_bind; [by apply (slice_middle [] (Aead.header_of alg n) (ct ++ tag))|].
  eapply runs_assert_byte; [reflexivity|]. eapply runs_assert_byte; [by destruct alg|].
  eapply runs_lift_bind; [apply usize_sub_Ok; lia|].
  eapply runs_lift_bind; [apply slice_middle; [done|lia]|].
  eapply runs_lift_bind; [rewrite app_assoc; apply slice_tail; [rewrite len_app|]; lia|].
  eapply runs_lift_bind.
  { by apply (slice_tail [x01; Aead.algorithm_byte alg] n); [|rewrite Hn]. }
  eapply runs_lift_bind; [by apply literal_aad_Ok; [|lia|..]|].
  assert (Eaad : aad = field AAD_LABEL ++ field (Aead.header_of alg n) ++ field DOMAIN
    ++ field CONTEXT).
  { apply aead_aad_Ok in Ha as (_ & _ & _ & ->); [done|done]. }
  rewrite Eaad in Henc. eapply runs_lift_bind.
  { apply Aead.aead_decrypt_encrypt in Henc. rewrite aead_decrypt_primitive in Henc.
    apply ok_or_Ok in Henc. by rewrite Henc. }
  apply runs_same_bytes.
  eapply runs_lift_bind; [by apply xor_at_Ok|].
  set (h' := <[0%nat:=_]> _).
  pose proof (altered_aads_detected alg key n (Aead.header_of alg n) h' p ct tag Lh) as Hd.
  assert (Lh' : len h' = 14) by (unfold h', len; by rewrite length_insert).
  eapply runs_bind.
  { eapply (runs_collect_lift [_; _; _; _]).
    repeat (apply Forall2_cons; split; [by apply literal_aad_Ok; try lia|]). by constructor. }
  intros aads s'' ->. eapply (runs_bind _ _ _ _ (fun _ _ => True)).
  2: { intros _ s3 _. eapply runs_lift; [by apply assert_true, bool_decide_eq_true|done]. }
  apply runs_for_each; [|done]. intros a s3 Hin.
  assert (primitive_decrypt alg key n a ct tag = None) as ->; [|by eapply runs_lift].
  revert a Hin. apply Forall_forall, Hd; [|done]. by exists x01, x00, (tail h').
Qed.

(** ** Bounds and the other fields *)

Lemma oversized_pass alg : passes (oversized_ciphers alg).
Proof.
  intros s. apply runs_aead_peers; [ground..|]. intros P HP.
  eapply runs_bind; [apply runs_open|]. intros r ? ->.
  eapply runs_lift_bind.
  { apply assert_true. rewrite open_oversized.
    - by rewrite (ci_max _ _ _ _ _ _ (pa_receiver _ _ _ _ HP)).
    - pose proof (pa_receiver _ _ _ _ HP) as []. pose proof usize_max_bounds.
      rewrite max_cipher_text_eq; rewrite ci_max, ?ci_mode; [by vm_compute|lia|].
      change (sealed_text_len (EnvelopeMode.Aead alg) 17) with 64. lia. }
  apply runs_aead_peers; [ground..|]. intros O HO.
  eapply runs_sealing; [exact Av|exact (pa_sender _ _ _ _ HO)|ground|intros e ? He].
  destruct (aead_parts _ _ _ _ _ _ _ HO He) as
    (key & n & ct & tag & aad & wk & sig & t & Hs & Ec & Hn & Ht & Hc & Ha & Henc).
  assert (Lx : len (Aead.frame_of alg n ct tag) = 48)
    by (rewrite Aead.len_frame_of, Hc by done; by vm_compute).
  rewrite Ec. apply runs_decode.
  eapply runs_lift_bind; [by apply assert_true, Z.eqb_eq|].
  eapply runs_lift_bind; [by apply assert_true, Z.eqb_eq; rewrite base64_encode_len, Lx|].
  assert (with_cipher e (base64_encode (Aead.frame_of alg n ct tag)) = e) as ->
    by (rewrite (sp_envelope _ _ _ _ _ _ _ _ _ _ Hs); done).
  apply runs_open_invalid; [within_of HP HO|].
  eapply over_limit_rejected; [exact HO|exact HP|exact He|by vm_compute].
Qed.

Lemma fields_and_keys_pass alg : passes (field_and_key_failures alg).
Proof.
  intros s. apply runs_aead_peers; [ground..|]. intros P HP. apply runs_negative; [exact HP|].
  intros e s' He Hw. eapply runs_wrapped_plaintext; [exact Av|exact HP|done|]. intros wk ? Hwk.
  eapply runs_tampered_signature; [exact He|]. intros sig b Eb.
  assert (Hb : base64_decode (lit "!!!!") = None)
    by (eapply base64_rejects_character; [apply list_elem_of_here|done]).
  assert (Ha : base64_decode (lit "AA") = None) by (by apply base64_rejects_length).
  apply runs_bind with (fun _ _ => True); [|intros [] ? _].
  - apply runs_for_each; [|done]. intros e' s'' Hin. rewrite !elem_of_cons in Hin.
    destruct Hin as [-> |[-> |[-> |[-> |[-> |[-> |[]%not_elem_of_nil]]]]]];
      (apply runs_open_invalid; [try done|]).
    + by eapply not_der_rejected.
    + eapply unwrap_rejected; [reflexivity|]. intros key. rewrite Hwk. by intros [= <-].
    + by eapply flipped_signature_rejected.
    + eapply text_within; [exact (pa_receiver _ _ _ _ HP)|ground|by vm_compute].
    + apply bad_text_rejected. by left.
    + apply bad_text_rejected. right. by left.
    + apply bad_text_rejected. right. by right.
  - apply runs_key_material; [ground..|]. intros k Hk.
    apply runs_rejecting; [done|by eapply wrong_decryption_rejected|intros ?].
    apply runs_key_material; [ground..|]. intros k' Hk'.
    apply runs_open_invalid; [done|].
    eapply wrong_verification_rejected; [exact HP|exact He|exact Hk'|done|done| |done].
    pose proof (negative_payload_len alg). lia.
Qed.

(** ** Clients of different modes *)

(** A payload of one mode is no payload of another. *)
Lemma other_mode_rejected em em' max max' P O p e :
  peers_are LEGACY em max P -> peers_are LEGACY em' max' O ->
  sealed (sender_config P) (sender_keys P) p legacy_context e ->
  match em, em' with
  | EnvelopeMode.LegacyCbc, EnvelopeMode.Aead _ => len p < 14
  | EnvelopeMode.Aead _, EnvelopeMode.LegacyCbc => (30 + len p) mod 16 <> 0
  | EnvelopeMode.Aead alg, EnvelopeMode.Aead alg' => alg <> alg'
  | _, _ => False
  end ->
  forall p', Envelope.open (receiver_config O) (receiver_keys O) e legacy_context <> Ok p'.
Proof.
  intros HP HO He Hm p' Ho.
  destruct (sealed_Ok_parts _ _ _ _ _ He) as (key & x & wk & sig & t & Hs).
  destruct (open_Ok_parts _ _ _ _ _ Ho) as (key' & x' & wk' & sig' & t' & Hp).
  assert (x' = x).
  { pose proof (op_cipher _ _ _ _ _ _ _ _ _ _ Hp) as E.
    rewrite (sp_envelope _ _ _ _ _ _ _ _ _ _ Hs) in E. cbn in E.
    rewrite base64_decode_encode in E. congruence. }
  subst x'. pose proof (sp_payload _ _ _ _ _ _ _ _ _ _ Hs) as Hx.
  pose proof (op_payload _ _ _ _ _ _ _ _ _ _ Hp) as Hy.
  unfold payload_seals, payload_opens in *.
  rewrite (proj1 (sender_receiver_mode _ _ _ _ HP)) in Hx.
  rewrite (ci_mode _ _ _ _ _ _ (pa_receiver _ _ _ _ HO)) in Hy.
  destruct em as [|alg], em' as [|alg']; [done| | |].
  - destruct Hy as (n & ct & tag & aad & Hn & Ht & Ex & _). apply (f_equal len) in Ex.
    rewrite Hx, cbc_encrypt_len, Aead.len_frame_of in Ex by done. pose_len. divlia.
  - apply cbc_decrypt_strict, (f_equal len) in Hy. rewrite cbc_encrypt_len in Hy.
    destruct Hx as (n & ct & tag & aad & Hn & Ex & _ & Henc). rewrite Ex in Hy.
    apply Aead.aead_encrypt_len in Henc as [Hc Ht].
    rewrite Aead.len_frame_of in Hy by done. apply Hm. rewrite <- Hc, Hy. divlia.
  - destruct Hx as (n & ct & tag & aad & Hn & Ex & _ & Henc).
    destruct Hy as (n' & ct' & tag' & aad' & Hn' & Ht' & Ey & _).
    apply Aead.aead_encrypt_len in Henc as [Hc Ht]. rewrite Ex in Ey.
    by apply Aead.frame_of_inj in Ey as [-> _].
Qed.

(** Peers of either mode. *)
Definition makes (ps : Panics Peers) (em : EnvelopeMode.t) : Prop :=
  exists P, ps = Ok P /\ peers_are LEGACY em 128 P.

Lemma cbc_peers_made : makes (peers LEGACY 128) EnvelopeMode.LegacyCbc.
Proof. apply peers_Ok; ground. Qed.
Lemma gcm_peers_made : makes (aead_peers LEGACY 128) (EnvelopeMode.Aead AeadAlgorithm.Sm4Gcm).
Proof. apply aead_peers_Ok; ground. Qed.
Lemma ccm_peers_made : makes (ccm_peers LEGACY 128) (EnvelopeMode.Aead AeadAlgorithm.Sm4Ccm).
Proof. apply aead_peers_Ok; ground. Qed.

Lemma reject_each_other_pass first second em em' m m' payload payload' :
  makes first em -> makes second em' ->
  len (bytes_lit payload) <= 14 -> len (bytes_lit payload') <= 14 ->
  (forall P O e, peers_are LEGACY em 128 P -> peers_are LEGACY em' 128 O ->
     sealed (sender_config P) (sender_keys P) (bytes_lit payload) legacy_context e ->
     forall p, Envelope.open (receiver_config O) (receiver_keys O) e legacy_context <> Ok p) ->
  (forall P O e, peers_are LEGACY em' 128 P -> peers_are LEGACY em 128 O ->
     sealed (sender_config P) (sender_keys P) (bytes_lit payload') legacy_context e ->
     forall p, Envelope.open (receiver_config O) (receiver_keys O) e legacy_context <> Ok p) ->
  passes (reject_each_other first second m m' payload payload').
Proof.
  intros (P & EP & HP) (O & EO & HO) Hl Hl' Hr Hr' s.
  eapply runs_lift_bind; [exact EP|]. eapply runs_lift_bind; [exact EO|].
  assert (Hz : forall q, len q <= 14 -> sealable LEGACY 128 legacy_context q).
  { intros q Hq. split; [done|]. split; [by vm_compute|].
    change SM4_CCM_MAX_PLAINTEXT_BYTES with 16777215. lia. }
  assert (Hw : forall em em' P O q e, peers_are LEGACY em 128 P -> peers_are LEGACY em' 128 O ->
    len q <= 14 -> sealed (sender_config P) (sender_keys P) q legacy_context e ->
    str_len (SecureEnvelope.cipher e) <= max_cipher_text (receiver_config O)).
  { intros em1 em2 P1 O1 q e H1 H2 Hq (w & w' & He).
    eapply text_within; [exact (pa_receiver _ _ _ _ H2)|ground|].
    rewrite (seal_text_len _ _ _ _ _ _ _ He), (proj1 (sender_receiver_mode _ _ _ _ H1)).
    pose proof (len_nonneg q). unfold sealed_text_len, base64_size, Cbc.padded_size.
    destruct em1, em2; divlia. }
  eapply runs_sealing; [exact Av|exact (pa_sender _ _ _ _ HP)|by apply Hz|intros e ? He].
  apply runs_rejecting; [exact (Hw em em' P O _ e HP HO Hl He)|by eapply Hr|intros ?].
  eapply runs_sealing; [exact Av|exact (pa_sender _ _ _ _ HO)|by apply Hz|intros e' ? He'].
  apply runs_open_invalid; [exact (Hw em' em O P _ e' HO HP Hl' He')|by eapply Hr'].
Qed.

(** ** The ceiling of CCM *)

Lemma small_at_ceiling_passes :
  passes ccm_client_at_the_nonce_ceiling_still_round_trips_a_small_payload.
Proof.
  intros s. apply runs_aead_peers; [ground..|]. intros P HP.
  eapply runs_lift_bind.
  { apply assert_true, Z.eqb_eq. apply (ci_max _ _ _ _ _ _ (pa_sender _ _ _ _ HP)). }
  eapply runs_round_trips; [exact Av|exact HP|ground].
Qed.

Lemma len_replicate_Z n (b : byte) : 0 <= n -> len (replicate (Z.to_nat n) b) = n.
Proof. intros Hn. rewrite len_replicate. lia. Qed.

Lemma exactly_ceiling_passes : passes ccm_seals_exactly_the_12_byte_nonce_ceiling.
Proof.
  intros s. apply runs_aead_peers; [ground..|]. intros P HP.
  eapply runs_round_trips; [exact Av|exact HP|].
  split; [done|]. split; [by vm_compute|]. by rewrite len_replicate_Z by done.
Qed.

Lemma primitive_ceiling_passes :
  passes ccm_primitive_rejects_plaintext_above_the_12_byte_nonce_ceiling.
Proof.
  intros s. unfold ccm_primitive_rejects_plaintext_above_the_12_byte_nonce_ceiling.
  cbv zeta. rewrite ccm_ceiling; [by eapply runs_lift|done|].
  rewrite len_replicate_Z by done. lia.
Qed.

End sound.

(** The AEAD suite passes: round trips at every swept length with the fixed frame
    overhead, the tag over exactly the four fields of the additional data,
    [InvalidEnvelope] for every altered frame, field or key and for the envelopes of
    the other modes, and the ceiling of CCM. *)
Lemma aead_suite_passes `{Sys : System} `{Ar : Arch} `{B64 : Base64} `{Cr : !Crypto}
    `{Kt : !KeyTooling Cr} `{!SystemLaws Sys} `{!Base64Laws B64} `{!CryptoLaws Cr}
    `{!KeyToolingLaws Cr Kt} `{!RejectionLaws B64 Cr} `{!AeadRejectionLaws Cr}
    `{Hh : !Health} :
  available Cr -> Forall passes suite.
Proof.
  intros Av. unfold suite. repeat (apply Forall_cons; split; [|]); [..|done].
  - apply (round_trips_pass Av); repeat split; by vm_compute.
  - apply (context_bound_round_trips_pass Av); [done|repeat split; by vm_compute|by vm_compute].
  - by apply (boundaries_pass Av).
  - apply (frame_sweep_passes Av); [done|by vm_compute].
  - by apply frame_limit_passes.
  - by apply (ids_pass Av).
  - by apply (short_frames_pass Av).
  - by apply (tampering_passes Av).
  - apply (other_domain_passes Av); by vm_compute.
  - by apply (tag_binding_passes Av AeadAlgorithm.Sm4Gcm).
  - by apply (tag_binding_passes Av AeadAlgorithm.Sm4Ccm).
  - by apply (oversized_pass Av).
  - by apply (fields_and_keys_pass Av).
  - apply (reject_each_other_pass Av _ _ _ _ _ _ _ _ cbc_peers_made gcm_peers_made);
      [by vm_compute..| |]; intros P O e HP HO He;
      (eapply other_mode_rejected; [exact HP|exact HO|exact He|by vm_compute]).
  - apply (round_trips_pass Av); repeat split; by vm_compute.
  - apply (context_bound_round_trips_pass Av); [done|repeat split; by vm_compute|by vm_compute].
  - by apply (boundaries_pass Av).
  - apply (frame_sweep_passes Av); [done|by vm_compute].
  - by apply frame_limit_passes.
  - by apply small_at_ceiling_passes.
  - by apply exactly_ceiling_passes.
  - by apply primitive_ceiling_passes.
  - by apply (ids_pass Av).
  - by apply (short_frames_pass Av).
  - by apply (tampering_passes Av).
  - apply (other_domain_passes Av); by vm_compute.
  - by apply (oversized_pass Av).
  - by apply (fields_and_keys_pass Av).
  - apply (reject_each_other_pass Av _ _ _ _ _ _ _ _ gcm_peers_made ccm_peers_made);
      [by vm_compute..| |]; intros P O e HP HO He;
      (eapply other_mode_rejected; [exact HP|exact HO|exact He|by vm_compute]).
  - apply (reject_each_other_pass Av _ _ _ _ _ _ _ _ cbc_peers_made ccm_peers_made);
      [by vm_compute..| |]; intros P O e HP HO He;
      (eapply other_mode_rejected; [exact HP|exact HO|exact He|by vm_compute]).
Qed.

End AeadTests.

(** The unit tests of src/envelope_crypto. *)
Definition envelope_suite `{Sys : System} `{Ar : Arch} `{B64 : Base64} `{Cr : !Crypto}
    `{Kt : !KeyTooling Cr} : list (Test unit) :=
  CbcTests.suite ++ AeadTests.suite.

(** The fifty deterministic unit tests of the envelope modes pass, from every
    verification tally and every environment in which the primitives answer, for
    every implementation of the primitives that has the documented round trips and
    sizes and rejects ideally: signatures and tags are taken to verify for nothing
    but what they were made for, as [RejectionLaws] and [AeadRejectionLaws] spell
    out.  So a failing run points to a broken primitive, not to chance or to the
    envelope code. *)
Theorem envelope_suite_passes `{Sys : System} `{Ar : Arch} `{B64 : Base64} `{Cr : !Crypto}
    `{Kt : !KeyTooling Cr} `{!SystemLaws Sys} `{!Base64Laws B64} `{!CryptoLaws Cr}
    `{!KeyToolingLaws Cr Kt} `{!RejectionLaws B64 Cr} `{!AeadTests.AeadRejectionLaws Cr}
    `{Hh : !Health} :
  available Cr -> Forall passes envelope_suite.
Proof.
  intros Av. apply Forall_app. split; [by apply CbcTests.cbc_suite_passes|].
  by apply AeadTests.aead_suite_passes.
Qed.
