(* ===== verification/Fixture.v ===== *)
(** * A concrete environment

    Small executable instances of the interfaces, with their laws proved: the
    standard Base64 alphabet and padding, a counter as random source, and
    primitives that pad, tag and sign in the required sizes without any secrecy.
    They show that the laws the theorems assume are consistent and let every
    theorem be applied to evaluated inputs. *)

From S2P Require Import Prelude.
From S2P Require Import Rust.
From S2P Require Import Text.
From S2P Require Import System.
From S2P Require Import Error.
From S2P Require Import ClientConfig.
From S2P Require Import External.
From S2P Require Import EnvelopeBase.
From S2P Require Import ExamplePrograms.
From S2P Require Import TestSupport.
From S2P Require Import AeadTests.

(** ** The environment *)

Definition fixture_system : System := {|
  world := nat;
  path := string;
  io_error := unit;
  getrandom_fill n w := (Some (replicate n (byte_of_Z (Z.of_nat w))), S w);
  system_time_now w := ({| st_secs := 1700000000; st_nanos := 123456789 |}, w);
  fs_read p w := if bool_decide (p = "missing"%string) then Err tt else Ok (bytes_lit p);
  path_display := lit;
|}.

#[export] Instance fixture_system_laws : SystemLaws fixture_system.
Proof.
  constructor.
  - intros n w bs w' [= <- _]. apply length_replicate.
  - intros w t w' [= <- _]. cbn. lia.
Qed.

(** ** Base64 *)

Definition sextet_char (v : Z) : char :=
  char_of_Z
    (if v <? 26 then 65 + v else if v <? 52 then 97 + (v - 26)
     else if v <? 62 then 48 + (v - 52) else if v =? 62 then 43 else 47).

Definition char_sextet (c : char) : Z :=
  let z := code c in
  if (65 <=? z) && (z <=? 90) then z - 65
  else if (97 <=? z) && (z <=? 122) then z - 97 + 26
  else if (48 <=? z) && (z <=? 57) then z - 48 + 52
  else if z =? 43 then 62 else if z =? 47 then 63 else 64.

Definition pad_char : char := char_of_Z 61.

Fixpoint encode64 (bs : list byte) : str :=
  match bs with
  | a :: b :: c :: rest =>
      sextet_char (byte_val a / 4)
      :: sextet_char (byte_val a mod 4 * 16 + byte_val b / 16)
      :: sextet_char (byte_val b mod 16 * 4 + byte_val c / 64)
      :: sextet_char (byte_val c mod 64) :: encode64 rest
  | [a; b] =>
      [sextet_char (byte_val a / 4); sextet_char (byte_val a mod 4 * 16 + byte_val b / 16);
       sextet_char (byte_val b mod 16 * 4); pad_char]
  | [a] => [sextet_char (byte_val a / 4); sextet_char (byte_val a mod 4 * 16);
            pad_char; pad_char]
  | [] => []
  end.

Fixpoint raw_decode64 (s : str) : list byte :=
  match s with
  | w :: x :: y :: z :: rest =>
      let '(w, x, y, z) := (char_sextet w, char_sextet x, char_sextet y, char_sextet z) in
      if y =? 64 then [byte_of_Z (w * 4 + x / 16)]
      else if z =? 64 then [byte_of_Z (w * 4 + x / 16); byte_of_Z (x mod 16 * 16 + y / 4)]
      else byte_of_Z (w * 4 + x / 16) :: byte_of_Z (x mod 16 * 16 + y / 4)
           :: byte_of_Z (y mod 4 * 64 + z) :: raw_decode64 rest
  | _ => []
  end.

Definition fixture_base64 : Base64 := {|
  base64_encode := encode64;
  base64_decode s :=
    let bs := raw_decode64 s in if bool_decide (encode64 bs = s) then Some bs else None;
|}.

Lemma sextet_range_check :
  forallb (fun n => let v := Z.of_nat n in
    (char_sextet (sextet_char v) =? v) && base64_alphabet (sextet_char v)
    && (code (sextet_char v) <? 128)) (seq 0 64) = true.
Proof. vm_compute. reflexivity. Qed.

Lemma sextet_facts v :
  0 <= v < 64 ->
  char_sextet (sextet_char v) = v /\ base64_alphabet (sextet_char v) = true /\
  code (sextet_char v) < 128.
Proof.
  intros Hv. pose proof sextet_range_check as H. apply forallb_Forall in H.
  rewrite Forall_forall in H. specialize (H (Z.to_nat v)). cbn beta zeta in H.
  rewrite Z2Nat.id in H by lia.
  assert (Z.to_nat v ∈ seq 0 64) as Hin by (apply elem_of_seq; lia). specialize (H Hin).
  bool_hyps. auto.
Qed.

(** Induction over groups of three bytes. *)
Lemma triples_ind (P : list byte -> Prop) :
  P [] -> (forall a, P [a]) -> (forall a b, P [a; b]) ->
  (forall a b c rest, P rest -> P (a :: b :: c :: rest)) -> forall bs, P bs.
Proof.
  intros H0 H1 H2 H3. fix IH 1. intros [|a [|b [|c rest]]]; [done|done|done|]. apply H3, IH.
Qed.

Lemma byte_of_Z_eq z b : z = byte_val b -> byte_of_Z z = b.
Proof. intros ->. apply byte_of_Z_val. Qed.

Ltac byte_ranges :=
  repeat match goal with
  | b : byte |- _ => lazymatch goal with
      | _ : 0 <= byte_val b < 256 |- _ => fail
      | _ => pose proof (byte_val_range b) end
  end.

Ltac sextets :=
  repeat match goal with
  | |- context [char_sextet (sextet_char ?v)] =>
      rewrite (proj1 (sextet_facts v ltac:(byte_ranges; divlia)))
  end; change (char_sextet pad_char) with 64.

Lemma raw_decode_encode bs : raw_decode64 (encode64 bs) = bs.
Proof.
  induction bs as [|a|a b|a b c rest IH] using triples_ind; [done|..];
    cbn [encode64 raw_decode64]; sextets; byte_ranges.
  - cbn. f_equal. apply byte_of_Z_eq. divlia.
  - rewrite (proj2 (Z.eqb_neq (byte_val b mod 16 * 4) 64)) by divlia. cbn [Z.eqb Pos.eqb].
    f_equal; [|f_equal]; apply byte_of_Z_eq; divlia.
  - rewrite (proj2 (Z.eqb_neq (byte_val b mod 16 * 4 + byte_val c / 64) 64)) by divlia.
    rewrite (proj2 (Z.eqb_neq (byte_val c mod 64) 64)) by divlia. rewrite IH.
    f_equal; [|f_equal; [|f_equal]]; apply byte_of_Z_eq; divlia.
Qed.

Lemma encode64_alphabet bs :
  Forall (fun c => base64_alphabet c = true /\ code c < 128) (encode64 bs).
Proof.
  assert (Hp : base64_alphabet pad_char = true /\ code pad_char < 128) by done.
  induction bs as [|a|a b|a b c rest IH] using triples_ind; cbn [encode64];
    repeat constructor; try apply Hp; try apply IH;
    byte_ranges; apply sextet_facts; divlia.
Qed.

Lemma encode64_len bs : len (encode64 bs) = (len bs + 2) / 3 * 4.
Proof.
  induction bs as [|a|a b|a b c rest IH] using triples_ind; [done..|].
  cbn [encode64]. rewrite !len_cons, IH. divlia.
Qed.

#[export] Instance fixture_base64_laws : Base64Laws fixture_base64.
Proof.
  constructor; cbn [base64_encode base64_decode fixture_base64].
  - intros bs. rewrite raw_decode_encode. by rewrite bool_decide_true.
  - intros s bs. case_bool_decide; [|done]. by intros [= <-].
  - intros bs. rewrite ascii_str_len, encode64_len; [done|].
    eapply Forall_impl; [apply encode64_alphabet|]. by intros c [_ ?].
  - intros bs. eapply Forall_impl; [apply encode64_alphabet|]. by intros c [? _].
Qed.

(** ** Primitives *)

(** PKCS#7 padding to 16-byte blocks. *)
Definition pad_len (p : list byte) : Z := 16 - len p mod 16.
Definition pkcs7 (p : list byte) : list byte :=
  p ++ replicate (Z.to_nat (pad_len p)) (byte_of_Z (pad_len p)).
Definition unpad (c : list byte) : option (list byte) :=
  n ← byte_val <$> last c;
  let keep := take (length c - Z.to_nat n) c in
  if bool_decide (pkcs7 keep = c) then Some keep else None.

(** The bytes of a text under a key stream that repeats the nonce once. *)
Definition xor_byte (a b : byte) : byte := byte_of_Z (Z.lxor (byte_val a) (byte_val b)).
Fixpoint mask (nonce p : list byte) : list byte :=
  match nonce, p with
  | a :: nonce, b :: p => xor_byte a b :: mask nonce p
  | _, _ => p
  end.

(** The sum of some bytes, and a 16-byte tag in which the length and the sum of the
    additional data and a sum of everything else appear. *)
Definition sum_of (bs : list byte) : Z := fold_right (fun b n => byte_val b + n) 0 bs.
Definition tag_of (k n a p : list byte) : list byte :=
  x01 :: byte_of_Z (len a) :: byte_of_Z (sum_of a) :: byte_of_Z (sum_of (k ++ n ++ p))
  :: replicate 12 x00.

(** The encoding of a key; a ciphertext is the message under a header with it. *)
Definition key_bytes (key : nat) : list byte := be_bytes 32 (Z.of_nat key).
Definition wrap_header (key : nat) : list byte := x30 :: key_bytes key.

(** The first 94 bytes of a message in place of a digest. *)
Definition signature_of (key : nat) (id m : list byte) : list byte :=
  wrap_header key ++ [byte_of_Z (len id)] ++ take 94 m.

(** A key container: [0x30] and one byte, or [0x30 0x00] and a unary number. *)
Definition key_of (der : list byte) : option nat :=
  match der with
  | x30 :: x00 :: rest => Some (length rest)
  | x30 :: b :: _ => Some (Byte.to_nat b)
  | _ => None
  end.
Definition container_of (key : nat) : list byte := x30 :: x00 :: replicate key x2a.

Lemma key_of_container key : key_of (container_of key) = Some key.
Proof. cbn. by rewrite length_replicate. Qed.

#[local] Existing Instance fixture_system.

Definition fixture_crypto : Crypto := {|
  Sm2PrivateKey := nat;
  Sm2PublicKey := nat;
  Certificate := nat;
  public_key k := k;
  to_bytes_be := key_bytes;
  to_sec1_uncompressed := key_bytes;
  sm2_encrypt pk m w := (Some (wrap_header pk ++ m), S w);
  sm2_decrypt sk c :=
    if bool_decide (take 33 c = wrap_header sk) then Some (drop 33 c) else None;
  sm2_sign_with_id sk id m w := (Some (signature_of sk id m), S w);
  sm2_verify_with_id pk id m s := bool_decide (s = signature_of pk id m);
  cbc_encrypt _ _ p := pkcs7 p;
  cbc_decrypt _ _ c := unpad c;
  gcm_encrypt k n a p := Some (mask n p, tag_of k n a p);
  gcm_decrypt k n a c t :=
    if bool_decide (t = tag_of k n a (mask n c)) then Some (mask n c) else None;
  ccm_encrypt k n a p tl :=
    if (tl =? 16) && (len p <=? SM4_CCM_MAX_PLAINTEXT_BYTES)
    then Some (mask n p ++ tag_of k n a p) else None;
  ccm_decrypt k n a j tl :=
    let p := mask n (take (length j - 16) j) in
    if (tl =? 16) && (len p <=? SM4_CCM_MAX_PLAINTEXT_BYTES)
       && bool_decide (j = mask n p ++ tag_of k n a p)
    then Some p else None;
  pem_decode text label := if bool_decide (text = []) then None else Some (drop 1 (utf8 text));
  pkcs8_decrypt der password := if bool_decide (password = []) then None else key_of der;
  spki_decode der := key_of der;
  certificate_from_der der := match der with x31 :: b :: _ => Some (Byte.to_nat b) | _ => None end;
  subject_public_key c := c;
|}.

Lemma xor_byte_invol a b : xor_byte a (xor_byte a b) = b.
Proof.
  unfold xor_byte. rewrite byte_val_of_Z_small by (apply lxor_byte_range; apply byte_val_range).
  by rewrite <- Z.lxor_assoc, Z.lxor_nilpotent, Z.lxor_0_l, byte_of_Z_val.
Qed.

Lemma xor_byte_inj a a' b : xor_byte a b = xor_byte a' b -> a = a'.
Proof.
  unfold xor_byte. intros E%byte_of_Z_inj; [|apply lxor_byte_range; apply byte_val_range..].
  apply (f_equal (fun z => Z.lxor z (byte_val b))) in E.
  rewrite !Z.lxor_assoc, Z.lxor_nilpotent, !Z.lxor_0_r in E. by apply (inj byte_val).
Qed.

Lemma mask_invol n p : mask n (mask n p) = p.
Proof.
  revert p. induction n as [|a n IH]; intros [|b p]; cbn; [done..|].
  by rewrite xor_byte_invol, IH.
Qed.

Lemma len_mask n p : len (mask n p) = len p.
Proof.
  revert p. induction n as [|a n IH]; intros [|b p]; cbn; [done..|]. by rewrite !len_cons, IH.
Qed.

Lemma mask_inj n n' p :
  length n = length n' -> (length n <= length p)%nat -> mask n p = mask n' p -> n = n'.
Proof.
  revert n' p. induction n as [|a n IH]; intros [|a' n'] [|b p]; cbn; try done; try lia.
  intros Hl Hp E. injection E as Ea E. apply xor_byte_inj in Ea as ->. f_equal.
  apply (IH n' p); [lia|lia|done].
Qed.

Lemma len_tag_of k n a p : len (tag_of k n a p) = 16.
Proof. done. Qed.

Lemma sum_of_app x y : sum_of (x ++ y) = sum_of x + sum_of y.
Proof. induction x as [|b x IH]; cbn; [done|]. unfold sum_of in *. lia. Qed.

(** The tag tells additional data of other lengths or with one other byte apart. *)
Lemma tag_of_len k n a p k' n' a' p' :
  len a <= 255 -> len a' <= 255 -> tag_of k n a p = tag_of k' n' a' p' -> len a = len a'.
Proof.
  intros H1 H2 E. injection E as E _ _. pose_len. by apply byte_of_Z_inj in E; [|lia..].
Qed.

Lemma tag_of_byte k n x b b' y p k' n' p' :
  tag_of k n (x ++ b :: y) p = tag_of k' n' (x ++ b' :: y) p' -> b = b'.
Proof.
  intros E. injection E as _ E _. apply (f_equal byte_val) in E.
  rewrite !byte_val_of_Z, !sum_of_app in E. cbn in E. fold (sum_of y) in E.
  apply (inj byte_val). pose proof (byte_val_range b). pose proof (byte_val_range b'). divlia.
Qed.

Lemma pad_len_range p : 1 <= pad_len p <= 16.
Proof. unfold pad_len. divlia. Qed.

Lemma last_replicate {A} (n : nat) (x : A) : (0 < n)%nat -> last (replicate n x) = Some x.
Proof.
  intros Hn. destruct n as [|n]; [lia|]. clear Hn. induction n as [|n IH]; [done|].
  cbn [replicate] in *. done.
Qed.

Lemma unpad_pkcs7 p : unpad (pkcs7 p) = Some p.
Proof.
  pose proof (pad_len_range p) as Hn. unfold unpad.
  assert (last (pkcs7 p) = Some (byte_of_Z (pad_len p))) as ->
    by (unfold pkcs7; by rewrite last_app, last_replicate by lia).
  cbn [fmap option_fmap option_map mbind option_bind].
  rewrite byte_val_of_Z_small by lia.
  assert (take (length (pkcs7 p) - Z.to_nat (pad_len p)) (pkcs7 p) = p) as ->.
  { unfold pkcs7. rewrite length_app, length_replicate.
    rewrite Nat.add_sub. apply take_app_length. }
  by rewrite bool_decide_true.
Qed.

Lemma len_wrap_header k : len (wrap_header k) = 33.
Proof. unfold wrap_header, key_bytes. by rewrite len_cons, len_be_bytes. Qed.

Lemma wrap_header_inj k k' : wrap_header k = wrap_header k' -> key_bytes k = key_bytes k'.
Proof. intros E. by apply (f_equal tail) in E. Qed.

Lemma take_wrap k m : take 33 (wrap_header k ++ m) = wrap_header k.
Proof. apply take_app_len, len_wrap_header. Qed.

Lemma drop_wrap k m : drop 33 (wrap_header k ++ m) = m.
Proof. apply drop_app_len, len_wrap_header. Qed.

Lemma len_signature_of k id m : 34 <= len (signature_of k id m) <= 128.
Proof.
  unfold signature_of. rewrite !len_app, len_wrap_header.
  change (len [byte_of_Z (len id)]) with 1. unfold len. rewrite length_take. lia.
Qed.

Lemma ccm_case k n a p tl j :
  ccm_encrypt (Crypto := fixture_crypto) k n a p tl = Some j ->
  tl = 16 /\ len p <= SM4_CCM_MAX_PLAINTEXT_BYTES /\ j = mask n p ++ tag_of k n a p.
Proof.
  cbn. destruct (Z.eqb_spec tl 16); [|done]. cbn [andb].
  destruct (Z.leb_spec (len p) SM4_CCM_MAX_PLAINTEXT_BYTES); [|done]. by intros [= <-].
Qed.

Lemma ccm_open_case k n a j tl p :
  ccm_decrypt (Crypto := fixture_crypto) k n a j tl = Some p ->
  tl = 16 /\ len p <= SM4_CCM_MAX_PLAINTEXT_BYTES /\ j = mask n p ++ tag_of k n a p.
Proof.
  cbn. destruct (Z.eqb_spec tl 16); [|done]. cbn [andb].
  set (q := mask n (take _ j)).
  destruct (Z.leb_spec (len q) SM4_CCM_MAX_PLAINTEXT_BYTES); [|done]. cbn [andb].
  case_bool_decide; [|done]. by intros [= <-].
Qed.

Lemma ccm_parts k n a p c t :
  len t = 16 -> ccm_encrypt (Crypto := fixture_crypto) k n a p 16 = Some (c ++ t) -> c = mask n p /\ t = tag_of k n a p.
Proof.
  intros Ht (_ & _ & E)%ccm_case. pose proof (f_equal len E) as El.
  rewrite !len_app, len_tag_of in El. apply app_len_inj in E; [done|lia].
Qed.

Lemma ccm_other_tag k n a a' p :
  tag_of k n a p <> tag_of k n a' p ->
  ccm_decrypt (Crypto := fixture_crypto) k n a' (mask n p ++ tag_of k n a p) 16 = None.
Proof.
  intros Hn. destruct (ccm_decrypt _ _ _ _ _) as [q|] eqn:H; [|done].
  apply ccm_open_case in H as (_ & _ & E). destruct Hn.
  pose proof (f_equal len E) as El. rewrite !len_app, !len_tag_of in El.
  apply app_len_inj in E as [Em E]; [|lia].
  apply (f_equal (mask n)) in Em. rewrite !mask_invol in Em. by subst q.
Qed.

#[export] Instance fixture_crypto_laws : CryptoLaws fixture_crypto.
Proof.
  constructor; cbn -[ccm_encrypt ccm_decrypt tag_of signature_of pkcs7 unpad wrap_header take drop app].
  - intros sk m w c w' E. assert (c = wrap_header sk ++ m) as -> by congruence.
    rewrite take_wrap, drop_wrap. by rewrite bool_decide_true.
  - intros pk m w c w' E. assert (c = wrap_header pk ++ m) as -> by congruence.
    rewrite len_app, len_wrap_header. pose_len. lia.
  - intros sk id m w s w' E. assert (s = signature_of sk id m) as -> by congruence.
    pose proof (len_signature_of sk id m). lia.
  - intros sk id m w s w' [= <- _]. by rewrite bool_decide_true.
  - intros _ _ p. apply unpad_pkcs7.
  - intros _ _ p. pose proof (pad_len_range p) as H. unfold pkcs7.
    rewrite len_app, len_replicate, Z2Nat.id by lia. unfold pad_len. divlia.
  - intros k n a p c t [= <- <-]. rewrite mask_invol. by rewrite bool_decide_true.
  - intros k n a p c t [= <- <-]. by rewrite len_mask.
  - intros k n a c t p. case_bool_decide; [|done]. intros [= <-]. apply len_mask.
  - intros k n a p tl j H. apply ccm_case in H as (-> & Hp & ->).
    cbn -[tag_of mask app take length]. rewrite length_app. change (length (tag_of k n a p)) with 16%nat.
    rewrite Nat.add_sub, take_app_length, mask_invol, (proj2 (Z.leb_le _ _) Hp).
    by rewrite bool_decide_true.
  - intros k n a p tl j H. apply ccm_case in H as (-> & Hp & ->).
    by rewrite len_app, len_mask, len_tag_of.
  - intros k n a j tl p H. apply ccm_open_case in H as (-> & Hp & ->).
    by rewrite len_app, len_mask, len_tag_of.
Qed.

(** A signature fixes a short message and the signer's key. *)
Lemma signature_of_inj key id m key' id' m' :
  signature_of key id m = signature_of key' id' m' ->
  key_bytes key = key_bytes key' /\ take 94 m = take 94 m'.
Proof.
  unfold signature_of. intros E. apply app_len_inj in E as [Ek E]; [|by rewrite !len_wrap_header].
  split; [by apply wrap_header_inj|]. cbn [app] in E. by apply (f_equal tail) in E.
Qed.

Lemma signature_fixes_message key id m key' id' m' :
  (length m < 94)%nat -> signature_of key id m = signature_of key' id' m' -> m' = m.
Proof.
  intros Hl [_ E]%signature_of_inj. rewrite take_ge in E by lia.
  assert (length m' < 94)%nat.
  { apply (f_equal length) in E. rewrite length_take in E. lia. }
  rewrite take_ge in E by lia. done.
Qed.

(** The rejections hold too. *)
#[export] Instance fixture_rejection_laws : RejectionLaws fixture_base64 fixture_crypto.
Proof.
  constructor; cbn -[signature_of pkcs7 unpad wrap_header take drop app].
  - by vm_compute.
  - intros sk c m. case_bool_decide as E; [|done]. intros _. destruct c as [|b c]; [done|].
    apply (f_equal head) in E. exact E.
  - intros pk id m s. case_bool_decide as E; [|done]. intros _. subst s. split; [done|].
    pose proof (len_signature_of pk id m). lia.
  - intros sk sk' m w c w' E Hn. assert (c = wrap_header sk ++ m) as -> by congruence.
    rewrite take_wrap. rewrite bool_decide_false; [done|]. by intros ?%wrap_header_inj.
  - done.
  - intros _ _ c p. unfold unpad. destruct (last c) as [b|]; [|done].
    cbn -[pkcs7 take]. case_bool_decide as E; [|done]. by intros [= <-].
  - intros sk id m w s w' pk m' E Hl Hl'. assert (s = signature_of sk id m) as -> by congruence.
    intros H%bool_decide_eq_true. apply signature_of_inj in H as [Hk Hm].
    unfold len in *. rewrite !take_ge in Hm by lia. done.
  - intros sk id m w s b w' E. assert (s ++ [b] = signature_of sk id m) as Es by congruence.
    rewrite <- Es. apply bool_decide_eq_false. intros F%app_inv_head.
    injection F as F. by apply (xor_byte_ne b 1).
Qed.

#[export] Instance fixture_aead_rejection_laws : AeadTests.AeadRejectionLaws fixture_crypto.
Proof.
  constructor; cbn -[ccm_encrypt ccm_decrypt tag_of app mask].
  - intros k n a c t p. case_bool_decide as E; [|done]. intros [= <-].
    by rewrite mask_invol, <- E.
  - intros k n n' a a' p c t t' Hn Hn' Hp [= <- _] [= E _]. symmetry in E.
    unfold len in *. apply mask_inj in E; [done|lia|lia].
  - by intros k n a p c t [= _ <-].
  - intros k n x b b' y p c t Hb [= <- <-]. rewrite mask_invol.
    rewrite bool_decide_false; [done|]. intros E%tag_of_byte. by rewrite E in Hb.
  - intros k n a a' p c t Ha Ha' Hl [= <- <-]. rewrite mask_invol.
    rewrite bool_decide_false; [done|]. intros E%tag_of_len; [|done..]. by rewrite E in Hl.
  - intros k n a j p H. apply ccm_open_case in H as (_ & Hp & ->).
    cbn -[tag_of]. by rewrite (proj2 (Z.leb_le _ _) Hp).
  - intros k n n' a a' p c t t' Hn Hn' Hp Ht Ht' H H'.
    apply ccm_parts in H as [-> _], H' as [E _]; [|done..].
    unfold len in *. symmetry. apply (mask_inj n n' p); [lia|lia|done].
  - intros k n a p c t Ht H. by apply ccm_parts in H as [_ ->].
  - intros k n x b b' y p j Hb H. apply ccm_case in H as (_ & _ & ->).
    apply ccm_other_tag. intros E%tag_of_byte. by rewrite E in Hb.
  - intros k n a a' p j Ha Ha' Hl H. apply ccm_case in H as (_ & _ & ->).
    apply ccm_other_tag. intros E%tag_of_len; [|done..]. by rewrite E in Hl.
  - intros k n a p _ Hp. cbn -[tag_of mask app].
    by rewrite (proj2 (Z.leb_gt _ _) Hp).
Qed.

(** Key files: scalars of one significant byte, and the containers above. *)
Definition fixture_tooling : KeyTooling fixture_crypto := {|
  from_bytes_be scalar :=
    match last scalar with
    | Some b => if bool_decide (scalar = replicate 31 x00 ++ [b] /\ b <> x00)
                then Some (Byte.to_nat b) else None
    | None => None
    end : option (@Sm2PrivateKey _ fixture_crypto);
  pkcs8_encrypt key password _ _ _ :=
    if bool_decide (password = []) then None else Some (container_of key);
  spki_encode key := container_of key;
|}.

#[export] Instance fixture_tooling_laws : KeyToolingLaws fixture_crypto fixture_tooling.
Proof.
  constructor; cbn [from_bytes_be pkcs8_encrypt spki_encode pkcs8_decrypt spki_decode
    fixture_tooling fixture_crypto to_bytes_be].
  - intros b Hb. rewrite last_snoc, bool_decide_true by done. eexists. split; [done|].
    destruct b; done.
  - intros k p salt n iv Hp _ _ _. rewrite bool_decide_false by done. eauto.
  - intros k p salt n iv der. case_bool_decide as E; [done|]. intros [= <-].
    apply key_of_container.
  - intros k. apply key_of_container.
Qed.

(** ** The process environment *)

(** A process with the given arguments, whose paths are their own contents. *)
Definition fixture_process (args : list string) : Process := {|
  os_string := string;
  os_into_string s := Some (lit s);
  os_path s := s : path;
  args_os _ := args;
  env_var name _ :=
    if bool_decide (name = lit "SECURE_ENVELOPE_KEY_PASSWORD") then Some (lit "password") else None;
|}.

(** JSON text that is the name of one document. *)
Definition fixture_document (name : string) (d : ResponseDocument) : Json ResponseDocument := {|
  json_to_writer _ := None;
  json_from_slice bs := if bool_decide (bs = bytes_lit name) then Some d else None;
|}.

(** Its environments never run out of randomness. *)
#[export] Instance fixture_health : @Health fixture_system := fun _ => True.

Lemma fixture_available : available fixture_crypto.
Proof.
  constructor; cbn; eauto. intros k n a p _ _ Hp. rewrite (proj2 (Z.leb_le _ _) Hp). eauto.
Qed.
