(* ===== verification/Witnesses.v ===== *)
(** * The theorems at work

    A client and its counterpart, configured through the public builders, with the
    primitives of [Fixture.v]; each lemma applies one theorem of the development
    to them, every hypothesis discharged by evaluation. *)

From S2P Require Import Prelude.
From S2P Require Import Rust.
From S2P Require Import Text.
From S2P Require Import System.
From S2P Require Import Error.
From S2P Require Import Header.
From S2P Require Import Auth.
From S2P Require Import ClientConfig.
From S2P Require Import External.
From S2P Require Import Keys.
From S2P Require Import Calendar.
From S2P Require Import Message.
From S2P Require Import EnvelopeBase.
From S2P Require Import Cbc.
From S2P Require Import Aead.
From S2P Require Import Envelope.
From S2P Require Import Adapter.
From S2P Require Import HeaderAdapter.
From S2P Require Import Client.
From S2P Require Import Fixture.

#[local] Existing Instances fixture_system Arch64 fixture_base64 fixture_crypto.

(** Outcomes are compared through booleans, so that evaluation stays on data. *)
Definition yields {E A} `{EqDecision A} (m : result E A) (a : A) : bool :=
  match m with Ok x => bool_decide (x = a) | Err _ => false end.

Lemma yields_eq {E A} `{EqDecision A} (m : result E A) a : yields m a = true -> m = Ok a.
Proof. destruct m; cbn; [|done]. by intros ->%bool_decide_eq_true. Qed.

(** ** Two clients *)

Definition demo_domain : AuthenticationMode.t :=
  AuthenticationMode.ContextBound (bytes_lit "demo").

Definition demo_builder (local remote : string) (mode : AuthenticationMode.t)
    (envelope : EnvelopeMode.t) : ClientConfigBuilder.t :=
  let b := ClientConfigBuilder.default in
  let b := ClientConfigBuilder.local_identity_id b (lit local) in
  let b := ClientConfigBuilder.api_version b (lit "1") in
  let b := ClientConfigBuilder.local_certificate_id b (lit local) in
  let b := ClientConfigBuilder.expected_remote_signing_certificate_id b (lit remote) in
  let b := ClientConfigBuilder.remote_encryption_certificate_id b (lit remote) in
  let b := ClientConfigBuilder.local_signer_id b (bytes_lit local) in
  let b := ClientConfigBuilder.expected_remote_signer_id b (bytes_lit remote) in
  let b := ClientConfigBuilder.authentication_mode b mode in
  let b := ClientConfigBuilder.max_plaintext_bytes b 64 in
  let b := ClientConfigBuilder.envelope_mode b envelope in
  match envelope with
  | EnvelopeMode.LegacyCbc => ClientConfigBuilder.iv b (replicate 16 x07)
  | EnvelopeMode.Aead _ => b
  end.

Definition gcm : EnvelopeMode.t := EnvelopeMode.Aead AeadAlgorithm.Sm4Gcm.
Definition ccm : EnvelopeMode.t := EnvelopeMode.Aead AeadAlgorithm.Sm4Ccm.

Definition demo_config (local remote : string) (mode : AuthenticationMode.t)
    (envelope : EnvelopeMode.t) : ClientConfig.t :=
  match ClientConfigBuilder.build (demo_builder local remote mode envelope) with
  | Ok c => c
  | Err _ => ClientConfig.Build (ClientIdentity.Build [] [] [] [] []) [] [] mode [] envelope 0
  end.

Definition alice (envelope : EnvelopeMode.t) : ClientConfig.t :=
  demo_config "alice" "bob" demo_domain envelope.
Definition bob (envelope : EnvelopeMode.t) : ClientConfig.t :=
  demo_config "bob" "alice" demo_domain envelope.

Definition demo_keys (sign decrypt verify encrypt : nat) : KeyMaterial.t :=
  KeyMaterial.Build (Sys := fixture_system) (Cr := fixture_crypto)
    sign decrypt verify encrypt PeerKeySource.Spki PeerKeySource.Spki false.
Definition alice_keys : KeyMaterial.t := demo_keys 1 2 3 4.
Definition bob_keys : KeyMaterial.t := demo_keys 3 4 1 2.

Lemma demo_config_built l r m e :
  is_ok (ClientConfigBuilder.build (demo_builder l r m e)) = true ->
  ClientConfigBuilder.build (demo_builder l r m e) = Ok (demo_config l r m e).
Proof. unfold demo_config. by destruct (ClientConfigBuilder.build _). Qed.

Lemma demo_builder_typed l r m e : builder_typed (demo_builder l r m e).
Proof.
  split.
  - intros v. destruct e; cbn; [by intros [= <-]|done].
  - intros n. assert (ClientConfigBuilder.b_max_plaintext_bytes (demo_builder l r m e) = Some 64)
      as -> by (by destruct e). intros [= <-]. by vm_compute.
Qed.

Lemma alice_wf e : is_ok (ClientConfigBuilder.build (demo_builder "alice" "bob" demo_domain e))
  = true -> config_wf (alice e).
Proof. intros H. eapply build_wf; [apply demo_builder_typed|]. by apply demo_config_built. Qed.

Lemma bob_wf e : is_ok (ClientConfigBuilder.build (demo_builder "bob" "alice" demo_domain e))
  = true -> config_wf (bob e).
Proof. intros H. eapply build_wf; [apply demo_builder_typed|]. by apply demo_config_built. Qed.

Definition demo_context : AuthenticationContext.t := bound (bytes_lit "context").
Definition demo_plaintext : list byte := bytes_lit "attack at dawn".

(** The envelope Alice seals for Bob, from the first state of the environment. *)
Definition demo_sealed (e : EnvelopeMode.t) : Result SecureEnvelope.t * world :=
  seal (alice e) alice_keys demo_plaintext demo_context 0%nat.
Definition demo_envelope (e : EnvelopeMode.t) : SecureEnvelope.t :=
  match demo_sealed e with
  | (Ok env, _) => env
  | (Err _, _) => SecureEnvelope.Build [] [] []
  end.

Lemma demo_envelope_sealed e :
  is_ok (fst (demo_sealed e)) = true ->
  seal (alice e) alice_keys demo_plaintext demo_context 0%nat
  = (Ok (demo_envelope e), snd (demo_sealed e)).
Proof. unfold demo_envelope, demo_sealed. by destruct (seal _ _ _ _ _) as [[] ?]. Qed.

Lemma demo_counterpart e :
  e = EnvelopeMode.LegacyCbc \/ e = gcm \/ e = ccm ->
  counterpart (alice e) alice_keys (bob e) bob_keys.
Proof. intros [->|[->| ->]]; constructor; vm_compute; reflexivity. Qed.

(** [by_eval] closes a closed, decidable side condition. *)
Ltac by_eval :=
  lazymatch goal with
  | |- @eq (result _ _) _ (Ok _) => apply yields_eq; vm_compute; reflexivity
  | |- _ /\ _ => split; by_eval
  | _ => solve [vm_compute; reflexivity | vm_compute; intros [=] ]
  end.

(** ** The envelope *)

Lemma seal_open_round_trip_witness :
  Envelope.open (bob EnvelopeMode.LegacyCbc) bob_keys (demo_envelope EnvelopeMode.LegacyCbc)
    demo_context = Ok demo_plaintext /\
  Envelope.open (bob gcm) bob_keys (demo_envelope gcm) demo_context = Ok demo_plaintext /\
  Envelope.open (bob ccm) bob_keys (demo_envelope ccm) demo_context = Ok demo_plaintext.
Proof.
  split; [|split].
  - apply (seal_open_round_trip (alice EnvelopeMode.LegacyCbc) alice_keys _ _ _ _ 0%nat _
             (snd (demo_sealed EnvelopeMode.LegacyCbc))); [apply demo_counterpart; auto
      |apply bob_wf; by_eval|by_eval|apply demo_envelope_sealed; by_eval|by_eval].
  - apply (seal_open_round_trip (alice gcm) alice_keys _ _ _ _ 0%nat _ (snd (demo_sealed gcm)));
      [apply demo_counterpart; auto|apply bob_wf; by_eval|by_eval
      |apply demo_envelope_sealed; by_eval|by_eval].
  - apply (seal_open_round_trip (alice ccm) alice_keys _ _ _ _ 0%nat _ (snd (demo_sealed ccm)));
      [apply demo_counterpart; auto|apply bob_wf; by_eval|by_eval
      |apply demo_envelope_sealed; by_eval|by_eval].
Defined.

Lemma seal_succeeds_witness :
  exists e w', Envelope.seal (alice ccm) alice_keys demo_plaintext demo_context 5%nat = (Ok e, w')
    /\ healthy w'.
Proof.
  apply seal_succeeds;
    [apply fixture_available|exact I|apply alice_wf; by_eval|by_eval|by_eval|by_eval|discriminate].
Defined.

Lemma seal_limit_first_witness :
  Envelope.seal (alice gcm) alice_keys (replicate 65 x00) demo_context 3%nat
  = (Err (Error.MessageTooLarge 64), 3%nat).
Proof.
  exact (proj1 (seal_limit_first (alice gcm) alice_keys (replicate 65 x00) demo_context 3%nat)
    ltac:(by_eval)).
Defined.

Lemma demo_opens e :
  e = EnvelopeMode.LegacyCbc \/ e = gcm \/ e = ccm ->
  Envelope.open (bob e) bob_keys (demo_envelope e) demo_context = Ok demo_plaintext.
Proof. intros [->|[->| ->]]; by_eval. Qed.

Lemma open_authentic_witness :
  len demo_plaintext <= 64 /\
  exists sig, base64_decode (SecureEnvelope.signature (demo_envelope gcm)) = Some sig /\
    sm2_verify_with_id (Crypto := fixture_crypto) 1%nat (bytes_lit "alice")
      (transcript (bytes_lit "demo") (bytes_lit "context") demo_plaintext) sig = true.
Proof.
  destruct (open_authentic (bob gcm) bob_keys (demo_envelope gcm) demo_context demo_plaintext
    (demo_opens gcm ltac:(auto))) as (Hl & _ & sig & Hs & Hv).
  split; [exact Hl|]. exists sig. split; [exact Hs|exact Hv].
Defined.

Lemma open_no_context_replay_witness :
  (ClientConfig.authentication_mode (bob gcm), demo_context, demo_plaintext)
  ∈ [(demo_domain, demo_context, demo_plaintext)].
Proof.
  apply (open_no_context_replay [(demo_domain, demo_context, demo_plaintext)] (bob gcm) bob_keys
    (demo_envelope gcm)); [by_eval| | |apply demo_opens; auto].
  - intros m x q Hin. apply list_elem_of_singleton in Hin. injection Hin as -> -> ->. by_eval.
  - intros t sig Hs Hv. exists demo_domain, demo_context, demo_plaintext.
    split; [apply list_elem_of_singleton; reflexivity|].
    assert (E : base64_decode (SecureEnvelope.signature (demo_envelope gcm))
      = Some (signature_of 1 (bytes_lit "alice")
          (transcript (bytes_lit "demo") (bytes_lit "context") demo_plaintext))) by by_eval.
    rewrite E in Hs. injection Hs as <-. apply bool_decide_eq_true in Hv.
    apply signature_fixes_message in Hv as ->; [by_eval|vm_compute; lia].
Defined.

(** ** The payload modes *)

Lemma cbc_one_verification_witness :
  snd (Cbc.open (bob EnvelopeMode.LegacyCbc) bob_keys (demo_envelope EnvelopeMode.LegacyCbc)
         demo_context 0) = 1.
Proof.
  refine (proj1 (proj1 (Cbc.cbc_one_verification (bob EnvelopeMode.LegacyCbc) bob_keys
           (demo_envelope EnvelopeMode.LegacyCbc) demo_context 0 _) _)); [by_eval|].
  exists (pkcs7 demo_plaintext), (signature_of 1 (bytes_lit "alice")
    (transcript (bytes_lit "demo") (bytes_lit "context") demo_plaintext)),
    (replicate 16 x00), (wrap_header 4 ++ replicate 16 x00).
  split; [|split; by_eval].
  refine (conj _ (conj _ (conj _ (conj _ (conj _ (conj _ _)))))); by_eval.
Defined.

Lemma padded_cipher_len_exact_witness :
  Cbc.padded_cipher_len 64 = 80 /\ 80 < len (cbc_encrypt [] [] (replicate 80 x00)).
Proof.
  destruct (Cbc.padded_cipher_len_exact 64) as (E & _ & H); [by_eval|].
  split; [exact E|]. apply (H [] [] (replicate 80 x00)). by_eval.
Defined.

Lemma demo_gcm_sealed :
  Aead.seal (alice gcm) alice_keys demo_plaintext demo_context AeadAlgorithm.Sm4Gcm 0%nat
  = (Ok (demo_envelope gcm), snd (demo_sealed gcm)).
Proof.
  assert (H : is_ok (fst (demo_sealed gcm)) = true) by by_eval.
  by apply demo_envelope_sealed, seal_mode_Ok in H as [_ H].
Qed.

Lemma aead_frame_layout_witness :
  exists nonce ct tag,
    base64_decode (SecureEnvelope.cipher (demo_envelope gcm))
      = Some ([x01; x01] ++ nonce ++ ct ++ tag) /\
    nonce = replicate 12 x01 /\ len ct = 14 /\ len tag = 16.
Proof.
  destruct (Aead.aead_frame_layout _ _ _ _ _ _ _ _ demo_gcm_sealed)
    as (key & w1 & nonce & w2 & ct & tag & Hk & Hn & Hd & _ & Hc & Ht & _).
  exists nonce, ct, tag. split; [exact Hd|].
  injection Hk as _ <-. injection Hn as <- _. split; [by_eval|]. split; [exact Hc|exact Ht].
Defined.

Lemma aead_algorithm_pinned_witness :
  Aead.open (bob ccm) bob_keys (demo_envelope gcm) demo_context AeadAlgorithm.Sm4Ccm
  = Err Error.InvalidEnvelope.
Proof.
  rewrite (Aead.aead_algorithm_pinned (bob gcm) bob_keys (demo_envelope gcm) demo_context
    AeadAlgorithm.Sm4Gcm demo_plaintext); [|apply (demo_opens gcm); auto|discriminate].
  assert ((base64_len (saturating_add (ClientConfig.max_plaintext_bytes (bob ccm)) 30)
    <? str_len (SecureEnvelope.cipher (demo_envelope gcm))) = false) as -> by by_eval.
  reflexivity.
Defined.

(** ** Transcripts *)

Lemma authentication_input_injective_witness :
  demo_context = bound (bytes_lit "context") /\ demo_plaintext = bytes_lit "attack at dawn".
Proof.
  destruct (authentication_input_injective demo_domain demo_context demo_plaintext demo_domain
    (bound (bytes_lit "context")) (bytes_lit "attack at dawn")
    (transcript (bytes_lit "demo") (bytes_lit "context") demo_plaintext))
    as (_ & Ec & Ep); [by_eval..|]. split; [exact Ec|exact Ep].
Defined.

Lemma aead_aad_injective_witness :
  AuthenticationMode.aead_aad demo_domain demo_context (replicate 14 x01)
    = Ok (aad_of (replicate 14 x01) (bytes_lit "demo") (bytes_lit "context")) /\
  AuthenticationMode.authentication_input demo_domain demo_context demo_plaintext
    <> Ok (aad_of (replicate 14 x01) (bytes_lit "demo") (bytes_lit "context")).
Proof.
  split; [by_eval|].
  refine (proj2 (aead_aad_injective demo_domain demo_context (replicate 14 x01)
    demo_domain demo_context (replicate 14 x01) _ _ _ _ _) demo_domain demo_context
    demo_plaintext _); by_eval.
Defined.

(** ** Configuration *)

Lemma client_config_invariant_witness : config_wf (alice gcm).
Proof.
  apply (client_config_invariant (demo_builder "alice" "bob" demo_domain gcm));
    [apply demo_builder_typed|apply demo_config_built; by_eval].
Defined.

(** ** Headers *)

Definition demo_headers : HeaderCollection.t :=
  collection_of [(lit "X-One", lit "1"); (lit "X-Two", lit "2")].

Lemma demo_headers_wf : collection_wf demo_headers.
Proof. apply collection_of_wf. split; apply (bool_decide_unpack _); vm_compute; exact I. Qed.

Definition extra_headers : HeaderCollection.t := collection_of [(lit "Trace", lit "t")].

Lemma extra_headers_wf : collection_wf extra_headers.
Proof. apply collection_of_wf. split; apply (bool_decide_unpack _); vm_compute; exact I. Qed.

Lemma append_checked_atomic_witness :
  exists c, HeaderCollection.append_checked demo_headers extra_headers = (Ok tt, c) /\
    HeaderCollection.entries c
    = HeaderCollection.entries demo_headers ++ HeaderCollection.entries extra_headers.
Proof.
  destruct (HeaderCollection.append_checked demo_headers extra_headers) as [r c] eqn:E.
  destruct (append_checked_atomic demo_headers extra_headers r c
    (proj1 demo_headers_wf) (proj1 extra_headers_wf) E) as [[(-> & He & _)|[Hr _]] Hc].
  - exists c. split; [reflexivity|exact He].
  - specialize (Hc demo_headers_wf extra_headers_wf). rewrite decide_False in Hc.
    + subst r. destruct Hr as [Hr|Hr]; discriminate Hr.
    + apply (bool_decide_unpack _). vm_compute. exact I.
Defined.

Lemma insert_get_witness :
  exists c, HeaderCollection.insert demo_headers (lit "X-Three") (lit "3") = Ok c /\
    HeaderCollection.get c (lit "x-THREE") = Some (HeaderValue.Build (lit "3")) /\
    HeaderCollection.get c (lit "x-one") = HeaderCollection.get demo_headers (lit "x-one").
Proof.
  exists (collection_of [(lit "X-One", lit "1"); (lit "X-Two", lit "2"); (lit "X-Three", lit "3")]).
  assert (E : HeaderCollection.insert demo_headers (lit "X-Three") (lit "3")
    = Ok (collection_of [(lit "X-One", lit "1"); (lit "X-Two", lit "2"); (lit "X-Three", lit "3")]))
    by by_eval.
  split; [exact E|].
  rewrite (insert_get _ _ _ _ (lit "x-THREE") demo_headers_wf E).
  rewrite (insert_get _ _ _ _ (lit "x-one") demo_headers_wf E). split; reflexivity.
Defined.

Lemma built_collections_wf_witness :
  HeaderCollection.revalidate (collection_of [(lit "X-One", lit "1")]) = Ok tt.
Proof.
  apply built_collections_wf.
  apply (built_insert HeaderCollection.default (lit "X-One") (lit "1"));
    [apply built_default|by_eval].
Defined.

Lemma header_name_eq_ord_hash_witness :
  HeaderName.cmp (HeaderName.Build (lit "Host") (lit "host"))
    (HeaderName.Build (lit "HOST") (lit "host")) = Eq.
Proof.
  apply (header_name_eq_ord_hash (lit "Host") (lit "HOST") (lit "host") _ _
    (HeaderName.Build (lit "host") (lit "host"))); by_eval.
Defined.

(** ** Messages *)

Lemma format_utc_timestamp_faithful_witness :
  exists s, format_utc_timestamp {| dur_secs := 1700000000; dur_nanos := 5000 |} = Ok s /\
    length s = 26%nat.
Proof.
  destruct (format_utc_timestamp_faithful {| dur_secs := 1700000000; dur_nanos := 5000 |})
    as (s & E & _ & H); [split; by_eval|].
  exists s. split; [exact E|]. apply H. by_eval.
Defined.

Definition demo_metadata : RequestMetadata.t :=
  RequestMetadata.Build (lit "req-1") (lit "2024-01-01 00:00:00.000000").

Definition demo_request_context : RequestContext.t :=
  RequestContext.Build (ProtocolRequestContext.Build (lit "transfer") demo_metadata)
    extra_headers.

Lemma request_context_build_spec_witness :
  RequestContextBuilder.build
    (RequestContextBuilder.metadata (RequestContextBuilder.new (lit "transfer")) demo_metadata)
    4%nat
  = (Ok (RequestContext.Build (ProtocolRequestContext.Build (lit "transfer") demo_metadata)
           HeaderCollection.default), 4%nat).
Proof.
  rewrite request_context_build_spec; [|apply cb_metadata, cb_new].
  cbn [RequestContextBuilder.metadata_ RequestContextBuilder.metadata
       RequestContextBuilder.operation RequestContextBuilder.new
       RequestContextBuilder.additional_headers].
  rewrite decide_True; [reflexivity|]. apply (bool_decide_unpack _). vm_compute. exact I.
Defined.

Lemma generate_spec_witness :
  length (RequestMetadata.hex_id (replicate 16 x05)) = 32%nat /\
  exists m, RequestMetadata.generate 5%nat = (Ok m, 6%nat).
Proof.
  destruct (generate_spec (Sys := fixture_system) 5%nat) as [E H]. split.
  - apply (H (replicate 16 x05) 6%nat). reflexivity.
  - rewrite E. eexists. reflexivity.
Defined.

(** ** Adapter and client *)

Definition demo_schema_builder : HeaderSchemaBuilder.t :=
  let b := HeaderSchemaBuilder.default in
  let b := HeaderSchemaBuilder.static_request_header b (lit "Content-Type") (lit "text/plain") in
  let b := HeaderSchemaBuilder.local_identity_header b (lit "X-Id") in
  let b := HeaderSchemaBuilder.operation_header b (lit "X-Op") in
  let b := HeaderSchemaBuilder.request_id_header b (lit "X-Request") in
  let b := HeaderSchemaBuilder.request_time_header b (lit "X-Time") in
  let b := HeaderSchemaBuilder.api_version_header b (lit "X-Version") in
  let b := HeaderSchemaBuilder.local_certificate_header b (lit "X-Cert") in
  let b := HeaderSchemaBuilder.remote_signing_certificate_header b (lit "X-Remote-Sign") in
  let b := HeaderSchemaBuilder.remote_encryption_certificate_header b (lit "X-Remote-Enc") in
  let b := HeaderSchemaBuilder.request_signature_header b (lit "X-Sig") in
  let b := HeaderSchemaBuilder.request_wrapped_key_header b (lit "X-Key") in
  let b := HeaderSchemaBuilder.request_cipher b CipherLocation.Body in
  let b := HeaderSchemaBuilder.response_signature_header b (lit "X-Sig") in
  let b := HeaderSchemaBuilder.response_wrapped_key_header b (lit "X-Key") in
  let b := HeaderSchemaBuilder.response_remote_signing_certificate_header b (lit "X-Cert") in
  let b := HeaderSchemaBuilder.response_cipher b
             (CipherLocation.Header (HeaderName.Build (lit "X-Cipher") (lit "x-cipher"))) in
  HeaderSchemaBuilder.context_bound_authentication b.

Definition demo_schema : HeaderSchema.t :=
  match HeaderSchemaBuilder.build demo_schema_builder with
  | Ok s => s
  | Err _ =>
      let n := HeaderName.Build [] [] in
      HeaderSchema.Build [] n n n n n n n n n n CipherLocation.Body n n n CipherLocation.Body
        HeaderAuthentication.Legacy
  end.

Lemma demo_schema_wf : schema_wf demo_schema.
Proof.
  assert (H : is_ok (HeaderSchemaBuilder.build demo_schema_builder) = true) by by_eval.
  apply (schema_build_Ok demo_schema_builder). unfold demo_schema.
  by destruct (HeaderSchemaBuilder.build demo_schema_builder).
Qed.

Lemma demo_request_location : location_wf (HeaderSchema.request_cipher demo_schema).
Proof.
  assert (HeaderSchema.cipher_header (HeaderSchema.request_cipher demo_schema) = []) as E
    by by_eval. unfold location_wf. rewrite E. constructor.
Qed.

Lemma demo_response_location : location_wf (HeaderSchema.response_cipher demo_schema).
Proof.
  assert (HeaderSchema.cipher_header (HeaderSchema.response_cipher demo_schema)
    = [HeaderName.Build (lit "X-Cipher") (lit "x-cipher")]) as E by by_eval.
  unfold location_wf. rewrite E. constructor; [|constructor].
  apply (header_name_new_wf (lit "X-Cipher")). by_eval.
Qed.

Definition demo_client : SecureClient.t :=
  SecureClient.Build (alice gcm) alice_keys
    (HeaderProtocolAdapter.as_adapter (HeaderProtocolAdapter.new demo_schema)).

Definition demo_parts : RequestParts.t :=
  match fst (SecureClient.build_request demo_client demo_plaintext demo_request_context 0%nat) with
  | Ok p => p
  | Err _ => RequestParts.Build HeaderCollection.default []
  end.

Lemma demo_parts_built :
  SecureClient.build_request demo_client demo_plaintext demo_request_context 0%nat
  = (Ok demo_parts,
     snd (SecureClient.build_request demo_client demo_plaintext demo_request_context 0%nat)).
Proof.
  assert (H : is_ok (fst (SecureClient.build_request demo_client demo_plaintext
    demo_request_context 0%nat)) = true) by by_eval.
  unfold demo_parts. by destruct (SecureClient.build_request _ _ _ _) as [[] ?].
Qed.

Lemma request_end_to_end_witness :
  exists e ctx, read_envelope demo_schema demo_parts = Some e /\
    read_context demo_schema demo_parts = Some ctx /\
    Envelope.open (bob gcm) bob_keys e ctx = Ok demo_plaintext.
Proof.
  destruct (request_end_to_end demo_schema demo_client (bob gcm) bob_keys demo_plaintext
    demo_request_context 0%nat demo_parts
    (snd (SecureClient.build_request demo_client demo_plaintext demo_request_context 0%nat)))
    as (e & ctx & He & Hc & Ho);
    [apply demo_schema_wf|apply demo_request_location|reflexivity|apply extra_headers_wf
    |apply demo_counterpart; auto|apply bob_wf; by_eval|by_eval|apply demo_parts_built|].
  exists e, ctx. split; [exact He|]. split; [exact Hc|]. apply Ho.
  assert (B : match read_envelope demo_schema demo_parts with
    | Some e => (str_len (SecureEnvelope.cipher e) <=? usize_max)%Z | None => false end = true)
    by (vm_compute; reflexivity).
  rewrite He in B. apply Z.leb_le, B.
Defined.

Lemma client_build_request_spec_witness :
  is_ok (fst (SecureClient.build_request demo_client demo_plaintext demo_request_context 0%nat))
    = true /\
  RequestParts.header (RequestParts.Build (HeaderCollection.Build
    (HeaderCollection.entries (RequestParts.headers demo_parts) ++
     [(HeaderName.Build (lit "X-Op") (lit "x-op"), HeaderValue.Build (lit "other"))]))
    (RequestParts.body demo_parts)) (lit "x-op") = Some (lit "transfer").
Proof.
  destruct (client_build_request_spec demo_client demo_plaintext demo_request_context 0%nat
    (header_adapter_laws demo_schema) extra_headers_wf) as [H K].
  split; [rewrite H; by_eval|apply K; by_eval].
Defined.

(** Bob's response to request [req-1]. *)
Definition response_ctx : AuthenticationContext.t := bound (response_context_bytes (lit "req-1")).
Definition bob_sealed : Result SecureEnvelope.t * world :=
  Envelope.seal (bob gcm) bob_keys demo_plaintext response_ctx 0%nat.
Definition bob_envelope : SecureEnvelope.t :=
  match bob_sealed with (Ok e, _) => e | (Err _, _) => SecureEnvelope.Build [] [] [] end.

Lemma bob_envelope_sealed :
  Envelope.seal (bob gcm) bob_keys demo_plaintext response_ctx 0%nat
  = (Ok bob_envelope, snd bob_sealed).
Proof.
  assert (H : is_ok (fst bob_sealed) = true) by by_eval.
  unfold bob_envelope, bob_sealed in *. by destruct (Envelope.seal _ _ _ _ _) as [[] ?].
Qed.

Definition demo_response : list (str * str) :=
  [(lit "server", lit "x"); (lit "x-cipher", SecureEnvelope.cipher bob_envelope);
   (lit "X-KEY", SecureEnvelope.wrapped_session_key bob_envelope); (lit "x-cert", lit "bob");
   (lit "X-Request", lit "req-1"); (lit "x-sig", SecureEnvelope.signature bob_envelope)].

Lemma demo_carries :
  response_carries demo_schema bob_envelope (lit "bob") (lit "req-1") demo_response [].
Proof.
  constructor; try by_eval.
  intros _. split; [by_eval|]. apply (bool_decide_unpack _). vm_compute. exact I.
Qed.

#[local] Instance text_json : Json (list byte) := {|
  json_to_writer v := Some v; json_from_slice bs := Some bs |}.

Lemma response_end_to_end_witness :
  SecureClient.open_response demo_client (ResponseParts.new demo_response []) = Ok demo_plaintext /\
  SecureClient.open_json_response demo_client (ResponseParts.new demo_response [])
  = Ok demo_plaintext.
Proof.
  enough (SecureClient.open_response demo_client (ResponseParts.new demo_response [])
      = Ok demo_plaintext /\
    (json_from_slice demo_plaintext = Some demo_plaintext ->
     SecureClient.open_json_response demo_client (ResponseParts.new demo_response [])
     = Ok demo_plaintext)) as [H J] by (split; [exact H|apply J; reflexivity]).
  apply (response_end_to_end demo_schema demo_client (bob gcm) bob_keys demo_plaintext
    (lit "req-1") response_ctx 0%nat bob_envelope (snd bob_sealed)).
  - apply demo_schema_wf.
  - apply demo_response_location.
  - reflexivity.
  - constructor; vm_compute; reflexivity.
  - apply alice_wf. by_eval.
  - by_eval.
  - by_eval.
  - apply bob_envelope_sealed.
  - by_eval.
  - apply (bool_decide_unpack _). vm_compute. exact I.
  - apply (bool_decide_unpack _). vm_compute. exact I.
  - apply demo_carries.
Defined.

Lemma client_open_response_authentic_witness :
  exists parsed,
    Adapter.parse_response (SecureClient.adapter demo_client) (ResponseParts.new demo_response [])
      = Ok parsed /\
    ParsedResponse.remote_signing_certificate_id parsed = lit "bob" /\
    signature_covers (alice gcm) alice_keys (ParsedResponse.authentication_context parsed)
      (ParsedResponse.envelope parsed) demo_plaintext.
Proof.
  destruct (proj1 (client_open_response_authentic demo_client (ResponseParts.new demo_response []))
    demo_plaintext ltac:(by_eval)) as (parsed & Hp & Hc & _ & Hs).
  exists parsed. split; [exact Hp|]. split; [|exact Hs]. rewrite Hc. by_eval.
Defined.

Definition demo_base : result AdapterError.t RequestParts.t :=
  HeaderProtocolAdapter.build_request (HeaderProtocolAdapter.new demo_schema)
    (ClientConfig.identity (alice gcm)) (RequestContext.protocol demo_request_context)
    (demo_envelope gcm).

Lemma build_request_spec_witness :
  exists p, demo_base = Ok p /\
    RequestParts.header p (lit "x-SIG") = Some (SecureEnvelope.signature (demo_envelope gcm)) /\
    Forall valid_value (request_values demo_schema (ClientConfig.identity (alice gcm))
      (RequestContext.protocol demo_request_context) (demo_envelope gcm)).
Proof.
  destruct (build_request_spec demo_schema (ClientConfig.identity (alice gcm))
    (RequestContext.protocol demo_request_context) (demo_envelope gcm) demo_schema_wf
    demo_request_location) as (H1 & H2 & _).
  assert (E : is_ok demo_base = true) by by_eval.
  pose proof (proj1 H1 E) as [_ Hv].
  destruct demo_base as [p|] eqn:Hp; [|done]. exists p. split; [done|]. split; [|exact Hv].
  apply (rs_signature _ _ _ _ _ (H2 p Hp)). by_eval.
Defined.

Lemma parse_response_spec_witness :
  HeaderProtocolAdapter.parse_response (HeaderProtocolAdapter.new demo_schema)
    (ResponseParts.new ((lit "X-SIG", lit "again") :: demo_response) [])
  = Err (AdapterError.new AdapterErrorKind.DuplicateField).
Proof.
  apply (proj1 (proj2 (parse_response_spec demo_schema
    ((lit "X-SIG", lit "again") :: demo_response) [] demo_schema_wf demo_response_location))
    (HeaderSchema.response_signature_header demo_schema)); [left|by_eval].
Defined.

Lemma parse_response_order_irrelevant_witness :
  HeaderProtocolAdapter.parse_response (HeaderProtocolAdapter.new demo_schema)
    (ResponseParts.new (reverse demo_response) [])
  = HeaderProtocolAdapter.parse_response (HeaderProtocolAdapter.new demo_schema)
      (ResponseParts.new demo_response []).
Proof.
  destruct (parse_response_order_irrelevant demo_schema (reverse demo_response) demo_response
    [] demo_schema_wf demo_response_location) as (H & P & _).
  apply H. intros h _. apply P. apply reverse_Permutation.
Defined.

(** Both halves at Alice's configuration. *)
Lemma unusable_identities_accepted_witness :
  (exists c1, ClientConfigBuilder.build
     (ClientConfigBuilder.expected_remote_signing_certificate_id
        (demo_builder "alice" "bob" demo_domain gcm) (lit "bob ")) = Ok c1 /\
   forall k r p, SecureClient.open_response (SecureClient.Build c1 k
     (HeaderProtocolAdapter.as_adapter (HeaderProtocolAdapter.new demo_schema))) r <> Ok p) /\
  (exists c2, ClientConfigBuilder.build
     (ClientConfigBuilder.local_identity_id (demo_builder "alice" "bob" demo_domain gcm)
        (lit "alice" ++ [char_of_Z 1])) = Ok c2 /\
   forall parts' w', SecureClient.build_request (SecureClient.Build c2 alice_keys
     (HeaderProtocolAdapter.as_adapter (HeaderProtocolAdapter.new demo_schema)))
     demo_plaintext demo_request_context 0%nat <> (Ok parts', w')).
Proof.
  destruct (unusable_identities_accepted demo_schema (demo_builder "alice" "bob" demo_domain gcm)
    (alice gcm) demo_schema_wf demo_request_location
    ltac:(apply demo_config_built; by_eval)) as ((c1 & H1 & _ & R1) & (c2 & H2 & _ & R2)).
  split; [exists c1; split; [exact H1|exact R1]|].
  exists c2. split; [exact H2|]. intros parts' w'. apply R2. exact extra_headers_wf.
Defined.

(** A schema and a configuration that agree, and a pair that does not. *)
Lemma client_new_pin_check_witness :
  is_ok (SecureClient.new (alice gcm) alice_keys
    (HeaderProtocolAdapter.as_adapter (HeaderProtocolAdapter.new demo_schema))) = true /\
  SecureClient.new (demo_config "alice" "bob" AuthenticationMode.LegacyPlaintext gcm) alice_keys
    (HeaderProtocolAdapter.as_adapter (HeaderProtocolAdapter.new demo_schema))
  = Err Error.AuthenticationContext.
Proof.
  split.
  - destruct (client_new_pin_check demo_schema (alice gcm) alice_keys) as [H _];
      [apply alice_wf; by_eval|]. by rewrite (proj1 (H ltac:(by_eval))).
  - destruct (client_new_pin_check demo_schema
      (demo_config "alice" "bob" AuthenticationMode.LegacyPlaintext gcm) alice_keys) as [_ H].
    { eapply build_wf; [apply demo_builder_typed|]. apply demo_config_built. by_eval. }
    apply H. by_eval.
Defined.

