(* ===== verification/WitnessesPrograms.v ===== *)
(** * The harness and the examples at work

    Concrete fuzz inputs, and the two example programs run by a client and its
    counterpart, with the primitives of [Fixture.v]. *)

From S2P Require Import Prelude.
From S2P Require Import Rust.
From S2P Require Import Text.
From S2P Require Import Parsing.
From S2P Require Import System.
From S2P Require Import Error.
From S2P Require Import Header.
From S2P Require Import Auth.
From S2P Require Import ClientConfig.
From S2P Require Import External.
From S2P Require Import Keys.
From S2P Require Import Message.
From S2P Require Import EnvelopeBase.
From S2P Require Import Envelope.
From S2P Require Import Adapter.
From S2P Require Import HeaderAdapter.
From S2P Require Import Client.
From S2P Require Import Example.
From S2P Require Import ExamplePrograms.
From S2P Require Import FuzzInput.
From S2P Require Import FuzzHarness.
From S2P Require Import Fuzz.
From S2P Require Import FuzzTargets.
From S2P Require Import TestSupport.
From S2P Require Import CbcTests.
From S2P Require Import AeadTests.
From S2P Require Import Fixture.
From S2P Require Import Witnesses.

#[local] Existing Instances fixture_system Arch64 fixture_base64 fixture_crypto fixture_tooling.

Definition start : @world fixture_system := 0%nat.

(** ** Fuzz inputs *)

Lemma valid_selection_opens_witness :
  exists c r s' w',
    cell_client GcmCell = Ok c /\
    cell_parts GcmCell FULL_VALID (no_statics, start) = (Ok r, (s', w')) /\
    SecureClient.open_response c r = Ok VALID_PLAINTEXT.
Proof.
  destruct (valid_selection_opens GcmCell FULL_VALID no_statics start fixture_available I
    statics_ok_initial) as (c & r & s' & w' & Hc & Hr & H & _); [vm_compute; lia|reflexivity|].
  exists c, r, s', w'. split; [exact Hc|]. split; [exact Hr|]. apply H, full_valid_claim.
Defined.

Lemma boundary_values_exact_witness :
  exists c r s' w',
    cell_client LegacyCell = Ok c /\
    cell_parts LegacyCell (bytes_lit "vvb002") (no_statics, start) = (Ok r, (s', w')) /\
    SecureClient.open_response c r = Err (Error.MessageTooLarge MAX_PLAINTEXT_BYTES).
Proof.
  destruct (boundary_values_exact LegacyCell x76 x76 x62 x30 x30 x32 [] no_statics start)
    as (c & r & s' & w' & Hc & Hr & _ & H & _);
    [exact fixture_available|exact I|exact statics_ok_initial|by left|by left|by right|reflexivity|].
  exists c, r, s', w'. split; [exact Hc|]. split; [exact Hr|]. apply H. split; reflexivity.
Defined.

(** A short message is fixed by its fixture signature. *)
Lemma fixture_excludes c t d ctx :
  (length t < 94)%nat -> (forall q, transcript d ctx q <> t) -> signature_excludes c t d ctx.
Proof.
  intros Hl Hn sig w w' q [= <- _]. apply bool_decide_eq_false. intros E.
  by apply signature_fixes_message, Hn in E.
Qed.

(** A context-bound input with an appended context byte. *)
Definition context_input : list byte := bytes_lit "M00000|5:hello|9:operation|".

Lemma context_input_admissible : context_admissible context_input.
Proof.
  split; [by vm_compute|]. intros _ c _. apply fixture_excludes; [vm_compute; lia|].
  intros q E. apply (f_equal (fun l => l !! 40%nat)) in E. by vm_compute in E.
Qed.

Lemma context_target_sound_witness :
  exists w', context_outcome context_input (no_statics, start)
    = (Ok (context_reached context_input), (no_statics, w')) /\
    context_envelope_target context_input (no_statics, start) = (Ok tt, (no_statics, w')).
Proof.
  exact (context_target_sound context_input no_statics start fixture_available I
    context_input_admissible).
Defined.

Definition demo_campaign : list (target * list byte) :=
  [(TransportParts, bytes_lit "d00000"); (EnvelopeOf LegacyCell, FULL_VALID);
   (ContextEnvelope, context_input); (EnvelopeOf LegacyCell, bytes_lit "mbr012|3:abc|0:|");
   (EnvelopeOf CcmCell, FULL_VALID); (TypedHeaders, bytes_lit "v")].

Lemma campaign_never_panics_witness :
  exists s' w', campaign demo_campaign (no_statics, start) = (Ok tt, (s', w')) /\
    statics_ok s'.
Proof.
  destruct (campaign_never_panics demo_campaign no_statics start fixture_available I
    statics_ok_initial) as (s' & w' & H & Hs & _).
  - unfold demo_campaign. rewrite !Forall_cons, Forall_nil.
    repeat first [exact I | (intros _; exact context_input_admissible) | intros [=] | split].
  - exists s', w'. split; [exact H|exact Hs].
Defined.

(** ** The example programs *)

(** The counterpart of an example client. *)
Definition example_peer (c : ClientConfig.t) : ClientConfig.t :=
  ClientConfig.Build (ClientConfig.identity c) (bytes_lit "demo-remote-signer")
    (bytes_lit "demo-local-signer") (ClientConfig.authentication_mode c) (ClientConfig.iv c)
    (ClientConfig.envelope_mode c) (ClientConfig.max_plaintext_bytes c).

Definition program_keys : KeyMaterial.t := demo_keys 97 98 99 100.
Definition peer_keys : KeyMaterial.t := demo_keys 99 100 97 98.

Definition example_self : SecureClient.t :=
  match example_client program_keys with
  | Ok self => self
  | Err _ => SecureClient.Build (alice gcm) program_keys ExampleContextAdapter.as_adapter
  end.

Lemma example_self_Ok : example_client program_keys = Ok example_self.
Proof.
  unfold example_self. by destruct (example_client_Ok program_keys) as (self & -> & _).
Qed.

Lemma example_peers :
  counterpart (SecureClient.config example_self) (SecureClient.keys example_self)
    (example_peer (SecureClient.config example_self)) peer_keys /\
  counterpart (example_peer (SecureClient.config example_self)) peer_keys
    (SecureClient.config example_self) (SecureClient.keys example_self).
Proof. split; constructor; vm_compute; reflexivity. Qed.

Lemma example_peer_wf : config_wf (example_peer (SecureClient.config example_self)).
Proof.
  destruct (example_client_inv _ _ example_self_Ok) as (_ & _ & []).
  destruct ec_wf as (H1 & _ & _ & H4). refine (conj H1 (conj _ (conj _ H4))); split; by_eval.
Qed.

(** A step of the environment that is known to succeed. *)
Lemma io_ok {W E A} (m : io W E A) w :
  is_ok (fst (m w)) = true -> exists a w', m w = (Ok a, w').
Proof. destruct (m w) as [[a|] w']; [eauto|done]. Qed.

Lemma example_request_end_to_end_witness :
  exists parts w' e ctx,
    SecureClient.build_request example_self demo_plaintext demo_request_context start
      = (Ok parts, w') /\
    peer_envelope parts = Some e /\ peer_context parts = Some ctx /\
    (representable e ->
     Envelope.open (example_peer (SecureClient.config example_self)) peer_keys e ctx
     = Ok demo_plaintext).
Proof.
  destruct (io_ok (SecureClient.build_request example_self demo_plaintext demo_request_context)
    start) as (parts & w' & H); [vm_compute; reflexivity|].
  destruct (example_request_end_to_end program_keys example_self
    (example_peer (SecureClient.config example_self)) peer_keys demo_plaintext
    demo_request_context start parts w' example_self_Ok) as (e & ctx & He & Hc & Ho);
    [apply (bool_decide_unpack _); vm_compute; exact I|exact (proj1 example_peers)
    |exact example_peer_wf|by_eval|exact H|].
  exists parts, w', e, ctx. split; [exact H|]. split; [exact He|]. split; [exact Hc|exact Ho].
Defined.

(** The response the counterpart seals, with a duplicate header that is ignored. *)
Definition peer_sealed : Result SecureEnvelope.t * world :=
  Envelope.seal (example_peer (SecureClient.config example_self)) peer_keys demo_plaintext
    (response_bound (lit "req-1")) start.
Definition peer_envelope_sent : SecureEnvelope.t :=
  match fst peer_sealed with Ok e => e | Err _ => SecureEnvelope.Build [] [] [] end.

Lemma peer_sealed_Ok :
  Envelope.seal (example_peer (SecureClient.config example_self)) peer_keys demo_plaintext
    (response_bound (lit "req-1")) start = (Ok peer_envelope_sent, snd peer_sealed).
Proof.
  unfold peer_envelope_sent, peer_sealed.
  destruct (io_ok (Envelope.seal (example_peer (SecureClient.config example_self)) peer_keys
    demo_plaintext (response_bound (lit "req-1"))) start) as (e & w' & ->);
    [vm_compute; reflexivity|done].
Qed.

Definition peer_document : ResponseDocument := {|
  ExamplePrograms.headers :=
    [(lit "x-envelope-request-id", lit "req-1"); (lit "X-Envelope-Request-Id", lit "req-2");
     (lit "X-Envelope-Response-Signature", SecureEnvelope.signature peer_envelope_sent);
     (lit "X-Envelope-Response-Wrapped-Key",
      SecureEnvelope.wrapped_session_key peer_envelope_sent);
     (lit "X-Envelope-Response-Remote-Signing-Certificate", example_certificate)];
  ExamplePrograms.body := SecureEnvelope.cipher peer_envelope_sent;
|}.
Definition peer_response : ResponseParts.t :=
  ResponseParts.new (ExamplePrograms.headers peer_document) (ExamplePrograms.body peer_document).

Lemma example_response_end_to_end_witness :
  SecureClient.open_response example_self peer_response = Ok demo_plaintext /\
  forall r' rid', response_read r' peer_envelope_sent example_certificate rid' ->
    rid' <> lit "req-1" -> is_ok (SecureClient.open_response example_self r') = false.
Proof.
  destruct (example_response_end_to_end program_keys example_self
    (example_peer (SecureClient.config example_self)) peer_keys demo_plaintext (lit "req-1")
    peer_envelope_sent start (snd peer_sealed) peer_response example_self_Ok (proj2 example_peers))
    as (Ho & _ & Hb); [by_eval|exact peer_sealed_Ok|by_eval|constructor; reflexivity|].
  split; [exact Ho|]. apply Hb. intros t sig Hs Hv. apply bool_decide_eq_true in Hv.
  assert (sig = signature_of 99 (bytes_lit "demo-remote-signer")
    (transcript example_domain (context_of (response_bound (lit "req-1"))) demo_plaintext)) as ->.
  { assert (base64_decode (SecureEnvelope.signature peer_envelope_sent) =
      Some (signature_of 99 (bytes_lit "demo-remote-signer")
        (transcript example_domain (context_of (response_bound (lit "req-1"))) demo_plaintext)))
      as E by (vm_compute; reflexivity). congruence. }
  apply signature_fixes_message in Hv as ->; [by_eval|vm_compute; lia].
Defined.

Definition open_arguments : list string :=
  ["open_response"; "response.json"; "0a"; "0b"; "0c"; "0d"]%string.

(** The program prints 14 bytes, and its document authenticates the opened ones. *)
Lemma open_main_prints_authentic_witness :
  fst (open_response_main (Pr := fixture_process open_arguments)
         (Json0 := fixture_document "response.json" peer_document) start)
    = Ok [lit "verified bytes: 14"] /\
  exists key, PublicKey.from_file "0c"%string start = Ok key /\
    document_authentic (PublicKey.inner key) peer_document demo_plaintext.
Proof.
  split; [by_eval|].
  destruct (open_main_prints_authentic (Pr := fixture_process open_arguments)
    (Json0 := fixture_document "response.json" peer_document) start
    "open_response"%string _ eq_refl) as [_ H].
  destruct (H "response.json" "0a" "0b" "0c" "0d" eq_refl)%string as (r & _ & _ & Ha).
  apply (Ha example_self peer_document demo_plaintext); [reflexivity|by_eval].
Defined.

Definition build_arguments : list string :=
  ["build_request"; "payload.bin"; "transfer"; "0a"; "0b"; "0c"; "0d"]%string.

Lemma build_main_report_witness :
  exists w', build_request_main (Pr := fixture_process build_arguments) start
    = (Ok (report_of 56), w').
Proof.
  refine (build_main_report (Pr := fixture_process build_arguments) start "build_request"%string
    "payload.bin"%string "transfer"%string "0a"%string "0b"%string "0c"%string "0d"%string
    (lit "transfer") example_self (bytes_lit "payload.bin") _ _ _ _ _ _ _ _ _ _ I).
  - reflexivity.
  - reflexivity.
  - apply (bool_decide_unpack _). vm_compute. exact I.
  - apply (bool_decide_unpack _). vm_compute. exact I.
  - reflexivity.
  - reflexivity.
  - by_eval.
  - by_eval.
  - exact fixture_available.
  - intros w t w' _ [= <- _]. split; [eexists; reflexivity|exact I].
Defined.

(** ** The test suites *)

Lemma envelope_suite_passes_witness :
  (exists s, CbcTests.open_runs_exactly_one_verification_on_every_post_unwrap_path (7, start)
     = (Ok tt, s)) /\
  (exists s, AeadTests.ccm_and_gcm_clients_reject_each_other_s_envelopes (7, start)
     = (Ok tt, s)).
Proof.
  pose proof (envelope_suite_passes fixture_available) as H. rewrite Forall_forall in H.
  assert (H18 : CbcTests.open_runs_exactly_one_verification_on_every_post_unwrap_path
    ∈ envelope_suite) by (by apply (list_elem_of_lookup_2 _ 18)).
  assert (H48 : AeadTests.ccm_and_gcm_clients_reject_each_other_s_envelopes
    ∈ envelope_suite) by (by apply (list_elem_of_lookup_2 _ 48)).
  destruct (H _ H18 (7, start) I) as ([] & s & E & _).
  destruct (H _ H48 (7, start) I) as ([] & s' & E' & _).
  split; [exists s; exact E|exists s'; exact E'].
Defined.
